(* ===== verification/_CoqProject ===== *)
-Q . S2P
Prelude.v
Text.v
Backoff.v
Layout.v
Bpf.v
Vmlinux.v
Ratelimit.v
RatelimitSmp.v
Limited.v
PerfReader.v
Symbol.v
Containers.v
Parseutil.v
CgroupFs.v
CgroupV1.v
CgroupV2.v
Cgroups.v
CgroupPath.v
Usym.v
Dload.v
Cpuidle.v
Gauge.v
Filter.v
CpuUtil.v
CpuStat.v
Memburst.v
Tracing.v
Task.v
NetdevEvents.v
Flamegraph.v
Net.v
Netrecvlat.v
Dropwatch.v
NetCollect.v
Cgroup.v
Pods.v
Counters.v
PerfData.v
Notify.v
FuncTrace.v
FreeCompactSmp.v
Runqlat.v
Softirq.v
Collectors.v
MemMetrics.v
ProcMetrics.v
Metric.v
Schema.v
SoftirqTracing.v
EventLoops.v
