(* ===== verification/Prelude.v ===== *)
(** * HUATUO: the kernel tracing programs and what their collectors read

    HUATUO observes a Linux host with BPF programs (src/bpf) that run inside
    the kernel at tracepoints and kprobes, keep counters in BPF maps and submit
    records to perf buffers, and with an agent in Go (src/core, src/internal,
    src/pkg) that loads the programs, decodes the records, exports metrics,
    watches containers for load, CPU and memory bursts, and runs tracers and
    tasks on request.  This library models the BPF programs completely, with
    the kernel structures they read, and the parts of the agent that decode
    records, keep state or decide.

    ** How a program is modelled

    A program is a function in the state monad [M S A] of Bpf.v: [S] is a record
    with the maps and globals of its object file, the environment [kenv] of one
    invocation gives what the helpers return (clock readings, current task, CPU,
    name, stack) and the readable kernel memory with the CO-RE field offsets,
    and the world collects the submitted records.  Helpers follow their
    documented behaviour: a hash map refuses an insertion when it is full,
    an array element always exists, [bpf_probe_read] zeroes its destination on a
    fault.  [run] is one invocation and [run_all] a sequence of them, on any
    CPUs and for any tasks: the theorems quantify over such sequences.
    Integers are [Z] with the wrap-around of their C or Go type written out.
    A pointer into a map is the key of its element, so stores through it are
    seen by later lookups.

    ** How the agent is modelled

    A Go function is a Rocq function of its inputs and of the state it keeps;
    a run-time panic and an error are values.  What it reads from the kernel,
    from other services and from third-party packages is an argument: the
    theorems hold for every answer.  A loop of a tracer is a function of the
    sequence of answers of its rounds.  The order in which Go walks a map is an
    argument too.  Where goroutines share memory (Tracing, Task), the shared
    objects are a state, each goroutine has a program counter, and an execution is
    any sequentially consistent interleaving of steps: in Tracing one step per
    access to the tracer, in Task one per access to the cache, to a member of a
    task, to a context or to the clock, for runTask, Result, StopTask and the
    collector alike (NewTask, and RunningTaskCount, which only reads, are one
    step), in Metric one per access of the goroutines of a scrape to the cache of
    descriptions.

    ** Files

    - Prelude: integers, bytes, generic lemmas, tactics and the hint database.
    - Text: Go's strings, strconv and bufio.Scanner, as the parsers use them.
    - Backoff: vendor/github.com/cloudflare/backoff, which spaces the reports of
      the hung task tracer.
    - Layout: C types, their size, alignment and member offsets, bit-fields
      included; the class [Wire] of records that C lays out and Go's
      encoding/binary reads member by member, with the round trip every
      instance inherits.
    - Bpf: include/bpf_common.h, kernel memory, maps, the program monad.
    - Vmlinux: the structures of include/vmlinux.h the programs access.
    - Ratelimit, RatelimitSmp: include/bpf_ratelimit.h, called sequentially and
      as the loads, stores and atomic additions of concurrent CPUs.
    - Limited: the classes [LimitedReporter] and [InMapReporter], the interface
      between the limiter and the programs that consult it before they submit.
    - PerfReader: internal/bpf/perf_event_reader_default.go, ReadInto, for every
      record of the class [Wire], over one ring per CPU with lost samples.
    - Symbol: internal/symbol/ksymbols.go, from /proc/kallsyms to back traces.
    - Parseutil: the readers of cgroup files (internal/utils/parseutil,
      internal/cgroups/pids and paths) over a file system that is a parameter.
    - CgroupFs, CgroupV1, CgroupV2, Cgroups: internal/cgroups.  CgroupFs has the
      interface: the class [Cgroup] of the operations and the class [CgroupReads]
      of what a manager promises about a group its files show; the two versions
      and the manager NewCgroupManager chooses are instances, and the collectors
      are proved against the class.
    - CgroupPath: internal/pod/container_cgroup_path.go.
    - Usym: internal/symbol/usymbols.go, user space symbols.
    - Gauge, CpuUtil, CpuStat: core/metrics/cpu_util.go and cpu_stat.go.
    - Containers, Dload, Cpuidle: the registry of containers that
      core/autotracing/dload.go and cpuidle.go share, and these two detectors;
      Cpuidle also has cpusys.go.
    - Memburst: core/autotracing/memburst.go.
    - Tracing, Task: pkg/tracing, the tracers with their manager and their
      registration, and the tasks.
    - NetdevEvents: core/events/netdev_events.go.
    - Flamegraph: internal/flamegraph/flamegraph.go.
    - Net: include/vmlinux_net.h, header fields, utils/netutil/netutil.go.
    - Netrecvlat: netrecvlat.c and the event of core/events/netrecvlat.go.
    - Dropwatch: dropwatch.c and the event of core/events/dropwatch.go.
    - NetCollect: the rest of core/events/netrecvlat.go and dropwatch.go: what is
      filtered, formatted and saved.
    - Cgroup: cgroup_css_gather.c, cgroup_css_events.c and the CSS table of
      internal/pod/container_css_default.go.
    - Pods: internal/pod, the table of containers, its sync with the pods of the
      kubelet and its lookups.
    - Counters: perf.c, memory_reclaim.c, netdev_hw.c and the update of
      core/metrics/netdev_hw.go.
    - PerfData: cmd/perf/parsedata.go, from the map perf.c leaves to the rows of
      the flame graph.
    - Notify: oom.c, softlockup.c, hungtask.c, lacp.c, include/linux_kernel.h
      and the state of core/events/oom.go, hungtask.go and lacp.go.
    - FuncTrace: include/bpf_func_trace.h with its users memory_free_compact.c
      and memory_reclaim_events.c, one invocation after another.
    - FreeCompactSmp: memory_free_compact.c as the map accesses of invocations
      that run at the same time.
    - Runqlat: runqlat_tracing.c, in the TG_ADDR_KEY configuration it selects.
    - Softirq, SoftirqTracing: softirq.c and softirq_tracing.c.
    - Collectors: core/metrics/softirq.go, memory_reclaim.go, runqlat.go and
      runqlat_tracing.go on the bytes of the dumped maps.
    - Filter, MemMetrics, ProcMetrics: core/metrics/filter.go, memory_stat.go,
      memory_events.go, memory_others.go and memory_free_compact.go, netstat.go and
      vmstat.go.
    - Metric: pkg/metric, the labels of the data, the shared cache of metric
      descriptions and the goroutines of a scrape; a panic ends the process.
    - Schema: the names, help texts and label names that the collectors of
      core/metrics and core/events pass to pkg/metric.
    - EventLoops: the loops of Start of core/events/softirq_tracing.go,
      softlockup.go, hungtask.go, lacp.go and memory_reclaim_events.go.

    ** What the theorems show

    - The limiter answers as a specification by windows; it bounds the rate, its
      totals are exact, also under any interleaving of CPUs, and the overshoot of
      concurrent CPUs is bounded.  The length of a window and the notifications
      of the variant in a map are stated as the code has them, where the comments
      say something else.  No caller starves.
    - Each reporting program submits, on every sequence of invocations, exactly
      the records its specification selects among those the limiter grants; the
      clients are proved against the interface of Limited, which the limiter's
      refinement theorem discharges.  The records decode in the collector.
    - Each counting program keeps in its maps the counts of a specification over
      the history of invocations, modulo 2^64 and up to the capacity of the map;
      Runqlat proves conservation between host and groups.  FreeCompactSmp accounts,
      under any interleaving of map accesses, for every reclaim and compaction:
      what is read, what is still to be added and what racing first insertions
      lose add up to the sections closed.
    - Every field read lies inside its structure in the reference kernel; the shifts of dropwatch.c agree with the bit-fields of the
      structure they stand for.
    - The OOM collector accounts every kill, and panics exactly when its two
      container snapshots disagree.
    - From end to end: what ReadInto hands over, what netrecvlat.go and the event
      loops save, the samples of the profiler and the gauges of three collectors
      are related to the packets, hangs, reclaims, clock interrupts and switches
      the BPF programs saw.
    - Equivalences: the user symbol resolver with its caches and binary searches
      answers as a reference without them; the managers of cgroup v1 and v2 agree
      on the files of one group, up to the clock tick and to the limit of a group
      without one; the cache of metric descriptions cannot be observed by the
      collectors of the repository, under any interleaving of them.
    - Containers: a sync of the table is exact, a CSS address leads to the
      container that recorded it when it was made, and records are saved under the container they belong to.
    - Collectors: utilisations and wait rates are the exact shares of the
      counters the cgroup files show, and percentages; the gauges of the memory,
      netstat and vmstat collectors are exactly the counters of the files that
      the filter accepts.
    - The waits between the reports of hung tasks are those of the backoff's
      schedule, exactly and without overflow after any number of calls.
    - Detectors: dload reports every container that stays overloaded and no
      calm one; the ring buffer of memburst refines its specification on the
      whole history; the profiles of cpuidle keep their distance.
    - Concurrency: a stopped tracer exits and a started task finishes, with the
      step counts that suffice, and with the result of its command; once Result
      has stored the deadline of a final result, it is kept for ten minutes.
      The interleavings in which the code loses a stop, or loses or tears a
      result, are theorems or examples of their own.
    - Data structures: the symbol search terminates and finds the symbol, flame
      graph levels give back their tree, link counters are the changes reported.

    ** Bounds

    Loops are over finite traces or tables.  Loops that are not structural are
    total: the symbol searches and the tree walks by a measure (Equations), the
    reader loop [drain] with the number of turns as fuel, which
    [perf_reader_delivers] shows to be enough, and the printing of numbers, whose
    round trip shows its fuel to be enough.  Clock
    hypotheses ([clock_ok]) say that the seconds of a trace do not decrease, are
    positive and stay clear of 2^64; [kenv_ok] is the range of what the helpers
    return.  Counters are modulo 2^64 unless a bound is a hypothesis.

    ** Not modelled

    Loading and attaching (third-party library), the operations that change a
    cgroup (calls of the containerd library), collectors that only read and
    format procfs and sysfs, the stack reports of dload.go, running perf, the
    kernel log, the client of the kubelet, storage and HTTP services (I/O), and
    the pid-namespace variant of runqlat_tracing.c (compiled out).  Floating
    point: gauges are the integers they are converted from, loads are
    hundredths, and the burst ratio and the gauges of CpuUtil and CpuStat are
    exact fractions, with NaN for 0/0.  Except in RatelimitSmp,
    FreeCompactSmp, Tracing, Task and Metric an invocation is one step. *)
From stdpp Require Import base gmap list strings.
From Stdlib Require Import ZArith Lia.
From Stdlib.Strings Require Byte.

Open Scope Z_scope.

(** ** Fixed-width unsigned and signed integers

    A C integer of width [w] is a [Z]; the conversion the C standard
    applies on assignment and on unsigned arithmetic is written out. *)
Definition u8 (z : Z) : Z := z mod 2 ^ 8.
Definition u16 (z : Z) : Z := z mod 2 ^ 16.
Definition u32 (z : Z) : Z := z mod 2 ^ 32.
Definition u64 (z : Z) : Z := z mod 2 ^ 64.
Definition s32 (z : Z) : Z := (z + 2 ^ 31) mod 2 ^ 32 - 2 ^ 31.
Definition s64 (z : Z) : Z := (z + 2 ^ 63) mod 2 ^ 64 - 2 ^ 63.

(** [z] fits an unsigned integer of [w] bits. *)
Definition is_u (w : Z) (z : Z) : Prop := 0 <= z < 2 ^ w.

(** ** Bytes *)
Abbreviation byte := Byte.byte.

Definition byte_to_Z (b : byte) : Z := Z.of_N (Byte.to_N b).
Definition byte_of_Z (z : Z) : byte :=
  match Byte.of_N (Z.to_N (z mod 256)) with
  | Some b => b
  | None => Byte.x00
  end.

(** Little-endian stores and loads of [n] bytes. *)
Fixpoint le_bytes (n : nat) (z : Z) : list byte :=
  match n with
  | O => []
  | S n' => byte_of_Z z :: le_bytes n' (z / 256)
  end.

Fixpoint le_Z (bs : list byte) : Z :=
  match bs with
  | [] => 0
  | b :: bs' => byte_to_Z b + 256 * le_Z bs'
  end.

#[export] Instance byte_eq_dec : EqDecision byte := Byte.byte_eq_dec.
#[export] Instance byte_countable : Countable byte :=
  inj_countable Byte.to_N Byte.of_N Byte.of_to_N.

(** ** Sums over finite maps *)
Definition map_sum {K A} `{Countable K} (f : A -> Z) (m : gmap K A) : Z :=
  map_fold (fun _ x acc => f x + acc) 0 m.

(** ** Proof automation *)
Create HintDb bpf discriminated.
Create Rewrite HintDb bpf.

(** Case analysis on the conditions of the code, boolean tests turned into
    the propositions they decide. *)
Ltac reflect_bool :=
  repeat match goal with
  | H : (_ && _)%bool = true |- _ => apply andb_prop in H; destruct H
  | H : (_ || _)%bool = false |- _ => apply orb_false_elim in H; destruct H
  | H : negb _ = true |- _ => apply negb_true_iff in H
  | H : negb _ = false |- _ => apply negb_false_iff in H
  | H : (_ =? _)%Z = true |- _ => apply Z.eqb_eq in H
  | H : (_ =? _)%Z = false |- _ => apply Z.eqb_neq in H
  | H : (_ <? _)%Z = true |- _ => apply Z.ltb_lt in H
  | H : (_ <? _)%Z = false |- _ => apply Z.ltb_ge in H
  | H : (_ <=? _)%Z = true |- _ => apply Z.leb_le in H
  | H : (_ <=? _)%Z = false |- _ => apply Z.leb_gt in H
  end.

Ltac case_if :=
  match goal with
  | |- context [if ?b then _ else _] => destruct b eqn:?; reflect_bool
  end.

Ltac case_if_in H :=
  match type of H with
  | context [if ?b then _ else _] => destruct b eqn:?; reflect_bool
  end.

(** ** Generic lemmas *)
Lemma u64_range z : is_u 64 (u64 z).
Proof. apply Z.mod_pos_bound. lia. Qed.

Lemma s64_range z : - 2 ^ 63 <= s64 z < 2 ^ 63.
Proof. unfold s64. pose proof (Z.mod_pos_bound (z + 2 ^ 63) (2 ^ 64) ltac:(lia)). lia. Qed.

Lemma s32_range z : - 2 ^ 31 <= s32 z < 2 ^ 31.
Proof. unfold s32. pose proof (Z.mod_pos_bound (z + 2 ^ 31) (2 ^ 32) ltac:(lia)). lia. Qed.

Lemma u32_range z : is_u 32 (u32 z).
Proof. apply Z.mod_pos_bound. lia. Qed.

Lemma u64_small z : is_u 64 z -> u64 z = z.
Proof. apply Z.mod_small. Qed.

Lemma u32_small z : is_u 32 z -> u32 z = z.
Proof. apply Z.mod_small. Qed.

Lemma s64_small z : - 2 ^ 63 <= z < 2 ^ 63 -> s64 z = z.
Proof. intros Hz. unfold s64. rewrite Z.mod_small; lia. Qed.

Lemma u64_add_l a b : u64 (u64 a + b) = u64 (a + b).
Proof. apply Z.add_mod_idemp_l. lia. Qed.

Lemma u64_add_r a b : u64 (a + u64 b) = u64 (a + b).
Proof. apply Z.add_mod_idemp_r. lia. Qed.

Lemma u64_sub_small a b : is_u 64 a -> is_u 64 b -> b <= a -> u64 (a - b) = a - b.
Proof. intros [? ?] [? ?] ?. apply Z.mod_small. lia. Qed.

Lemma u64_sub_wrap a b : is_u 64 a -> is_u 64 b -> a < b -> u64 (a - b) = 2 ^ 64 - (b - a).
Proof.
  intros [? ?] [? ?] ?. unfold u64.
  rewrite <- (Z.mod_add (a - b) 1 (2 ^ 64)) by lia. rewrite Z.mod_small; lia.
Qed.

Lemma byte_to_Z_range b : 0 <= byte_to_Z b < 256.
Proof. unfold byte_to_Z. pose proof (Byte.to_N_bounded b). lia. Qed.

Lemma byte_to_of_Z z : byte_to_Z (byte_of_Z z) = z mod 256.
Proof.
  unfold byte_of_Z, byte_to_Z. pose proof (Z.mod_pos_bound z 256 ltac:(lia)).
  destruct (Byte.of_N (Z.to_N (z mod 256))) as [b|] eqn:E.
  - apply Byte.to_of_N in E. rewrite E. lia.
  - apply Byte.of_N_None_iff in E. lia.
Qed.

Lemma byte_of_to_Z b : byte_of_Z (byte_to_Z b) = b.
Proof.
  unfold byte_of_Z, byte_to_Z.
  rewrite Z.mod_small by (pose proof (Byte.to_N_bounded b); lia).
  by rewrite N2Z.id, Byte.of_to_N.
Qed.

Lemma length_le_bytes n z : length (le_bytes n z) = n.
Proof. revert z. induction n; intros; simpl; congruence. Qed.

Lemma le_Z_le_bytes n z : le_Z (le_bytes n z) = z mod 2 ^ (8 * Z.of_nat n).
Proof.
  revert z. induction n as [|n IH]; intros z.
  - simpl. by rewrite Z.mod_1_r.
  - cbn [le_bytes le_Z]. rewrite IH, byte_to_of_Z.
    replace (2 ^ (8 * Z.of_nat (S n))) with (256 * 2 ^ (8 * Z.of_nat n)).
    + rewrite Z.rem_mul_r by lia. lia.
    + replace (8 * Z.of_nat (S n)) with (8 + 8 * Z.of_nat n) by lia.
      by rewrite Z.pow_add_r by lia.
Qed.

Lemma le_Z_le_bytes_small n z :
  is_u (8 * Z.of_nat n) z -> le_Z (le_bytes n z) = z.
Proof. intros H. rewrite le_Z_le_bytes. by apply Z.mod_small. Qed.

Lemma le_Z_range bs : is_u (8 * Z.of_nat (length bs)) (le_Z bs).
Proof.
  unfold is_u. induction bs as [|b bs IH]; [simpl; lia|].
  cbn [le_Z length]. pose proof (byte_to_Z_range b).
  replace (8 * Z.of_nat (S (length bs))) with (8 + 8 * Z.of_nat (length bs)) by lia.
  rewrite Z.pow_add_r by lia. lia.
Qed.

Lemma le_bytes_le_Z bs : le_bytes (length bs) (le_Z bs) = bs.
Proof.
  induction bs as [|b bs IH]; [done|].
  cbn [le_Z length le_bytes]. pose proof (byte_to_Z_range b).
  rewrite <- (byte_of_to_Z b) at 3. f_equal.
  - unfold byte_of_Z. f_equal. rewrite (Z.mul_comm 256), Z.mod_add by lia. done.
  - rewrite (Z.mul_comm 256), Z.div_add by lia.
    rewrite (Z.div_small (byte_to_Z b)) by lia. done.
Qed.

Lemma foldl_invariant {A B} (P : A -> Prop) (f : A -> B -> A) l : forall a,
  P a -> (forall a x, x ∈ l -> P a -> P (f a x)) -> P (foldl f a l).
Proof.
  induction l as [|x l IH]; intros a Ha Hf; [done|]. cbn [foldl]. apply IH; [apply Hf; [by left | done]|].
  intros a' y Hy. apply Hf. by right.
Qed.

Lemma alter_Some {K A} `{Countable K} (f : A -> A) (m : gmap K A) k v :
  m !! k = Some v -> alter f k m = <[k := f v]> m.
Proof.
  intros E. apply map_eq. intros i. rewrite lookup_alter, lookup_insert.
  case_decide; [|done]. subst. by rewrite E.
Qed.

Section MapSum.
Context {K A : Type} `{Countable K} (f : A -> Z).
Implicit Types m : gmap K A.

Lemma map_sum_empty : map_sum f (∅ : gmap K A) = 0.
Proof. apply map_fold_empty. Qed.

Lemma map_sum_insert_new m k x :
  m !! k = None -> map_sum f (<[k:=x]> m) = f x + map_sum f m.
Proof. intros. unfold map_sum. apply (map_fold_insert_L (fun _ x acc => f x + acc)); [intros; lia|done]. Qed.

Lemma map_sum_delete m k x :
  m !! k = Some x -> map_sum f m = f x + map_sum f (delete k m).
Proof. intros. unfold map_sum. apply (map_fold_delete_L (fun _ x acc => f x + acc)); [intros; lia|done]. Qed.

Lemma map_sum_insert_old m k x y :
  m !! k = Some y -> map_sum f (<[k:=x]> m) = f x - f y + map_sum f m.
Proof.
  intros Hk. rewrite (map_sum_delete m k y) by done.
  rewrite <- insert_delete_eq, map_sum_insert_new by apply lookup_delete_eq. lia.
Qed.
End MapSum.

#[export] Hint Rewrite u64_add_l u64_add_r : bpf.
#[export] Hint Rewrite @lookup_insert_eq @lookup_delete_eq @map_sum_empty : bpf.
#[export] Hint Resolve u64_range u32_range s64_range s32_range byte_to_Z_range : bpf.

#[global] Arguments le_bytes : simpl never.
#[global] Arguments le_Z : simpl never.
