(* ===== verification/Text.v ===== *)
(** * Text the agent reads: strings, strconv and bufio

    The functions of Go's standard library with which the agent reads the text
    files of the kernel, over bytes: strings.Trim, TrimSpace and FieldsFunc,
    strconv.ParseUint and ParseInt with the printing they invert, and the lines
    of a bufio.Scanner. The white space is the ASCII one, the only one in these
    files. *)
From S2P Require Import Prelude.
From stdpp Require Import base list strings.
From Stdlib Require Import ZArith Lia Ascii.

Open Scope Z_scope.

Module Text.

(** ** strings *)

(** The bytes strings.TrimSpace and strings.Fields take for white space. *)
Definition is_space (c : ascii) : bool :=
  let n := Z.of_nat (nat_of_ascii c) in (9 <=? n) && (n <=? 13) || (n =? 32).

Fixpoint trim_left (p : ascii -> bool) (s : string) : string :=
  match s with
  | String c rest => if p c then trim_left p rest else s
  | EmptyString => s
  end.
Fixpoint trim_right (p : ascii -> bool) (s : string) : string :=
  match s with
  | EmptyString => EmptyString
  | String c rest =>
      match trim_right p rest with
      | EmptyString => if p c then EmptyString else String c EmptyString
      | rest' => String c rest'
      end
  end.
Definition TrimFunc (p : ascii -> bool) (s : string) : string := trim_right p (trim_left p s).
Definition Trim (s : string) (cutset : list ascii) : string :=
  TrimFunc (fun c => existsb (Ascii.eqb c) cutset) s.
Definition TrimSpace (s : string) : string := TrimFunc is_space s.

(** [word] is the field read so far. *)
Definition flush (word : string) : list string := if bool_decide (word = EmptyString) then [] else [word].
Fixpoint fields (sep : ascii -> bool) (s word : string) : list string :=
  match s with
  | EmptyString => flush word
  | String c rest =>
      if sep c then flush word ++ fields sep rest EmptyString
      else fields sep rest (word +:+ String c EmptyString)
  end.
Definition FieldsFunc (sep : ascii -> bool) (s : string) : list string := fields sep s EmptyString.
Definition Fields (s : string) : list string := FieldsFunc is_space s.

(** strings.Split at a one-byte separator. *)
Fixpoint Split (sep : ascii) (s : string) : list string :=
  match s with
  | EmptyString => [EmptyString]
  | String c rest =>
      if (c =? sep)%char then EmptyString :: Split sep rest
      else match Split sep rest with
           | w :: ws => String c w :: ws
           | [] => [String c EmptyString]
           end
  end.

(** ** strconv *)

Definition digit (base : Z) (c : ascii) : option Z :=
  let n := Z.of_nat (nat_of_ascii c) in
  d ← if (48 <=? n) && (n <=? 57) then Some (n - 48)
      else if (97 <=? n) && (n <=? 122) then Some (n - 87)
      else if (65 <=? n) && (n <=? 90) then Some (n - 55)
      else None;
  if base <=? d then None else Some d.

Fixpoint parse_digits (base : Z) (s : string) (n : Z) : option Z :=
  match s with
  | EmptyString => Some n
  | String c rest =>
      d ← digit base c;
      if 2 ^ 64 <=? base * n + d then None else parse_digits base rest (base * n + d)
  end.

(** strconv.ParseUint(s, base, 64); [None] is its error. *)
Definition ParseUint (base : Z) (s : string) : option Z :=
  match s with EmptyString => None | _ => parse_digits base s 0 end.

(** The number strconv.ParseUint returns beside its error: 0 where the syntax
    is wrong, the largest one where the value is out of range. *)
Fixpoint parse_value (base : Z) (s : string) (n : Z) : Z :=
  match s with
  | EmptyString => n
  | String c rest =>
      match digit base c with
      | None => 0
      | Some d => if 2 ^ 64 <=? base * n + d then 2 ^ 64 - 1 else parse_value base rest (base * n + d)
      end
  end.

(** strconv.ParseInt(s, 10, 64), which strconv.Atoi is on a 64-bit machine. *)
Definition ParseInt (s : string) : option Z :=
  z ← match s with
      | String "-" rest => Z.opp <$> ParseUint 10 rest
      | String "+" rest => ParseUint 10 rest
      | _ => ParseUint 10 s
      end;
  if (- 2 ^ 63 <=? z) && (z <? 2 ^ 63) then Some z else None.

(** The digits of an unsigned number, as %d and %x print it. *)
Definition digit_char (d : Z) : ascii :=
  ascii_of_nat (Z.to_nat (if d <? 10 then d + 48 else d + 87)).
Fixpoint digits (base : Z) (fuel : nat) (z : Z) (acc : string) : string :=
  match fuel with
  | O => acc
  | S fuel' =>
      let acc' := String (digit_char (z mod base)) acc in
      if z <? base then acc' else digits base fuel' (z / base) acc'
  end.
(** 64 digits are enough for 64 bits in any base. *)
Definition FormatUint (base z : Z) : string := digits base 64 z EmptyString.
Definition FormatInt (z : Z) : string :=
  if z <? 0 then String "-" (FormatUint 10 (- z)) else FormatUint 10 z.

(** ** bufio.Scanner with its default split function and buffer *)

Definition newline : ascii := "010".
Fixpoint split_lines (s word : string) : list string :=
  match s with
  | EmptyString => flush word
  | String c rest =>
      if (c =? newline)%char then word :: split_lines rest EmptyString
      else split_lines rest (word +:+ String c EmptyString)
  end.
Fixpoint dropCR (s : string) : string :=
  match s with
  | EmptyString => EmptyString
  | String c EmptyString => if (c =? "013")%char then EmptyString else s
  | String c rest => String c (dropCR rest)
  end.

(** A line that does not fit the buffer of 64 KiB ends the scan with an error. *)
Definition fits (line : string) : bool := Z.of_nat (String.length line) <? 65536.
Fixpoint take_fitting (lines : list string) : list string :=
  match lines with
  | [] => []
  | l :: lines' => if fits l then l :: take_fitting lines' else []
  end.

(** The lines Scan yields, and whether it ends without an error. *)
Definition Scan (s : string) : list string * bool :=
  let lines := split_lines s EmptyString in (dropCR <$> take_fitting lines, forallb fits lines).

(** ** Lemmas *)

Fixpoint all_chars (p : ascii -> bool) (s : string) : bool :=
  match s with EmptyString => true | String c rest => p c && all_chars p rest end.

(** A word: not empty, and no white space in it. *)
Definition is_word (s : string) : Prop := s <> EmptyString /\ all_chars (fun c => negb (is_space c)) s = true.
#[global] Instance is_word_dec s : Decision (is_word s).
Proof. unfold is_word. apply _. Defined.

Lemma append_cons c s1 s2 : String c s1 +:+ s2 = String c (s1 +:+ s2).
Proof. reflexivity. Qed.

Lemma append_nil_r s : s +:+ EmptyString = s.
Proof. induction s as [|c s IH]; [done|]. by rewrite append_cons, IH. Qed.

Lemma append_assoc s1 s2 s3 : s1 +:+ (s2 +:+ s3) = (s1 +:+ s2) +:+ s3.
Proof. induction s1 as [|c s IH]; [done|]. by rewrite !append_cons, IH. Qed.

Lemma length_append s1 s2 : String.length (s1 +:+ s2) = (String.length s1 + String.length s2)%nat.
Proof. induction s1 as [|c s IH]; [done|]. rewrite append_cons. cbn. by rewrite IH. Qed.

Lemma all_chars_app p s1 s2 : all_chars p (s1 +:+ s2) = all_chars p s1 && all_chars p s2.
Proof. induction s1 as [|c s IH]; [done|]. rewrite append_cons. cbn. by rewrite IH, andb_assoc. Qed.

Lemma all_chars_impl (p q : ascii -> bool) s :
  (forall c, p c = true -> q c = true) -> all_chars p s = true -> all_chars q s = true.
Proof.
  intros Hpq. induction s as [|c s IH]; [done|]. cbn. intros [Hc Hs]%andb_true_iff.
  by rewrite Hpq, IH.
Qed.

Lemma fields_word sep w : forall word s,
  all_chars (fun c => negb (sep c)) w = true -> fields sep (w +:+ s) word = fields sep s (word +:+ w).
Proof.
  induction w as [|c w IH]; intros word s Hw; [by rewrite append_nil_r|].
  rewrite append_cons. cbn in Hw |- *. apply andb_true_iff in Hw as [Hc Hw]. apply negb_true_iff in Hc. rewrite Hc, IH by done.
  by rewrite <- append_assoc.
Qed.

Lemma split_lines_word w : forall word s,
  all_chars (fun c => negb (is_space c)) w = true \/ all_chars (fun c => negb (c =? newline)%char) w = true ->
  split_lines (w +:+ s) word = split_lines s (word +:+ w).
Proof.
  intros word s Hw.
  assert (all_chars (fun c => negb (c =? newline)%char) w = true) as H.
  { destruct Hw as [Hw|Hw]; [|done]. refine (all_chars_impl _ _ w _ Hw). intros c.
    destruct (Ascii.eqb_spec c newline) as [->|]; done. }
  clear Hw. revert word. induction w as [|c w IH]; intros word; [by rewrite append_nil_r|].
  rewrite append_cons. cbn in H |- *. apply andb_true_iff in H as [Hc Hw]. apply negb_true_iff in Hc. rewrite Hc, IH by done.
  by rewrite <- append_assoc.
Qed.

Lemma flush_word w : w <> EmptyString -> flush w = [w].
Proof. unfold flush. intros H. by rewrite bool_decide_false. Qed.

(** Two words with one space between them are two fields. *)
Lemma Fields_two k v : is_word k -> is_word v -> Fields (k +:+ String " " v) = [k; v].
Proof.
  intros [Hk Hks] [Hv Hvs]. unfold Fields, FieldsFunc. rewrite fields_word by done. cbn.
  rewrite flush_word by done. rewrite <- (append_nil_r v), fields_word by done. cbn.
  by rewrite flush_word, append_nil_r.
Qed.

(** A line ends at its newline. *)
Lemma split_lines_cons l s :
  all_chars (fun c => negb (c =? newline)%char) l = true ->
  split_lines (l +:+ String newline s) EmptyString = l :: split_lines s EmptyString.
Proof. intros H. rewrite split_lines_word by (by right). done. Qed.

Lemma dropCR_id s : all_chars (fun c => negb (c =? "013")%char) s = true -> dropCR s = s.
Proof.
  induction s as [|c s IH]; [done|]. intros [Hc Hs]%andb_true_iff. apply negb_true_iff in Hc.
  cbn [dropCR]. destruct s as [|c' s']; [by rewrite Hc|]. by rewrite IH.
Qed.

Lemma trim_left_word p w s :
  w <> EmptyString -> all_chars (fun c => negb (p c)) w = true -> trim_left p (w +:+ s) = w +:+ s.
Proof.
  destruct w as [|c w]; [done|]. intros _ [Hc _]%andb_true_iff. apply negb_true_iff in Hc. rewrite append_cons. cbn. by rewrite Hc.
Qed.

Lemma trim_right_word p w s :
  all_chars (fun c => negb (p c)) w = true -> trim_right p s = EmptyString -> trim_right p (w +:+ s) = w.
Proof.
  induction w as [|c w IH]; intros Hw Hs; [done|]. rewrite append_cons. cbn in Hw |- *.
  apply andb_true_iff in Hw as [Hc Hw]. apply negb_true_iff in Hc. rewrite IH by done.
  destruct w; [by rewrite Hc | done].
Qed.

(** A word followed by a newline, as the kernel prints a number, is trimmed to
    the word. *)
Lemma TrimSpace_line w : is_word w -> TrimSpace (w +:+ String newline EmptyString) = w.
Proof.
  intros [Hw Hs]. unfold TrimSpace, TrimFunc. rewrite trim_left_word by done. by apply trim_right_word.
Qed.

(** *** Numbers *)
Lemma digit_of_char base d : 2 <= base <= 16 -> 0 <= d < base -> digit base (digit_char d) = Some d.
Proof.
  intros Hb Hd. unfold digit, digit_char.
  rewrite nat_ascii_embedding by (destruct (d <? 10) eqn:E; lia).
  rewrite Z2Nat.id by (destruct (d <? 10) eqn:E; lia).
  destruct (Z.ltb_spec d 10).
  - rewrite !(proj2 (Z.leb_le _ _)) by lia. cbn. rewrite (proj2 (Z.leb_gt _ _)) by lia. f_equal. lia.
  - rewrite (proj2 (Z.leb_gt (d + 87) 57)), andb_false_r by lia.
    rewrite !(proj2 (Z.leb_le _ _)) by lia. cbn. rewrite (proj2 (Z.leb_gt _ _)) by lia. f_equal. lia.
Qed.

Lemma parse_digits_digits base fuel : forall z acc, 2 <= base <= 16 ->
  0 <= z < 2 ^ 64 -> z < base ^ Z.of_nat fuel -> (0 < fuel)%nat ->
  parse_digits base (digits base fuel z acc) 0 = parse_digits base acc z.
Proof.
  induction fuel as [|fuel IH]; intros z acc Hbase Hz Hb Hf; [lia|]. cbn [digits].
  pose proof (Z.div_mod z base ltac:(lia)) as Hdm.
  pose proof (Z.mod_pos_bound z base ltac:(lia)) as Hm.
  destruct (Z.ltb_spec z base) as [Hlt|Hge].
  - cbn [parse_digits]. rewrite digit_of_char by lia. cbn [mbind option_bind].
    rewrite Z.mod_small by lia. rewrite (proj2 (Z.leb_gt _ _)) by lia. f_equal. lia.
  - assert (z / base < base ^ Z.of_nat fuel) as Hq.
    { apply Z.div_lt_upper_bound; [lia|]. rewrite <- Z.pow_succ_r by lia.
      replace (Z.succ (Z.of_nat fuel)) with (Z.of_nat (S fuel)) by lia. done. }
    assert (1 <= z / base) by (apply Z.div_le_lower_bound; lia).
    assert (z / base <= z) by (apply Z.div_le_upper_bound; nia).
    rewrite IH; [|lia|lia|done|].
    + cbn [parse_digits]. rewrite digit_of_char by lia. cbn [mbind option_bind].
      rewrite (proj2 (Z.leb_gt _ _)) by lia. f_equal. lia.
    + destruct fuel; [cbn in Hq; lia | lia].
Qed.

Lemma digits_nonempty base fuel : forall z acc, digits base (S fuel) z acc <> EmptyString.
Proof.
  induction fuel as [|fuel IH]; intros z acc; cbn [digits]; destruct (z <? base); [done.. |].
  apply IH.
Qed.

(** What %d or %x prints of a 64-bit number is parsed as that number. *)
Lemma ParseUint_Format base z : 2 <= base <= 16 -> 0 <= z < 2 ^ 64 -> ParseUint base (FormatUint base z) = Some z.
Proof.
  intros Hb Hz. assert (parse_digits base (FormatUint base z) 0 = Some z) as E.
  { unfold FormatUint. rewrite parse_digits_digits; [done | lia | lia | | lia].
    apply Z.lt_le_trans with (2 ^ 64); [lia|]. change (Z.of_nat 64) with 64. apply Z.pow_le_mono_l. lia. }
  unfold ParseUint. destruct (FormatUint base z) eqn:E'; [|done]. by apply digits_nonempty in E'.
Qed.

Lemma all_chars_digits p base fuel : forall z acc, 2 <= base ->
  (forall d, 0 <= d < base -> p (digit_char d) = true) ->
  all_chars p acc = true -> all_chars p (digits base fuel z acc) = true.
Proof.
  induction fuel as [|fuel IH]; intros z acc Hb Hp Ha; [done|]. cbn [digits].
  assert (all_chars p (String (digit_char (z mod base)) acc) = true) as Ha'.
  { cbn. rewrite Hp, Ha; [done|]. apply Z.mod_pos_bound. lia. }
  destruct (z <? base); [done|]. by apply IH.
Qed.

Lemma decimal_char (p : ascii -> bool) :
  forallb (fun d => p (digit_char d)) [0; 1; 2; 3; 4; 5; 6; 7; 8; 9] = true ->
  forall d, 0 <= d < 10 -> p (digit_char d) = true.
Proof.
  intros H d Hd. rewrite forallb_forall in H. apply H.
  assert (d = 0 \/ d = 1 \/ d = 2 \/ d = 3 \/ d = 4 \/ d = 5 \/ d = 6 \/ d = 7 \/ d = 8 \/ d = 9) as Hc by lia.
  cbn. intuition.
Qed.

Lemma FormatUint_word z : is_word (FormatUint 10 z).
Proof.
  split; [apply digits_nonempty|]. apply all_chars_digits; [lia | | done].
  by apply (decimal_char (fun c => negb (is_space c))).
Qed.

Lemma FormatInt_word z : is_word (FormatInt z).
Proof.
  unfold FormatInt. destruct (z <? 0); [|apply FormatUint_word].
  destruct (FormatUint_word (- z)) as [_ H]. split; [done|]. cbn [all_chars]. rewrite H. done.
Qed.

Lemma FormatUint_head z c s : FormatUint 10 z = String c s -> c <> "-"%char /\ c <> "+"%char.
Proof.
  intros E.
  assert (all_chars (fun c => negb (c =? "-")%char && negb (c =? "+")%char) (FormatUint 10 z) = true) as H.
  { apply all_chars_digits; [lia | | done]. by apply (decimal_char (fun c => negb (c =? "-")%char && negb (c =? "+")%char)). }
  rewrite E in H. cbn in H. destruct (Ascii.eqb_spec c "-"), (Ascii.eqb_spec c "+"); cbn in H; done.
Qed.

Lemma FormatUint_length base z : (String.length (FormatUint base z) <= 64)%nat.
Proof.
  assert (forall fuel z acc, String.length (digits base fuel z acc) <= fuel + String.length acc)%nat as H.
  { induction fuel as [|fuel IH]; intros z' acc; cbn [digits]; [lia|].
    destruct (z' <? base); [cbn; lia|]. etransitivity; [apply IH|]. cbn. lia. }
  unfold FormatUint. specialize (H 64%nat z EmptyString).
  change (String.length EmptyString) with 0%nat in H. lia.
Qed.

Lemma ParseInt_unsigned s :
  (forall c r, s = String c r -> c <> "-"%char /\ c <> "+"%char) ->
  ParseInt s = (z ← ParseUint 10 s; if (- 2 ^ 63 <=? z) && (z <? 2 ^ 63) then Some z else None).
Proof.
  intros H. unfold ParseInt. destruct s as [|c s]; [done|]. destruct (H c s eq_refl) as [H1 H2].
  destruct c as [[] [] [] [] [] [] [] []]; done.
Qed.

Lemma parse_value_ok base s : forall n z, parse_digits base s n = Some z -> parse_value base s n = z.
Proof.
  induction s as [|c s IH]; intros n z; cbn; [congruence|]. destruct (digit base c) as [d|]; [|done].
  cbn [mbind option_bind]. destruct (2 ^ 64 <=? base * n + d); [done | apply IH].
Qed.

(** Likewise for signed numbers. *)
Lemma ParseInt_Format z : - 2 ^ 63 <= z < 2 ^ 63 -> ParseInt (FormatInt z) = Some z.
Proof.
  intros Hz. unfold FormatInt. destruct (Z.ltb_spec z 0).
  - unfold ParseInt. rewrite ParseUint_Format by lia. cbn [fmap option_fmap option_map mbind option_bind].
    rewrite Z.opp_involutive, (proj2 (Z.leb_le _ _)), (proj2 (Z.ltb_lt _ _)) by lia. done.
  - rewrite ParseInt_unsigned by (intros c r E; by eapply FormatUint_head).
    rewrite ParseUint_Format by lia. cbn [mbind option_bind].
    rewrite (proj2 (Z.leb_le _ _)), (proj2 (Z.ltb_lt _ _)) by lia. done.
Qed.

End Text.
