(* ===== verification/Backoff.v ===== *)
(** * vendor/github.com/cloudflare/backoff: exponential backoff

    The package the hung task tracer spaces its reports with. Durations are
    int64 nanoseconds, the zero time is [None], and the clock readings and the
    random draw of a call are its arguments. *)
From S2P Require Import Prelude.
From stdpp Require Import base list.
From Stdlib Require Import ZArith Lia.

Open Scope Z_scope.

Module Backoff.

Definition Second : Z := 1000000000.
Definition Minute : Z := 60 * Second.
Definition Hour : Z := 60 * Minute.

Definition DefaultInterval : Z := 5 * Minute.
Definition DefaultMaxDuration : Z := 6 * Hour.
Definition MaxInt64 : Z := 2 ^ 63 - 1.
Definition MaxUint64 : Z := 2 ^ 64 - 1.

Record Backoff := mk_backoff
  { maxDuration : Z; interval : Z; noJitter : bool; decay : Z; n : Z; lastTry : option Z }.

Definition setup (b : Backoff) : Backoff :=
  mk_backoff (if maxDuration b =? 0 then DefaultMaxDuration else maxDuration b)
    (if interval b =? 0 then DefaultInterval else interval b) (noJitter b) (decay b) (n b) (lastTry b).

(** [None] is the panic. *)
Definition New (max interval : Z) : option Backoff :=
  if (max <? 0) || (interval <? 0) then None else Some (setup (mk_backoff max interval false 0 0 None)).
Definition NewWithoutJitter (max interval : Z) : option Backoff :=
  b ← New max interval;
  Some (mk_backoff (maxDuration b) (Backoff.interval b) true (decay b) (n b) (lastTry b)).
Definition SetDecay (decay : Z) (b : Backoff) : option Backoff :=
  if decay <? 0 then None
  else Some (mk_backoff (maxDuration b) (interval b) (noJitter b) decay (n b) (lastTry b)).
Definition Reset (b : Backoff) : Backoff :=
  mk_backoff (maxDuration b) (interval b) (noJitter b) (decay b) 0 None.

Definition duration (b : Backoff) (n : Z) : Z :=
  let pow := if n <? 63 then s64 (Z.shiftl 1 n) else MaxInt64 in
  let t := s64 (interval b * pow) in
  if negb (Z.quot t pow =? interval b) || (maxDuration b <? t) then maxDuration b else t.

(** [since] is the clock of time.Since, [now] that of the store. *)
Definition decayN (since now : Z) (b : Backoff) : Backoff :=
  if decay b =? 0 then b
  else
    let set n := mk_backoff (maxDuration b) (interval b) (noJitter b) (decay b) n (Some now) in
    match lastTry b with
    | None => set (n b)
    | Some t =>
        let lastDuration := duration b (u64 (n b - 1)) in
        if s64 (lastDuration + decay b) <? since - t then set 0 else set (n b)
    end.

(** [draw t] is prng.Int63n(t). *)
Definition Duration (draw : Z -> Z) (since now : Z) (b : Backoff) : Z * Backoff :=
  let b := decayN since now (setup b) in
  let t := duration b (n b) in
  (if noJitter b then t else draw t,
   mk_backoff (maxDuration b) (interval b) (noJitter b) (decay b)
     (if n b <? MaxUint64 then n b + 1 else n b) (lastTry b)).

(** ** The schedule

    What a caller sees: the first wait is the interval; a later one doubles the
    one before, up to the maximum, or is the interval again if the last try was
    longer ago than its wait and the decay. *)
Definition next_wait (max interval decay : Z) (last : option (Z * Z)) (since : Z) : Z :=
  match last with
  | None => Z.min interval max
  | Some (t, w) => if w + decay <? since - t then Z.min interval max else Z.min (2 * w) max
  end.

(** A backoff without jitter and with a decay, whose durations are exact. *)
Record configured (max interval decay : Z) (b : Backoff) : Prop := mk_configured {
  c_max : maxDuration b = max; c_interval : Backoff.interval b = interval;
  c_jitter : noJitter b = true; c_decay : Backoff.decay b = decay;
  c_n : is_u 64 (n b)
}.

(** The state [b] stands for the last try: its time and its wait. *)
Definition tried (b : Backoff) (last : option (Z * Z)) : Prop :=
  match last with
  | None => lastTry b = None /\ n b = 0
  | Some (t, w) => lastTry b = Some t /\ 1 <= n b /\ w = duration b (n b - 1)
  end.

(** ** Lemmas *)

Lemma s64_wrap z : exists k, s64 z = z + k * 2 ^ 64.
Proof.
  exists (- ((z + 2 ^ 63) / 2 ^ 64)). unfold s64. pose proof (Z.div_mod (z + 2 ^ 63) (2 ^ 64) ltac:(lia)). lia.
Qed.

Lemma pow_split k : 0 <= k <= 64 -> 2 ^ 64 = 2 ^ (64 - k) * 2 ^ k.
Proof. intros H. rewrite <- Z.pow_add_r by lia. f_equal. lia. Qed.

(** The test of the quotient detects every overflow of the product. *)
Lemma product_exact i k : 0 < i < 2 ^ 63 -> 0 <= k < 63 ->
  (Z.quot (s64 (i * 2 ^ k)) (2 ^ k) =? i) = (i * 2 ^ k <? 2 ^ 63).
Proof.
  intros Hi Hk. assert (0 < 2 ^ k) as Hp by (apply Z.pow_pos_nonneg; lia).
  destruct (Z.ltb_spec (i * 2 ^ k) (2 ^ 63)) as [Hlt|Hge].
  - rewrite s64_small by nia. rewrite Z.quot_mul by lia. apply Z.eqb_refl.
  - apply Z.eqb_neq. intros E. destruct (s64_wrap (i * 2 ^ k)) as [q Eq]. pose proof (s64_range (i * 2 ^ k)) as Hr.
    rewrite (pow_split k) in Eq by lia. assert (s64 (i * 2 ^ k) = (i + q * 2 ^ (64 - k)) * 2 ^ k) as E2 by lia.
    rewrite E2, Z.quot_mul in E by lia. assert (q * 2 ^ (64 - k) = 0) as E3 by lia. rewrite E2 in Hr.
    replace (i + q * 2 ^ (64 - k)) with i in Hr by lia. lia.
Qed.

(** The duration is the doubled interval, cut at the maximum, for every count. *)
Lemma duration_exact max i d b k : configured max i d b -> 0 < i -> 0 < max < 2 ^ 63 -> i < 2 ^ 63 -> 0 <= k ->
  duration b k = if k <? 63 then Z.min (i * 2 ^ k) max else max.
Proof.
  intros [<- <- _ _ _] Hi Hm Hi2 Hk. unfold duration. destruct (Z.ltb_spec k 63) as [Hlt|Hge].
  - rewrite Z.shiftl_1_l. assert (0 < 2 ^ k < 2 ^ 63) as Hp
      by (split; [apply Z.pow_pos_nonneg | apply Z.pow_lt_mono_r]; lia).
    rewrite (s64_small (2 ^ k)) by lia. rewrite product_exact by lia.
    destruct (Z.ltb_spec (interval b * 2 ^ k) (2 ^ 63)); cbn [negb orb]; [|lia].
    rewrite s64_small by nia. destruct (Z.ltb_spec (maxDuration b) (interval b * 2 ^ k)); lia.
  - destruct (_ || _) eqn:E; [done|]. apply orb_false_iff in E as [E1 E2]. apply negb_false_iff, Z.eqb_eq in E1.
    apply Z.ltb_ge in E2. unfold MaxInt64 in *.
    assert (s64 (interval b * (2 ^ 63 - 1)) < 2 ^ 63 - 1 \/ s64 (interval b * (2 ^ 63 - 1)) = 2 ^ 63 - 1) as [H|H]
      by (pose proof (s64_range (interval b * (2 ^ 63 - 1))); lia).
    + pose proof (s64_range (interval b * (2 ^ 63 - 1))) as Hr.
      destruct (Z.leb_spec 0 (s64 (interval b * (2 ^ 63 - 1)))) as [H0|H0]; [rewrite Z.quot_small in E1 by lia; lia|].
      assert (Z.quot (s64 (interval b * (2 ^ 63 - 1))) (2 ^ 63 - 1) <= 0) by (apply Z.quot_le_upper_bound; lia). lia.
    + lia.
Qed.

Lemma duration_next max i d b k : configured max i d b -> 0 < i -> 0 < max < 2 ^ 63 -> i < 2 ^ 63 -> 1 <= k ->
  duration b k = Z.min (2 * duration b (k - 1)) max.
Proof.
  intros Hc Hi Hm Hi2 Hk. rewrite !(duration_exact max i d) by (done || lia).
  destruct (Z.ltb_spec k 63), (Z.ltb_spec (k - 1) 63); try lia.
  - replace k with (Z.succ (k - 1)) at 1 by lia. rewrite Z.pow_succ_r by lia. lia.
  - assert (k - 1 = 62) as -> by lia. change (2 ^ 62) with 4611686018427387904. lia.
Qed.

Lemma duration_bounds max i d b k : configured max i d b -> 0 < i -> 0 < max < 2 ^ 63 -> i < 2 ^ 63 -> 0 <= k ->
  Z.min i max <= duration b k <= max.
Proof.
  intros Hc Hi Hm Hi2 Hk. rewrite (duration_exact max i d) by done. destruct (Z.ltb_spec k 63); [|lia].
  assert (1 <= 2 ^ k) by (pose proof (Z.pow_pos_nonneg 2 k); lia). nia.
Qed.

(** ** Theorems *)

(** The backoff keeps its schedule: from any state a call returns the wait of
    the specification and records it, without overflow, whatever the number of
    calls before. *)
Theorem backoff_schedule max i d b last draw since now :
  configured max i d b -> 0 < i < 2 ^ 63 -> 0 < max -> 0 < d -> max + d < 2 ^ 63 -> tried b last ->
  let w := next_wait max i d last since in
  let (w', b') := Duration draw since now b in
  w' = w /\ configured max i d b' /\ tried b' (Some (now, w)).
Proof.
  intros [Emax Ei Ej Ed En] Hi Hm Hd Hmd Ht. destruct b as [bm bi bj bd bn bl]. cbn in Emax, Ei, Ej, Ed, En. subst bm bi bj bd.
  set (b0 := mk_backoff max i true d bn bl) in *. assert (configured max i d b0) as Hc0 by done.
  assert (setup b0 = b0) as Es
    by (unfold setup, b0; cbn; destruct (Z.eqb_spec max 0), (Z.eqb_spec i 0); (lia || done)).
  assert (forall k l, is_u 64 k -> configured max i d (mk_backoff max i true d k l)) as Hck by done.
  assert (forall k k' l, duration (mk_backoff max i true d k l) k' = duration b0 k') as Hdur by done.
  assert (is_u 64 0) as H0 by (unfold is_u; lia). unfold Duration. rewrite Es.
  (* The state after the decay. *)
  assert (exists k, decayN since now b0 = mk_backoff max i true d k (Some now) /\ is_u 64 k /\
            next_wait max i d last since = duration b0 k /\ 0 <= k) as (k & -> & Hk & Ew & Hk0).
  { unfold decayN. change (decay b0) with d. change (lastTry b0) with bl. change (n b0) with bn in *.
    destruct (Z.eqb_spec d 0); [lia|]. destruct last as [[t w]|]; cbn [tried next_wait] in *.
    - destruct Ht as (Hl & Hn & ->). change (lastTry b0) with bl in Hl. subst bl. change (n b0) with bn in *.
      assert (u64 (bn - 1) = bn - 1) as -> by (apply u64_small; unfold is_u in *; lia).
      pose proof (duration_bounds max i d b0 (bn - 1) Hc0 ltac:(lia) ltac:(lia) ltac:(lia) ltac:(lia)) as Hb.
      rewrite s64_small by lia. destruct (_ <? since - t).
      + exists 0. split_and!; [done | done | | lia]. rewrite (duration_exact max i d) by (done || lia). cbn. lia.
      + exists bn. split_and!; [done | done | | lia]. symmetry. apply (duration_next max i d); done || lia.
    - destruct Ht as [Hl Hn]. change (lastTry b0) with bl in Hl. change (n b0) with bn in Hn. subst bl bn.
      exists 0. split_and!; [done | done | | lia]. rewrite (duration_exact max i d) by (done || lia). cbn. lia. }
  cbn [n noJitter maxDuration interval decay lastTry]. rewrite Hdur, <- Ew. split; [done|].
  destruct (Z.ltb_spec k MaxUint64) as [Hlt|Hge]; (split; [apply Hck; unfold is_u, MaxUint64 in *; lia|]).
  - cbn [tried lastTry n]. split_and!; [done | lia|]. rewrite Hdur, Ew. f_equal. lia.
  - cbn [tried lastTry n]. unfold MaxUint64 in *. split_and!; [done | lia|]. rewrite Hdur, Ew.
    rewrite !(duration_exact max i d) by (done || lia).
    destruct (Z.ltb_spec k 63), (Z.ltb_spec (k - 1) 63); try lia.
Qed.

End Backoff.
