(* ===== verification/Layout.v ===== *)
(** * C structure layout and the byte format of perf records

    The layout the BPF target gives C types (sizes, alignment, padding and
    bit-fields), the bytes of a structure stored in memory, and the packed
    reading of those bytes by Go's encoding/binary, which skips no padding.
    [Wire] is the interface between a program that submits a record and the
    collector that decodes it. *)
From S2P Require Import Prelude.
From stdpp Require Import base list strings.
From Stdlib Require Import ZArith Lia.
From Stdlib.Strings Require Byte.

Open Scope Z_scope.

Declare Scope ctype_scope.
Delimit Scope ctype_scope with ctype.

(** Integers, enumerations and pointers are scalars of [size] bytes; a member
    is a name (empty for anonymous members and unnamed bit-fields), the width
    of a bit-field, and a type. *)
#[warnings="-register-all"]
Inductive ctype :=
| Scalar (size : Z)
| Array (n : Z) (t : ctype)
| Struct (packed : bool) (fs : list (string * option Z * ctype))
| CUnion (fs : list (string * option Z * ctype)).

Abbreviation member_decl := (string * option Z * ctype)%type.
Notation "n :- t" := (n%string, @None Z, t) (at level 60, t at next level) : ctype_scope.
Definition bitfield (n : string) (w : Z) (t : ctype) : member_decl := (n, Some w, t).

Definition c_char : ctype := Scalar 1.
Definition c_u8 : ctype := Scalar 1.
Definition c_u16 : ctype := Scalar 2.
Definition c_u32 : ctype := Scalar 4.
Definition c_u64 : ctype := Scalar 8.
Definition c_int : ctype := Scalar 4.
Definition c_long : ctype := Scalar 8.
Definition c_ptr : ctype := Scalar 8.

Definition round_up (z a : Z) : Z := (z + a - 1) / a * a.

(** The alignment a member asks of its structure: unnamed bit-fields none. *)
Definition align_member (al : ctype -> Z) (f : member_decl) : Z :=
  match f with
  | (n, Some _, t) => if (n =? "")%string then 1 else al t
  | (_, None, t) => al t
  end.

Fixpoint alignof (t : ctype) : Z :=
  match t with
  | Scalar s => s
  | Array _ t' => alignof t'
  | Struct true _ => 1
  | Struct false fs => fold_right (fun f a => Z.max (align_member alignof f) a) 1 fs
  | CUnion fs => fold_right (fun f a => Z.max (align_member alignof f) a) 1 fs
  end.

(** The first bit of a member and the bit after its last one, for a member
    placed from bit [o] on: [al] and [sz] are the alignment and the size, in
    bytes, of its declared type. *)
Definition place (packed : bool) (o : Z) (bits : option Z) (al sz : Z) : Z * Z :=
  match bits with
  | None => let s := if packed then round_up o 8 else round_up o (8 * al) in (s, s + 8 * sz)
  | Some w =>
      if w =? 0 then let s := round_up o (8 * al) in (s, s)
      else if packed then (o, o + w)
      else
        let s := if o / (8 * sz) =? (o + w - 1) / (8 * sz) then o else round_up o (8 * al) in
        (s, s + w)
  end.

Fixpoint sizeof (t : ctype) : Z :=
  match t with
  | Scalar s => s
  | Array n t' => n * sizeof t'
  | Struct p fs =>
      let e := fold_left (fun o '(_, b, t') => snd (place p o b (alignof t') (sizeof t'))) fs 0 in
      round_up e (8 * alignof (Struct p fs)) / 8
  | CUnion fs =>
      let e := fold_left (fun o '(_, b, t') =>
                 Z.max o (match b with Some w => w | None => 8 * sizeof t' end)) fs 0 in
      round_up e (8 * alignof (CUnion fs)) / 8
  end.

(** Where the members of a structure go, in bits. *)
Fixpoint placed (p : bool) (o : Z) (fs : list member_decl) : list (string * (Z * Z)) :=
  match fs with
  | [] => []
  | (n, b, t) :: fs' =>
      let '(s, e) := place p o b (alignof t) (sizeof t) in (n, (s, e)) :: placed p e fs'
  end.

(** The bit offset and the type of member [name], looked up through anonymous
    members as C does. *)
Fixpoint member (t : ctype) (name : string) : option (Z * ctype) :=
  match t with
  | Scalar _ | Array _ _ => None
  | Struct p fs =>
      snd (fold_left (fun '(o, r) '(n, b, t') =>
        let '(s, e) := place p o b (alignof t') (sizeof t') in
        (e, match r with
            | Some _ => r
            | None =>
                if (n =? name)%string then Some (s, t')
                else if (n =? "")%string then
                  match member t' name with
                  | Some (o', t'') => Some (s + o', t'')
                  | None => None
                  end
                else None
            end)) fs (0, None))
  | CUnion fs =>
      fold_left (fun r '(n, b, t') =>
        match r with
        | Some _ => r
        | None =>
            if (n =? name)%string then Some (0, t')
            else if (n =? "")%string then member t' name else None
        end) fs None
  end.

(** offsetof(t, path), in bytes. *)
Fixpoint offsetof (t : ctype) (path : list string) : option Z :=
  match path with
  | [] => Some 0
  | n :: path' =>
      match member t n with
      | None => None
      | Some (o, t') =>
          match offsetof t' path' with
          | Some o' => Some (o / 8 + o')
          | None => None
          end
      end
  end.

(** A type with positive alignments, sizes that are not negative and
    bit-fields no wider than their declared type. *)
Fixpoint wf_ctype (t : ctype) : bool :=
  match t with
  | Scalar s => 0 <? s
  | Array n t' => (0 <=? n) && wf_ctype t'
  | Struct _ fs | CUnion fs =>
      forallb (fun '(_, b, t') =>
        wf_ctype t' && match b with Some w => (0 <=? w) && (w <=? 8 * sizeof t') | None => true end) fs
  end.

(** The members of [fs] follow one another from bit [o] on without overlap,
    up to bit [e]. *)
Fixpoint in_order (o e : Z) (ps : list (string * (Z * Z))) : Prop :=
  match ps with
  | [] => o <= e
  | (_, (s, f)) :: ps' => o <= s <= f /\ in_order f e ps'
  end.

(** What the layout of a structure promises: members in order, disjoint and
    inside the structure, ordinary members aligned, and the size a multiple of
    the alignment, so that arrays of it are aligned too. *)
Definition layout_sound (fs : list member_decl) : Prop :=
  in_order 0 (8 * sizeof (Struct false fs)) (placed false 0 fs) /\
  Forall2 (fun '(_, b, t) '(_, (s, _)) => b = None -> s mod (8 * alignof t) = 0) fs (placed false 0 fs) /\
  sizeof (Struct false fs) mod alignof (Struct false fs) = 0.

(** ** The bytes of a structure *)
Definition zeros (n : Z) : list byte := replicate (Z.to_nat n) Byte.x00.

(** The bytes of the members [vs] of a structure without bit-fields, from
    byte [o] on, the padding zero. *)
Fixpoint encode_members (o : Z) (fs : list member_decl) (vs : list (list byte)) : list byte :=
  match fs, vs with
  | (_, _, t) :: fs', v :: vs' =>
      let s := round_up o (alignof t) in
      zeros (s - o) ++ v ++ encode_members (s + sizeof t) fs' vs'
  | _, _ => []
  end.

Fixpoint members_end (o : Z) (fs : list member_decl) : Z :=
  match fs with
  | [] => o
  | (_, _, t) :: fs' => members_end (round_up o (alignof t) + sizeof t) fs'
  end.

Definition encode_struct (fs : list member_decl) (vs : list (list byte)) : list byte :=
  encode_members 0 fs vs ++ zeros (sizeof (Struct false fs) - members_end 0 fs).

(** The members have the sizes of their types. *)
Fixpoint sized (fs : list member_decl) (vs : list (list byte)) : Prop :=
  match fs, vs with
  | [], [] => True
  | (_, b, t) :: fs', v :: vs' => b = None /\ Z.of_nat (length v) = sizeof t /\ sized fs' vs'
  | _, _ => False
  end.

(** No padding between the members (there may be some after the last). *)
Fixpoint unpadded (o : Z) (fs : list member_decl) : bool :=
  match fs with
  | [] => true
  | (_, _, t) :: fs' => (round_up o (alignof t) =? o) && unpadded (o + sizeof t) fs'
  end.

(** Go's binary.Read of a struct whose fields take [sizes] bytes: the fields
    one after the other; a short buffer is an error. *)
Fixpoint binary_read (sizes : list nat) (bs : list byte) : option (list (list byte)) :=
  match sizes with
  | [] => Some []
  | n :: sizes' =>
      if (length bs <? n)%nat then None
      else match binary_read sizes' (drop n bs) with
           | Some vs => Some (take n bs :: vs)
           | None => None
           end
  end.

(** ** The interface of a perf record

    [E] is submitted as a C structure with the members [wire_members] and
    decoded into the Go struct with fields of [wire_sizes] bytes. *)
Class Wire (E : Type) := {
  wire_members : list member_decl;
  wire_sizes : list nat;
  wire_fields : E -> list (list byte);
  wire_valid : E -> Prop;
  wire_parse : list (list byte) -> option E;
  wire_sized : forall x, wire_valid x -> sized wire_members (wire_fields x);
  wire_parse_fields : forall x, wire_valid x -> wire_parse (wire_fields x) = Some x;
  wire_unpadded : unpadded 0 wire_members = true;
  wire_agree : map (fun '(_, _, t) => Z.to_nat (sizeof t)) wire_members = wire_sizes
}.

(** The record a program submits, and what the collector reads from it. *)
Definition wire_encode {E} `{Wire E} (x : E) : list byte :=
  encode_struct wire_members (wire_fields x).

Definition wire_decode {E} `{Wire E} (bs : list byte) : option E :=
  match binary_read wire_sizes bs with
  | Some vs => wire_parse vs
  | None => None
  end.

(** ** Lemmas *)

Lemma round_up_ge z a : 0 < a -> z <= round_up z a.
Proof.
  intros Ha. unfold round_up. pose proof (Z.mod_pos_bound (z + a - 1) a Ha).
  pose proof (Z.div_mod (z + a - 1) a ltac:(lia)). nia.
Qed.

Lemma round_up_lt z a : 0 < a -> round_up z a < z + a.
Proof.
  intros Ha. unfold round_up. pose proof (Z.mod_pos_bound (z + a - 1) a Ha).
  pose proof (Z.div_mod (z + a - 1) a ltac:(lia)). nia.
Qed.

Lemma round_up_mod z a : 0 < a -> round_up z a mod a = 0.
Proof. intros. apply Z.mod_mul. lia. Qed.

Lemma length_zeros n : 0 <= n -> Z.of_nat (length (zeros n)) = n.
Proof. intros. unfold zeros. rewrite length_replicate. lia. Qed.

Lemma alignof_pos t : wf_ctype t = true -> 0 < alignof t.
Proof.
  revert t. fix IH 1. intros [s|n t|p fs|fs]; cbn [wf_ctype alignof].
  - intros. by reflect_bool.
  - intros H. apply andb_prop in H as [_ H]. by apply IH.
  - intros _. destruct p; [lia|]. induction fs; simpl; lia.
  - intros _. induction fs; simpl; lia.
Qed.

(** A member is placed after what precedes it. *)
Lemma place_ge p o b al sz :
  0 < al -> 0 <= sz -> 0 <= o -> match b with Some w => 0 <= w | None => True end ->
  let '(s, e) := place p o b al sz in o <= s <= e.
Proof.
  intros Ha Hs Ho Hb. unfold place.
  pose proof (round_up_ge o (8 * al) ltac:(lia)). pose proof (round_up_ge o 8 ltac:(lia)).
  destruct b as [w|]; repeat case_match; simplify_eq; lia.
Qed.

Lemma round_up_div_nonneg e a : 0 <= e -> 0 < a -> 0 <= round_up e (8 * a) / 8.
Proof.
  intros He Ha. pose proof (round_up_ge e (8 * a) ltac:(lia)). apply Z.div_pos; lia.
Qed.

Lemma sizeof_nonneg t : wf_ctype t = true -> 0 <= sizeof t.
Proof.
  revert t. fix IH 1. intros [s|n t|p fs|fs] Hwf.
  - simpl in *. by reflect_bool; lia.
  - simpl in *. apply andb_prop in Hwf as [Hn Ht]. apply IH in Ht. reflect_bool. nia.
  - cbn [sizeof]. apply round_up_div_nonneg; [|by apply alignof_pos]. cbn [wf_ctype] in Hwf.
    assert (forall o, 0 <= o -> 0 <= fold_left
      (fun o '(_, b, t') => snd (place p o b (alignof t') (sizeof t'))) fs o) as H; [|by apply H].
    induction fs as [|[[n b] t] fs IHfs]; intros o Ho; [done|].
    simpl in *. apply andb_prop in Hwf as [Hf Hwf]. apply andb_prop in Hf as [Ht Hb].
    apply IHfs; [done|]. pose proof (place_ge p o b (alignof t) (sizeof t) (alignof_pos t Ht)
      (IH t Ht) Ho) as H. destruct (place p o b _ _). simpl.
    assert (o <= z <= z0); [|lia]. apply H. destruct b; [|done]. reflect_bool. lia.
  - cbn [sizeof]. apply round_up_div_nonneg; [|by apply alignof_pos].
    assert (forall o, 0 <= o -> 0 <= fold_left (fun o '(_, b, t') =>
      Z.max o (match b with Some w => w | None => 8 * sizeof t' end)) fs o) as H; [|by apply H].
    clear. induction fs as [|[[n b] t] fs IHfs]; intros o Ho; simpl; [done|]. apply IHfs. lia.
Qed.

(** A well-formed list of members, each placed after the previous one. *)
Lemma placed_in_order p fs o :
  wf_ctype (Struct p fs) = true -> 0 <= o ->
  in_order o (fold_left (fun o '(_, b, t') => snd (place p o b (alignof t') (sizeof t'))) fs o)
    (placed p o fs).
Proof.
  cbn [wf_ctype]. revert o. induction fs as [|[[n b] t] fs IH]; intros o Hwf Ho; [simpl; lia|].
  simpl in *. apply andb_prop in Hwf as [Hf Hwf]. apply andb_prop in Hf as [Ht Hb].
  pose proof (place_ge p o b (alignof t) (sizeof t) (alignof_pos t Ht) (sizeof_nonneg t Ht) Ho) as H.
  destruct (place p o b _ _) as [s e]. simpl.
  assert (o <= s <= e) by (apply H; destruct b; [reflect_bool; lia|done]).
  split; [done|]. apply IH; [done|lia].
Qed.

Lemma in_order_weaken o e e' ps : in_order o e ps -> e <= e' -> in_order o e' ps.
Proof.
  revert o. induction ps as [|[n [s f]] ps IH]; intros o; simpl; [lia|].
  intros [H1 H2] He. split; [done|by apply IH].
Qed.

(** The layout algorithm keeps its promise on every well-formed structure. *)
Lemma layout_sound_wf fs : wf_ctype (Struct false fs) = true -> layout_sound fs.
Proof.
  intros Hwf. pose proof (alignof_pos _ Hwf) as Ha.
  set (e := fold_left (fun o '(_, b, t') => snd (place false o b (alignof t') (sizeof t'))) fs 0).
  set (k := (e + 8 * alignof (Struct false fs) - 1) / (8 * alignof (Struct false fs))).
  assert (sizeof (Struct false fs) = k * alignof (Struct false fs)) as Hs.
  { cbn [sizeof]. fold e. unfold round_up. fold k. rewrite (Z.mul_comm 8), Z.mul_assoc.
    apply Z.div_mul. lia. }
  split_and!.
  - eapply in_order_weaken; [by apply placed_in_order|]. fold e. rewrite Hs.
    pose proof (round_up_ge e (8 * alignof (Struct false fs)) ltac:(lia)) as H.
    unfold round_up in H. fold k in H. lia.
  - clear e k Hs Ha. cbn [wf_ctype] in Hwf.
    enough (forall o, Forall2 (fun '(_, b, t) '(_, (s, _)) => b = None -> s mod (8 * alignof t) = 0)
              fs (placed false o fs)) by done.
    induction fs as [|[[n b] t] fs IH]; intros o; [constructor|].
    cbn [placed]. simpl in Hwf. apply andb_prop in Hwf as [Hf Hwf]. apply andb_prop in Hf as [Ht _].
    destruct (place false o b (alignof t) (sizeof t)) as [s e] eqn:E. constructor; [|by apply IH].
    intros ->. unfold place in E. simplify_eq. apply round_up_mod. pose proof (alignof_pos t Ht). lia.
  - rewrite Hs. apply Z.mod_mul. lia.
Qed.

(** Reading back unpadded members, whatever follows them. *)
Lemma binary_read_members fs vs o rest :
  sized fs vs -> unpadded o fs = true ->
  binary_read (map (fun '(_, _, t) => Z.to_nat (sizeof t)) fs) (encode_members o fs vs ++ rest) =
    Some vs.
Proof.
  revert vs o. induction fs as [|[[n b] t] fs IH]; intros [|v vs] o Hs Hu; simpl in *; try done.
  destruct Hs as (_ & Hv & Hs). apply andb_prop in Hu as [Ho Hu]. apply Z.eqb_eq in Ho.
  rewrite Ho, Z.sub_diag. unfold zeros. simpl. rewrite <- (assoc_L (++)).
  replace (Z.to_nat (sizeof t)) with (length v) by lia.
  rewrite length_app. case_match; [rewrite Nat.ltb_lt in *; lia|].
  by rewrite drop_app_length, take_app_length, IH.
Qed.

(** Decoding what was encoded, the record of a perf buffer may carry trailing
    bytes. *)
Lemma wire_decode_encode {E} `{Wire E} (x : E) rest :
  wire_valid x -> wire_decode (wire_encode x ++ rest) = Some x.
Proof.
  intros Hx. unfold wire_decode, wire_encode, encode_struct.
  rewrite <- wire_agree, <- (assoc_L (++)).
  rewrite binary_read_members by auto using wire_sized, wire_unpadded.
  by apply wire_parse_fields.
Qed.

Lemma s32_u32 z : - 2 ^ 31 <= z < 2 ^ 31 -> s32 (le_Z (le_bytes 4 z)) = z.
Proof.
  intros Hz. rewrite le_Z_le_bytes. unfold s32. rewrite Z.add_mod_idemp_l by lia.
  rewrite Z.mod_small; lia.
Qed.

Lemma s64_u64 z : - 2 ^ 63 <= z < 2 ^ 63 -> s64 (le_Z (le_bytes 8 z)) = z.
Proof.
  intros Hz. rewrite le_Z_le_bytes. unfold s64. rewrite Z.add_mod_idemp_l by lia.
  rewrite Z.mod_small; lia.
Qed.

(** An array of 8-byte words. *)
Definition word_bytes (ws : list Z) : list byte := flat_map (le_bytes 8) ws.
Fixpoint words (n : nat) (bs : list byte) : list Z :=
  match n with
  | O => []
  | S n' => le_Z (take 8 bs) :: words n' (drop 8 bs)
  end.

Lemma length_word_bytes ws : length (word_bytes ws) = (8 * length ws)%nat.
Proof.
  induction ws as [|w ws IH]; [done|]. cbn [word_bytes flat_map length].
  rewrite length_app, length_le_bytes. unfold word_bytes in IH. lia.
Qed.

Lemma words_word_bytes ws : Forall (is_u 64) ws -> words (length ws) (word_bytes ws) = ws.
Proof.
  induction ws as [|w ws IH]; intros Hw; [done|]. apply Forall_cons in Hw as [Hw Hws].
  cbn [length words word_bytes flat_map]. fold (word_bytes ws).
  rewrite <- (length_le_bytes 8 w) at 1 3. rewrite take_app_length, drop_app_length, IH by done.
  by rewrite le_Z_le_bytes_small.
Qed.

Lemma words_range n bs : Forall (is_u 64) (words n bs).
Proof.
  revert bs. induction n as [|n IH]; intros bs; cbn [words]; constructor; [|done].
  pose proof (le_Z_range (take 8 bs)) as [H1 H2]. split; [done|].
  eapply Z.lt_le_trans; [exact H2|]. apply Z.pow_le_mono_r; [lia|].
  rewrite length_take. lia.
Qed.

Lemma length_words n bs : length (words n bs) = n.
Proof. revert bs. induction n; intros; simpl; congruence. Qed.

(** The obligations of an instance of [Wire]: [x] is a record whose validity
    is a conjunction of ranges and lengths. *)
Ltac wire_sized :=
  let x := fresh "x" in
  intros x Hx; destruct x; simpl in Hx |- *; intuition;
  rewrite ?length_le_bytes; simpl; lia.

Ltac wire_parse :=
  let x := fresh "x" in
  intros x Hx; destruct x; simpl in Hx |- *; decompose [and] Hx;
  rewrite ?s32_u32, ?s64_u64 by (split; assumption);
  rewrite ?le_Z_le_bytes_small by assumption; reflexivity.
