(* ===== verification/Bpf.v ===== *)
(** * The BPF runtime the programs under src/bpf run on

    The constants of bpf/include/bpf_common.h, the state of the BPF maps and
    the helpers of <bpf/bpf_helpers.h> and <bpf/bpf_core_read.h> the programs
    call.  A program is a computation of the state monad [M]: it reads an
    environment [kenv] (the clock, the current task, kernel memory, the
    offsets CO-RE relocates the field accesses to), updates the state of its
    object file (maps and globals) and submits perf records. *)
From S2P Require Import Prelude.
From stdpp Require Import base gmap list strings.
From Stdlib Require Import ZArith Lia.
From Stdlib.Strings Require Byte.

Open Scope Z_scope.

(** ** bpf_common.h *)
Definition COMPAT_BPF_F_CURRENT_CPU : Z := 0xffffffff.
Definition COMPAT_TASK_COMM_LEN : nat := 16.
Definition COMPAT_CPU_NUM : Z := 128.
Definition PERF_MAX_STACK_DEPTH : nat := 127.
Definition COMPAT_BPF_F_USER_STACK : Z := 256.
Definition COMPAT_BPF_ANY : Z := 0.
Definition COMPAT_BPF_NOEXIST : Z := 1.
Definition COMPAT_BPF_EXIST : Z := 2.
Definition NR_SOFTIRQS_MAX : nat := 16.
Definition NSEC_PER_MSEC : Z := 1000000.
Definition NSEC_PER_USEC : Z := 1000.

(** ** Kernel memory

    The kernel structure fields the programs read.  Their offsets are those
    of the running kernel: the loader relocates every access (CO-RE). *)
Inductive field :=
| task_flags | task_cgroups | task_pid | task_comm
| task_state | task___state | task_sched_task_group
| css_set_subsys
| css_cgroup
| cgroup_kn | cgroup_root_ptr | cgroup_level | cgroup_subsys
| kernfs_name
| cgroup_root_hierarchy_id
| netdev_dev | netdev_ifindex | netdev_rx_dropped_counter
| oom_chosen
| skb_head | skb_network_header_off | skb_transport_header_off
| skb_tstamp | skb_sk | skb_protocol | skb_len | skb_queue_mapping
| sock_skc_state | sock_skc_family
| sock___sk_flags_offset | sock_sk_type | sock_sk_protocol
| hang_comm.

(** The environment of one invocation of a program. *)
Record kenv := mk_kenv {
  ktime : nat -> Z;               (** the n-th bpf_ktime_get_ns() of the invocation *)
  cur_pid_tgid : Z;               (** bpf_get_current_pid_tgid() *)
  cur_cpu : Z;                    (** bpf_get_smp_processor_id() *)
  cur_comm : list byte;           (** what bpf_get_current_comm() stores *)
  cur_task : Z;                   (** bpf_get_current_task() *)
  kmem : Z -> option byte;        (** readable kernel memory *)
  koff : field -> Z;              (** relocated field offsets *)
  kexists : field -> bool;        (** bpf_core_field_exists() *)
  get_stack : Z -> nat -> list byte * Z  (** bpf_get_stack(flags, size) *)
}.

(** The bytes at [addr], if all of them can be read. *)
Fixpoint mem_bytes (mem : Z -> option byte) (addr : Z) (n : nat) : option (list byte) :=
  match n with
  | O => Some []
  | S n' =>
      match mem (u64 addr), mem_bytes mem (addr + 1) n' with
      | Some b, Some bs => Some (b :: bs)
      | _, _ => None
      end
  end.

(** bpf_probe_read(): a faulting read leaves the destination zeroed. *)
Definition probe_read (e : kenv) (n : nat) (addr : Z) : list byte :=
  default (replicate n Byte.x00) (mem_bytes (kmem e) addr n).

(** BPF_CORE_READ(p, f) of an [n]-byte unsigned field. *)
Definition core_read (e : kenv) (n : nat) (p : Z) (f : field) : Z :=
  le_Z (probe_read e n (p + koff e f)).

(** enum cgroup_subsys_id *)
Inductive cgroup_subsys_id :=
| cpuset_cgrp | cpu_cgrp | cpuacct_cgrp | io_cgrp | memory_cgrp | devices_cgrp | freezer_cgrp
| net_cls_cgrp | perf_event_cgrp | net_prio_cgrp | hugetlb_cgrp | pids_cgrp | rdma_cgrp.

Definition cgrp_id (s : cgroup_subsys_id) : Z :=
  match s with
  | cpuset_cgrp => 0 | cpu_cgrp => 1 | cpuacct_cgrp => 2 | io_cgrp => 3 | memory_cgrp => 4
  | devices_cgrp => 5 | freezer_cgrp => 6 | net_cls_cgrp => 7 | perf_event_cgrp => 8
  | net_prio_cgrp => 9 | hugetlb_cgrp => 10 | pids_cgrp => 11 | rdma_cgrp => 12
  end.
Definition cpu_cgrp_id : Z := cgrp_id cpu_cgrp.
Definition memory_cgrp_id : Z := cgrp_id memory_cgrp.
Definition CGROUP_SUBSYS_COUNT : nat := 13.

(** BPF_CORE_READ(task, cgroups, subsys[id]) *)
Definition core_read_subsys (e : kenv) (task id : Z) : Z :=
  le_Z (probe_read e 8 (core_read e 8 task task_cgroups + koff e css_set_subsys + 8 * id)).

(** bpf_probe_read_str(): the characters up to the NUL, at most [size - 1]
    of them, then the NUL; [None] on a fault. *)
Fixpoint read_str (mem : Z -> option byte) (addr : Z) (room : nat) : option (list byte) :=
  match room with
  | O => Some [Byte.x00]
  | S room' =>
      match mem (u64 addr) with
      | None => None
      | Some b =>
          if decide (b = Byte.x00) then Some [Byte.x00]
          else match read_str mem (addr + 1) room' with
               | Some bs => Some (b :: bs)
               | None => None
               end
      end
  end.

(** The return value (the length with the NUL, or -EFAULT) and what the
    [size]-byte destination, zero before the call, holds after it. *)
Definition probe_read_str (e : kenv) (size : nat) (addr : Z) : Z * list byte :=
  match read_str (kmem e) addr (size - 1) with
  | Some bs => (Z.of_nat (length bs), bs ++ replicate (size - length bs) Byte.x00)
  | None => (-14, replicate size Byte.x00)
  end.

(** The string [s] (no NUL in it) at [addr], NUL-terminated. *)
Fixpoint str_at (mem : Z -> option byte) (addr : Z) (s : list byte) : Prop :=
  match s with
  | [] => mem (u64 addr) = Some Byte.x00
  | b :: s' => mem (u64 addr) = Some b /\ b <> Byte.x00 /\ str_at mem (addr + 1) s'
  end.

(** ** Maps *)
Definition EEXIST : Z := -17.
Definition ENOENT : Z := -2.
Definition E2BIG : Z := -7.
Definition EINVAL : Z := -22.

(** bpf_map_update_elem() on a BPF_MAP_TYPE_HASH of [max] entries. *)
Definition hash_update {K V} `{Countable K} (max : Z) (k : K) (v : V) (flags : Z)
    (m : gmap K V) : Z * gmap K V :=
  if COMPAT_BPF_EXIST <? flags then (EINVAL, m)
  else match m !! k with
       | Some _ => if flags =? COMPAT_BPF_NOEXIST then (EEXIST, m) else (0, <[k:=v]> m)
       | None =>
           if flags =? COMPAT_BPF_EXIST then (ENOENT, m)
           else if max <=? Z.of_nat (size m) then (E2BIG, m)
           else (0, <[k:=v]> m)
       end.

Definition hash_delete {K V} `{Countable K} (k : K) (m : gmap K V) : Z * gmap K V :=
  match m !! k with
  | Some _ => (0, delete k m)
  | None => (ENOENT, m)
  end.

(** bpf_map_update_elem() on a BPF_MAP_TYPE_ARRAY: every index below
    max_entries always exists. *)
Definition array_update {V} (k : nat) (v : V) (flags : Z) (a : list V) : Z * list V :=
  if COMPAT_BPF_EXIST <? flags then (EINVAL, a)
  else if (length a <=? k)%nat then (E2BIG, a)
  else if flags =? COMPAT_BPF_NOEXIST then (EEXIST, a)
  else (0, <[k:=v]> a).

(** A BPF_MAP_TYPE_PERCPU_ARRAY: one array per CPU, zero at load time. *)
Definition percpu (V : Type) : Type := Z -> list V.
Definition percpu_set {V} (cpu : Z) (a : list V) (p : percpu V) : percpu V :=
  fun c => if c =? cpu then a else p c.

(** ** The program monad *)
Record world (S : Type) := W {
  w_st : S;                          (** maps and globals of the object *)
  w_clk : nat;                       (** clock reads made so far *)
  w_out : list (string * list byte)  (** records submitted to perf maps *)
}.
Arguments W {S} _ _ _.
Arguments w_st {S} _.
Arguments w_clk {S} _.
Arguments w_out {S} _.

Definition M (S A : Type) : Type := kenv -> world S -> A * world S.

#[export] Instance M_ret {S} : MRet (M S) := fun A x _ w => (x, w).
#[export] Instance M_bind {S} : MBind (M S) := fun A B k m e w =>
  let '(x, w') := m e w in k x e w'.

Definition asks {S A} (f : kenv -> A) : M S A := fun e w => (f e, w).
Definition gets {S A} (f : S -> A) : M S A := fun _ w => (f (w_st w), w).
Definition modify {S} (f : S -> S) : M S unit := fun _ w =>
  (tt, W (f (w_st w)) (w_clk w) (w_out w)).

Definition bpf_ktime_get_ns {S} : M S Z := fun e w =>
  (ktime e (w_clk w), W (w_st w) (Datatypes.S (w_clk w)) (w_out w)).

(** bpf_perf_event_output(ctx, map, BPF_F_CURRENT_CPU, data, size); every
    program ignores its result. *)
Definition bpf_perf_event_output {S} (map : string) (data : list byte) : M S unit :=
  fun _ w => (tt, W (w_st w) (w_clk w) (w_out w ++ [(map, data)])).

(** A hash map inside the object's state. *)
Record mapref (S K V : Type) `{Countable K} := mk_mapref {
  mget : S -> gmap K V;
  mset : gmap K V -> S -> S;
  mmax : Z
}.
Arguments mk_mapref {S K V _ _} _ _ _.
Arguments mget {S K V _ _} _ _.
Arguments mset {S K V _ _} _ _ _.
Arguments mmax {S K V _ _} _.

Section HashOps.
Context {S K V : Type} `{Countable K} (r : mapref S K V).

Definition map_lookup_elem (k : K) : M S (option V) := gets (fun s => mget r s !! k).

Definition map_update_elem (k : K) (v : V) (flags : Z) : M S Z :=
  m ← gets (mget r);
  let '(rc, m') := hash_update (mmax r) k v flags m in
  modify (mset r m');; mret rc.

Definition map_delete_elem (k : K) : M S Z :=
  m ← gets (mget r);
  let '(rc, m') := hash_delete k m in
  modify (mset r m');; mret rc.

(** A store through the pointer a lookup of [k] returned. *)
Definition elem_store (k : K) (f : V -> V) : M S unit :=
  modify (fun s => mset r (alter f k (mget r s)) s).
End HashOps.

(** A per-CPU array inside the object's state: every access is to the array
    of the CPU the program runs on. *)
Record pcref (S V : Type) := mk_pcref {
  pc_get : S -> percpu V;
  pc_set : percpu V -> S -> S
}.
Arguments mk_pcref {S V} _ _.
Arguments pc_get {S V} _ _.
Arguments pc_set {S V} _ _ _.

Section PercpuOps.
Context {S V : Type} (r : pcref S V).

Definition percpu_lookup_elem (k : Z) : M S (option V) :=
  cpu ← asks cur_cpu; gets (fun s => pc_get r s cpu !! Z.to_nat k).

Definition percpu_update_elem (k : Z) (v : V) (flags : Z) : M S Z :=
  cpu ← asks cur_cpu;
  a ← gets (fun s => pc_get r s cpu);
  let '(rc, a') := array_update (Z.to_nat k) v flags a in
  modify (fun s => pc_set r (percpu_set cpu a' (pc_get r s)) s);; mret rc.

(** A store through the pointer a lookup of [k] returned. *)
Definition percpu_store (k : Z) (f : V -> V) : M S unit :=
  cpu ← asks cur_cpu;
  modify (fun s => pc_set r (percpu_set cpu (alter f (Z.to_nat k) (pc_get r s cpu)) (pc_get r s)) s).
End PercpuOps.

(** Run [m] on a part of the state. *)
Definition zoom {S T A} (get : S -> T) (set : T -> S -> S) (m : M T A) : M S A :=
  fun e w =>
    let '(x, w') := m e (W (get (w_st w)) (w_clk w) (w_out w)) in
    (x, W (set (w_st w') (w_st w)) (w_clk w') (w_out w')).

(** One invocation: the state after it and the records it submitted. *)
Definition run {S A} (m : M S A) (e : kenv) (s : S) : S * list (string * list byte) :=
  let w := snd (m e (W s 0%nat [])) in (w_st w, w_out w).
Arguments run : simpl never.

(** A sequence of invocations, each in its own environment. *)
Fixpoint run_all {S A} (ms : list (kenv * M S A)) (s : S) : S * list (string * list byte) :=
  match ms with
  | [] => (s, [])
  | (e, m) :: ms' =>
      let '(s', o) := run m e s in
      let '(s'', o') := run_all ms' s' in (s'', o ++ o')
  end.

(** What the helpers guarantee about the values of an environment. *)
Record kenv_ok (e : kenv) : Prop := mk_kenv_ok {
  ok_ktime : forall n, is_u 64 (ktime e n);
  ok_ktime_mono : forall n, ktime e n <= ktime e (S n);
  ok_pid_tgid : is_u 64 (cur_pid_tgid e);
  ok_cpu : is_u 32 (cur_cpu e);
  ok_comm : length (cur_comm e) = COMPAT_TASK_COMM_LEN;
  ok_stack : forall flags n, length (fst (get_stack e flags n)) = n
}.

(** A closed environment for examples: task [pid_tgid] on [cpu], the clock at
    [now], no readable kernel memory. *)
Definition example_env (now pid_tgid cpu : Z) : kenv :=
  mk_kenv (fun _ => now) pid_tgid cpu (replicate COMPAT_TASK_COMM_LEN Byte.x00) 0
    (fun _ => None) (fun _ => 0) (fun _ => false) (fun _ n => (replicate n Byte.x00, 0)).

(** Memory made of segments, and an environment that reads it with the field
    offsets [off]. *)
Fixpoint segs_mem (l : list (Z * list byte)) (a : Z) : option byte :=
  match l with
  | [] => None
  | (base, bs) :: l' =>
      if (base <=? a) && (a <? base + Z.of_nat (length bs)) then bs !! Z.to_nat (a - base)
      else segs_mem l' a
  end.

Definition memory_env (e : kenv) (off : field -> Z) (ex : field -> bool) (l : list (Z * list byte))
    : kenv :=
  mk_kenv (ktime e) (cur_pid_tgid e) (cur_cpu e) (cur_comm e) (cur_task e) (segs_mem l) off ex
    (get_stack e).

(** ** Lemmas *)

Lemma example_env_ok now pid_tgid cpu :
  is_u 64 now -> is_u 64 pid_tgid -> is_u 32 cpu -> kenv_ok (example_env now pid_tgid cpu).
Proof. intros. constructor; intros; simpl; try done. apply length_replicate. Qed.

Lemma memory_env_ok e off ex segs : kenv_ok e -> kenv_ok (memory_env e off ex segs).
Proof. by intros []. Qed.

(** Evaluate a program symbolically. *)
Ltac run_simpl :=
  cbv beta iota zeta delta [mbind mret M_bind M_ret asks gets modify bpf_ktime_get_ns
    bpf_perf_event_output map_lookup_elem map_update_elem map_delete_elem elem_store percpu_lookup_elem
    percpu_update_elem percpu_store pc_get pc_set zoom run
    w_st w_clk w_out mget mset mmax fst snd].

Lemma length_mem_bytes mem addr n bs : mem_bytes mem addr n = Some bs -> length bs = n.
Proof.
  revert addr bs. induction n as [|n IH]; intros addr bs; simpl; [naive_solver|].
  destruct (mem (u64 addr)), (mem_bytes mem (addr + 1) n) eqn:E; naive_solver.
Qed.

Lemma length_probe_read e n addr : length (probe_read e n addr) = n.
Proof.
  unfold probe_read. destruct (mem_bytes _ _ _) eqn:E; simpl.
  - by eapply length_mem_bytes.
  - apply length_replicate.
Qed.

Lemma read_str_at mem addr s room :
  str_at mem addr s -> read_str mem addr room = Some (take room s ++ [Byte.x00]).
Proof.
  revert addr room. induction s as [|b s IH]; intros addr [|room] Hs; simpl in *; try done.
  - by rewrite Hs, decide_True by done.
  - destruct Hs as (-> & Hb & Hs). rewrite decide_False by done. by rewrite (IH _ _ Hs).
Qed.

Lemma probe_read_str_at e size addr s :
  str_at (kmem e) addr s ->
  probe_read_str e (S size) addr =
    (Z.of_nat (Nat.min size (length s)) + 1,
     take size s ++ replicate (S size - Nat.min size (length s)) Byte.x00).
Proof.
  intros Hs. unfold probe_read_str. replace (S size - 1)%nat with size by lia.
  rewrite (read_str_at _ _ _ _ Hs). rewrite length_app, length_take. cbn [length].
  f_equal; [lia|]. rewrite <- (assoc_L (++)). f_equal.
  replace (S size - Nat.min size (length s))%nat with (S (S size - (Nat.min size (length s) + 1))) by lia.
  done.
Qed.

Lemma length_read_str mem addr room bs :
  read_str mem addr room = Some bs -> (0 < length bs <= S room)%nat.
Proof.
  revert addr bs. induction room as [|room IH]; intros addr bs; simpl; [intros [= <-]; simpl; lia|].
  destruct (mem (u64 addr)) as [b|]; [|done]. case_decide; [intros [= <-]; simpl; lia|].
  destruct (read_str mem (addr + 1) room) as [bs'|] eqn:E; [|done]. intros [= <-].
  specialize (IH _ _ E). simpl. lia.
Qed.

Lemma length_probe_read_str e n addr :
  (0 < n)%nat -> length (snd (probe_read_str e n addr)) = n.
Proof.
  intros Hn. unfold probe_read_str. destruct (read_str _ _ _) as [bs|] eqn:E; simpl.
  - apply length_read_str in E. rewrite length_app, length_replicate. lia.
  - apply length_replicate.
Qed.

Lemma core_read_subsys_u64 e task id : is_u 64 (core_read_subsys e task id).
Proof.
  unfold core_read_subsys.
  pose proof (le_Z_range (probe_read e 8
    (core_read e 8 task task_cgroups + koff e css_set_subsys + 8 * id))) as Hr.
  by rewrite length_probe_read in Hr.
Qed.

Lemma core_read_range e n p f : is_u (8 * Z.of_nat n) (core_read e n p f).
Proof. unfold core_read. rewrite <- (length_probe_read e n (p + koff e f)) at 1. apply le_Z_range. Qed.

Lemma core_read_u64 e n p f : (n <= 8)%nat -> is_u 64 (core_read e n p f).
Proof.
  intros Hn. pose proof (core_read_range e n p f) as [H1 H2]. split; [done|].
  eapply Z.lt_le_trans; [exact H2|]. apply Z.pow_le_mono_r; lia.
Qed.

Section HashUpdate.
Context {K V : Type} `{Countable K}.
Implicit Types (m : gmap K V) (k : K).

(** BPF_ANY stores the value unless the key is new and the map is full. *)
Lemma hash_update_any max k v m :
  hash_update max k v COMPAT_BPF_ANY m =
    if bool_decide (is_Some (m !! k)) || (Z.of_nat (size m) <? max)
    then (0, <[k:=v]> m) else (E2BIG, m).
Proof.
  unfold hash_update. simpl. destruct (m !! k); simpl; [done|].
  destruct (Z.leb_spec max (Z.of_nat (size m))), (Z.ltb_spec (Z.of_nat (size m)) max);
    (done || lia).
Qed.

Lemma hash_update_size max k v fl m :
  Z.of_nat (size m) <= max -> Z.of_nat (size (hash_update max k v fl m).2) <= max.
Proof.
  intros Hs. unfold hash_update. case_if; [done|].
  destruct (m !! k) eqn:E; case_if; simpl; try done.
  - by rewrite map_size_insert_Some by eauto.
  - case_if; simpl; [done|]. rewrite map_size_insert_None by done. lia.
Qed.

Lemma hash_update_lookup_ne max k k' v fl m :
  k <> k' -> (hash_update max k v fl m).2 !! k' = m !! k'.
Proof.
  intros Hne. unfold hash_update. repeat case_match; simpl; try done; by apply lookup_insert_ne.
Qed.

Lemma hash_delete_eq k m : (hash_delete k m).2 = delete k m.
Proof.
  unfold hash_delete. destruct (m !! k) eqn:E; [done|].
  simpl. symmetry. by apply delete_id.
Qed.
End HashUpdate.

(** The continuation of a program whose first step is known. *)
Lemma run_bind {S A B} (m : M S A) (k : A -> M S B) e s x w :
  m e (W s 0%nat []) = (x, w) ->
  run (m ≫= k) e s = (w_st (snd (k x e w)), w_out (snd (k x e w))).
Proof. intros E. unfold run, mbind, M_bind. by rewrite E. Qed.

Lemma run_asks {S A B} (f : kenv -> A) (k : A -> M S B) e s :
  run (asks f ≫= k) e s = run (k (f e)) e s.
Proof. done. Qed.

Lemma run_ret {S A} (x : A) e (s : S) : run (mret x) e s = (s, []).
Proof. done. Qed.

Lemma percpu_set_eq {V} cpu (a : list V) p : percpu_set cpu a p cpu = a.
Proof. unfold percpu_set. by rewrite Z.eqb_refl. Qed.

Lemma percpu_set_ne {V} cpu cpu' (a : list V) p : cpu' <> cpu -> percpu_set cpu a p cpu' = p cpu'.
Proof. intros. unfold percpu_set. by rewrite (proj2 (Z.eqb_neq _ _)). Qed.

(** BPF_ANY on an array stores below max_entries. *)
Lemma array_update_any {V} k (v : V) a :
  (k < length a)%nat -> array_update k v COMPAT_BPF_ANY a = (0, <[k:=v]> a).
Proof. intros. unfold array_update. simpl. case_match; [rewrite Nat.leb_le in *; lia|done]. Qed.

Lemma run_all_app {S A} (l1 l2 : list (kenv * M S A)) s :
  run_all (l1 ++ l2) s =
    let '(s1, o1) := run_all l1 s in let '(s2, o2) := run_all l2 s1 in (s2, o1 ++ o2).
Proof.
  revert s. induction l1 as [|[e m] l1 IH]; intros s; cbn [run_all app].
  - by destruct (run_all l2 s).
  - destruct (run m e s) as [s' o]. rewrite IH.
    destruct (run_all l1 s') as [s1 o1]. destruct (run_all l2 s1) as [s2 o2].
    by rewrite app_assoc.
Qed.

Lemma run_all_cons_st {S A} e (m : M S A) l s :
  fst (run_all ((e, m) :: l) s) = fst (run_all l (fst (run m e s))).
Proof.
  cbn [run_all]. destruct (run m e s) as [s1 o1]. cbn [fst]. by destruct (run_all l s1).
Qed.

Lemma run_all_cons_out {S A} e (m : M S A) l s :
  snd (run_all ((e, m) :: l) s) = snd (run m e s) ++ snd (run_all l (fst (run m e s))).
Proof.
  cbn [run_all]. destruct (run m e s) as [s1 o1]. cbn [fst snd]. by destruct (run_all l s1).
Qed.

(** Invariants of one invocation are invariants of every sequence. *)
Lemma run_all_inv {S A} (P : S -> Prop) (l : list (kenv * M S A)) s :
  P s -> Forall (fun '(e, m) => forall s, P s -> P (fst (run m e s))) l ->
  P (fst (run_all l s)).
Proof.
  revert s. induction l as [|[e m] l IH]; intros s Hs Hl; [done|].
  apply Forall_cons in Hl as [Hm Hl]. rewrite run_all_cons_st. apply IH; [by apply Hm|done].
Qed.

(** ** Invariants of programs

    [keeps I m]: whatever the environment, [m] run from a state where [I]
    holds ends in such a state. *)
Definition keeps {S A} (I : S -> Prop) (m : M S A) : Prop :=
  forall e w, I (w_st w) -> I (w_st (snd (m e w))).

Section Keeps.
Context {S : Type} (I : S -> Prop).

Lemma keeps_ret {A} (x : A) : keeps I (mret x).
Proof. by intros e w Hw. Qed.

Lemma keeps_bind {A B} (m : M S A) (k : A -> M S B) :
  keeps I m -> (forall x, keeps I (k x)) -> keeps I (m ≫= k).
Proof.
  intros Hm Hk e w Hw. specialize (Hm e w Hw). unfold mbind, M_bind.
  destruct (m e w) as [x w']. by apply Hk.
Qed.

Lemma keeps_asks {A} (f : kenv -> A) : keeps I (asks f).
Proof. by intros e w Hw. Qed.

Lemma keeps_gets {A} (f : S -> A) : keeps I (gets f).
Proof. by intros e w Hw. Qed.

Lemma keeps_modify (f : S -> S) : (forall s, I s -> I (f s)) -> keeps I (modify f).
Proof. intros Hf e w Hw. by apply Hf. Qed.

Lemma keeps_ktime : keeps I bpf_ktime_get_ns.
Proof. by intros e w Hw. Qed.

Lemma keeps_output map data : keeps I (bpf_perf_event_output map data).
Proof. by intros e w Hw. Qed.

Lemma keeps_lookup {K V} `{Countable K} (r : mapref S K V) k : keeps I (map_lookup_elem r k).
Proof. apply keeps_gets. Qed.

Lemma keeps_update {K V} `{Countable K} (r : mapref S K V) k v fl :
  (forall s, I s -> I (mset r (hash_update (mmax r) k v fl (mget r s)).2 s)) ->
  keeps I (map_update_elem r k v fl).
Proof.
  intros Hu e w Hw. specialize (Hu _ Hw). unfold map_update_elem. run_simpl.
  destruct w as [s clk out]. simpl in *. destruct (hash_update _ _ _ _ _). done.
Qed.

Lemma keeps_delete {K V} `{Countable K} (r : mapref S K V) k :
  (forall s, I s -> I (mset r (delete k (mget r s)) s)) -> keeps I (map_delete_elem r k).
Proof.
  intros Hu e w Hw. specialize (Hu _ Hw). rewrite <- hash_delete_eq in Hu.
  unfold map_delete_elem. run_simpl. destruct w as [s clk out]. simpl in *.
  destruct (hash_delete _ _). done.
Qed.

Lemma keeps_percpu_lookup {V} (r : pcref S V) k : keeps I (percpu_lookup_elem r k).
Proof. by intros e w Hw. Qed.

Lemma keeps_percpu_store {V} (r : pcref S V) k f :
  (forall c s, I s ->
     I (pc_set r (percpu_set c (alter f (Z.to_nat k) (pc_get r s c)) (pc_get r s)) s)) ->
  keeps I (percpu_store r k f).
Proof. intros Hf e w Hw. by apply Hf. Qed.

Lemma keeps_run {A} (m : M S A) e s : keeps I m -> I s -> I (fst (run m e s)).
Proof. intros Hm Hs. unfold run. exact (Hm e (W s 0%nat []) Hs). Qed.

Lemma keeps_run_all {A} (l : list (kenv * M S A)) s :
  Forall (fun '(_, m) => keeps I m) l -> I s -> I (fst (run_all l s)).
Proof.
  intros Hl Hs. apply run_all_inv; [done|]. eapply Forall_impl; [exact Hl|].
  intros [e m] Hm s' Hs'. by apply keeps_run.
Qed.
End Keeps.

#[export] Hint Resolve keeps_ret keeps_asks keeps_gets keeps_ktime keeps_output keeps_lookup
  keeps_percpu_lookup : bpf.

(** Follow the structure of a program. *)
Ltac keeps_step :=
  first
    [ solve [auto with bpf]
    | match goal with
      | |- keeps _ (map_update_elem _ _ _ _) => apply keeps_update
      | |- keeps _ (map_delete_elem _ _) => apply keeps_delete
      | |- keeps _ (modify _) => apply keeps_modify
      | |- keeps _ (percpu_store _ _ _) => apply keeps_percpu_store
      | |- keeps _ (_ ≫= _) => apply keeps_bind; [|intros ?]
      | |- keeps _ (if ?b then _ else _) => destruct b eqn:?
      | |- keeps _ (match ?x with _ => _ end) => destruct x eqn:?
      end ].
