(* ===== verification/Vmlinux.v ===== *)
(** * bpf/include/vmlinux.h: the kernel structures the programs read

    The structures of the reference kernel that the tracepoint contexts, the
    kprobe arguments and the BPF_CORE_READ accesses go through, with every
    structure they embed, as types of [Layout].  [vmlinux_koff] are the field
    offsets they give, the values CO-RE relocation starts from. *)
From S2P Require Import Prelude Layout Bpf.
From stdpp Require Import base list strings.
From Stdlib Require Import ZArith Lia.

Open Scope Z_scope.

Module Vmlinux.

Definition pt_regs : ctype := Struct false
  ["r15" :- c_u64; "r14" :- c_u64; "r13" :- c_u64; "r12" :- c_u64; "bp" :- c_u64; "bx" :- c_u64;
   "r11" :- c_u64; "r10" :- c_u64; "r9" :- c_u64; "r8" :- c_u64; "ax" :- c_u64; "cx" :- c_u64;
   "dx" :- c_u64; "si" :- c_u64; "di" :- c_u64; "orig_ax" :- c_u64; "ip" :- c_u64; "cs" :- c_u64;
   "flags" :- c_u64; "sp" :- c_u64; "ss" :- c_u64]%ctype.

Definition trace_entry : ctype := Struct false
  ["type" :- c_u16; "flags" :- c_u8; "preempt_count" :- c_u8; "pid" :- c_int]%ctype.

Definition trace_event_raw_softirq : ctype := Struct false
  ["ent" :- trace_entry; "vec" :- c_u32; "__data" :- Array 0 c_char]%ctype.

Definition trace_event_raw_tick_stop : ctype := Struct false
  ["ent" :- trace_entry; "success" :- c_int; "dependency" :- c_int; "__data" :- Array 0 c_char]%ctype.

Definition trace_event_raw_net_dev_template : ctype := Struct false
  ["ent" :- trace_entry; "skbaddr" :- c_ptr; "len" :- c_u32; "__data_loc_name" :- c_u32;
   "__data" :- Array 0 c_char]%ctype.

Definition trace_event_raw_skb_copy_datagram_iovec : ctype := Struct false
  ["ent" :- trace_entry; "skbaddr" :- c_ptr; "len" :- c_int; "__data" :- Array 0 c_char]%ctype.

Definition trace_event_raw_kfree_skb : ctype := Struct false
  ["ent" :- trace_entry; "skbaddr" :- c_ptr; "location" :- c_ptr; "protocol" :- c_u16;
   "__data" :- Array 0 c_char]%ctype.

Definition trace_event_raw_sched_process_hang : ctype := Struct false
  ["ent" :- trace_entry; "comm" :- Array 16 c_char; "pid" :- c_int; "__data" :- Array 0 c_char]%ctype.

Definition trace_event_raw_sched_wakeup_template : ctype := Struct false
  ["ent" :- trace_entry; "comm" :- Array 16 c_char; "pid" :- c_int; "prio" :- c_int;
   "success" :- c_int; "target_cpu" :- c_int; "__data" :- Array 0 c_char]%ctype.

Definition bpf_raw_tracepoint_args : ctype := Struct false
  ["args" :- Array 0 c_u64]%ctype.

Definition iphdr : ctype := Struct false
  [bitfield "ihl" 4 c_u8; bitfield "version" 4 c_u8; "tos" :- c_u8; "tot_len" :- c_u16;
   "id" :- c_u16; "frag_off" :- c_u16; "ttl" :- c_u8; "protocol" :- c_u8; "check" :- c_u16;
   "saddr" :- c_u32; "daddr" :- c_u32]%ctype.

Definition tcphdr : ctype := Struct false
  ["source" :- c_u16; "dest" :- c_u16; "seq" :- c_u32; "ack_seq" :- c_u32;
   bitfield "res1" 4 c_u16; bitfield "doff" 4 c_u16; bitfield "fin" 1 c_u16;
   bitfield "syn" 1 c_u16; bitfield "rst" 1 c_u16; bitfield "psh" 1 c_u16;
   bitfield "ack" 1 c_u16; bitfield "urg" 1 c_u16; bitfield "ece" 1 c_u16;
   bitfield "cwr" 1 c_u16; "window" :- c_u16; "check" :- c_u16; "urg_ptr" :- c_u16]%ctype.

Definition rb_node : ctype := Struct false
  ["__rb_parent_color" :- c_u64; "rb_right" :- c_ptr; "rb_left" :- c_ptr]%ctype.

Definition list_head : ctype := Struct false
  ["next" :- c_ptr; "prev" :- c_ptr]%ctype.

Definition atomic_t : ctype := Struct false
  ["counter" :- c_int]%ctype.

Definition refcount_struct : ctype := Struct false
  ["refs" :- atomic_t]%ctype.

Definition sk_buff : ctype := Struct false
  [
   "" :- (CUnion ["" :- (Struct false ["next" :- c_ptr; "prev" :- c_ptr; "" :- (CUnion ["dev" :- c_ptr; "dev_scratch" :- c_u64])]); "rbnode" :- rb_node]);
   "" :- (CUnion ["sk" :- c_ptr; "ip_defrag_offset" :- c_int]);
   "" :- (CUnion ["tstamp" :- c_u64; "skb_mstamp" :- c_u64]); "cb" :- Array 48 c_char;
   "" :- (CUnion ["" :- (Struct false ["_skb_refdst" :- c_u64; "destructor" :- c_ptr]); "tcp_tsorted_anchor" :- list_head]);
   "sp" :- c_ptr; "_nfct" :- c_u64; "nf_bridge" :- c_ptr; "len" :- c_u32; "data_len" :- c_u32;
   "mac_len" :- c_u16; "hdr_len" :- c_u16; "queue_mapping" :- c_u16;
   "__cloned_offset" :- Array 0 c_u8; bitfield "cloned" 1 c_u8; bitfield "nohdr" 1 c_u8;
   bitfield "fclone" 2 c_u8; bitfield "peeked" 1 c_u8; bitfield "head_frag" 1 c_u8;
   bitfield "rh_reserved_xmit_more" 1 c_u8; bitfield "pfmemalloc" 1 c_u8;
   "headers_start" :- Array 0 c_u32; "__pkt_type_offset" :- Array 0 c_u8;
   bitfield "pkt_type" 3 c_u8; bitfield "ignore_df" 1 c_u8; bitfield "nf_trace" 1 c_u8;
   bitfield "ip_summed" 2 c_u8; bitfield "ooo_okay" 1 c_u8; bitfield "l4_hash" 1 c_u8;
   bitfield "sw_hash" 1 c_u8; bitfield "wifi_acked_valid" 1 c_u8; bitfield "wifi_acked" 1 c_u8;
   bitfield "no_fcs" 1 c_u8; bitfield "encapsulation" 1 c_u8; bitfield "encap_hdr_csum" 1 c_u8;
   bitfield "csum_valid" 1 c_u8; bitfield "csum_complete_sw" 1 c_u8;
   bitfield "csum_level" 2 c_u8; bitfield "csum_not_inet" 1 c_u8;
   bitfield "dst_pending_confirm" 1 c_u8; bitfield "ndisc_nodetype" 2 c_u8;
   bitfield "ipvs_property" 1 c_u8; bitfield "inner_protocol_type" 1 c_u8;
   bitfield "remcsum_offload" 1 c_u8; bitfield "offload_fwd_mark" 1 c_u8;
   bitfield "offload_l3_fwd_mark" 1 c_u8; bitfield "tc_skip_classify" 1 c_u8;
   bitfield "tc_at_ingress" 1 c_u8; bitfield "tc_redirected" 1 c_u8;
   bitfield "tc_from_ingress" 1 c_u8; "tc_index" :- c_u16; bitfield "decrypted" 1 c_u8;
   "" :- (CUnion ["csum" :- c_u32; "" :- (Struct false ["csum_start" :- c_u16; "csum_offset" :- c_u16])]);
   "priority" :- c_u32; "skb_iif" :- c_int; "hash" :- c_u32; "vlan_proto" :- c_u16;
   "vlan_tci" :- c_u16; "" :- (CUnion ["napi_id" :- c_u32; "sender_cpu" :- c_u32]);
   "secmark" :- c_u32; "" :- (CUnion ["mark" :- c_u32; "reserved_tailroom" :- c_u32]);
   "" :- (CUnion ["inner_protocol" :- c_u16; "inner_ipproto" :- c_u8]);
   "inner_transport_header" :- c_u16; "inner_network_header" :- c_u16;
   "inner_mac_header" :- c_u16; "protocol" :- c_u16; "transport_header" :- c_u16;
   "network_header" :- c_u16; "mac_header" :- c_u16; "rh_reserved_start" :- Array 0 c_char;
   "headers_end" :- Array 0 c_u32; "rh_reserved" :- Array 16 c_char;
   "rh_reserved_end" :- Array 0 c_char; "tail" :- c_u32; "end" :- c_u32; "head" :- c_ptr;
   "data" :- c_ptr; "truesize" :- c_u32; "users" :- refcount_struct]%ctype.

Definition hlist_node : ctype := Struct false
  ["next" :- c_ptr; "pprev" :- c_ptr]%ctype.

Definition possible_net_t : ctype := Struct false
  ["net" :- c_ptr]%ctype.

Definition in6_addr : ctype := Struct false
  [
   "in6_u" :- (CUnion ["u6_addr8" :- Array 16 c_u8; "u6_addr16" :- Array 8 c_u16; "u6_addr32" :- Array 4 c_u32])]%ctype.

Definition atomic64_t : ctype := Struct false
  ["counter" :- c_long]%ctype.

Definition hlist_nulls_node : ctype := Struct false
  ["next" :- c_ptr; "pprev" :- c_ptr]%ctype.

Definition sock_common : ctype := Struct false
  [
   "" :- (CUnion ["skc_addrpair" :- c_u64; "" :- (Struct false ["skc_daddr" :- c_u32; "skc_rcv_saddr" :- c_u32])]);
   "" :- (CUnion ["skc_hash" :- c_u32; "skc_u16hashes" :- Array 2 c_u16]);
   "" :- (CUnion ["skc_portpair" :- c_u32; "" :- (Struct false ["skc_dport" :- c_u16; "skc_num" :- c_u16])]);
   "skc_family" :- c_u16; "skc_state" :- c_u8; bitfield "skc_reuse" 4 c_u8;
   bitfield "skc_reuseport" 1 c_u8; bitfield "skc_ipv6only" 1 c_u8;
   bitfield "skc_net_refcnt" 1 c_u8; "skc_bound_dev_if" :- c_int;
   "" :- (CUnion ["skc_bind_node" :- hlist_node; "skc_portaddr_node" :- hlist_node]);
   "skc_prot" :- c_ptr; "skc_net" :- possible_net_t; "skc_v6_daddr" :- in6_addr;
   "skc_v6_rcv_saddr" :- in6_addr; "skc_cookie" :- atomic64_t;
   "" :- (CUnion ["skc_flags" :- c_u64; "skc_listener" :- c_ptr; "skc_tw_dr" :- c_ptr]);
   "skc_dontcopy_begin" :- Array 0 c_int;
   "" :- (CUnion ["skc_node" :- hlist_node; "skc_nulls_node" :- hlist_nulls_node]);
   "skc_tx_queue_mapping" :- c_u16; "skc_rx_queue_mapping" :- c_u16;
   "" :- (CUnion ["skc_incoming_cpu" :- c_int; "skc_rcv_wnd" :- c_u32; "skc_tw_rcv_nxt" :- c_u32]);
   "skc_refcnt" :- refcount_struct; "skc_dontcopy_end" :- Array 0 c_int;
   "" :- (CUnion ["skc_rxhash" :- c_u32; "skc_window_clamp" :- c_u32; "skc_tw_snd_nxt" :- c_u32])]%ctype.

Definition qspinlock : ctype := Struct false
  [
   "" :- (CUnion ["val" :- atomic_t; "" :- (Struct false ["locked" :- c_u8; "pending" :- c_u8]); "" :- (Struct false ["locked_pending" :- c_u16; "tail" :- c_u16])])]%ctype.

Definition raw_spinlock : ctype := Struct false
  ["raw_lock" :- qspinlock]%ctype.

Definition spinlock : ctype := Struct false
  ["" :- (CUnion ["rlock" :- raw_spinlock])]%ctype.

Definition wait_queue_head : ctype := Struct false
  ["lock" :- spinlock; "head" :- list_head]%ctype.

Definition socket_lock_t : ctype := Struct false
  ["slock" :- spinlock; "owned" :- c_int; "wq" :- wait_queue_head]%ctype.

Definition sk_buff_head : ctype := Struct false
  ["next" :- c_ptr; "prev" :- c_ptr; "qlen" :- c_u32; "lock" :- spinlock]%ctype.

Definition rb_root : ctype := Struct false
  ["rb_node" :- c_ptr]%ctype.

Definition timer_list : ctype := Struct false
  ["entry" :- hlist_node; "expires" :- c_u64; "function" :- c_ptr; "flags" :- c_u32;
   "rh_reserved1" :- c_u64; "rh_reserved2" :- c_u64; "rh_reserved3" :- c_u64;
   "rh_reserved4" :- c_u64]%ctype.

Definition page_frag : ctype := Struct false
  ["page" :- c_ptr; "offset" :- c_u32; "size" :- c_u32]%ctype.

Definition qrwlock : ctype := Struct false
  [
   "" :- (CUnion ["cnts" :- atomic_t; "" :- (Struct false ["wlocked" :- c_u8; "__lstate" :- Array 3 c_u8])]);
   "wait_lock" :- qspinlock]%ctype.

Definition rwlock_t : ctype := Struct false
  ["raw_lock" :- qrwlock]%ctype.

Definition kuid_t : ctype := Struct false
  ["val" :- c_u32]%ctype.

Definition sock_cgroup_data : ctype := Struct false
  [
   "" :- (CUnion ["" :- (Struct false ["is_data" :- c_u8; "padding" :- c_u8; "prioidx" :- c_u16; "classid" :- c_u32]); "val" :- c_u64])]%ctype.

Definition callback_head : ctype := Struct false
  ["next" :- c_ptr; "func" :- c_ptr]%ctype.

Definition sock : ctype := Struct false
  ["__sk_common" :- sock_common; "sk_lock" :- socket_lock_t; "sk_drops" :- atomic_t;
   "sk_rcvlowat" :- c_int; "sk_error_queue" :- sk_buff_head; "sk_receive_queue" :- sk_buff_head;
   "sk_backlog" :- (Struct false ["rmem_alloc" :- atomic_t; "len" :- c_int; "head" :- c_ptr; "tail" :- c_ptr]);
   "sk_forward_alloc" :- c_int; "sk_ll_usec" :- c_u32; "sk_napi_id" :- c_u32;
   "sk_rcvbuf" :- c_int; "sk_filter" :- c_ptr;
   "" :- (CUnion ["sk_wq" :- c_ptr; "sk_wq_raw" :- c_ptr]); "sk_policy" :- Array 2 c_ptr;
   "sk_rx_dst" :- c_ptr; "sk_dst_cache" :- c_ptr; "sk_omem_alloc" :- atomic_t;
   "sk_sndbuf" :- c_int; "sk_wmem_queued" :- c_int; "sk_wmem_alloc" :- refcount_struct;
   "sk_tsq_flags" :- c_u64; "" :- (CUnion ["sk_send_head" :- c_ptr; "tcp_rtx_queue" :- rb_root]);
   "sk_write_queue" :- sk_buff_head; "sk_peek_off" :- c_int; "sk_write_pending" :- c_int;
   "sk_dst_pending_confirm" :- c_u32; "sk_pacing_status" :- c_u32; "sk_sndtimeo" :- c_long;
   "sk_timer" :- timer_list; "sk_priority" :- c_u32; "sk_mark" :- c_u32;
   "sk_pacing_rate" :- c_u32; "sk_max_pacing_rate" :- c_u32; "sk_frag" :- page_frag;
   "sk_route_caps" :- c_u64; "sk_route_nocaps" :- c_u64; "sk_route_forced_caps" :- c_u64;
   "sk_gso_type" :- c_int; "sk_gso_max_size" :- c_u32; "sk_allocation" :- c_u32;
   "sk_txhash" :- c_u32; "__sk_flags_offset" :- Array 0 c_u32; bitfield "sk_padding" 1 c_u32;
   bitfield "sk_kern_sock" 1 c_u32; bitfield "sk_no_check_tx" 1 c_u32;
   bitfield "sk_no_check_rx" 1 c_u32; bitfield "sk_userlocks" 4 c_u32;
   bitfield "sk_protocol" 8 c_u32; bitfield "sk_type" 16 c_u32; "sk_gso_max_segs" :- c_u16;
   "sk_pacing_shift" :- c_u8; "sk_lingertime" :- c_u64; "sk_prot_creator" :- c_ptr;
   "sk_callback_lock" :- rwlock_t; "sk_err" :- c_int; "sk_err_soft" :- c_int;
   "sk_ack_backlog" :- c_u32; "sk_max_ack_backlog" :- c_u32; "sk_uid" :- kuid_t;
   "sk_peer_pid" :- c_ptr; "sk_peer_cred" :- c_ptr; "sk_rcvtimeo" :- c_long; "sk_stamp" :- c_u64;
   "sk_tsflags" :- c_u16; "sk_shutdown" :- c_u8; "sk_tskey" :- c_u32; "sk_zckey" :- atomic_t;
   "sk_clockid" :- c_u8; bitfield "sk_txtime_deadline_mode" 1 c_u8;
   bitfield "sk_txtime_report_errors" 1 c_u8; bitfield "sk_txtime_unused" 6 c_u8;
   "sk_socket" :- c_ptr; "sk_user_data" :- c_ptr; "sk_security" :- c_ptr;
   "sk_cgrp_data" :- sock_cgroup_data; "sk_memcg" :- c_ptr; "sk_state_change" :- c_ptr;
   "sk_data_ready" :- c_ptr; "sk_write_space" :- c_ptr; "sk_error_report" :- c_ptr;
   "sk_backlog_rcv" :- c_ptr; "sk_validate_xmit_skb" :- c_ptr; "sk_destruct" :- c_ptr;
   "sk_reuseport_cb" :- c_ptr; "sk_rcu" :- callback_head;
   "" :- (CUnion ["sk_bpf_storage" :- c_ptr; "rh_kabi_hidden_513" :- (Struct false ["rh_reserved1" :- c_u64]); "" :- (CUnion [])]);
   "rh_reserved2" :- c_u64; "rh_reserved3" :- c_u64; "rh_reserved4" :- c_u64;
   "rh_reserved5" :- c_u64; "rh_reserved6" :- c_u64; "rh_reserved7" :- c_u64;
   "rh_reserved8" :- c_u64; "rh_reserved9" :- c_u64; "rh_reserved10" :- c_u64;
   "rh_reserved11" :- c_u64; "rh_reserved12" :- c_u64; "rh_reserved13" :- c_u64;
   "rh_reserved14" :- c_u64; "rh_reserved15" :- c_u64; "rh_reserved16" :- c_u64]%ctype.

Definition kernfs_elem_dir : ctype := Struct false
  ["subdirs" :- c_u64; "children" :- rb_root; "root" :- c_ptr]%ctype.

Definition kernfs_elem_symlink : ctype := Struct false
  ["target_kn" :- c_ptr]%ctype.

Definition kernfs_elem_attr : ctype := Struct false
  ["ops" :- c_ptr; "open" :- c_ptr; "size" :- c_u64; "notify_next" :- c_ptr]%ctype.

Definition kernfs_node_id : ctype := CUnion
  ["" :- (Struct false ["ino" :- c_u32; "generation" :- c_u32]); "id" :- c_u64]%ctype.

Definition kernfs_node : ctype := Struct false
  ["count" :- atomic_t; "active" :- atomic_t; "parent" :- c_ptr; "name" :- c_ptr;
   "rb" :- rb_node; "ns" :- c_ptr; "hash" :- c_u32;
   "" :- (CUnion ["dir" :- kernfs_elem_dir; "symlink" :- kernfs_elem_symlink; "attr" :- kernfs_elem_attr]);
   "priv" :- c_ptr; "id" :- kernfs_node_id; "flags" :- c_u16; "mode" :- c_u16; "iattr" :- c_ptr]%ctype.

Definition percpu_ref : ctype := Struct false
  ["count" :- atomic64_t; "percpu_count_ptr" :- c_u64; "release" :- c_ptr;
   "confirm_switch" :- c_ptr; bitfield "force_atomic" 1 c_u8; "rcu" :- callback_head]%ctype.

Definition work_struct : ctype := Struct false
  ["data" :- atomic64_t; "entry" :- list_head; "func" :- c_ptr; "rh_reserved1" :- c_u64;
   "rh_reserved2" :- c_u64; "rh_reserved3" :- c_u64; "rh_reserved4" :- c_u64]%ctype.

Definition rcu_work : ctype := Struct false
  ["work" :- work_struct; "rcu" :- callback_head; "wq" :- c_ptr]%ctype.

Definition cgroup_subsys_state : ctype := Struct false
  ["cgroup" :- c_ptr; "ss" :- c_ptr; "refcnt" :- percpu_ref; "sibling" :- list_head;
   "children" :- list_head; "rstat_css_node" :- list_head; "id" :- c_int; "flags" :- c_u32;
   "serial_nr" :- c_u64; "online_cnt" :- atomic_t; "destroy_work" :- work_struct;
   "destroy_rwork" :- rcu_work; "parent" :- c_ptr]%ctype.

Definition css_set : ctype := Struct false
  ["subsys" :- Array 13 c_ptr; "refcount" :- refcount_struct; "dom_cset" :- c_ptr;
   "dfl_cgrp" :- c_ptr; "nr_tasks" :- c_int; "tasks" :- list_head; "mg_tasks" :- list_head;
   "task_iters" :- list_head; "e_cset_node" :- Array 13 list_head; "threaded_csets" :- list_head;
   "threaded_csets_node" :- list_head; "hlist" :- hlist_node; "cgrp_links" :- list_head;
   "mg_preload_node" :- list_head; "mg_node" :- list_head; "mg_src_cgrp" :- c_ptr;
   "mg_dst_cgrp" :- c_ptr; "mg_dst_cset" :- c_ptr; "dead" :- c_u8;
   "callback_head" :- callback_head]%ctype.

Definition cgroup_file : ctype := Struct false
  ["kn" :- c_ptr; "notified_at" :- c_u64; "notify_timer" :- timer_list]%ctype.

Definition task_cputime : ctype := Struct false
  ["utime" :- c_u64; "stime" :- c_u64; "sum_exec_runtime" :- c_u64]%ctype.

Definition cgroup_base_stat : ctype := Struct false
  ["cputime" :- task_cputime]%ctype.

Definition prev_cputime : ctype := Struct false
  ["utime" :- c_u64; "stime" :- c_u64; "lock" :- raw_spinlock]%ctype.

Definition optimistic_spin_queue : ctype := Struct false
  ["tail" :- atomic_t]%ctype.

Definition mutex : ctype := Struct false
  ["owner" :- atomic64_t; "wait_lock" :- spinlock; "osq" :- optimistic_spin_queue;
   "wait_list" :- list_head]%ctype.

Definition cgroup_bpf : ctype := Struct false
  ["effective" :- Array 64 c_ptr; "progs" :- Array 64 list_head; "flags" :- Array 64 c_u32;
   "inactive" :- c_ptr; "refcnt" :- percpu_ref; "release_work" :- work_struct;
   "rh_reserved1" :- c_u64; "rh_reserved2" :- c_u64; "rh_reserved3" :- c_u64;
   "rh_reserved4" :- c_u64; "rh_reserved5" :- c_u64; "rh_reserved6" :- c_u64;
   "rh_reserved7" :- c_u64; "rh_reserved8" :- c_u64; "rh_reserved9" :- c_u64;
   "rh_reserved10" :- c_u64; "rh_reserved11" :- c_u64; "rh_reserved12" :- c_u64;
   "rh_reserved13" :- c_u64; "rh_reserved14" :- c_u64; "rh_reserved15" :- c_u64;
   "rh_reserved16" :- c_u64]%ctype.

Definition cgroup_freezer_state : ctype := Struct false
  ["freeze" :- c_u8; "e_freeze" :- c_int; "nr_frozen_descendants" :- c_int;
   "nr_frozen_tasks" :- c_int]%ctype.

Definition delayed_work : ctype := Struct false
  ["work" :- work_struct; "timer" :- timer_list; "wq" :- c_ptr; "cpu" :- c_int;
   "rh_reserved1" :- c_u64; "rh_reserved2" :- c_u64; "rh_reserved3" :- c_u64;
   "rh_reserved4" :- c_u64]%ctype.

Definition kthread_work : ctype := Struct false
  ["node" :- list_head; "func" :- c_ptr; "worker" :- c_ptr; "canceling" :- c_int]%ctype.

Definition kthread_delayed_work : ctype := Struct false
  ["work" :- kthread_work; "timer" :- timer_list]%ctype.

Definition psi_group : ctype := Struct false
  ["avgs_lock" :- mutex; "pcpu" :- c_ptr; "avg_total" :- Array 6 c_u64;
   "avg_last_update" :- c_u64; "avg_next_update" :- c_u64; "avgs_work" :- delayed_work;
   "total" :- Array 12 c_u64; "avg" :- Array 18 c_u64; "poll_scheduled" :- atomic_t;
   "poll_kworker" :- c_ptr; "poll_work" :- kthread_delayed_work; "trigger_lock" :- mutex;
   "triggers" :- list_head; "nr_triggers" :- Array 6 c_u32; "poll_states" :- c_u32;
   "poll_min_period" :- c_u64; "polling_total" :- Array 6 c_u64; "polling_next_update" :- c_u64;
   "polling_until" :- c_u64]%ctype.

Definition cgroup : ctype := Struct false
  ["self" :- cgroup_subsys_state; "flags" :- c_u64; "id" :- c_int; "level" :- c_int;
   "max_depth" :- c_int; "nr_descendants" :- c_int; "nr_dying_descendants" :- c_int;
   "max_descendants" :- c_int; "nr_populated_csets" :- c_int;
   "nr_populated_domain_children" :- c_int; "nr_populated_threaded_children" :- c_int;
   "nr_threaded_children" :- c_int; "kn" :- c_ptr; "procs_file" :- cgroup_file;
   "events_file" :- cgroup_file; "subtree_control" :- c_u16; "subtree_ss_mask" :- c_u16;
   "old_subtree_control" :- c_u16; "old_subtree_ss_mask" :- c_u16; "subsys" :- Array 13 c_ptr;
   "root" :- c_ptr; "cset_links" :- list_head; "e_csets" :- Array 13 list_head;
   "dom_cgrp" :- c_ptr; "rstat_cpu" :- c_ptr; "rstat_css_list" :- list_head;
   "pending_bstat" :- cgroup_base_stat; "bstat" :- cgroup_base_stat;
   "prev_cputime" :- prev_cputime; "pidlists" :- list_head; "pidlist_mutex" :- mutex;
   "offline_waitq" :- wait_queue_head; "release_agent_work" :- work_struct; "bpf" :- cgroup_bpf;
   "congestion_count" :- atomic_t; "old_dom_cgrp" :- c_ptr; "freezer" :- cgroup_freezer_state;
   "psi" :- psi_group; "ancestor_ids" :- Array 0 c_int]%ctype.

Definition xarray_rh : ctype := Struct false
  [].

Definition xarray : ctype := Struct false
  ["xa_lock" :- spinlock; "xa_flags" :- c_u32; "xa_head" :- c_ptr; "xarray_size_rh" :- c_u64;
   "xarray_rh" :- xarray_rh]%ctype.

Definition idr : ctype := Struct false
  ["idr_rt" :- xarray; "idr_base" :- c_u32; "idr_next" :- c_u32]%ctype.

Definition cgroup_root : ctype := Struct false
  ["kf_root" :- c_ptr; "subsys_mask" :- c_u32; "hierarchy_id" :- c_int; "cgrp" :- cgroup;
   "cgrp_ancestor_id_storage" :- c_int; "nr_cgrps" :- atomic_t; "root_list" :- list_head;
   "flags" :- c_u32; "cgroup_idr" :- idr; "release_agent_path" :- Array 4096 c_char;
   "name" :- Array 64 c_char]%ctype.

Definition oom_control : ctype := Struct false
  ["zonelist" :- c_ptr; "nodemask" :- c_ptr; "memcg" :- c_ptr; "gfp_mask" :- c_u32;
   "order" :- c_int; "totalpages" :- c_u64; "chosen" :- c_ptr; "chosen_points" :- c_long;
   "constraint" :- c_int]%ctype.

Definition net_device_stats : ctype := Struct false
  ["rx_packets" :- c_u64; "tx_packets" :- c_u64; "rx_bytes" :- c_u64; "tx_bytes" :- c_u64;
   "rx_errors" :- c_u64; "tx_errors" :- c_u64; "rx_dropped" :- c_u64; "tx_dropped" :- c_u64;
   "multicast" :- c_u64; "collisions" :- c_u64; "rx_length_errors" :- c_u64;
   "rx_over_errors" :- c_u64; "rx_crc_errors" :- c_u64; "rx_frame_errors" :- c_u64;
   "rx_fifo_errors" :- c_u64; "rx_missed_errors" :- c_u64; "tx_aborted_errors" :- c_u64;
   "tx_carrier_errors" :- c_u64; "tx_fifo_errors" :- c_u64; "tx_heartbeat_errors" :- c_u64;
   "tx_window_errors" :- c_u64; "rx_compressed" :- c_u64; "tx_compressed" :- c_u64]%ctype.

Definition netdev_hw_addr_list : ctype := Struct false
  ["list" :- list_head; "count" :- c_int]%ctype.

Definition hlist_head : ctype := Struct false
  ["first" :- c_ptr]%ctype.

Definition kref : ctype := Struct false
  ["refcount" :- refcount_struct]%ctype.

Definition kobject : ctype := Struct false
  ["name" :- c_ptr; "entry" :- list_head; "parent" :- c_ptr; "kset" :- c_ptr; "ktype" :- c_ptr;
   "sd" :- c_ptr; "kref" :- kref; bitfield "state_initialized" 1 c_u32;
   bitfield "state_in_sysfs" 1 c_u32; bitfield "state_add_uevent_sent" 1 c_u32;
   bitfield "state_remove_uevent_sent" 1 c_u32; bitfield "uevent_suppress" 1 c_u32;
   "rh_reserved1" :- c_u64; "rh_reserved2" :- c_u64; "rh_reserved3" :- c_u64;
   "rh_reserved4" :- c_u64]%ctype.

Definition dev_links_info : ctype := Struct false
  ["suppliers" :- list_head; "consumers" :- list_head; "status" :- c_int]%ctype.

Definition pm_message : ctype := Struct false
  ["event" :- c_int]%ctype.

Definition completion : ctype := Struct false
  ["done" :- c_u32; "wait" :- wait_queue_head]%ctype.

Definition dev_pm_info : ctype := Struct false
  ["power_state" :- pm_message; bitfield "can_wakeup" 1 c_u32; bitfield "async_suspend" 1 c_u32;
   bitfield "in_dpm_list" 1 c_u8; bitfield "is_prepared" 1 c_u8; bitfield "is_suspended" 1 c_u8;
   bitfield "is_noirq_suspended" 1 c_u8; bitfield "is_late_suspended" 1 c_u8;
   bitfield "early_init" 1 c_u8; bitfield "direct_complete" 1 c_u8; bitfield "no_pm" 1 c_u8;
   "driver_flags" :- c_u32; "lock" :- spinlock; "entry" :- list_head; "completion" :- completion;
   "wakeup" :- c_ptr; bitfield "wakeup_path" 1 c_u8; bitfield "syscore" 1 c_u8;
   bitfield "no_pm_callbacks" 1 c_u8; bitfield "must_resume" 1 c_u32;
   bitfield "may_skip_resume" 1 c_u32; "suspend_timer" :- timer_list; "timer_expires" :- c_u64;
   "work" :- work_struct; "wait_queue" :- wait_queue_head; "wakeirq" :- c_ptr;
   "usage_count" :- atomic_t; "child_count" :- atomic_t; bitfield "disable_depth" 3 c_u32;
   bitfield "idle_notification" 1 c_u32; bitfield "request_pending" 1 c_u32;
   bitfield "deferred_resume" 1 c_u32; bitfield "runtime_auto" 1 c_u32;
   bitfield "ignore_children" 1 c_u8; bitfield "no_callbacks" 1 c_u32;
   bitfield "irq_safe" 1 c_u32; bitfield "use_autosuspend" 1 c_u32;
   bitfield "timer_autosuspends" 1 c_u32; bitfield "memalloc_noio" 1 c_u32;
   "links_count" :- c_u32; "request" :- c_int; "runtime_status" :- c_int;
   "runtime_error" :- c_int; "autosuspend_delay" :- c_int; "last_busy" :- c_u64;
   "active_jiffies" :- c_u64; "suspended_jiffies" :- c_u64; "accounting_timestamp" :- c_u64;
   "subsys_data" :- c_ptr; "set_latency_tolerance" :- c_ptr; "qos" :- c_ptr]%ctype.

Definition dev_archdata : ctype := Struct false
  ["iommu" :- c_ptr]%ctype.

Definition klist_node : ctype := Struct false
  ["n_klist" :- c_ptr; "n_node" :- list_head; "n_ref" :- kref]%ctype.

Definition device : ctype := Struct false
  ["parent" :- c_ptr; "p" :- c_ptr; "kobj" :- kobject; "init_name" :- c_ptr; "type" :- c_ptr;
   "mutex" :- mutex; "bus" :- c_ptr; "driver" :- c_ptr; "platform_data" :- c_ptr;
   "driver_data" :- c_ptr; "links" :- dev_links_info; "power" :- dev_pm_info;
   "pm_domain" :- c_ptr; "msi_domain" :- c_ptr; "pins" :- c_ptr; "msi_list" :- list_head;
   "numa_node" :- c_int; "dma_ops" :- c_ptr; "dma_mask" :- c_ptr; "coherent_dma_mask" :- c_u64;
   "bus_dma_mask" :- c_u64; "dma_pfn_offset" :- c_u64; "dma_parms" :- c_ptr;
   "dma_pools" :- list_head; "dma_mem" :- c_ptr; "archdata" :- dev_archdata; "of_node" :- c_ptr;
   "fwnode" :- c_ptr; "devt" :- c_u32; "id" :- c_u32; "devres_lock" :- spinlock;
   "devres_head" :- list_head; "knode_class" :- klist_node; "class" :- c_ptr; "groups" :- c_ptr;
   "release" :- c_ptr; "iommu_group" :- c_ptr; "iommu_fwspec" :- c_ptr;
   bitfield "offline_disabled" 1 c_u8; bitfield "offline" 1 c_u8;
   bitfield "of_node_reused" 1 c_u8; "rh_reserved1" :- c_u64; "rh_reserved2" :- c_u64;
   "rh_reserved3" :- c_u64; "rh_reserved4" :- c_u64; "rh_reserved5" :- c_u64;
   "rh_reserved6" :- c_u64; "rh_reserved7" :- c_u64; "rh_reserved8" :- c_u64;
   "rh_reserved9" :- c_u64; "rh_reserved10" :- c_u64; "rh_reserved11" :- c_u64;
   "rh_reserved12" :- c_u64; "rh_reserved13" :- c_u64; "rh_reserved14" :- c_u64;
   "rh_reserved15" :- c_u64; "rh_reserved16" :- c_u64; "device_extended_size_rh" :- c_u64;
   "device_extended_rh" :- c_ptr]%ctype.

Definition netdev_tc_txq : ctype := Struct false
  ["count" :- c_u16; "offset" :- c_u16]%ctype.

Definition net_device_head : list member_decl :=
  ["name" :- Array 16 c_char; "name_hlist" :- hlist_node; "ifalias" :- c_ptr; "mem_end" :- c_u64;
   "mem_start" :- c_u64; "base_addr" :- c_u64; "irq" :- c_int; "state" :- c_u64;
   "dev_list" :- list_head; "napi_list" :- list_head; "unreg_list" :- list_head;
   "close_list" :- list_head; "ptype_all" :- list_head; "ptype_specific" :- list_head;
   "adj_list" :- (Struct false ["upper" :- list_head; "lower" :- list_head]);
   "features" :- c_u64; "hw_features" :- c_u64; "wanted_features" :- c_u64;
   "vlan_features" :- c_u64; "hw_enc_features" :- c_u64; "mpls_features" :- c_u64;
   "gso_partial_features" :- c_u64; "ifindex" :- c_int; "group" :- c_int;
   "stats" :- net_device_stats; "rx_dropped" :- atomic64_t; "tx_dropped" :- atomic64_t;
   "rx_nohandler" :- atomic64_t; "carrier_up_count" :- atomic_t;
   "carrier_down_count" :- atomic_t; "netdev_ops" :- c_ptr; "ethtool_ops" :- c_ptr;
   "switchdev_ops" :- c_ptr; "l3mdev_ops" :- c_ptr; "ndisc_ops" :- c_ptr; "xfrmdev_ops" :- c_ptr;
   "tlsdev_ops" :- c_ptr; "header_ops" :- c_ptr; "flags" :- c_u32; "priv_flags" :- c_u32;
   "gflags" :- c_u16; "padded" :- c_u16; "operstate" :- c_u8; "link_mode" :- c_u8;
   "if_port" :- c_u8; "dma" :- c_u8; "mtu" :- c_u32; "min_mtu" :- c_u32; "max_mtu" :- c_u32;
   "type" :- c_u16; "hard_header_len" :- c_u16; "min_header_len" :- c_u8;
   "needed_headroom" :- c_u16; "needed_tailroom" :- c_u16; "perm_addr" :- Array 32 c_u8;
   "addr_assign_type" :- c_u8; "addr_len" :- c_u8; "neigh_priv_len" :- c_u16; "dev_id" :- c_u16;
   "dev_port" :- c_u16; "addr_list_lock" :- spinlock; "name_assign_type" :- c_u8;
   "uc_promisc" :- c_u8; "uc" :- netdev_hw_addr_list; "mc" :- netdev_hw_addr_list;
   "dev_addrs" :- netdev_hw_addr_list; "queues_kset" :- c_ptr; "promiscuity" :- c_u32;
   "allmulti" :- c_u32; "vlan_info" :- c_ptr; "tipc_ptr" :- c_ptr; "ip_ptr" :- c_ptr;
   "ip6_ptr" :- c_ptr; "ieee80211_ptr" :- c_ptr; "ieee802154_ptr" :- c_ptr; "dev_addr" :- c_ptr;
   "_rx" :- c_ptr; "num_rx_queues" :- c_u32; "real_num_rx_queues" :- c_u32; "xdp_prog" :- c_ptr;
   "gro_flush_timeout" :- c_u64; "rx_handler" :- c_ptr; "rx_handler_data" :- c_ptr;
   "miniq_ingress" :- c_ptr; "ingress_queue" :- c_ptr; "nf_hooks_ingress" :- c_ptr;
   "broadcast" :- Array 32 c_u8; "rx_cpu_rmap" :- c_ptr; "index_hlist" :- hlist_node;
   bitfield "" 64 c_long; bitfield "" 64 c_long; bitfield "" 64 c_long; bitfield "" 64 c_long;
   bitfield "" 64 c_long; bitfield "" 64 c_long; "_tx" :- c_ptr; "num_tx_queues" :- c_u32;
   "real_num_tx_queues" :- c_u32; "qdisc" :- c_ptr; "qdisc_hash" :- Array 16 hlist_head;
   "tx_queue_len" :- c_u32; "tx_global_lock" :- spinlock; "watchdog_timeo" :- c_int;
   "xps_cpus_map" :- c_ptr; "xps_rxqs_map" :- c_ptr; "miniq_egress" :- c_ptr;
   "watchdog_timer" :- timer_list; "pcpu_refcnt" :- c_ptr; "todo_list" :- list_head;
   "link_watch_list" :- list_head; bitfield "reg_state" 8 c_int]%ctype.
Definition net_device_tail : list member_decl :=
  ["dismantle" :- c_u8; bitfield "rtnl_link_state" 16 c_int; "needs_free_netdev" :- c_u8;
   "priv_destructor" :- c_ptr; "npinfo" :- c_ptr; "nd_net" :- possible_net_t;
   "" :- (CUnion ["ml_priv" :- c_ptr; "lstats" :- c_ptr; "tstats" :- c_ptr; "dstats" :- c_ptr; "rh_reserved_vstats" :- c_ptr]);
   "garp_port" :- c_ptr; "mrp_port" :- c_ptr; "dev" :- device; "sysfs_groups" :- Array 4 c_ptr;
   "sysfs_rx_queue_group" :- c_ptr; "rtnl_link_ops" :- c_ptr; "gso_max_size" :- c_u32;
   "gso_max_segs" :- c_u16; "dcbnl_ops" :- c_ptr; "num_tc" :- c_u16;
   "tc_to_txq" :- Array 16 netdev_tc_txq; "prio_tc_map" :- Array 16 c_u8; "priomap" :- c_ptr;
   "phydev" :- c_ptr; "sfp_bus" :- c_ptr; "qdisc_tx_busylock" :- c_ptr;
   "qdisc_running_key" :- c_ptr; "proto_down" :- c_u8; bitfield "wol_enabled" 1 c_u32;
   "" :- (CUnion ["mpls_ptr" :- c_ptr; "rh_kabi_hidden_2184" :- (Struct false ["rh_reserved1" :- c_u64]); "" :- (CUnion [])]);
   "rh_reserved2" :- c_u64; "rh_reserved3" :- c_u64; "rh_reserved4" :- c_u64;
   "rh_reserved5" :- c_u64; "rh_reserved6" :- c_u64; "rh_reserved7" :- c_u64;
   "rh_reserved8" :- c_u64; "rh_reserved9" :- c_u64; "rh_reserved10" :- c_u64;
   "rh_reserved11" :- c_u64; "rh_reserved12" :- c_u64; "rh_reserved13" :- c_u64;
   "rh_reserved14" :- c_u64; "rh_reserved15" :- c_u64; "rh_reserved16" :- c_u64;
   "rh_reserved17" :- c_u64; "rh_reserved18" :- c_u64; "rh_reserved19" :- c_u64;
   "rh_reserved20" :- c_u64; "rh_reserved21" :- c_u64; "rh_reserved22" :- c_u64;
   "rh_reserved23" :- c_u64; "rh_reserved24" :- c_u64; "rh_reserved25" :- c_u64;
   "rh_reserved26" :- c_u64; "rh_reserved27" :- c_u64; "rh_reserved28" :- c_u64;
   "rh_reserved29" :- c_u64; "rh_reserved30" :- c_u64; "net_device_extended_size_rh" :- c_u64;
   "net_device_extended_rh" :- c_ptr]%ctype.
Definition net_device : ctype := Struct false (net_device_head ++ net_device_tail).

Definition thread_info : ctype := Struct false
  ["flags" :- c_u64; "status" :- c_u32]%ctype.

Definition llist_node : ctype := Struct false
  ["next" :- c_ptr]%ctype.

Definition load_weight : ctype := Struct false
  ["weight" :- c_u64; "inv_weight" :- c_u32]%ctype.

Definition sched_statistics : ctype := Struct false
  ["wait_start" :- c_u64; "wait_max" :- c_u64; "wait_count" :- c_u64; "wait_sum" :- c_u64;
   "iowait_count" :- c_u64; "iowait_sum" :- c_u64; "interfere_start" :- c_u64;
   "interfere_sum" :- c_u64; "sleep_start" :- c_u64; "sleep_max" :- c_u64;
   "sum_sleep_runtime" :- c_u64; "block_start" :- c_u64; "block_max" :- c_u64;
   "exec_max" :- c_u64; "slice_max" :- c_u64; "nr_migrations_cold" :- c_u64;
   "nr_failed_migrations_affine" :- c_u64; "nr_failed_migrations_running" :- c_u64;
   "nr_failed_migrations_hot" :- c_u64; "nr_forced_migrations" :- c_u64; "nr_wakeups" :- c_u64;
   "nr_wakeups_sync" :- c_u64; "nr_wakeups_migrate" :- c_u64; "nr_wakeups_local" :- c_u64;
   "nr_wakeups_remote" :- c_u64; "nr_wakeups_affine" :- c_u64;
   "nr_wakeups_affine_attempts" :- c_u64; "nr_wakeups_passive" :- c_u64;
   "nr_wakeups_idle" :- c_u64]%ctype.

Definition util_est : ctype := Struct false
  ["enqueued" :- c_u32; "ewma" :- c_u32]%ctype.

Definition sched_avg : ctype := Struct false
  ["last_update_time" :- c_u64; "load_sum" :- c_u64; "runnable_load_sum" :- c_u64;
   "util_sum" :- c_u32; "period_contrib" :- c_u32; "load_avg" :- c_u64;
   "runnable_load_avg" :- c_u64; "util_avg" :- c_u64; "util_est" :- util_est]%ctype.

Definition sched_entity : ctype := Struct false
  ["load" :- load_weight; "runnable_weight" :- c_u64; "run_node" :- rb_node;
   "group_node" :- list_head; "on_rq" :- c_u32; "exec_start" :- c_u64;
   "sum_exec_runtime" :- c_u64; "vruntime" :- c_u64; "prev_sum_exec_runtime" :- c_u64;
   "nr_migrations" :- c_u64; "statistics" :- sched_statistics; "depth" :- c_int;
   "parent" :- c_ptr; "cfs_rq" :- c_ptr; "my_q" :- c_ptr; bitfield "" 64 c_long;
   "avg" :- sched_avg; "rh_reserved1" :- c_u64; "rh_reserved2" :- c_u64; "rh_reserved3" :- c_u64;
   "rh_reserved4" :- c_u64; bitfield "" 64 c_long; bitfield "" 64 c_long; bitfield "" 64 c_long;
   bitfield "" 64 c_long]%ctype.

Definition sched_rt_entity : ctype := Struct false
  ["run_list" :- list_head; "timeout" :- c_u64; "watchdog_stamp" :- c_u64; "time_slice" :- c_u32;
   "on_rq" :- c_u16; "on_list" :- c_u16; "back" :- c_ptr; "parent" :- c_ptr; "rt_rq" :- c_ptr;
   "my_q" :- c_ptr]%ctype.

Definition timerqueue_node : ctype := Struct false
  ["node" :- rb_node; "expires" :- c_u64]%ctype.

Definition hrtimer : ctype := Struct false
  ["node" :- timerqueue_node; "_softexpires" :- c_u64; "function" :- c_ptr; "base" :- c_ptr;
   "state" :- c_u8; "is_rel" :- c_u8; "is_soft" :- c_u8; "hrtimer_size_rh" :- c_u64;
   "hrtimer_rh" :- c_ptr]%ctype.

Definition sched_dl_entity : ctype := Struct false
  ["rb_node" :- rb_node; "dl_runtime" :- c_u64; "dl_deadline" :- c_u64; "dl_period" :- c_u64;
   "dl_bw" :- c_u64; "dl_density" :- c_u64; "runtime" :- c_u64; "deadline" :- c_u64;
   "flags" :- c_u32; bitfield "dl_throttled" 1 c_u32; bitfield "dl_boosted" 1 c_u32;
   bitfield "dl_yielded" 1 c_u32; bitfield "dl_non_contending" 1 c_u32;
   bitfield "dl_overrun" 1 c_u32; "dl_timer" :- hrtimer; "inactive_timer" :- hrtimer]%ctype.

Definition cpumask : ctype := Struct false
  ["bits" :- Array 128 c_u64]%ctype.

Definition sched_info : ctype := Struct false
  ["pcount" :- c_u64; "run_delay" :- c_u64; "last_arrival" :- c_u64; "last_queued" :- c_u64]%ctype.

Definition plist_node : ctype := Struct false
  ["prio" :- c_int; "prio_list" :- list_head; "node_list" :- list_head]%ctype.

Definition vmacache : ctype := Struct false
  ["seqnum" :- c_u64; "vmas" :- Array 4 c_ptr]%ctype.

Definition task_rss_stat : ctype := Struct false
  ["events" :- c_int; "count" :- Array 4 c_int]%ctype.

Definition restart_block : ctype := Struct false
  ["fn" :- c_ptr;
   "" :- (CUnion ["futex" :- (Struct false ["uaddr" :- c_ptr; "val" :- c_u32; "flags" :- c_u32; "bitset" :- c_u32; "time" :- c_u64; "uaddr2" :- c_ptr]); "nanosleep" :- (Struct false ["clockid" :- c_int; "type" :- c_int; "" :- (CUnion ["rmtp" :- c_ptr; "compat_rmtp" :- c_ptr]); "expires" :- c_u64]); "poll" :- (Struct false ["ufds" :- c_ptr; "nfds" :- c_int; "has_timeout" :- c_int; "tv_sec" :- c_u64; "tv_nsec" :- c_u64])])]%ctype.

Definition seqcount : ctype := Struct false
  ["sequence" :- c_u32]%ctype.

Definition vtime : ctype := Struct false
  ["seqcount" :- seqcount; "starttime" :- c_u64; "state" :- c_int; "utime" :- c_u64;
   "stime" :- c_u64; "gtime" :- c_u64]%ctype.

Definition sysv_sem : ctype := Struct false
  ["undo_list" :- c_ptr]%ctype.

Definition sysv_shm : ctype := Struct false
  ["shm_clist" :- list_head]%ctype.

Definition sigset_t : ctype := Struct false
  ["sig" :- Array 1 c_u64]%ctype.

Definition sigpending : ctype := Struct false
  ["list" :- list_head; "signal" :- sigset_t]%ctype.

Definition seccomp : ctype := Struct false
  ["mode" :- c_int; "filter" :- c_ptr]%ctype.

Definition wake_q_node : ctype := Struct false
  ["next" :- c_ptr]%ctype.

Definition rb_root_cached : ctype := Struct false
  ["rb_root" :- rb_root; "rb_leftmost" :- c_ptr]%ctype.

Definition task_io_accounting : ctype := Struct false
  ["rchar" :- c_u64; "wchar" :- c_u64; "syscr" :- c_u64; "syscw" :- c_u64; "read_bytes" :- c_u64;
   "write_bytes" :- c_u64; "cancelled_write_bytes" :- c_u64]%ctype.

Definition nodemask_t : ctype := Struct false
  ["bits" :- Array 16 c_u64]%ctype.

Definition arch_tlbflush_unmap_batch : ctype := Struct false
  ["cpumask" :- cpumask]%ctype.

Definition tlbflush_unmap_batch : ctype := Struct false
  ["arch" :- arch_tlbflush_unmap_batch; "flush_required" :- c_u8; "writable" :- c_u8]%ctype.

Definition desc_struct : ctype := Struct false
  ["limit0" :- c_u16; "base0" :- c_u16; bitfield "base1" 8 c_u16; bitfield "type" 4 c_u16;
   bitfield "s" 1 c_u16; bitfield "dpl" 2 c_u16; bitfield "p" 1 c_u16; bitfield "limit1" 4 c_u16;
   bitfield "avl" 1 c_u16; bitfield "l" 1 c_u16; bitfield "d" 1 c_u16; bitfield "g" 1 c_u16;
   bitfield "base2" 8 c_u16]%ctype.

Definition mm_segment_t : ctype := Struct false
  ["seg" :- c_u64]%ctype.

Definition fregs_state : ctype := Struct false
  ["cwd" :- c_u32; "swd" :- c_u32; "twd" :- c_u32; "fip" :- c_u32; "fcs" :- c_u32;
   "foo" :- c_u32; "fos" :- c_u32; "st_space" :- Array 20 c_u32; "status" :- c_u32]%ctype.

Definition fxregs_state : ctype := Struct false
  ["cwd" :- c_u16; "swd" :- c_u16; "twd" :- c_u16; "fop" :- c_u16;
   "" :- (CUnion ["" :- (Struct false ["rip" :- c_u64; "rdp" :- c_u64]); "" :- (Struct false ["fip" :- c_u32; "fcs" :- c_u32; "foo" :- c_u32; "fos" :- c_u32])]);
   "mxcsr" :- c_u32; "mxcsr_mask" :- c_u32; "st_space" :- Array 32 c_u32;
   "xmm_space" :- Array 64 c_u32; "padding" :- Array 12 c_u32;
   "" :- (CUnion ["padding1" :- Array 12 c_u32; "sw_reserved" :- Array 12 c_u32])]%ctype.

Definition swregs_state : ctype := Struct false
  ["cwd" :- c_u32; "swd" :- c_u32; "twd" :- c_u32; "fip" :- c_u32; "fcs" :- c_u32;
   "foo" :- c_u32; "fos" :- c_u32; "st_space" :- Array 20 c_u32; "ftop" :- c_u8;
   "changed" :- c_u8; "lookahead" :- c_u8; "no_update" :- c_u8; "rm" :- c_u8; "alimit" :- c_u8;
   "info" :- c_ptr; "entry_eip" :- c_u32]%ctype.

Definition xstate_header : ctype := Struct false
  ["xfeatures" :- c_u64; "xcomp_bv" :- c_u64; "reserved" :- Array 6 c_u64]%ctype.

Definition xregs_state : ctype := Struct false
  ["i387" :- fxregs_state; "header" :- xstate_header; "extended_state_area" :- Array 0 c_u8]%ctype.

Definition fpregs_state : ctype := CUnion
  ["fsave" :- fregs_state; "fxsave" :- fxregs_state; "soft" :- swregs_state;
   "xsave" :- xregs_state; "__padding" :- Array 4096 c_u8]%ctype.

Definition fpu : ctype := Struct false
  ["last_cpu" :- c_u32; "rh_reserved_initialized" :- c_u8; bitfield "" 24 c_long;
   bitfield "" 64 c_long; bitfield "" 64 c_long; bitfield "" 64 c_long; bitfield "" 64 c_long;
   bitfield "" 64 c_long; bitfield "" 64 c_long; bitfield "" 64 c_long; "state" :- fpregs_state]%ctype.

Definition thread_struct : ctype := Struct false
  ["tls_array" :- Array 3 desc_struct; "sp" :- c_u64; "es" :- c_u16; "ds" :- c_u16;
   "fsindex" :- c_u16; "gsindex" :- c_u16; "fsbase" :- c_u64; "gsbase" :- c_u64;
   "ptrace_bps" :- Array 4 c_ptr; "debugreg6" :- c_u64; "ptrace_dr7" :- c_u64; "cr2" :- c_u64;
   "trap_nr" :- c_u64; "error_code" :- c_u64; "io_bitmap_ptr" :- c_ptr; "iopl" :- c_u64;
   "io_bitmap_max" :- c_u32; "addr_limit" :- mm_segment_t; bitfield "sig_on_uaccess_err" 1 c_u32;
   bitfield "uaccess_err" 1 c_u32; bitfield "" 62 c_long; bitfield "" 64 c_long;
   bitfield "" 64 c_long; bitfield "" 64 c_long; "fpu" :- fpu]%ctype.

Definition task_struct_head : list member_decl :=
  ["thread_info" :- thread_info; "state" :- c_long; "stack" :- c_ptr; "usage" :- atomic_t;
   "flags" :- c_u32; "ptrace" :- c_u32; "wake_entry" :- llist_node; "on_cpu" :- c_int;
   "cpu" :- c_u32; "wakee_flips" :- c_u32; "wakee_flip_decay_ts" :- c_u64; "last_wakee" :- c_ptr;
   "recent_used_cpu" :- c_int; "wake_cpu" :- c_int; "on_rq" :- c_int; "prio" :- c_int;
   "static_prio" :- c_int; "normal_prio" :- c_int; "rt_priority" :- c_u32;
   "sched_class" :- c_ptr; "se" :- sched_entity; "rt" :- sched_rt_entity;
   "sched_task_group" :- c_ptr; "dl" :- sched_dl_entity; "preempt_notifiers" :- hlist_head;
   "btrace_seq" :- c_u32; "policy" :- c_u32; "nr_cpus_allowed" :- c_int;
   "cpus_allowed" :- cpumask; "sched_info" :- sched_info; "tasks" :- list_head;
   "pushable_tasks" :- plist_node; "pushable_dl_tasks" :- rb_node; "mm" :- c_ptr;
   "active_mm" :- c_ptr; "vmacache" :- vmacache; "rss_stat" :- task_rss_stat;
   "exit_state" :- c_int; "exit_code" :- c_int; "exit_signal" :- c_int; "pdeath_signal" :- c_int;
   "jobctl" :- c_u64; "personality" :- c_u32; bitfield "sched_reset_on_fork" 1 c_u32;
   bitfield "sched_contributes_to_load" 1 c_u32; bitfield "sched_migrated" 1 c_u32;
   bitfield "sched_remote_wakeup" 1 c_u32; bitfield "sched_psi_wake_requeue" 1 c_u32;
   bitfield "" 27 c_int; bitfield "in_execve" 1 c_u32; bitfield "in_iowait" 1 c_u32;
   bitfield "restore_sigmask" 1 c_u32; bitfield "in_user_fault" 1 c_u32;
   bitfield "rh_reserved_memcg_kmem_skip_account" 1 c_u32;
   bitfield "no_cgroup_migration" 1 c_u32; bitfield "use_memdelay" 1 c_u32;
   bitfield "frozen" 1 c_u32; bitfield "in_memstall" 1 c_u32; bitfield "in_memcgstall" 1 c_u32;
   "atomic_flags" :- c_u64; "restart_block" :- restart_block; "pid" :- c_int; "tgid" :- c_int;
   "stack_canary" :- c_u64; "real_parent" :- c_ptr; "parent" :- c_ptr; "children" :- list_head;
   "sibling" :- list_head; "group_leader" :- c_ptr; "ptraced" :- list_head;
   "ptrace_entry" :- list_head; "active_memcg" :- c_ptr; "rh_reserved2" :- c_long;
   "thread_pid" :- c_ptr; "rh_reserved3" :- c_long; "rh_reserved4" :- c_long; "rh_pgid" :- c_ptr;
   "rh_reserved5" :- c_long; "rh_reserved6" :- c_long; "rh_sid" :- c_ptr;
   "thread_group" :- list_head; "thread_node" :- list_head; "vfork_done" :- c_ptr;
   "set_child_tid" :- c_ptr; "clear_child_tid" :- c_ptr; "utime" :- c_u64; "stime" :- c_u64;
   "gtime" :- c_u64; "prev_cputime" :- prev_cputime; "vtime" :- vtime;
   "tick_dep_mask" :- atomic_t; "nvcsw" :- c_u64; "nivcsw" :- c_u64; "start_time" :- c_u64;
   "real_start_time" :- c_u64; "min_flt" :- c_u64; "maj_flt" :- c_u64;
   "cputime_expires" :- task_cputime; "cpu_timers" :- Array 3 list_head; "ptracer_cred" :- c_ptr;
   "real_cred" :- c_ptr; "cred" :- c_ptr; "comm" :- Array 16 c_char; "nameidata" :- c_ptr;
   "sysvsem" :- sysv_sem; "sysvshm" :- sysv_shm; "last_switch_count" :- c_u64; "fs" :- c_ptr;
   "files" :- c_ptr; "nsproxy" :- c_ptr; "signal" :- c_ptr; "sighand" :- c_ptr;
   "blocked" :- sigset_t; "real_blocked" :- sigset_t; "saved_sigmask" :- sigset_t;
   "pending" :- sigpending; "sas_ss_sp" :- c_u64; "sas_ss_size" :- c_u64; "sas_ss_flags" :- c_u32]%ctype.
Definition task_struct_tail : list member_decl :=
  ["task_works" :- c_ptr; "audit_context" :- c_ptr; "loginuid" :- kuid_t; "sessionid" :- c_u32;
   "seccomp" :- seccomp; "parent_exec_id" :- c_u32; "self_exec_id" :- c_u32;
   "alloc_lock" :- spinlock; "pi_lock" :- raw_spinlock; "wake_q" :- wake_q_node;
   "pi_waiters" :- rb_root_cached; "pi_top_task" :- c_ptr; "pi_blocked_on" :- c_ptr;
   "journal_info" :- c_ptr; "bio_list" :- c_ptr; "plug" :- c_ptr; "reclaim_state" :- c_ptr;
   "backing_dev_info" :- c_ptr; "io_context" :- c_ptr; "ptrace_message" :- c_u64;
   "" :- (CUnion ["last_siginfo" :- c_ptr; "rh_kabi_hidden_1009" :- (Struct false ["last_siginfo" :- c_ptr]); "" :- (CUnion [])]);
   "ioac" :- task_io_accounting; "acct_rss_mem1" :- c_u64; "acct_vm_mem1" :- c_u64;
   "acct_timexpd" :- c_u64; "mems_allowed" :- nodemask_t; "mems_allowed_seq" :- seqcount;
   "cpuset_mem_spread_rotor" :- c_int; "cpuset_slab_spread_rotor" :- c_int; "psi_flags" :- c_u32;
   "cgroups" :- c_ptr; "cg_list" :- list_head; "closid" :- c_u32; "rmid" :- c_u32;
   "robust_list" :- c_ptr; "compat_robust_list" :- c_ptr; "pi_state_list" :- list_head;
   "pi_state_cache" :- c_ptr; "perf_event_ctxp" :- Array 2 c_ptr; "perf_event_mutex" :- mutex;
   "perf_event_list" :- list_head; "mempolicy" :- c_ptr; "il_prev" :- c_u16;
   "pref_node_fork" :- c_u16; "numa_scan_seq" :- c_int; "numa_scan_period" :- c_u32;
   "numa_scan_period_max" :- c_u32; "numa_preferred_nid" :- c_int; "numa_migrate_retry" :- c_u64;
   "node_stamp" :- c_u64; "last_task_numa_placement" :- c_u64; "last_sum_exec_runtime" :- c_u64;
   "numa_work" :- callback_head; "numa_entry" :- list_head; "numa_group" :- c_ptr;
   "numa_faults" :- c_ptr; "total_numa_faults" :- c_u64; "numa_faults_locality" :- Array 3 c_u64;
   "numa_pages_migrated" :- c_u64; "rseq" :- c_ptr; "rseq_len" :- c_u32; "rseq_sig" :- c_u32;
   "rseq_event_mask" :- c_u64; "tlb_ubc" :- tlbflush_unmap_batch; "rcu" :- callback_head;
   "splice_pipe" :- c_ptr; "task_frag" :- page_frag; "delays" :- c_ptr; "nr_dirtied" :- c_int;
   "nr_dirtied_pause" :- c_int; "dirty_paused_when" :- c_u64; "timer_slack_ns" :- c_u64;
   "default_timer_slack_ns" :- c_u64; "curr_ret_stack" :- c_int; "ret_stack" :- c_ptr;
   "ftrace_timestamp" :- c_u64; "trace_overrun" :- atomic_t; "tracing_graph_pause" :- atomic_t;
   "trace" :- c_u64; "trace_recursion" :- c_u64; "memcg_in_oom" :- c_ptr;
   "memcg_oom_gfp_mask" :- c_u32; "memcg_oom_order" :- c_int;
   "memcg_nr_pages_over_high" :- c_u32; "throttle_queue" :- c_ptr; "utask" :- c_ptr;
   "pagefault_disabled" :- c_int; "oom_reaper_list" :- c_ptr; "stack_vm_area" :- c_ptr;
   "stack_refcount" :- atomic_t; "patch_state" :- c_int; "security" :- c_ptr;
   "pid_links" :- Array 4 hlist_node; bitfield "" 64 c_long; bitfield "" 64 c_long;
   bitfield "" 64 c_long; bitfield "" 64 c_long; bitfield "" 64 c_long; "thread" :- thread_struct]%ctype.
Definition task_struct : ctype := Struct false (task_struct_head ++ task_struct_tail).

Definition rt_bandwidth : ctype := Struct false
  ["rt_runtime_lock" :- raw_spinlock; "rt_period" :- c_u64; "rt_runtime" :- c_u64;
   "rt_period_timer" :- hrtimer; "rt_period_active" :- c_u32]%ctype.

Definition cfs_bandwidth : ctype := Struct false
  ["lock" :- raw_spinlock; "period" :- c_u64; "quota" :- c_u64; "runtime" :- c_u64;
   "hierarchical_quota" :- c_u64; "rh_reserved_runtime_expires" :- c_u64;
   "rh_reserved_expires_seq" :- c_int;
   "" :- (CUnion ["" :- (Struct false ["idle" :- c_u8; "period_active" :- c_u8]); "rh_kabi_hidden_344" :- (Struct false ["idle" :- c_u16]); "" :- (CUnion [])]);
   "" :- (CUnion ["" :- (Struct false ["distribute_running" :- c_u8; "slack_started" :- c_u8]); "rh_kabi_hidden_345" :- (Struct false ["period_active" :- c_u16]); "" :- (CUnion [])]);
   "period_timer" :- hrtimer; "slack_timer" :- hrtimer; "throttled_cfs_rq" :- list_head;
   "nr_periods" :- c_int; "nr_throttled" :- c_int; "throttled_time" :- c_u64;
   "rh_reserved_distribute_running" :- c_u8]%ctype.

Definition task_group : ctype := Struct false
  ["css" :- cgroup_subsys_state; "se" :- c_ptr; "cfs_rq" :- c_ptr; "shares" :- c_u64;
   bitfield "" 64 c_long; bitfield "" 64 c_long; bitfield "" 64 c_long; bitfield "" 64 c_long;
   bitfield "" 64 c_long; bitfield "" 64 c_long; bitfield "" 64 c_long; "load_avg" :- atomic64_t;
   "rt_se" :- c_ptr; "rt_rq" :- c_ptr; "rt_bandwidth" :- rt_bandwidth; "rcu" :- callback_head;
   "list" :- list_head; "parent" :- c_ptr; "siblings" :- list_head; "children" :- list_head;
   "cfs_bandwidth" :- cfs_bandwidth; "rh_reserved1" :- c_u64; "rh_reserved2" :- c_u64;
   bitfield "" 64 c_long; bitfield "" 64 c_long; bitfield "" 64 c_long; bitfield "" 64 c_long]%ctype.

End Vmlinux.

(** ** The fields the programs read

    Structure, path and size of each field, as the accesses name them. *)
Import Vmlinux.

Definition field_struct (f : field) : ctype :=
  match f with
  | task_flags | task_cgroups | task_pid | task_comm | task_state | task___state
  | task_sched_task_group => task_struct
  | css_set_subsys => css_set
  | css_cgroup => cgroup_subsys_state
  | cgroup_kn | cgroup_root_ptr | cgroup_level | cgroup_subsys => cgroup
  | kernfs_name => kernfs_node
  | cgroup_root_hierarchy_id => cgroup_root
  | netdev_dev | netdev_ifindex | netdev_rx_dropped_counter => net_device
  | oom_chosen => oom_control
  | skb_head | skb_network_header_off | skb_transport_header_off | skb_tstamp | skb_sk
  | skb_protocol | skb_len | skb_queue_mapping => sk_buff
  | sock_skc_state | sock_skc_family | sock___sk_flags_offset | sock_sk_type
  | sock_sk_protocol => sock
  | hang_comm => trace_event_raw_sched_process_hang
  end.

Definition field_path (f : field) : list string :=
  (match f with
   | task_flags => ["flags"] | task_cgroups => ["cgroups"] | task_pid => ["pid"]
   | task_comm => ["comm"] | task_state => ["state"] | task___state => ["__state"]
   | task_sched_task_group => ["sched_task_group"]
   | css_set_subsys => ["subsys"] | css_cgroup => ["cgroup"]
   | cgroup_kn => ["kn"] | cgroup_root_ptr => ["root"] | cgroup_level => ["level"]
   | cgroup_subsys => ["subsys"] | kernfs_name => ["name"]
   | cgroup_root_hierarchy_id => ["hierarchy_id"]
   | netdev_dev => ["dev"] | netdev_ifindex => ["ifindex"]
   | netdev_rx_dropped_counter => ["rx_dropped"; "counter"]
   | oom_chosen => ["chosen"]
   | skb_head => ["head"] | skb_network_header_off => ["network_header"]
   | skb_transport_header_off => ["transport_header"] | skb_tstamp => ["tstamp"]
   | skb_sk => ["sk"] | skb_protocol => ["protocol"] | skb_len => ["len"]
   | skb_queue_mapping => ["queue_mapping"]
   | sock_skc_state => ["__sk_common"; "skc_state"]
   | sock_skc_family => ["__sk_common"; "skc_family"]
   | sock___sk_flags_offset => ["__sk_flags_offset"]
   | sock_sk_type => ["sk_type"] | sock_sk_protocol => ["sk_protocol"]
   | hang_comm => ["comm"]
   end)%string.

(** Bytes a program reads at the field. *)
Definition field_size (f : field) : Z :=
  match f with
  | task_flags | task_pid | task___state | cgroup_level | cgroup_root_hierarchy_id
  | netdev_ifindex | skb_len | sock___sk_flags_offset => 4
  | skb_network_header_off | skb_transport_header_off | skb_protocol | skb_queue_mapping
  | sock_skc_family | sock_sk_type | sock_sk_protocol => 2
  | sock_skc_state => 1
  | task_comm | hang_comm => 16
  | css_set_subsys | cgroup_subsys => 8 * Z.of_nat CGROUP_SUBSYS_COUNT
  | _ => 8
  end.

(** Offsets in the reference kernel; a field it lacks is never accessed. *)
Definition vmlinux_koff (f : field) : Z := default 0 (offsetof (field_struct f) (field_path f)).
Definition vmlinux_kexists (f : field) : bool :=
  match member (field_struct f) (hd ""%string (field_path f)) with Some _ => true | None => false end.

(** An environment that reads [segs] with the layout of the reference kernel. *)
Definition vmlinux_env (e : kenv) (segs : list (Z * list byte)) : kenv :=
  memory_env e vmlinux_koff vmlinux_kexists segs.

(** A structure in memory with some members set and the rest zero. *)
Definition put (o : Z) (v m : list byte) : list byte :=
  take (Z.to_nat o) m ++ v ++ drop (Z.to_nat o + length v) m.
Definition struct_bytes (t : ctype) (l : list (list string * list byte)) : list byte :=
  fold_left (fun m '(path, v) => put (default 0 (offsetof t path)) v m) l (zeros (sizeof t)).

(** The CSS of the cpu controller is the first member of a task group: the
    group addresses runqlat_tracing.c uses as keys are the CSS addresses the
    collector looks containers up by. *)
Lemma task_group_css : offsetof task_group ["css"%string] = Some 0.
Proof. vm_compute. reflexivity. Qed.

(** ** Theorems *)

(** Every field read stays inside its structure in the reference kernel:
    the field exists with the size the program reads, and its last byte is
    before the end.  The only fields the reference kernel lacks are
    [task->__state] (renamed from [state] by later kernels), and it declares
    [sk_type] and [sk_protocol] as bit-fields of the word at
    [__sk_flags_offset]. *)
Theorem vmlinux_reads_inside f :
  f <> task___state -> f <> sock_sk_type -> f <> sock_sk_protocol ->
  offsetof (field_struct f) (field_path f) = Some (vmlinux_koff f) /\
  0 <= vmlinux_koff f /\ vmlinux_koff f + field_size f <= sizeof (field_struct f).
Proof.
  intros H1 H2 H3.
  destruct f; first [by destruct H1 | by destruct H2 | by destruct H3 | clear H1 H2 H3];
    vm_compute; repeat split; discriminate.
Qed.

Lemma vmlinux_reads_inside_witness :
  vmlinux_koff skb_head + 8 <= sizeof sk_buff.
Proof. apply (vmlinux_reads_inside skb_head); discriminate. Defined.
