(* ===== verification/Ratelimit.v ===== *)
(** * bpf/include/bpf_ratelimit.h: the event rate limiter

    [bpf_ratelimited] on a global ([BPF_RATELIMIT]) and
    [bpf_ratelimited_core_in_map] on an array map ([BPF_RATELIMIT_IN_MAP]).
    The abstract specification groups the calls into windows and grants the
    first [burst] calls of each; the code refines it. *)
From S2P Require Import Prelude Bpf.
From stdpp Require Import base gmap list strings.
From Stdlib Require Import ZArith Lia.
From Stdlib.Strings Require Byte.

Open Scope Z_scope.

Record bpf_ratelimit := mk_rl {
  rl_interval : Z;
  rl_begin : Z;
  rl_burst : Z;
  rl_max_burst : Z;
  rl_events : Z;
  rl_nmissed : Z;
  rl_total_events : Z;
  rl_total_nmissed : Z;
  rl_total_interval : Z
}.

Definition BPF_RATELIMIT (interval burst : Z) : bpf_ratelimit :=
  mk_rl interval 0 burst 0 0 0 0 0 0.

(** The value of the array map BPF_RATELIMIT_IN_MAP declares, before the
    first call, and the configuration it declares beside it. *)
Definition rlimit_map_init : list bpf_ratelimit := [mk_rl 0 0 0 0 0 0 0 0 0].
Definition BPF_RATELIMIT_IN_MAP (interval burst max_burst : Z) : bpf_ratelimit :=
  mk_rl interval 0 burst max_burst 0 0 0 0 0.

(** A pointer into the state of an object file. *)
Record ptr (S T : Type) := mk_ptr { pget : S -> T; pset : T -> S -> S }.
Arguments mk_ptr {S T} _ _.
Arguments pget {S T} _ _.
Arguments pset {S T} _ _ _.

Definition NSEC_PER_SEC : Z := 1000000000.

(** if (rate->begin == 0) rate->begin = curr; *)
Definition rl_start (curr : Z) (r : bpf_ratelimit) : bpf_ratelimit :=
  if rl_begin r =? 0 then
    mk_rl (rl_interval r) curr (rl_burst r) (rl_max_burst r) (rl_events r) (rl_nmissed r)
      (rl_total_events r) (rl_total_nmissed r) (rl_total_interval r)
  else r.

(** if (curr > rate->begin + rate->interval) { ... } *)
Definition rl_roll (curr : Z) (r : bpf_ratelimit) : bpf_ratelimit :=
  if u64 (rl_begin r + rl_interval r) <? curr then
    mk_rl (rl_interval r) curr (rl_burst r) (rl_max_burst r) 0 0
      (rl_total_events r) (rl_total_nmissed r)
      (u64 (rl_total_interval r + u64 (curr - rl_begin r)))
  else r.

(** The burst test and the two ways out: [false] lets the event through. *)
Definition rl_take (r : bpf_ratelimit) : bool * bpf_ratelimit :=
  if negb (rl_burst r =? 0) && (rl_events r <? rl_burst r) then
    (false, mk_rl (rl_interval r) (rl_begin r) (rl_burst r) (rl_max_burst r)
              (u64 (rl_events r + 1)) (rl_nmissed r)
              (u64 (rl_total_events r + 1)) (rl_total_nmissed r) (rl_total_interval r))
  else
    (true, mk_rl (rl_interval r) (rl_begin r) (rl_burst r) (rl_max_burst r)
             (rl_events r) (u64 (rl_nmissed r + 1))
             (rl_total_events r) (u64 (rl_total_nmissed r + 1)) (rl_total_interval r)).

(** The body of [bpf_ratelimited] after the clock read, at second [curr]. *)
Definition ratelimit_at (curr : Z) (r : bpf_ratelimit) : bool * bpf_ratelimit :=
  rl_take (rl_roll curr (rl_start curr r)).

Definition bpf_ratelimited {S} (rate : option (ptr S bpf_ratelimit)) : M S bool :=
  match rate with
  | None => mret false
  | Some p =>
      r ← gets (pget p);
      if rl_interval r =? 0 then mret false
      else
        now ← bpf_ktime_get_ns;
        let '(b, r') := ratelimit_at (now / NSEC_PER_SEC) r in
        modify (pset p r');; mret b
  end.

(** The 72 bytes of a struct bpf_ratelimit. *)
Definition encode_ratelimit (r : bpf_ratelimit) : list byte :=
  le_bytes 8 (rl_interval r) ++ le_bytes 8 (rl_begin r) ++ le_bytes 8 (rl_burst r) ++
  le_bytes 8 (rl_max_burst r) ++ le_bytes 8 (rl_events r) ++ le_bytes 8 (rl_nmissed r) ++
  le_bytes 8 (rl_total_events r) ++ le_bytes 8 (rl_total_nmissed r) ++
  le_bytes 8 (rl_total_interval r).

(** if (rate->interval == 0) { ... }: the first call copies the configuration. *)
Definition rl_init_from (cfg r : bpf_ratelimit) : bpf_ratelimit :=
  if rl_interval r =? 0 then
    mk_rl (rl_interval cfg) (rl_begin r) (rl_burst cfg) (rl_max_burst cfg) (rl_events r)
      (rl_nmissed r) (rl_total_events r) (rl_total_nmissed r) (rl_total_interval r)
  else r.

(** The condition of the notification. *)
Definition rl_notifies (old_nmissed : Z) (r : bpf_ratelimit) : bool :=
  (old_nmissed =? 0) ||
  ((0 <? rl_max_burst r) && (u64 (rl_max_burst r - rl_burst r) <? rl_nmissed r)).

Definition bpf_ratelimited_core_in_map {S} (map : ptr S (list bpf_ratelimit))
    (perf_map : string) (cfg : bpf_ratelimit) : M S bool :=
  a ← gets (pget map);
  match a !! 0%nat with
  | None => mret false
  | Some r0 =>
      let elem := mk_ptr (fun s => default r0 (pget map s !! 0%nat))
                         (fun r s => pset map (<[0%nat:=r]> (pget map s)) s) in
      modify (fun s => pset elem (rl_init_from cfg (pget elem s)) s);;
      old_nmissed ← gets (fun s => rl_nmissed (pget elem s));
      limited ← bpf_ratelimited (Some elem);
      if negb limited then mret false
      else
        r ← gets (pget elem);
        (if rl_notifies old_nmissed r
         then bpf_perf_event_output perf_map (encode_ratelimit r) else mret tt);;
        mret true
  end.

(** ** Sequences of calls *)

(** The answers to calls made at the seconds [ts]. *)
Fixpoint ratelimit_calls (ts : list Z) (r : bpf_ratelimit) : list bool * bpf_ratelimit :=
  match ts with
  | [] => ([], r)
  | t :: ts' =>
      let '(b, r1) := ratelimit_at t r in
      let '(bs, r2) := ratelimit_calls ts' r1 in (b :: bs, r2)
  end.

(** How many of the answers let the event through. *)
Fixpoint granted (bs : list bool) : nat :=
  match bs with
  | [] => 0
  | b :: bs' => (if b then 0 else 1) + granted bs'
  end.

(** The same through the array map: answers and whether a notification was
    submitted. *)
Definition in_map_at (cfg : bpf_ratelimit) (t : Z) (r : bpf_ratelimit)
    : (bool * bool) * bpf_ratelimit :=
  let r0 := rl_init_from cfg r in
  let '(b, r') := ratelimit_at t r0 in
  ((b, b && rl_notifies (rl_nmissed r0) r'), r').

Fixpoint in_map_calls (cfg : bpf_ratelimit) (ts : list Z) (r : bpf_ratelimit)
    : list (bool * bool) * bpf_ratelimit :=
  match ts with
  | [] => ([], r)
  | t :: ts' =>
      let '(b, r1) := in_map_at cfg t r in
      let '(bs, r2) := in_map_calls cfg ts' r1 in (b :: bs, r2)
  end.

(** ** Abstract specification

    Calls fall into windows: a window opens at a call and takes every call up
    to and including [interval] seconds later.  [window_sizes interval w n ts]
    are the sizes of the windows of the calls [ts] that follow [n] calls of the
    window opened at [w]. *)
Fixpoint window_sizes (interval w : Z) (n : nat) (ts : list Z) : list nat :=
  match ts with
  | [] => [n]
  | t :: ts' =>
      if w + interval <? t then n :: window_sizes interval t 1 ts'
      else window_sizes interval w (S n) ts'
  end.

(** The first [burst] calls of a window are granted, the rest refused. *)
Definition grant (burst n : nat) : list bool :=
  replicate (Nat.min burst n) false ++ replicate (n - burst) true.

Definition spec_answers (interval : Z) (burst : nat) (ts : list Z) : list bool :=
  match ts with
  | [] => []
  | t :: ts' => flat_map (grant burst) (window_sizes interval t 1 ts')
  end.

(** The last of the seconds [ts], [t] if there are none. *)
Fixpoint final (t : Z) (ts : list Z) : Z :=
  match ts with
  | [] => t
  | t' :: ts' => final t' ts'
  end.

(** Clock readings of the calls: after boot second 0, in order, and far from
    the end of the 64-bit range. *)
Fixpoint clock_ok (interval : Z) (lo : Z) (ts : list Z) : Prop :=
  match ts with
  | [] => True
  | t :: ts' => lo <= t /\ t + interval < 2 ^ 64 /\ clock_ok interval t ts'
  end.

(** The limiter as a program of its own, called in the environments [es]. *)
Definition self_ptr {T} : ptr T T := mk_ptr (fun s => s) (fun t _ => t).

Fixpoint answers {S} (m : M S bool) (es : list kenv) (s : S) : list bool * S :=
  match es with
  | [] => ([], s)
  | e :: es' =>
      let '(b, w) := m e (W s 0%nat []) in
      let '(bs, s') := answers m es' (w_st w) in (b :: bs, s')
  end.

(** The second at which an invocation reads the clock. *)
Definition sec (e : kenv) : Z := ktime e 0%nat / NSEC_PER_SEC.

(** ** Lemmas *)

(** The state after [n] calls of the window opened at [w]. *)
Definition in_window (interval : Z) (burst : nat) (w : Z) (n : nat) (r : bpf_ratelimit) : Prop :=
  rl_interval r = interval /\ rl_burst r = Z.of_nat burst /\ rl_begin r = w /\
  rl_events r = Z.of_nat (Nat.min burst n).

Section Refinement.
Context (interval : Z) (burst : nat).
Context (Hinterval : 0 < interval) (Hburst : (0 < burst)%nat).
Context (Hburst64 : Z.of_nat burst < 2 ^ 64).

Lemma take_in_window w n r :
  in_window interval burst w n r ->
  fst (rl_take r) = (burst <=? n)%nat /\ in_window interval burst w (S n) (snd (rl_take r)).
Proof.
  intros (HI & HB & Hw & He). unfold rl_take. rewrite HB, He.
  replace (Z.of_nat burst =? 0) with false by (symmetry; apply Z.eqb_neq; lia). simpl.
  destruct (Nat.leb_spec burst n); case_if; try lia; simpl; unfold in_window; simpl.
  - repeat split; try done. lia.
  - repeat split; try done. rewrite u64_small; [lia|]. unfold is_u. lia.
Qed.

Lemma roll_in_window w n r t :
  in_window interval burst w n r -> 0 < w <= t -> w + interval < 2 ^ 64 ->
  in_window interval burst (if w + interval <? t then t else w)
    (if w + interval <? t then 0%nat else n) (rl_roll t (rl_start t r)).
Proof.
  intros (HI & HB & Hw & He) Ht Hov. unfold rl_start.
  replace (rl_begin r =? 0) with false by (symmetry; apply Z.eqb_neq; lia).
  unfold rl_roll. rewrite Hw, HI, u64_small by (unfold is_u; lia).
  unfold in_window. case_if; simpl; repeat split; try done; lia.
Qed.

(** One call: a new window grants it, an open one grants it while fewer
    than [burst] of its calls were made. *)
Lemma call_in_window w n r t :
  in_window interval burst w n r -> 0 < w <= t -> w + interval < 2 ^ 64 ->
  fst (ratelimit_at t r) = (if w + interval <? t then false else (burst <=? n)%nat) /\
  in_window interval burst (if w + interval <? t then t else w)
    (if w + interval <? t then 1%nat else S n) (snd (ratelimit_at t r)).
Proof.
  intros Hr Ht Hov. unfold ratelimit_at.
  pose proof (roll_in_window w n r t Hr Ht Hov) as Hroll.
  destruct (w + interval <? t); apply take_in_window in Hroll as [E Hw]; split; try done.
  rewrite E. apply Nat.leb_gt. lia.
Qed.

Lemma grant_S n :
  grant burst (S n) = grant burst n ++ [(burst <=? n)%nat].
Proof.
  unfold grant. destruct (Nat.leb_spec burst n).
  - rewrite !Nat.min_l by lia. replace (S n - burst)%nat with (n - burst + 1)%nat by lia.
    by rewrite replicate_add, (assoc_L (++)).
  - rewrite !Nat.min_r by lia. replace (S n - burst)%nat with 0%nat by lia.
    replace (n - burst)%nat with 0%nat by lia. rewrite !app_nil_r.
    by rewrite replicate_S_end.
Qed.

Lemma calls_in_window ts w n r :
  in_window interval burst w n r -> 0 < w -> w + interval < 2 ^ 64 -> clock_ok interval w ts ->
  grant burst n ++ fst (ratelimit_calls ts r) =
    flat_map (grant burst) (window_sizes interval w n ts).
Proof.
  revert w n r. induction ts as [|t ts IH]; intros w n r Hr Hw Hov Hc; simpl.
  { done. }
  destruct Hc as (Ht & Hovt & Hc).
  destruct (call_in_window w n r t Hr ltac:(lia) Hov) as [Eb Hr'].
  destruct (ratelimit_at t r) as [b r1]. cbn [fst snd] in *.
  destruct (ratelimit_calls ts r1) as [bs r2] eqn:Ecalls. simpl.
  assert (clock_ok interval w ts) as Hcw.
  { destruct ts; [done|]. destruct Hc as (? & ? & ?). split; [lia|done]. }
  destruct (w + interval <? t) eqn:E; subst b; reflect_bool.
  - specialize (IH t 1%nat r1 Hr' ltac:(lia) Hovt Hc). rewrite Ecalls in IH.
    cbn [fst flat_map] in *. rewrite <- IH. f_equal.
    rewrite (grant_S 0). simpl. destruct burst; [lia|done].
  - specialize (IH w (S n) r1 Hr' Hw Hov Hcw). rewrite Ecalls in IH. cbn [fst] in *.
    rewrite <- IH, grant_S. by rewrite <- (assoc_L (++)).
Qed.

Lemma window_from_start t r :
  rl_interval r = interval -> rl_burst r = Z.of_nat burst -> rl_begin r = 0 ->
  rl_events r = 0 -> 0 < t -> t + interval < 2 ^ 64 ->
  fst (ratelimit_at t r) = false /\ in_window interval burst t 1 (snd (ratelimit_at t r)).
Proof.
  intros HI HB Hb He Ht Hov. unfold ratelimit_at, rl_start. rewrite Hb. simpl.
  unfold rl_roll. simpl. rewrite HI, u64_small by (unfold is_u; lia).
  case_if; [lia|]. edestruct (take_in_window t 0) as [E Hw].
  2: { split; [|exact Hw]. rewrite E. apply Nat.leb_gt. lia. }
  unfold in_window. simpl. repeat split; try done. rewrite He. lia.
Qed.

Lemma calls_refine_spec ts r :
  rl_interval r = interval -> rl_burst r = Z.of_nat burst -> rl_begin r = 0 ->
  rl_events r = 0 -> clock_ok interval 1 ts ->
  fst (ratelimit_calls ts r) = spec_answers interval burst ts.
Proof.
  intros HI HB Hb He Hc. destruct ts as [|t ts]; [done|].
  destruct Hc as (Ht & Hov & Hc). simpl.
  destruct (window_from_start t r HI HB Hb He ltac:(lia) Hov) as [E Hw].
  destruct (ratelimit_at t r) as [b r1]. cbn [fst snd] in *. subst b.
  pose proof (calls_in_window ts t 1 r1 Hw ltac:(lia) Hov Hc) as H.
  destruct (ratelimit_calls ts r1) as [bs r2]. cbn [fst] in *. rewrite <- H.
  rewrite (grant_S 0). simpl. destruct burst; [lia|done].
Qed.
End Refinement.

(** Running the program on its own state is calling [ratelimit_at]. *)
Lemma ratelimited_run {S} (p : ptr S bpf_ratelimit) e w :
  bpf_ratelimited (Some p) e w =
    if rl_interval (pget p (w_st w)) =? 0 then (false, w)
    else let '(b, r') := ratelimit_at (ktime e (w_clk w) / NSEC_PER_SEC) (pget p (w_st w)) in
         (b, W (pset p r' (w_st w)) (Datatypes.S (w_clk w)) (w_out w)).
Proof.
  unfold bpf_ratelimited. run_simpl.
  case_if; [done|].
  by destruct (ratelimit_at _ _) as [b r'].
Qed.

Lemma keeps_ratelimited {S} (I : S -> Prop) (p : ptr S bpf_ratelimit) :
  (forall r s, I s -> I (pset p r s)) -> keeps I (bpf_ratelimited (Some p)).
Proof.
  intros Hp e w Hw. rewrite ratelimited_run. case_if; [done|].
  destruct (ratelimit_at _ _). by apply Hp.
Qed.

Lemma ratelimit_at_interval t r : rl_interval (snd (ratelimit_at t r)) = rl_interval r.
Proof. unfold ratelimit_at, rl_take, rl_roll, rl_start. repeat case_if; done. Qed.

Lemma answers_calls es r :
  rl_interval r <> 0 ->
  answers (bpf_ratelimited (Some self_ptr)) es r = ratelimit_calls (map sec es) r.
Proof.
  revert r. induction es as [|e es IH]; intros r Hi; [done|].
  cbn [answers map ratelimit_calls]. rewrite ratelimited_run. cbn [self_ptr pget pset w_st].
  replace (rl_interval r =? 0) with false by (symmetry; by apply Z.eqb_neq).
  cbn [w_clk]. fold (sec e). pose proof (ratelimit_at_interval (sec e) r) as Hi'.
  destruct (ratelimit_at (sec e) r) as [b r1]. cbn [snd w_st] in *.
  rewrite IH by congruence. done.
Qed.

Lemma granted_app a b : granted (a ++ b) = (granted a + granted b)%nat.
Proof. induction a; simpl; lia. Qed.

Lemma granted_grant burst n : granted (grant burst n) = Nat.min burst n.
Proof.
  unfold grant. rewrite granted_app.
  assert (forall k, granted (replicate k false) = k) as ->.
  { intros k. induction k; simpl; congruence. }
  assert (forall k, granted (replicate k true) = 0%nat) as ->; [|lia].
  intros k. induction k; simpl; congruence.
Qed.

Lemma window_sizes_one interval ts w n :
  Forall (fun t => t <= w + interval) ts ->
  window_sizes interval w n ts = [(n + length ts)%nat].
Proof.
  revert n. induction ts as [|t ts IH]; intros n Hf; simpl; [by rewrite Nat.add_0_r|].
  apply Forall_cons in Hf as [Ht Hf]. case_if; [lia|]. rewrite IH by done. f_equal. lia.
Qed.

Lemma grant_all burst n : (n <= burst)%nat -> grant burst n = replicate n false.
Proof.
  intros. unfold grant. rewrite Nat.min_r by done. replace (n - burst)%nat with 0%nat by lia.
  apply app_nil_r.
Qed.

(** Calls within one interval that fit the burst are all granted. *)
Lemma spec_answers_small interval burst t ts :
  Forall (fun t' => t' <= t + interval) ts -> (S (length ts) <= burst)%nat ->
  spec_answers interval burst (t :: ts) = replicate (S (length ts)) false.
Proof.
  intros Hts Hb. cbn [spec_answers]. rewrite window_sizes_one by done.
  cbn [flat_map]. by rewrite app_nil_r, grant_all by lia.
Qed.

Lemma granted_windows burst ws :
  (granted (flat_map (grant burst) ws) <= burst * length ws)%nat.
Proof.
  induction ws as [|n ws IH]; [simpl; lia|].
  cbn [flat_map length]. rewrite granted_app, granted_grant. lia.
Qed.

Lemma clock_ok_final interval lo ts : clock_ok interval lo ts -> lo <= final lo ts.
Proof.
  revert lo. induction ts as [|t ts IH]; intros lo Hc; [simpl; lia|].
  destruct Hc as (? & ? & Hc). specialize (IH t Hc). simpl. lia.
Qed.

(** A window takes at least [interval + 1] seconds of the clock. *)
Lemma length_window_sizes interval ts w v n :
  0 < interval -> w <= v -> clock_ok interval v ts ->
  Z.of_nat (length (window_sizes interval w n ts)) <= 1 + (final v ts - w) / (interval + 1).
Proof.
  intros HI. revert w v n. induction ts as [|t ts IH]; intros w v n Hv Hc.
  { simpl. pose proof (Z.div_pos (v - w) (interval + 1) ltac:(lia) ltac:(lia)). lia. }
  destruct Hc as (Ht & Hov & Hc). cbn [window_sizes final]. case_if.
  - cbn [length]. specialize (IH t t 1%nat ltac:(lia) Hc).
    assert (1 + (final t ts - t) / (interval + 1) <= (final t ts - w) / (interval + 1)); [|lia].
    rewrite Z.add_comm, <- Z.div_add by lia. apply Z.div_le_mono; lia.
  - apply IH; [lia|done].
Qed.

Lemma spec_answers_bound interval burst t ts :
  0 < interval -> clock_ok interval 1 (t :: ts) ->
  Z.of_nat (granted (spec_answers interval burst (t :: ts))) <=
    Z.of_nat burst * (1 + (final t ts - t) / (interval + 1)).
Proof.
  intros HI (? & ? & Hc). cbn [spec_answers].
  pose proof (granted_windows burst (window_sizes interval t 1 ts)).
  pose proof (length_window_sizes interval ts t t 1 HI ltac:(lia) Hc). nia.
Qed.

Lemma length_grant burst n : length (grant burst n) = n.
Proof. unfold grant. rewrite length_app, !length_replicate. lia. Qed.

Lemma length_flat_grant interval burst ts w n :
  length (flat_map (grant burst) (window_sizes interval w n ts)) = (n + length ts)%nat.
Proof.
  revert w n. induction ts as [|t ts IH]; intros w n; simpl.
  { rewrite app_nil_r, length_grant. lia. }
  case_if; simpl; rewrite ?length_app, IH, ?length_grant; lia.
Qed.

Lemma length_spec_answers interval burst ts :
  length (spec_answers interval burst ts) = length ts.
Proof. destruct ts as [|t ts]; [done|]. cbn [spec_answers]. by rewrite length_flat_grant. Qed.

(** While the clock stays within [interval] seconds of the start of the
    window, every call belongs to it. *)
Lemma calls_totals ts r :
  is_u 64 (rl_total_events r) -> is_u 64 (rl_total_nmissed r) ->
  let '(bs, r') := ratelimit_calls ts r in
  rl_total_events r' = u64 (rl_total_events r + Z.of_nat (granted bs)) /\
  rl_total_nmissed r' = u64 (rl_total_nmissed r + Z.of_nat (length ts - granted bs)) /\
  (granted bs <= length ts)%nat.
Proof.
  revert r. induction ts as [|t ts IH]; intros r He Hn; simpl.
  { rewrite !Z.add_0_r, !u64_small by done. done. }
  assert (rl_total_events (snd (ratelimit_at t r)) =
            u64 (rl_total_events r + (if fst (ratelimit_at t r) then 0 else 1)) /\
          rl_total_nmissed (snd (ratelimit_at t r)) =
            u64 (rl_total_nmissed r + (if fst (ratelimit_at t r) then 1 else 0))) as [E1 E2].
  { unfold ratelimit_at, rl_take, rl_roll, rl_start.
    repeat case_if; simpl; rewrite ?Z.add_0_r, ?(u64_small _ He), ?(u64_small _ Hn); done. }
  destruct (ratelimit_at t r) as [b r1]. cbn [fst snd] in *.
  specialize (IH r1). destruct (ratelimit_calls ts r1) as [bs r2].
  destruct IH as (F1 & F2 & F3); [rewrite E1; apply u64_range | rewrite E2; apply u64_range |].
  rewrite F1, F2, E1, E2, !u64_add_l. simpl. destruct b; repeat split; try lia; f_equal; lia.
Qed.

(** ** From the middle of a run *)

Lemma calls_app ts1 ts2 r :
  ratelimit_calls (ts1 ++ ts2) r =
    let '(bs1, r1) := ratelimit_calls ts1 r in
    let '(bs2, r2) := ratelimit_calls ts2 r1 in (bs1 ++ bs2, r2).
Proof.
  revert r. induction ts1 as [|t ts1 IH]; intros r; cbn [app ratelimit_calls].
  { by destruct (ratelimit_calls ts2 r). }
  destruct (ratelimit_at t r) as [b r1]. rewrite IH. destruct (ratelimit_calls ts1 r1) as [bs1 r2].
  by destruct (ratelimit_calls ts2 r2).
Qed.

Lemma calls_length ts r : length (fst (ratelimit_calls ts r)) = length ts.
Proof.
  revert r. induction ts as [|t ts IH]; intros r; [done|]. cbn [ratelimit_calls].
  destruct (ratelimit_at t r) as [b r1]. specialize (IH r1). destruct (ratelimit_calls ts r1). cbn in *. by f_equal.
Qed.

Lemma drop_calls ts1 ts2 r :
  drop (length ts1) (fst (ratelimit_calls (ts1 ++ ts2) r)) = fst (ratelimit_calls ts2 (snd (ratelimit_calls ts1 r))).
Proof.
  rewrite calls_app. pose proof (calls_length ts1 r) as Hl. destruct (ratelimit_calls ts1 r) as [bs1 r1]. cbn [fst snd] in *.
  destruct (ratelimit_calls ts2 r1) as [bs2 r2]. cbn [fst]. by rewrite <- Hl, drop_app_length.
Qed.

(** The windows of later calls: the open one, and one per [interval + 1] seconds. *)
Lemma length_window_sizes_open interval ts w v n :
  0 < interval -> clock_ok interval v ts ->
  Z.of_nat (length (window_sizes interval w n ts)) <= 2 + (final v ts - v) / (interval + 1).
Proof.
  intros HI. revert v n. induction ts as [|t ts IH]; intros v n Hc.
  { cbn [window_sizes length final]. rewrite Z.sub_diag, Z.div_0_l by lia. lia. }
  destruct Hc as (Ht & _ & Hc). cbn [window_sizes final].
  assert ((final t ts - t) / (interval + 1) <= (final t ts - v) / (interval + 1)) by (apply Z.div_le_mono; lia).
  case_if; [cbn [length]; pose proof (length_window_sizes interval ts t t 1 HI ltac:(lia) Hc) | specialize (IH t (S n) Hc)]; lia.
Qed.

Section Middle.
Context (interval : Z) (burst : nat).
Context (Hinterval : 0 < interval) (Hburst : (0 < burst)%nat).
Context (Hburst64 : Z.of_nat burst < 2 ^ 64).

(** The limiter between two calls: a window is open and was opened by a call. *)
Lemma calls_window ts w n r rest :
  in_window interval burst w n r -> (1 <= n)%nat -> 0 < w -> w + interval < 2 ^ 64 -> clock_ok interval w (ts ++ rest) ->
  exists w' n', in_window interval burst w' n' (snd (ratelimit_calls ts r)) /\ (1 <= n')%nat /\ 0 < w' /\
    w' + interval < 2 ^ 64 /\ clock_ok interval w' rest.
Proof.
  revert w n r. induction ts as [|t ts IH]; intros w n r Hr Hn Hw Hov Hc; [by exists w, n|].
  destruct Hc as (Ht & Hovt & Hc). cbn [ratelimit_calls].
  destruct (call_in_window interval burst Hinterval Hburst Hburst64 w n r t Hr ltac:(lia) Hov) as [_ Hr'].
  destruct (ratelimit_at t r) as [b r1]. cbn [snd] in Hr'.
  assert (clock_ok interval w (ts ++ rest)) as Hcw.
  { destruct (ts ++ rest); [done|]. destruct Hc as (? & ? & ?). split; [lia|done]. }
  assert (snd (let '(bs, r2) := ratelimit_calls ts r1 in (b :: bs, r2)) = snd (ratelimit_calls ts r1)) as ->
    by (by destruct (ratelimit_calls ts r1)).
  destruct (w + interval <? t); eapply IH; try exact Hr'; try done; lia.
Qed.

Lemma calls_reach t ts rest r :
  rl_interval r = interval -> rl_burst r = Z.of_nat burst -> rl_begin r = 0 -> rl_events r = 0 ->
  clock_ok interval 1 ((t :: ts) ++ rest) ->
  exists w n, in_window interval burst w n (snd (ratelimit_calls (t :: ts) r)) /\ (1 <= n)%nat /\ 0 < w /\
    w + interval < 2 ^ 64 /\ clock_ok interval w rest.
Proof.
  intros HI HB Hb He (Ht & Hov & Hc). cbn [ratelimit_calls].
  destruct (window_from_start interval burst Hinterval Hburst Hburst64 t r HI HB Hb He ltac:(lia) Hov) as [_ Hw].
  destruct (ratelimit_at t r) as [b r1]. cbn [snd] in Hw.
  assert (snd (let '(bs, r2) := ratelimit_calls ts r1 in (b :: bs, r2)) = snd (ratelimit_calls ts r1)) as ->
    by (by destruct (ratelimit_calls ts r1)).
  apply (calls_window ts t 1); try done; lia.
Qed.

Lemma calls_bound ts w n t r :
  in_window interval burst w n r -> (1 <= n)%nat -> 0 < w -> w + interval < 2 ^ 64 -> clock_ok interval w (t :: ts) ->
  Z.of_nat (granted (fst (ratelimit_calls (t :: ts) r))) <=
    Z.of_nat burst * (1 + (final t ts - t) / (interval + 1)) + (Z.of_nat burst - 1).
Proof.
  intros Hr Hn Hw Hov Hc.
  pose proof (calls_in_window interval burst Hinterval Hburst Hburst64 (t :: ts) w n r Hr Hw Hov Hc) as E.
  apply (f_equal granted) in E. rewrite granted_app, granted_grant in E.
  pose proof (granted_windows burst (window_sizes interval w n (t :: ts))) as Hg.
  destruct Hc as (Ht & Hovt & Hc).
  pose proof (length_window_sizes_open interval (t :: ts) w t n Hinterval ltac:(by repeat split)) as Hl.
  cbn [final] in Hl. nia.
Qed.
End Middle.

(** ** Through the array map *)

Fixpoint notified (bs : list (bool * bool)) : nat :=
  match bs with
  | [] => 0
  | (_, n) :: bs' => (if n : bool then 1 else 0) + notified bs'
  end.

(** The windows with more calls than [burst]. *)
Fixpoint overfull (burst : nat) (ws : list nat) : nat :=
  match ws with
  | [] => 0
  | n :: ws' => (if (burst <? n)%nat then 1 else 0) + overfull burst ws'
  end.

Definition spec_windows (interval : Z) (ts : list Z) : list nat :=
  match ts with
  | [] => []
  | t :: ts' => window_sizes interval t 1 ts'
  end.

Section InMap.
Context (interval : Z) (burst : nat).
Context (Hinterval : 0 < interval) (Hburst : (0 < burst)%nat).
Context (Hburst64 : Z.of_nat burst < 2 ^ 64).
Context (cfg := BPF_RATELIMIT_IN_MAP interval (Z.of_nat burst) 0).

Definition in_window_m (w : Z) (n : nat) (r : bpf_ratelimit) : Prop :=
  in_window interval burst w n r /\ rl_max_burst r = 0 /\
  rl_nmissed r = Z.of_nat (n - burst).

Lemma rl_init_from_id r : rl_interval r = interval -> rl_init_from cfg r = r.
Proof. intros HI. unfold rl_init_from. case_if; [lia|done]. Qed.

(** A refused call counts a miss, a granted one does not. *)
Lemma take_nmissed r :
  rl_nmissed (snd (rl_take r)) =
    (if fst (rl_take r) then u64 (rl_nmissed r + 1) else rl_nmissed r) /\
  rl_max_burst (snd (rl_take r)) = rl_max_burst r.
Proof. unfold rl_take. case_if; done. Qed.

Lemma in_map_call w n r t :
  in_window_m w n r -> 0 < w <= t -> w + interval < 2 ^ 64 -> Z.of_nat n < 2 ^ 64 ->
  let roll := w + interval <? t in
  fst (in_map_at cfg t r) =
    (if roll then (false, false) else ((burst <=? n)%nat, (burst =? n)%nat)) /\
  in_window_m (if roll then t else w) (if roll then 1%nat else S n) (snd (in_map_at cfg t r)).
Proof.
  intros (Hr & Hm & Hn) Ht Hov Hn64 roll. unfold in_map_at.
  rewrite rl_init_from_id by apply Hr.
  destruct (call_in_window interval burst Hinterval Hburst Hburst64 w n r t Hr Ht Hov)
    as [Eb Hw'].
  assert (rl_nmissed (rl_roll t (rl_start t r)) = (if roll then 0 else rl_nmissed r) /\
          rl_max_burst (rl_roll t (rl_start t r)) = 0) as [En Em].
  { destruct Hr as (HI & HB & Hb & He). unfold rl_start.
    replace (rl_begin r =? 0) with false by (symmetry; apply Z.eqb_neq; lia).
    unfold rl_roll, roll. rewrite Hb, HI, u64_small by (unfold is_u; lia). case_if; done. }
  pose proof (take_nmissed (rl_roll t (rl_start t r))) as [En' Em'].
  fold (ratelimit_at t r) in En', Em'.
  destruct (ratelimit_at t r) as [b r1]. cbn [fst snd] in *. subst b. rewrite En, Hn in En'.
  unfold rl_notifies, in_window_m. rewrite Em', Em, Hn.
  revert Hw' En'. unfold roll. clear - Hn64 Hburst. destruct (w + interval <? t); cbn [andb]; intros Hw'.
  - intros ->. repeat split; try apply Hw'. lia.
  - cbn [orb].
    destruct (Nat.leb_spec burst n), (Nat.eqb_spec burst n), (Z.eqb_spec (Z.of_nat (n - burst)) 0);
      try lia; cbn [andb orb]; rewrite ?u64_small by (unfold is_u; lia);
      intros En'; repeat split; try done; try apply Hw'; rewrite En'; lia.
Qed.

Lemma in_map_calls_window ts w n r :
  in_window_m w n r -> 0 < w -> w + interval < 2 ^ 64 -> clock_ok interval w ts ->
  Z.of_nat (n + length ts) < 2 ^ 64 ->
  (notified (fst (in_map_calls cfg ts r)) + (if burst <? n then 1 else 0))%nat =
    overfull burst (window_sizes interval w n ts).
Proof.
  revert w n r. induction ts as [|t ts IH]; intros w n r Hr Hw Hov Hc Hlen; simpl; [lia|].
  destruct Hc as (Ht & Hovt & Hc). simpl in Hlen.
  destruct (in_map_call w n r t Hr ltac:(lia) Hov ltac:(lia)) as [Eb Hr'].
  destruct (in_map_at cfg t r) as [[b nb] r1]. cbn [fst snd] in *.
  destruct (in_map_calls cfg ts r1) as [bs r2] eqn:Ecalls. simpl.
  assert (clock_ok interval w ts) as Hcw.
  { destruct ts; [done|]. destruct Hc as (? & ? & ?). split; [lia|done]. }
  destruct (w + interval <? t) eqn:E; injection Eb as -> ->; reflect_bool.
  - specialize (IH t 1%nat r1 Hr' ltac:(lia) Hovt Hc ltac:(lia)).
    rewrite Ecalls in IH. cbn [fst overfull] in *. rewrite <- IH.
    destruct (Nat.ltb_spec burst 1); lia.
  - specialize (IH w (S n) r1 Hr' Hw Hov Hcw ltac:(lia)).
    rewrite Ecalls in IH. cbn [fst] in *. rewrite <- IH.
    destruct (Nat.ltb_spec burst n), (Nat.ltb_spec burst (S n)), (Nat.eqb_spec burst n); lia.
Qed.

Lemma in_map_calls_count ts :
  clock_ok interval 1 ts -> Z.of_nat (length ts) < 2 ^ 64 ->
  notified (fst (in_map_calls cfg ts (mk_rl 0 0 0 0 0 0 0 0 0))) =
    overfull burst (spec_windows interval ts).
Proof.
  intros Hc Hlen. destruct ts as [|t ts]; [done|]. destruct Hc as (Ht & Hov & Hc).
  cbn [in_map_calls spec_windows length] in *.
  set (r0 := mk_rl 0 0 0 0 0 0 0 0 0).
  assert (fst (in_map_at cfg t r0) = (false, false) /\
          in_window_m t 1 (snd (in_map_at cfg t r0))) as [Eb Hr].
  { unfold in_map_at. set (r := rl_init_from cfg r0).
    destruct (window_from_start interval burst Hinterval Hburst Hburst64 t r)
      as [E Hw]; try done; [lia|].
    pose proof (take_nmissed (rl_roll t (rl_start t r))) as [En Em].
    fold (ratelimit_at t r) in En, Em. rewrite E in En.
    assert (rl_nmissed (rl_roll t (rl_start t r)) = 0 /\
            rl_max_burst (rl_roll t (rl_start t r)) = 0) as [E1 E2].
    { unfold rl_roll. case_if; done. }
    destruct (ratelimit_at t r) as [b r1]. cbn [fst snd] in *. subst b. split; [done|].
    split; [done|]. rewrite Em, En, E1, E2. split; [done|lia]. }
  destruct (in_map_at cfg t r0) as [[b nb] r1]. cbn [fst snd] in *.
  injection Eb as -> ->.
  pose proof (in_map_calls_window ts t 1 r1 Hr ltac:(lia) Hov Hc ltac:(lia)) as H.
  destruct (in_map_calls cfg ts r1) as [bs r2]. cbn [fst notified] in *.
  destruct (Nat.ltb_spec burst 1); lia.
Qed.
End InMap.

(** One call through the map, as a program. *)
Lemma in_map_eq name cfg e r :
  rl_interval cfg <> 0 ->
  bpf_ratelimited_core_in_map self_ptr name cfg e (W [r] 0%nat []) =
    let '((b, nb), r') := in_map_at cfg (sec e) r in
    (b, W [r'] 1%nat (if (nb : bool) then [(name, encode_ratelimit r')] else [])).
Proof.
  intros Hc. unfold bpf_ratelimited_core_in_map. unfold in_map_at.
  cbv beta iota zeta delta [mbind M_bind gets modify mret M_ret w_st w_clk w_out self_ptr pget pset
    lookup list_lookup default insert list_insert option_map].
  rewrite ratelimited_run. simpl.
  assert (rl_interval (rl_init_from cfg r) <> 0) as Hi.
  { unfold rl_init_from. case_if; done. }
  destruct (Z.eqb_spec (rl_interval (rl_init_from cfg r)) 0); [done|].
  fold (sec e). destruct (ratelimit_at (sec e) (rl_init_from cfg r)) as [b r1]. simpl.
  destruct b; simpl; [|done].
  destruct (rl_notifies _ r1); done.
Qed.

Lemma in_map_run name cfg e r :
  rl_interval cfg <> 0 ->
  run (bpf_ratelimited_core_in_map self_ptr name cfg) e [r] =
    let '((b, nb), r') := in_map_at cfg (sec e) r in
    ([r'], if (nb : bool) then [(name, encode_ratelimit r')] else []).
Proof.
  intros Hc. unfold run. rewrite in_map_eq by done. by destruct (in_map_at _ _ _) as [[b nb] r'].
Qed.

(** The answers through the map are those of the limiter the first call
    configures. *)
Lemma in_map_answers cfg ts r :
  rl_interval cfg <> 0 ->
  map fst (fst (in_map_calls cfg ts r)) = fst (ratelimit_calls ts (rl_init_from cfg r)).
Proof.
  intros Hc. revert r. induction ts as [|t ts IH]; intros r; [done|].
  cbn [in_map_calls ratelimit_calls]. unfold in_map_at.
  pose proof (ratelimit_at_interval t (rl_init_from cfg r)) as Hi.
  destruct (ratelimit_at t (rl_init_from cfg r)) as [b r1]. cbn [snd] in Hi.
  specialize (IH r1).
  assert (rl_init_from cfg r1 = r1) as Hid.
  { unfold rl_init_from. rewrite (proj2 (Z.eqb_neq _ _)); [done|]. rewrite Hi.
    unfold rl_init_from. case_if; done. }
  rewrite Hid in IH.
  destruct (in_map_calls cfg ts r1) as [bs r2], (ratelimit_calls ts r1) as [bs' r3].
  cbn [fst map] in *. by rewrite IH.
Qed.

Lemma in_map_run_all name cfg es r :
  rl_interval cfg <> 0 ->
  length (snd (run_all (map (fun e => (e, bpf_ratelimited_core_in_map self_ptr name cfg)) es) [r])) =
    notified (fst (in_map_calls cfg (map sec es) r)).
Proof.
  intros Hc. revert r. induction es as [|e es IH]; intros r; [done|].
  cbn [map run_all in_map_calls]. rewrite in_map_run by done.
  destruct (in_map_at cfg (sec e) r) as [[b nb] r1].
  specialize (IH r1).
  destruct (run_all _ [r1]) as [s o]. destruct (in_map_calls cfg (map sec es) r1) as [bs r2].
  cbn [fst snd notified] in *. rewrite length_app, IH. by destruct nb.
Qed.

(** ** Theorems *)

(** A small environment for the witnesses: the clock stands at second [s]. *)
Definition env_at (s : Z) : kenv :=
  mk_kenv (fun _ => s * NSEC_PER_SEC) 0 0 [] 0 (fun _ => None) (fun _ => 0) (fun _ => false)
    (fun _ _ => ([], 0)).

(** C1: functional refinement.  On any sequence of calls made in clock order,
    [bpf_ratelimited] answers exactly as the window specification: the calls
    split into windows that a call opens and that last [interval] seconds
    after it, and the first [burst] calls of each window go through. *)
Theorem ratelimited_refines_windows interval burst es :
  0 < interval -> (0 < burst)%nat -> Z.of_nat burst < 2 ^ 64 ->
  clock_ok interval 1 (map sec es) ->
  fst (answers (bpf_ratelimited (Some self_ptr)) es (BPF_RATELIMIT interval (Z.of_nat burst))) =
    spec_answers interval burst (map sec es).
Proof.
  intros HI HB HB64 Hc. rewrite answers_calls by (simpl; lia).
  by apply calls_refine_spec.
Qed.

Lemma ratelimited_refines_windows_witness :
  fst (answers (bpf_ratelimited (Some self_ptr)) (map env_at [5; 5; 6; 6; 7; 7])
         (BPF_RATELIMIT 1 2)) = [false; false; true; true; false; false].
Proof.
  change (BPF_RATELIMIT 1 2) with (BPF_RATELIMIT 1 (Z.of_nat 2)).
  rewrite (ratelimited_refines_windows 1 2 (map env_at [5; 5; 6; 6; 7; 7]));
    [reflexivity | lia | lia | lia | vm_compute; repeat split; discriminate].
Defined.

(** C29: the rate bound between any two instants of a run.  Of the calls made
    from second [first] to second [last], at most
    [burst * (1 + (last - first) / (interval + 1))] are let through when they are
    the first calls of the limiter, and at most [burst - 1] more when others came
    before them, which is what an open window can still grant; this whatever the
    number of calls and whatever came before. *)
Theorem ratelimited_rate_bound interval burst pre e es :
  0 < interval -> (0 < burst)%nat -> Z.of_nat burst < 2 ^ 64 ->
  clock_ok interval 1 (map sec (pre ++ e :: es)) ->
  let bs := fst (answers (bpf_ratelimited (Some self_ptr)) (pre ++ e :: es)
                   (BPF_RATELIMIT interval (Z.of_nat burst))) in
  Z.of_nat (granted (drop (length pre) bs)) <=
    Z.of_nat burst * (1 + (final (sec e) (map sec es) - sec e) / (interval + 1)) +
    (if pre is [] then 0 else Z.of_nat burst - 1).
Proof.
  intros HI HB HB64 Hc bs. subst bs. rewrite answers_calls by (simpl; lia). rewrite map_app in *. cbn [map] in *.
  destruct pre as [|e0 pre].
  - cbn [map app length drop] in *. rewrite (calls_refine_spec interval burst) by done.
    rewrite drop_0. pose proof (spec_answers_bound interval burst (sec e) (map sec es) HI Hc). lia.
  - replace (length (e0 :: pre)) with (length (map sec (e0 :: pre))) by apply length_map.
    rewrite drop_calls. destruct (calls_reach interval burst HI HB HB64 (sec e0) (map sec pre) (sec e :: map sec es)
      (BPF_RATELIMIT interval (Z.of_nat burst))) as (w & n & Hr & Hn & Hw & Hov & Hc'); [done..|].
    by apply (calls_bound interval burst HI HB HB64 (map sec es) w n).
Qed.

(** Calls at the seconds 5, 6 and twice 7 with a burst of two: three of the last
    three are let through, one more than two. *)
Lemma ratelimited_rate_bound_witness :
  granted (drop 1 (fst (answers (bpf_ratelimited (Some self_ptr))
      ([env_at 5] ++ env_at 6 :: map env_at [7; 7]) (BPF_RATELIMIT 1 (Z.of_nat 2))))) = 3%nat /\
  Z.of_nat (granted (drop 1 (fst (answers (bpf_ratelimited (Some self_ptr))
      ([env_at 5] ++ env_at 6 :: map env_at [7; 7]) (BPF_RATELIMIT 1 (Z.of_nat 2)))))) <= 3.
Proof.
  split; [vm_compute; reflexivity|].
  apply (ratelimited_rate_bound 1 2 [env_at 5] (env_at 6) (map env_at [7; 7]));
    [lia | lia | lia | vm_compute; repeat split; discriminate].
Defined.

(** One budget for [interval + 1] clock seconds.  All the calls made in the
    seconds [t .. t + interval] share one window, so with [interval = 1] the
    limit "[burst] per second" holds over two seconds of the clock. *)
Theorem ratelimited_window_length interval burst e es :
  0 < interval -> (0 < burst)%nat -> Z.of_nat burst < 2 ^ 64 ->
  clock_ok interval 1 (map sec (e :: es)) ->
  Forall (fun e' => sec e' <= sec e + interval) es ->
  granted (fst (answers (bpf_ratelimited (Some self_ptr)) (e :: es)
                  (BPF_RATELIMIT interval (Z.of_nat burst)))) =
    Nat.min burst (S (length es)).
Proof.
  intros HI HB HB64 Hc Hf. rewrite answers_calls by (simpl; lia).
  rewrite (calls_refine_spec interval burst) by done. cbn [map spec_answers].
  rewrite window_sizes_one by (by apply Forall_map).
  simpl. by rewrite app_nil_r, granted_grant, length_map.
Qed.

Lemma ratelimited_window_length_witness :
  granted (fst (answers (bpf_ratelimited (Some self_ptr))
      (env_at 5 :: map env_at [5; 6; 6; 6]) (BPF_RATELIMIT 1 (Z.of_nat 2)))) = 2%nat.
Proof.
  apply (ratelimited_window_length 1 2 (env_at 5) (map env_at [5; 6; 6; 6]));
    [lia | lia | lia | vm_compute; repeat split; discriminate
    | repeat constructor; vm_compute; discriminate].
Defined.

(** A window opened by [t0] at the latest ends by [t0 + interval]: a later call
    is granted, or one before it was. *)
Lemma calls_granted t0 ts r :
  0 < rl_burst r -> 0 <= rl_interval r -> 0 < rl_begin r <= t0 -> t0 + rl_interval r < 2 ^ 64 ->
  Exists (fun t => t0 + rl_interval r < t) ts -> (1 <= granted (fst (ratelimit_calls ts r)))%nat.
Proof.
  revert r. induction ts as [|t ts IH]; intros r Hb Hi Hw H64 He; [by apply Exists_nil in He|].
  cbn [ratelimit_calls]. unfold ratelimit_at, rl_start. rewrite (proj2 (Z.eqb_neq (rl_begin r) 0)) by lia.
  unfold rl_roll. rewrite u64_small by (unfold is_u; lia).
  destruct (Z.ltb_spec (rl_begin r + rl_interval r) t) as [Hlt|Hge].
  - unfold rl_take. cbn [rl_burst rl_events]. rewrite (proj2 (Z.eqb_neq (rl_burst r) 0)) by lia.
    rewrite (proj2 (Z.ltb_lt 0 (rl_burst r))) by lia. cbn [negb andb].
    destruct (ratelimit_calls ts _). cbn [fst granted]. lia.
  - apply Exists_cons in He as [He|He]; [lia|]. unfold rl_take.
    destruct (negb _ && _); [destruct (ratelimit_calls ts _); cbn [fst granted]; lia|].
    set (r' := mk_rl _ _ _ _ _ _ _ _ _). pose proof (IH r' Hb Hi Hw H64 He) as H.
    destruct (ratelimit_calls ts r'). cbn [fst granted] in *. lia.
Qed.

(** C30: no starvation: from any state of the limiter whose window was opened no
    later than a call, that call or a later one is granted as soon as some
    call comes more than [interval] seconds after it, in whatever order the
    clock is read. *)
Theorem ratelimited_no_starvation r e es :
  0 < rl_burst r -> 0 < rl_interval r -> 0 <= rl_begin r <= sec e -> 0 < sec e ->
  sec e + rl_interval r < 2 ^ 64 ->
  Exists (fun e' => sec e + rl_interval r < sec e') es ->
  (1 <= granted (fst (answers (bpf_ratelimited (Some self_ptr)) (e :: es) r)))%nat.
Proof.
  intros Hb Hi Hw He H64 Hex. rewrite answers_calls by lia. cbn [map].
  assert (ratelimit_calls (sec e :: map sec es) r = ratelimit_calls (sec e :: map sec es) (rl_start (sec e) r)) as ->.
  { assert (rl_start (sec e) (rl_start (sec e) r) = rl_start (sec e) r) as E.
    { unfold rl_start. destruct (Z.eqb_spec (rl_begin r) 0); cbn [rl_begin];
        [rewrite (proj2 (Z.eqb_neq (sec e) 0)) by lia | rewrite (proj2 (Z.eqb_neq (rl_begin r) 0)) by lia]; done. }
    cbn [ratelimit_calls]. unfold ratelimit_at at 2. by rewrite E. }
  assert (rl_interval (rl_start (sec e) r) = rl_interval r) as Ei by (unfold rl_start; by case_if).
  apply (calls_granted (sec e)); rewrite ?Ei; try lia.
  - unfold rl_start. by case_if.
  - unfold rl_start. destruct (Z.eqb_spec (rl_begin r) 0); cbn [rl_begin]; lia.
  - apply Exists_cons_tl. apply Exists_exists. apply Exists_exists in Hex as (e' & Hin & Hlt).
    exists (sec e'). split; [|done]. apply list_elem_of_In, in_map, list_elem_of_In, Hin.
Qed.

Lemma ratelimited_no_starvation_witness :
  (1 <= granted (fst (answers (bpf_ratelimited (Some self_ptr)) (env_at 6 :: map env_at [6; 7; 8]%Z)
     (mk_rl 1 5 2 0 2 7 2 7 0))))%nat.
Proof.
  apply (ratelimited_no_starvation (mk_rl 1 5 2 0 2 7 2 7 0) (env_at 6) (map env_at [6; 7; 8]));
    [reflexivity | reflexivity | vm_compute; split; discriminate | reflexivity | reflexivity |].
  do 2 apply Exists_cons_tl. apply Exists_cons_hd. vm_compute. reflexivity.
Defined.

(** Accounting.  [total_events] and [total_nmissed] count, modulo 2^64, the
    calls that went through and the calls that were refused, whatever the
    clock does. *)
Theorem ratelimited_totals interval burst es :
  interval <> 0 ->
  let '(bs, r) := answers (bpf_ratelimited (Some self_ptr)) es (BPF_RATELIMIT interval burst) in
  rl_total_events r = u64 (Z.of_nat (granted bs)) /\
  rl_total_nmissed r = u64 (Z.of_nat (length es - granted bs)) /\
  (granted bs <= length es)%nat.
Proof.
  intros HI. rewrite answers_calls by done.
  pose proof (calls_totals (map sec es) (BPF_RATELIMIT interval burst)) as H.
  destruct (ratelimit_calls _ _) as [bs r]. rewrite length_map in H. by apply H.
Qed.

Lemma ratelimited_totals_witness :
  let '(bs, r) := answers (bpf_ratelimited (Some self_ptr)) (map env_at [5; 5; 5; 9])
                    (BPF_RATELIMIT 1 2) in
  rl_total_events r = u64 (Z.of_nat (granted bs)) /\
  rl_total_nmissed r = u64 (Z.of_nat (4 - granted bs)) /\ (granted bs <= 4)%nat.
Proof. apply (ratelimited_totals 1 2 (map env_at [5; 5; 5; 9])). lia. Defined.

(** One notification per window.  With [max_burst = 0], as oom.c and
    softlockup.c configure it, [bpf_ratelimited_in_map] submits to its perf map
    exactly one record for each window with more than [burst] calls and none
    for the others. *)
Theorem in_map_notifies_once_per_window name interval burst es :
  0 < interval -> (0 < burst)%nat -> Z.of_nat burst < 2 ^ 64 ->
  clock_ok interval 1 (map sec es) -> Z.of_nat (length es) < 2 ^ 64 ->
  let cfg := BPF_RATELIMIT_IN_MAP interval (Z.of_nat burst) 0 in
  length (snd (run_all (map (fun e => (e, bpf_ratelimited_core_in_map self_ptr name cfg)) es)
                 rlimit_map_init)) =
    overfull burst (spec_windows interval (map sec es)).
Proof.
  intros HI HB HB64 Hc Hl cfg. unfold rlimit_map_init.
  rewrite in_map_run_all by (simpl; lia).
  apply in_map_calls_count; try done. by rewrite length_map.
Qed.

Lemma in_map_notifies_once_per_window_witness :
  length (snd (run_all
      (map (fun e => (e, bpf_ratelimited_core_in_map self_ptr "rate"
                           (BPF_RATELIMIT_IN_MAP 1 (Z.of_nat 1) 0)))
        (map env_at [5; 5; 6; 8; 8; 12])) rlimit_map_init)) = 2%nat.
Proof.
  apply (in_map_notifies_once_per_window "rate" 1 1 (map env_at [5; 5; 6; 8; 8; 12]));
    [lia | lia | lia | vm_compute; repeat split; discriminate | simpl; lia].
Defined.

(** With [max_burst > 0] every further miss notifies.  Once a window has
    missed at least [max_burst - burst] events, each refused call of the window
    submits a record: the cap of one per cycle the comment announces does not
    hold for that branch. *)
Theorem in_map_max_burst_notifies_every_miss name cfg e r :
  0 < rl_interval r -> rl_interval cfg <> 0 -> 0 < rl_max_burst r < 2 ^ 64 ->
  0 <= rl_burst r <= rl_max_burst r -> rl_burst r <= rl_events r ->
  0 < rl_begin r -> sec e <= rl_begin r + rl_interval r < 2 ^ 64 ->
  rl_max_burst r - rl_burst r <= rl_nmissed r < 2 ^ 64 - 1 ->
  exists r', run (bpf_ratelimited_core_in_map self_ptr name cfg) e [r] =
    ([r'], [(name, encode_ratelimit r')]) /\ rl_nmissed r' = rl_nmissed r + 1.
Proof.
  intros Hi Hc Hm Hb He Hbg Hs Hn. rewrite in_map_run by done. unfold in_map_at, rl_init_from.
  replace (rl_interval r =? 0) with false by (symmetry; apply Z.eqb_neq; lia).
  unfold ratelimit_at, rl_start.
  replace (rl_begin r =? 0) with false by (symmetry; apply Z.eqb_neq; lia).
  unfold rl_roll. rewrite u64_small by (unfold is_u; lia). case_if; [lia|].
  unfold rl_take. replace (rl_events r <? rl_burst r) with false by (symmetry; apply Z.ltb_ge; lia).
  rewrite andb_false_r. unfold rl_notifies. simpl.
  rewrite (u64_small (rl_max_burst r - rl_burst r)), (u64_small (rl_nmissed r + 1))
    by (unfold is_u; lia).
  replace (0 <? rl_max_burst r) with true by (symmetry; apply Z.ltb_lt; lia).
  replace (rl_max_burst r - rl_burst r <? rl_nmissed r + 1) with true
    by (symmetry; apply Z.ltb_lt; lia).
  rewrite orb_true_r. eexists. split; [reflexivity|done].
Qed.

Lemma in_map_max_burst_notifies_every_miss_witness :
  exists r', run (bpf_ratelimited_core_in_map self_ptr "rate" (BPF_RATELIMIT_IN_MAP 1 2 3))
    (env_at 5) [mk_rl 1 5 2 3 2 7 2 7 0] = ([r'], [("rate"%string, encode_ratelimit r')]) /\
    rl_nmissed r' = 8.
Proof.
  apply (in_map_max_burst_notifies_every_miss "rate" (BPF_RATELIMIT_IN_MAP 1 2 3) (env_at 5)
           (mk_rl 1 5 2 3 2 7 2 7 0)); vm_compute; intuition discriminate.
Defined.
