(* ===== verification/RatelimitSmp.v ===== *)
(** * bpf_ratelimited on several CPUs

    [BPF_RATELIMIT] declares one global for all CPUs and the function takes no
    lock: only the counters are updated atomically (__sync_fetch_and_add).
    Here every access to the shared structure is a step of its own and the
    steps of the CPUs interleave freely. *)
From S2P Require Import Prelude Bpf Ratelimit.
From stdpp Require Import base list relations.
From Stdlib Require Import ZArith Lia.

Open Scope Z_scope.

(** Where a CPU is in [bpf_ratelimited], and what it holds in registers. *)
Inductive pc :=
| Idle
| CheckBegin (curr : Z)
| StoreBegin (curr : Z)
| CheckWindow (curr : Z)
| LoadBegin (curr : Z)
| AddInterval (curr d : Z)
| SetBegin (curr : Z)
| ClearMissed
| ClearEvents
| CheckBurst
| IncEvents
| IncTotalEvents
| IncMissed
| IncTotalMissed
| Return (limited : bool).

Definition set_begin (v : Z) (r : bpf_ratelimit) : bpf_ratelimit :=
  mk_rl (rl_interval r) v (rl_burst r) (rl_max_burst r) (rl_events r) (rl_nmissed r)
    (rl_total_events r) (rl_total_nmissed r) (rl_total_interval r).
Definition set_events (v : Z) (r : bpf_ratelimit) : bpf_ratelimit :=
  mk_rl (rl_interval r) (rl_begin r) (rl_burst r) (rl_max_burst r) v (rl_nmissed r)
    (rl_total_events r) (rl_total_nmissed r) (rl_total_interval r).
Definition set_nmissed (v : Z) (r : bpf_ratelimit) : bpf_ratelimit :=
  mk_rl (rl_interval r) (rl_begin r) (rl_burst r) (rl_max_burst r) (rl_events r) v
    (rl_total_events r) (rl_total_nmissed r) (rl_total_interval r).
Definition set_total_events (v : Z) (r : bpf_ratelimit) : bpf_ratelimit :=
  mk_rl (rl_interval r) (rl_begin r) (rl_burst r) (rl_max_burst r) (rl_events r) (rl_nmissed r)
    v (rl_total_nmissed r) (rl_total_interval r).
Definition set_total_nmissed (v : Z) (r : bpf_ratelimit) : bpf_ratelimit :=
  mk_rl (rl_interval r) (rl_begin r) (rl_burst r) (rl_max_burst r) (rl_events r) (rl_nmissed r)
    (rl_total_events r) v (rl_total_interval r).
Definition set_total_interval (v : Z) (r : bpf_ratelimit) : bpf_ratelimit :=
  mk_rl (rl_interval r) (rl_begin r) (rl_burst r) (rl_max_burst r) (rl_events r) (rl_nmissed r)
    (rl_total_events r) (rl_total_nmissed r) v.

(** One access to the shared structure; [now] is the clock, used when the
    function is entered. *)
Definition cpu_step (now : Z) (r : bpf_ratelimit) (p : pc) : bpf_ratelimit * pc :=
  match p with
  | Idle => (r, if rl_interval r =? 0 then Return false else CheckBegin (now / NSEC_PER_SEC))
  | CheckBegin curr => (r, if rl_begin r =? 0 then StoreBegin curr else CheckWindow curr)
  | StoreBegin curr => (set_begin curr r, CheckWindow curr)
  | CheckWindow curr =>
      (r, if u64 (rl_begin r + rl_interval r) <? curr then LoadBegin curr else CheckBurst)
  | LoadBegin curr => (r, AddInterval curr (u64 (curr - rl_begin r)))
  | AddInterval curr d => (set_total_interval (u64 (rl_total_interval r + d)) r, SetBegin curr)
  | SetBegin curr => (set_begin curr r, ClearMissed)
  | ClearMissed => (set_nmissed 0 r, ClearEvents)
  | ClearEvents => (set_events 0 r, CheckBurst)
  | CheckBurst =>
      (r, if negb (rl_burst r =? 0) && (rl_events r <? rl_burst r) then IncEvents else IncMissed)
  | IncEvents => (set_events (u64 (rl_events r + 1)) r, IncTotalEvents)
  | IncTotalEvents => (set_total_events (u64 (rl_total_events r + 1)) r, Return false)
  | IncMissed => (set_nmissed (u64 (rl_nmissed r + 1)) r, IncTotalMissed)
  | IncTotalMissed => (set_total_nmissed (u64 (rl_total_nmissed r + 1)) r, Return true)
  | Return _ => (r, Idle)
  end.

(** All the CPUs, and how often the function returned [false] and [true]. *)
Record sys := mk_sys {
  s_rate : bpf_ratelimit;
  s_pcs : list pc;
  s_false : Z;
  s_true : Z
}.

Definition sys_exec (i : nat) (now : Z) (s : sys) : sys :=
  match s_pcs s !! i with
  | None => s
  | Some p =>
      let '(r', p') := cpu_step now (s_rate s) p in
      mk_sys r' (<[i:=p']> (s_pcs s))
        (s_false s + match p with Return false => 1 | _ => 0 end)
        (s_true s + match p with Return true => 1 | _ => 0 end)
  end.

Inductive sys_step : sys -> sys -> Prop :=
| SysStep i now s : sys_step s (sys_exec i now s).

Definition sys_init (ncpu : nat) (r : bpf_ratelimit) : sys :=
  mk_sys r (replicate ncpu Idle) 0 0.

(** A schedule: which CPU moves, at what time. *)
Definition sys_sched (l : list (nat * Z)) (s : sys) : sys :=
  fold_left (fun s '(i, now) => sys_exec i now s) l s.

(** A CPU alone, [n] steps. *)
Fixpoint cpu_run (n : nat) (now : Z) (r : bpf_ratelimit) (p : pc) : bpf_ratelimit * pc :=
  match n with
  | O => (r, p)
  | S n' =>
      match p with
      | Return _ => (r, p)
      | _ => let '(r', p') := cpu_step now r p in cpu_run n' now r' p'
      end
  end.

Definition count_pc (f : pc -> bool) (ps : list pc) : Z :=
  fold_right (fun p acc => Z.b2z (f p) + acc) 0 ps.

Definition at_inc_events (p : pc) : bool := match p with IncEvents => true | _ => false end.
Definition owes_total_event (p : pc) : bool :=
  match p with Return false => true | _ => false end.
Definition owes_total_missed (p : pc) : bool :=
  match p with Return true => true | _ => false end.

(** ** Lemmas *)
Lemma count_pc_nonneg f ps : 0 <= count_pc f ps <= Z.of_nat (length ps).
Proof. induction ps as [|p ps IH]; simpl in *; [lia|]. destruct (f p); simpl; lia. Qed.

Lemma count_pc_insert f ps i p p' :
  ps !! i = Some p ->
  count_pc f (<[i:=p']> ps) = count_pc f ps - Z.b2z (f p) + Z.b2z (f p').
Proof.
  revert i. induction ps as [|q ps IH]; intros [|i] Hi; simpl in *; simplify_eq; [lia|].
  rewrite (IH i) by done. lia.
Qed.

Lemma count_pc_replicate f n : f Idle = false -> count_pc f (replicate n Idle) = 0.
Proof. intros Hf. induction n as [|n IH]; simpl; [done|]. by rewrite Hf, IH. Qed.

(** A CPU outside the section counts for nothing, so a CPU inside leaves room
    for at most [ncpu - 1] others. *)
Lemma count_pc_other f ps i p :
  ps !! i = Some p -> f p = false -> count_pc f ps <= Z.of_nat (length ps) - 1.
Proof.
  revert i. induction ps as [|q ps IH]; intros [|i] Hi Hf; simpl in *; simplify_eq.
  - rewrite Hf. pose proof (count_pc_nonneg f ps). simpl. lia.
  - specialize (IH i Hi Hf). destruct (f q); simpl; lia.
Qed.

Definition burst_inv (interval burst : Z) (ncpu : nat) (s : sys) : Prop :=
  length (s_pcs s) = ncpu /\ rl_burst (s_rate s) = burst /\ rl_interval (s_rate s) = interval /\
  0 <= rl_events (s_rate s) /\
  rl_events (s_rate s) + count_pc at_inc_events (s_pcs s) <= burst + Z.of_nat ncpu - 1.

Lemma burst_inv_step interval burst ncpu s s' :
  0 < burst -> burst + Z.of_nat ncpu <= 2 ^ 64 ->
  burst_inv interval burst ncpu s -> sys_step s s' -> burst_inv interval burst ncpu s'.
Proof.
  intros Hb Hov (Hl & HB & HI & He & Hinv) Hstep. destruct Hstep as [i now s].
  unfold sys_exec. destruct (s_pcs s !! i) as [p|] eqn:Hp; [|done].
  pose proof (count_pc_nonneg at_inc_events (s_pcs s)) as Hc.
  pose proof (count_pc_other at_inc_events _ _ _ Hp) as Ho. rewrite Hl in Ho, Hc.
  unfold burst_inv.
  destruct p; cbn [cpu_step s_pcs s_rate]; rewrite ?length_insert,
    (count_pc_insert _ _ _ _ _ Hp);
    cbn [at_inc_events Z.b2z set_begin set_events set_nmissed set_total_events set_total_nmissed
         set_total_interval rl_burst rl_interval rl_events] in *;
    try (specialize (Ho eq_refl)); repeat case_if; cbn [at_inc_events Z.b2z];
    try (repeat split; (done || lia)).
  assert (is_u 64 (rl_events (s_rate s) + 1)) as Hu.
  { unfold is_u. assert (1 <= count_pc at_inc_events (s_pcs s)); [|lia].
    clear -Hp. revert i Hp. generalize (s_pcs s).
    induction l as [|q l IH]; intros [|i] Hi; simpl in *; simplify_eq; simpl.
    - pose proof (count_pc_nonneg at_inc_events l). lia.
    - specialize (IH i Hi). destruct (at_inc_events q); simpl; lia. }
  rewrite u64_small by done. repeat split; (done || lia).
Qed.

Definition totals_inv (interval : Z) (s : sys) : Prop :=
  rl_interval (s_rate s) = interval /\
  (rl_total_events (s_rate s) = u64 (s_false s + count_pc owes_total_event (s_pcs s))) /\
  (rl_total_nmissed (s_rate s) = u64 (s_true s + count_pc owes_total_missed (s_pcs s))).

Lemma totals_inv_step interval s s' :
  interval <> 0 -> totals_inv interval s -> sys_step s s' -> totals_inv interval s'.
Proof.
  intros Hi (HI & HE & HM) Hstep. destruct Hstep as [i now s].
  unfold sys_exec. destruct (s_pcs s !! i) as [p|] eqn:Hp; [|done].
  unfold totals_inv.
  destruct p; cbn [cpu_step s_pcs s_rate s_false s_true];
    rewrite !(count_pc_insert _ _ _ _ _ Hp);
    cbn [owes_total_event owes_total_missed Z.b2z set_begin set_events set_nmissed set_total_events
         set_total_nmissed set_total_interval rl_interval rl_total_events rl_total_nmissed] in *;
    repeat case_if; cbn [owes_total_event owes_total_missed Z.b2z]; try lia;
    rewrite ?HE, ?HM, ?u64_add_l; repeat split; try done; try (f_equal; lia);
    destruct limited; simpl; f_equal; lia.
Qed.

Lemma cpu_run_step n now r p :
  (forall b, p <> Return b) ->
  cpu_run (S n) now r p = cpu_run n now (fst (cpu_step now r p)) (snd (cpu_step now r p)).
Proof. intros Hp. destruct p; try done. by destruct (Hp limited). Qed.

Ltac one_step := cbn [Nat.add]; rewrite cpu_run_step by done; cbn [cpu_step fst snd].

Lemma cpu_run_return n now r b : cpu_run n now r (Return b) = (r, Return b).
Proof. by destruct n. Qed.

(** The three parts of the function, run without interference. *)
Lemma cpu_run_take n now r :
  cpu_run (3 + n) now r CheckBurst =
    let '(b, r') := rl_take r in (r', Return b).
Proof.
  one_step. unfold rl_take.
  destruct (negb _ && _); do 2 one_step; rewrite cpu_run_return; by destruct r.
Qed.

Lemma cpu_run_roll n now r curr :
  exists k, cpu_run (9 + n) now r (CheckWindow curr) =
    cpu_run (3 + k) now (rl_roll curr r) CheckBurst.
Proof.
  one_step. unfold rl_roll. destruct (u64 _ <? curr).
  - do 5 one_step. exists n. by destruct r.
  - exists (5 + n)%nat. done.
Qed.

Lemma cpu_run_start n now r curr :
  exists k, cpu_run (11 + n) now r (CheckBegin curr) =
    cpu_run (9 + k) now (rl_start curr r) (CheckWindow curr).
Proof.
  one_step. unfold rl_start. destruct (rl_begin r =? 0).
  - one_step. by exists n.
  - by exists (S n).
Qed.

(** ** Theorems *)

(** The step-level model refines to the sequential one: a CPU that is not
    interfered with reaches its return in at most thirteen steps, with the
    answer and the structure of [ratelimit_at]. *)
Theorem cpu_run_sequential now r :
  rl_interval r <> 0 ->
  cpu_run 13 now r Idle =
    let '(b, r') := ratelimit_at (now / NSEC_PER_SEC) r in (r', Return b).
Proof.
  intros Hi. one_step. rewrite (proj2 (Z.eqb_neq _ _) Hi).
  destruct (cpu_run_start 1 now r (now / NSEC_PER_SEC)) as [k1 E1].
  etransitivity; [exact E1|]. destruct (cpu_run_roll k1 now (rl_start (now / NSEC_PER_SEC) r) (now / NSEC_PER_SEC))
    as [k2 ->]. apply cpu_run_take.
Qed.

Lemma cpu_run_sequential_witness :
  cpu_run 13 5000000000 (BPF_RATELIMIT 1 1) Idle = (mk_rl 1 5 1 0 1 0 1 0 0, Return false).
Proof. apply (cpu_run_sequential 5000000000 (BPF_RATELIMIT 1 1)). simpl. lia. Defined.

(** C15: bounded overshoot.  The test of the burst and the increment of [events]
    are not one atomic step, so CPUs can pass the test together; however the
    CPUs interleave, [events], the grants counted since the counter was last
    cleared, never exceeds [burst + ncpu - 1]; with two CPUs and a burst of one
    both are granted. *)
Theorem smp_burst_bound interval burst ncpu s :
  0 < burst -> burst + Z.of_nat ncpu <= 2 ^ 64 -> (0 < ncpu)%nat ->
  rtc sys_step (sys_init ncpu (BPF_RATELIMIT interval burst)) s ->
  0 <= rl_events (s_rate s) <= burst + Z.of_nat ncpu - 1.
Proof.
  intros Hb Hov Hn Hrtc.
  assert (burst_inv interval burst ncpu s) as (_ & _ & _ & ? & ?).
  { revert Hrtc. apply rtc_ind_r.
    - unfold burst_inv. simpl. rewrite length_replicate, count_pc_replicate by done.
      repeat split; lia.
    - intros y z _ Hstep Hinv. by eapply burst_inv_step. }
  pose proof (count_pc_nonneg at_inc_events (s_pcs s)). lia.
Qed.

(** Two CPUs, a burst of one: both pass the test before either increments. *)
Definition race_sched : list (nat * Z) :=
  map (fun i => (i, 5000000000)) [0; 0; 0; 1; 1; 1; 0; 1; 0; 1; 0; 1]%nat.

Lemma sys_sched_rtc l s : rtc sys_step s (sys_sched l s).
Proof.
  revert s. induction l as [|[i now] l IH]; intros s; [apply rtc_refl|].
  eapply rtc_l; [apply SysStep|]. apply IH.
Qed.

Lemma smp_burst_bound_witness :
  let s := sys_sched race_sched (sys_init 2 (BPF_RATELIMIT 1 1)) in
  rl_events (s_rate s) = 2 /\ 0 <= rl_events (s_rate s) <= 1 + Z.of_nat 2 - 1.
Proof.
  split; [reflexivity|].
  apply (smp_burst_bound 1 1 2); [lia | lia | lia | apply sys_sched_rtc].
Defined.

(** The accounting survives concurrency: whatever the interleaving,
    [total_events] and [total_nmissed] are, modulo 2^64, the numbers of calls
    that answered or are about to answer [false] and [true]. *)
Theorem smp_totals interval burst ncpu s :
  interval <> 0 ->
  rtc sys_step (sys_init ncpu (BPF_RATELIMIT interval burst)) s ->
  rl_total_events (s_rate s) = u64 (s_false s + count_pc owes_total_event (s_pcs s)) /\
  rl_total_nmissed (s_rate s) = u64 (s_true s + count_pc owes_total_missed (s_pcs s)).
Proof.
  intros Hi Hrtc. assert (totals_inv interval s) as (_ & ? & ?); [|done].
  revert Hrtc. apply rtc_ind_r.
  - unfold totals_inv. simpl. by rewrite !count_pc_replicate by done.
  - intros y z _ Hstep Hinv. by eapply totals_inv_step.
Qed.

Lemma smp_totals_witness :
  let s := sys_sched race_sched (sys_init 2 (BPF_RATELIMIT 1 1)) in
  rl_total_events (s_rate s) = u64 (s_false s + count_pc owes_total_event (s_pcs s)) /\
  rl_total_nmissed (s_rate s) = u64 (s_true s + count_pc owes_total_missed (s_pcs s)).
Proof. apply (smp_totals 1 1 2); [lia | apply sys_sched_rtc]. Defined.
