(* ===== verification/Limited.v ===== *)
(** * Programs that report through the rate limiter

    The interface between bpf_ratelimit.h and the programs that call
    [bpf_ratelimited] before submitting one record: what such a program
    promises ([LimitedReporter]), and what follows for every trace of it from
    the limiter's own refinement theorem. *)
From S2P Require Import Prelude Bpf Ratelimit.
From stdpp Require Import base gmap list strings.
From Stdlib Require Import ZArith Lia.

Open Scope Z_scope.

(** An invocation that passes the filters of the program ([lr_asks]) consults
    the limiter with its [i]-th clock reading and submits [lr_record] exactly
    when it is granted; any other invocation submits nothing.  [lr_inv] is the
    invariant of the rest of the state. *)
Class LimitedReporter {S H : Type} (prog : H -> M S Z) (p : ptr S bpf_ratelimit) := {
  lr_inv : S -> Prop;
  lr_asks : kenv -> H -> option nat;
  lr_record : kenv -> H -> string * list byte;
  lr_law : forall e h s, lr_inv s -> rl_interval (pget p s) <> 0 ->
    let '(s', out) := run (prog h) e s in
    lr_inv s' /\
    match lr_asks e h with
    | None => pget p s' = pget p s /\ out = []
    | Some i =>
        let '(limited, r) := ratelimit_at (ktime e i / NSEC_PER_SEC) (pget p s) in
        pget p s' = r /\ out = if (limited : bool) then [] else [lr_record e h]
    end
}.

Section Traces.
Context {S H : Type} (prog : H -> M S Z) (p : ptr S bpf_ratelimit) `{!LimitedReporter prog p}.

Definition lr_exec (l : list (kenv * H)) (s : S) : S * list (string * list byte) :=
  run_all (map (fun '(e, h) => (e, prog h)) l) s.

(** The seconds at which the trace consults the limiter. *)
Fixpoint lr_secs (l : list (kenv * H)) : list Z :=
  match l with
  | [] => []
  | (e, h) :: l' =>
      match lr_asks e h with
      | None => lr_secs l'
      | Some i => ktime e i / NSEC_PER_SEC :: lr_secs l'
      end
  end.

(** The records of the invocations that are granted, in order. *)
Fixpoint lr_reports (refused : list bool) (l : list (kenv * H)) : list (string * list byte) :=
  match l with
  | [] => []
  | (e, h) :: l' =>
      match lr_asks e h with
      | None => lr_reports refused l'
      | Some _ =>
          match refused with
          | [] => []
          | b :: bs => (if (b : bool) then [] else [lr_record e h]) ++ lr_reports bs l'
          end
      end
  end.

Lemma lr_exec_calls l s :
  lr_inv s -> rl_interval (pget p s) <> 0 ->
  snd (lr_exec l s) = lr_reports (fst (ratelimit_calls (lr_secs l) (pget p s))) l.
Proof.
  unfold lr_exec. revert s. induction l as [|[e h] l IH]; intros s Hs Hi; [done|].
  cbn [map lr_secs lr_reports]. rewrite run_all_cons_out.
  pose proof (lr_law e h s Hs Hi) as Hl.
  destruct (run (prog h) e s) as [s' out]. cbn [fst snd]. destruct Hl as [Hs' Hl].
  destruct (lr_asks e h) as [i|].
  - cbn [ratelimit_calls]. pose proof (ratelimit_at_interval (ktime e i / NSEC_PER_SEC) (pget p s)) as Hr.
    destruct (ratelimit_at _ _) as [b r]. cbn [snd] in Hr. destruct Hl as [Hp ->].
    rewrite IH by (try done; by rewrite Hp, Hr). rewrite Hp.
    by destruct (ratelimit_calls (lr_secs l) r).
  - destruct Hl as [Hp ->]. rewrite IH by (try done; by rewrite Hp). by rewrite Hp.
Qed.

Lemma lr_exec_inv l s :
  lr_inv s -> rl_interval (pget p s) <> 0 -> lr_inv (fst (lr_exec l s)).
Proof.
  unfold lr_exec. revert s. induction l as [|[e h] l IH]; intros s Hs Hi; [done|].
  cbn [map]. rewrite run_all_cons_st. pose proof (lr_law e h s Hs Hi) as Hl.
  destruct (run (prog h) e s) as [s' out]. cbn [fst]. destruct Hl as [Hs' Hl]. apply IH; [done|].
  destruct (lr_asks e h) as [i|]; [|by destruct Hl as [-> _]].
  pose proof (ratelimit_at_interval (ktime e i / NSEC_PER_SEC) (pget p s)) as Hr.
  destruct (ratelimit_at _ _). destruct Hl as [-> _]. cbn [snd] in Hr. congruence.
Qed.

Lemma length_lr_reports l bs :
  length bs = length (lr_secs l) -> length (lr_reports bs l) = granted bs.
Proof.
  revert bs. induction l as [|[e h] l IH]; intros bs Hb; simpl in *; [by destruct bs|].
  destruct (lr_asks e h); [|by apply IH].
  destruct bs as [|b bs]; [done|]. simpl in *. rewrite length_app, IH by lia. by destruct b.
Qed.

Section Fresh.
Context (interval : Z) (burst : nat) (s : S).
Context (Hinterval : 0 < interval) (Hburst : (0 < burst)%nat) (Hburst64 : Z.of_nat burst < 2 ^ 64).
Context (Hs : lr_inv s) (Hrate : pget p s = BPF_RATELIMIT interval (Z.of_nat burst)).

(** From a fresh limiter the trace reports what the window specification
    grants. *)
Lemma lr_exec_spec l :
  clock_ok interval 1 (lr_secs l) ->
  snd (lr_exec l s) = lr_reports (spec_answers interval burst (lr_secs l)) l.
Proof.
  intros Hc. rewrite lr_exec_calls by (try done; rewrite Hrate; simpl; lia).
  by rewrite Hrate, (calls_refine_spec interval burst).
Qed.

(** At most [burst] records per [interval + 1] seconds. *)
Lemma lr_exec_bound l t ts :
  clock_ok interval 1 (lr_secs l) -> lr_secs l = t :: ts ->
  Z.of_nat (length (snd (lr_exec l s))) <=
    Z.of_nat burst * (1 + (final t ts - t) / (interval + 1)).
Proof.
  intros Hc Ht. rewrite lr_exec_spec by done.
  rewrite length_lr_reports by (rewrite length_spec_answers; congruence).
  rewrite Ht in *. by apply spec_answers_bound.
Qed.
End Fresh.
End Traces.

(** ** Programs that report through bpf_ratelimited_in_map()

    The limiter is the only element of an array map and submits its own
    notifications to the perf map [name]. *)
Class InMapReporter {H : Type} (prog : H -> M (list bpf_ratelimit) Z) (name : string)
    (cfg : bpf_ratelimit) := {
  im_asks : H -> bool;
  im_out : kenv -> H -> list (string * list byte);
  im_other : forall e h, Forall (fun o => o.1 <> name) (im_out e h);
  im_law : forall e h r,
    run (prog h) e [r] =
      if im_asks h then
        let '((b, nb), r') := in_map_at cfg (sec e) r in
        ([r'], (if (nb : bool) then [(name, encode_ratelimit r')] else []) ++
               (if (b : bool) then [] else im_out e h))
      else ([r], [])
}.

Section Granted.
Context {H : Type} (asks : H -> bool).

(** The seconds at which a trace consults the limiter. *)
Fixpoint asking_secs (l : list (kenv * H)) : list Z :=
  match l with
  | [] => []
  | (e, h) :: l' => if asks h then sec e :: asking_secs l' else asking_secs l'
  end.

(** The invocations that consult it and are granted, in order. *)
Fixpoint granted_calls (refused : list bool) (l : list (kenv * H)) : list (kenv * H) :=
  match l with
  | [] => []
  | (e, h) :: l' =>
      if asks h then
        match refused with
        | [] => []
        | b :: bs => (if (b : bool) then [] else [(e, h)]) ++ granted_calls bs l'
        end
      else granted_calls refused l'
  end.

Lemma granted_calls_sublist bs l : granted_calls bs l `sublist_of` l.
Proof.
  revert bs. induction l as [|[e h] l IH]; intros bs; [done|]. cbn [granted_calls].
  destruct (asks h); [|by constructor]. destruct bs as [|[] bs]; cbn; [|by constructor..].
  apply sublist_nil_l.
Qed.
End Granted.

Section GrantedMap.
Context {H H' : Type} (f : H -> H') (asks : H -> bool) (asks' : H' -> bool).
Context (Hasks : forall h, asks' (f h) = asks h).

Lemma asking_secs_fmap l : asking_secs asks' (prod_map id f <$> l) = asking_secs asks l.
Proof.
  induction l as [|[e h] l IH]; [done|]. rewrite fmap_cons.
  cbn [asking_secs prod_map fst snd]. by rewrite Hasks, IH.
Qed.

Lemma granted_calls_fmap bs l :
  granted_calls asks' bs (prod_map id f <$> l) = prod_map id f <$> granted_calls asks bs l.
Proof.
  revert bs. induction l as [|[e h] l IH]; intros bs; [done|]. rewrite fmap_cons.
  cbn [granted_calls prod_map fst snd]. rewrite Hasks.
  destruct (asks h); [|apply IH]. destruct bs as [|[] bs]; cbn [app]; [done | apply IH |].
  by rewrite fmap_cons, IH.
Qed.
End GrantedMap.

Section InMapTraces.
Context {H : Type} (prog : H -> M (list bpf_ratelimit) Z) (name : string) (cfg : bpf_ratelimit).
Context `{!InMapReporter prog name cfg}.

(** The records of a trace but for the limiter's notifications. *)
Definition im_events (l : list (kenv * H)) (s : list bpf_ratelimit) : list (string * list byte) :=
  filter (fun o => o.1 <> name) (snd (run_all (map (fun '(e, h) => (e, prog h)) l) s)).

Fixpoint im_reports (refused : list bool) (l : list (kenv * H)) : list (string * list byte) :=
  match l with
  | [] => []
  | (e, h) :: l' =>
      if im_asks h then
        match refused with
        | [] => []
        | b :: bs => (if (b : bool) then [] else im_out e h) ++ im_reports bs l'
        end
      else im_reports refused l'
  end.

Lemma filter_other e h : filter (fun o => o.1 <> name) (im_out e h) = im_out e h.
Proof.
  pose proof (im_other e h) as Ho. induction Ho as [|o os Ho Hos IH]; [done|].
  rewrite filter_cons_True by done. by rewrite IH.
Qed.

Lemma im_events_calls l r :
  im_events l [r] = im_reports (map fst (fst (in_map_calls cfg (asking_secs im_asks l) r))) l.
Proof.
  unfold im_events. revert r. induction l as [|[e h] l IH]; intros r; [done|].
  cbn [map asking_secs im_reports]. rewrite run_all_cons_out, filter_app, im_law.
  destruct (im_asks h); [|cbn [fst snd filter list_filter app]; apply IH].
  cbn [in_map_calls]. destruct (in_map_at cfg (sec e) r) as [[b nb] r1].
  cbn [fst snd]. rewrite IH, filter_app.
  destruct (in_map_calls cfg (asking_secs im_asks l) r1) as [bs r2]. cbn [fst map]. f_equal.
  destruct nb; cbn [filter list_filter]; rewrite ?decide_False by (by intros []); cbn [app];
    destruct b; try done; apply filter_other.
Qed.

Lemma im_reports_granted bs l :
  im_reports bs l = mjoin ((fun '(e, h) => im_out e h) <$> granted_calls im_asks bs l).
Proof.
  revert bs. induction l as [|[e h] l IH]; intros bs; [done|]. cbn [im_reports granted_calls].
  destruct (im_asks h); [|apply IH]. destruct bs as [|[] bs]; [done | apply IH |].
  cbn. by rewrite IH.
Qed.

(** From the map as it is loaded, with the limiter configured by [cfg]. *)
Lemma im_events_spec interval burst l :
  0 < interval -> (0 < burst)%nat -> Z.of_nat burst < 2 ^ 64 ->
  rl_interval cfg = interval -> rl_burst cfg = Z.of_nat burst ->
  clock_ok interval 1 (asking_secs im_asks l) ->
  im_events l rlimit_map_init = im_reports (spec_answers interval burst (asking_secs im_asks l)) l.
Proof.
  intros HI HB HB64 Hci Hcb Hc. unfold rlimit_map_init.
  rewrite im_events_calls, in_map_answers by lia.
  by rewrite (calls_refine_spec interval burst).
Qed.
End InMapTraces.
