(* ===== verification/PerfReader.v ===== *)
(** * internal/bpf/perf_event_reader_default.go: reading perf events

    [ReadInto] polls the perf buffer until a sample decodes, the reader is
    closed or the context is done. The perf library's Read is what the
    environment answers: [delivers] says what it may answer for given contents
    of the per-CPU rings. *)
From S2P Require Import Prelude Layout.
From stdpp Require Import base list strings.
From Stdlib Require Import ZArith Lia.
From Stdlib.Strings Require Byte.

Open Scope Z_scope.

Module PerfReader.

(** What r.rd.Read() returns; a record carries the CPU of its ring. *)
Inductive read_result :=
| ErrClosed
| ErrDeadlineExceeded
| ReadErr
| Record_ (CPU LostSamples : Z) (RawSample : list byte).

(** One turn of the loop: whether the context is done, and the read. *)
Record turn := mk_turn { done : bool; read : read_result }.

Section Reader.
Context {E : Type} `{Wire E}.

Inductive into := Event (x : E) | ErrExitByCancelCtx | ErrRead | ErrParse.

(** The result and the turns not used; [None] while it still polls. *)
Fixpoint ReadInto (turns : list turn) : option (into * list turn) :=
  match turns with
  | [] => None
  | t :: turns' =>
      if done t then Some (ErrExitByCancelCtx, turns')
      else match read t with
           | ErrClosed => Some (ErrExitByCancelCtx, turns')
           | ErrDeadlineExceeded => ReadInto turns'
           | ReadErr => Some (ErrRead, turns')
           | Record_ _ lost raw =>
               if negb (lost =? 0) then ReadInto turns'
               else match wire_decode raw with
                    | None => Some (ErrParse, turns')
                    | Some x => Some (Event x, turns')
                    end
           end
  end.

(** A tracer's loop: the events it reads until the first error; [None] while it
    still polls. Each call uses at least one turn. *)
Fixpoint drain (fuel : nat) (turns : list turn) : list E * option into :=
  match fuel with
  | O => ([], None)
  | S fuel' =>
      match ReadInto turns with
      | None => ([], None)
      | Some (Event x, turns') => let '(xs, e) := drain fuel' turns' in (x :: xs, e)
      | Some (e, _) => ([], Some e)
      end
  end.

(** ** What the library delivers *)

(** The contents of the rings, by CPU. *)
Definition rings (A : Type) : Type := Z -> list A.
Definition set_ring {A} (c : Z) (l : list A) (q : rings A) : rings A := fun k => if decide (k = c) then l else q k.

(** A turn that only times out. *)
Definition idle (t : turn) : Prop := done t = false /\ read t = ErrDeadlineExceeded.
(** A turn with a record of a ring, and what the library leaves after it. *)
Definition sample (c : Z) (raw : list byte) (t : turn) : Prop :=
  done t = false /\ exists pad, read t = Record_ c 0 (raw ++ pad).
(** A turn with the notice that a ring was full for [n] records. *)
Definition lost (c : Z) (n : nat) (t : turn) : Prop :=
  done t = false /\ (0 < n)%nat /\ exists raw, read t = Record_ c (Z.of_nat n) raw.

(** The turns take the records of the rings in any interleaving, each ring in
    its order; the records a full ring has no room for are replaced by a notice
    with their number; [q'] are the records not read at the end. *)
Inductive delivers : rings (list byte) -> list turn -> rings (list byte) -> Prop :=
| deliver_nil q : delivers q [] q
| deliver_idle q t ts q' : idle t -> delivers q ts q' -> delivers q (t :: ts) q'
| deliver_sample q c raw raws t ts q' :
    q c = raw :: raws -> sample c raw t -> delivers (set_ring c raws q) ts q' -> delivers q (t :: ts) q'
| deliver_lost q c dropped raws t ts q' :
    q c = dropped ++ raws -> lost c (length dropped) t -> delivers (set_ring c raws q) ts q' -> delivers q (t :: ts) q'.

(** The records of a ring the notices tell of. *)
Definition lost_in (c : Z) (t : turn) : Z :=
  match read t with Record_ c' n _ => if decide (c' = c) then n else 0 | _ => 0 end.
Fixpoint lost_of (c : Z) (ts : list turn) : Z :=
  match ts with [] => 0 | t :: ts' => lost_in c t + lost_of c ts' end.

(** The events of one CPU among events with their CPUs. *)
Definition of_cpu {A} (c : Z) (ys : list (Z * A)) : list A := (filter (fun y => y.1 = c) ys).*2.

(** ** Lemmas *)

Lemma ReadInto_idle t ts : idle t -> ReadInto (t :: ts) = ReadInto ts.
Proof. intros [Hd Hr]. cbn [ReadInto]. by rewrite Hd, Hr. Qed.

Lemma ReadInto_lost c n t ts : lost c n t -> ReadInto (t :: ts) = ReadInto ts.
Proof.
  intros (Hd & Hn & raw & Hr). cbn [ReadInto]. rewrite Hd, Hr. by rewrite (proj2 (Z.eqb_neq (Z.of_nat n) 0)) by lia.
Qed.

Lemma ReadInto_sample c x t ts : wire_valid x -> sample c (wire_encode x) t -> ReadInto (t :: ts) = Some (Event x, ts).
Proof.
  intros Hv (Hd & pad & Hr). cbn [ReadInto]. rewrite Hd, Hr. cbn [negb Z.eqb].
  by rewrite wire_decode_encode.
Qed.

Lemma drain_skip t ts fuel : ReadInto (t :: ts) = ReadInto ts -> drain fuel (t :: ts) = drain fuel ts.
Proof. intros Er. destruct fuel as [|fuel]; [done|]. cbn [drain]. by rewrite Er. Qed.

(** The encoded events of the rings, one ring changed. *)
Lemma set_ring_encoded (q : rings (list byte)) (xs : rings E) c xs1 :
  (forall k, q k = map wire_encode (xs k)) -> forall k, set_ring c (map wire_encode xs1) q k = map wire_encode (set_ring c xs1 xs k).
Proof. intros H1 k. unfold set_ring. by case_decide. Qed.

Lemma set_ring_valid (xs : rings E) c xs1 :
  (forall k, Forall wire_valid (xs k)) -> Forall wire_valid xs1 -> forall k, Forall wire_valid (set_ring c xs1 xs k).
Proof. intros H1 H2 k. unfold set_ring. by case_decide. Qed.

Lemma sublist_full {A} (l1 l2 : list A) : l1 `sublist_of` l2 -> length l1 = length l2 -> l1 = l2.
Proof.
  induction 1 as [|x l1 l2 Hs IH|x l1 l2 Hs IH]; intros Hl; [done|..]; cbn in Hl.
  - f_equal. apply IH. lia.
  - apply sublist_length in Hs. lia.
Qed.

(** What a tracer reads, and what is lost or left, ring by ring. *)
Definition accounts (xs : rings E) (ts : list turn) (ys : list (Z * E)) (xs' : rings E) : Prop :=
  forall c, of_cpu c ys ++ xs' c `sublist_of` xs c /\
    Z.of_nat (length (xs c)) = Z.of_nat (length (of_cpu c ys)) + lost_of c ts + Z.of_nat (length (xs' c)).

Lemma accounts_sample xs c x xs1 t ts ys xs' : xs c = x :: xs1 -> sample c (wire_encode x) t ->
  accounts (set_ring c xs1 xs) ts ys xs' -> accounts xs (t :: ts) ((c, x) :: ys) xs'.
Proof.
  intros Hx (_ & pad & Hr) Ha k. specialize (Ha k). unfold of_cpu in *. rewrite filter_cons. cbn [fst].
  cbn [lost_of]. unfold lost_in, set_ring in *. rewrite Hr.
  destruct (decide (k = c)) as [->|Hne].
  - rewrite !decide_True, Hx by done. cbn [fmap list_fmap snd app length]. destruct Ha as [H1 H2].
    split; [by apply sublist_skip | lia].
  - rewrite !decide_False by done. destruct Ha as [H1 H2]. split; [done | lia].
Qed.

Lemma accounts_lost xs c gone xs1 t ts ys xs' : xs c = gone ++ xs1 -> lost c (length gone) t ->
  accounts (set_ring c xs1 xs) ts ys xs' -> accounts xs (t :: ts) ys xs'.
Proof.
  intros Hx (_ & _ & raw & Hr) Ha k. specialize (Ha k). cbn [lost_of]. unfold lost_in, set_ring in *. rewrite Hr.
  destruct (decide (k = c)) as [->|Hne].
  - rewrite decide_True, Hx, length_app by done. destruct Ha as [H1 H2]. split; [by apply sublist_inserts_l | lia].
  - rewrite decide_False by done. destruct Ha as [H1 H2]. split; [done | lia].
Qed.

Lemma drain_delivers q ts q' : delivers q ts q' -> forall xs fuel rest,
  (forall c, q c = map wire_encode (xs c)) -> (forall c, Forall wire_valid (xs c)) -> (length (ts ++ rest) < fuel)%nat ->
  exists ys xs' fuel', (length rest < fuel')%nat /\ (forall c, q' c = map wire_encode (xs' c)) /\ accounts xs ts ys xs' /\
    drain fuel (ts ++ rest) = let '(zs, e) := drain fuel' rest in (ys.*2 ++ zs, e).
Proof.
  intros Hd. induction Hd as [q|q t ts q' Hi Hd IH|q c raw raws t ts q' Hq Hs Hd IH|q c dropped raws t ts q' Hq Hs Hd IH];
    intros xs fuel rest Hx Hv Hf; cbn [app length] in Hf |- *.
  - exists [], xs, fuel. split; [exact Hf|]. split; [done|]. split; [|by destruct (drain fuel rest)].
    intros c. cbn. split; [done | lia].
  - destruct (IH xs fuel rest Hx Hv ltac:(lia)) as (ys & xs' & f' & Hf' & Hx' & Ha & Ed). exists ys, xs', f'.
    rewrite drain_skip by (by apply ReadInto_idle). split; [done|]. split; [done|]. split; [|done].
    intros c. destruct (Ha c) as [H1 H2]. split; [done|]. cbn [lost_of]. unfold lost_in. destruct Hi as [_ ->]. lia.
  - rewrite (Hx c) in Hq. destruct (xs c) as [|x xs1] eqn:Ex; [done|]. injection Hq as <- <-.
    destruct fuel as [|fuel]; [lia|]. pose proof (Hv c) as Hvc. rewrite Ex in Hvc. apply Forall_cons in Hvc as [Hvx Hv1].
    destruct (IH (set_ring c xs1 xs) fuel rest (set_ring_encoded q xs c xs1 Hx) (set_ring_valid xs c xs1 Hv Hv1) ltac:(lia))
      as (ys & xs' & f' & Hf' & Hx' & Ha & Ed).
    exists ((c, x) :: ys), xs', f'. split; [done|]. split; [done|]. split; [by eapply accounts_sample|].
    cbn [drain]. rewrite (ReadInto_sample c x) by done. rewrite Ed. by destruct (drain f' rest).
  - rewrite (Hx c) in Hq. apply map_eq_app in Hq as (gone & xs1 & Ex & <- & <-). rewrite length_map in Hs.
    pose proof (Hv c) as Hvc. rewrite Ex in Hvc. apply Forall_app in Hvc as [_ Hv1].
    destruct (IH (set_ring c xs1 xs) fuel rest (set_ring_encoded q xs c xs1 Hx) (set_ring_valid xs c xs1 Hv Hv1) ltac:(lia))
      as (ys & xs' & f' & Hf' & Hx' & Ha & Ed).
    exists ys, xs', f'. rewrite drain_skip by (by eapply ReadInto_lost). split; [done|]. split; [done|].
    split; [by eapply accounts_lost | done].
Qed.

Lemma ReadInto_closed t ts : done t = true \/ read t = ErrClosed -> ReadInto (t :: ts) = Some (ErrExitByCancelCtx, ts).
Proof. intros [H1|H1]; cbn [ReadInto]; rewrite H1; [reflexivity | by destruct (done t)]. Qed.

(** Delivery: when the library delivers the rings of valid events [xs] and is
    then closed, a tracer ends with the cancellation error after events of which
    those of each CPU, with what is left in its ring, are the submitted ones in
    order but for as many as the notices of that CPU say; and all of them if
    there is no notice. The number of turns is fuel enough. *)
Lemma perf_reader_delivers xs q ts q' t rest :
  (forall c, q c = map wire_encode (xs c)) -> (forall c, Forall wire_valid (xs c)) -> delivers q ts q' ->
  done t = true \/ read t = ErrClosed ->
  exists ys xs', drain (S (length (ts ++ t :: rest))) (ts ++ t :: rest) = (ys.*2, Some ErrExitByCancelCtx) /\
    (forall c, q' c = map wire_encode (xs' c)) /\ accounts xs ts ys xs' /\
    forall c, lost_of c ts = 0 -> of_cpu c ys ++ xs' c = xs c.
Proof.
  intros Hq Hv Hd Ht.
  destruct (drain_delivers q ts q' Hd xs (S (length (ts ++ t :: rest))) (t :: rest) Hq Hv ltac:(lia))
    as (ys & xs' & f & Hf & Hq' & Ha & ->).
  exists ys, xs'. destruct f as [|f]; [lia|]. cbn [drain]. rewrite ReadInto_closed by exact Ht. rewrite app_nil_r.
  split; [done|]. split; [done|]. split; [done|]. intros c Hc. destruct (Ha c) as [H1 H2].
  apply sublist_full; [done|]. rewrite length_app. lia.
Qed.
End Reader.

End PerfReader.
