(* ===== verification/Symbol.v ===== *)
(** * internal/symbol/ksymbols.go: kernel symbols

    Loading /proc/kallsyms, the binary search for the symbol of an address and
    the back traces the collectors attach to their reports. *)
From S2P Require Import Prelude Text.
From stdpp Require Import base list strings sorting relations.
From Stdlib Require Import ZArith Lia Ascii.
From Equations Require Import Equations.

Open Scope Z_scope.

Module Symbol.

Record symbol := mk_symbol { Addr : Z; Name : string; Module_ : string }.

Definition zero_symbol : symbol := mk_symbol 0 EmptyString EmptyString.
Definition moduleKernel : string := "[kernel]".
Definition defaultSymbol : symbol := mk_symbol 0 EmptyString "[unknown]".
Definition ksymbolMax : Z := 300000.
Definition KsymbolStackMaxDepth : nat := 127.

(** ** Text *)

(** The separators of a line of /proc/kallsyms. *)
Definition is_sep (c : ascii) : bool := (c =? " ")%char || (c =? "009")%char.

(** fmt's %x of an unsigned number. *)
Definition format_x (z : Z) : string := Text.FormatUint 16 z.

(** ** Loading *)

(** The symbol of a line of /proc/kallsyms, if it is a text symbol. *)
Definition parse_line (line : string) : option symbol :=
  match Text.FieldsFunc is_sep line with
  | [a; t; n] =>
      if bool_decide (t = "T"%string) || bool_decide (t = "t"%string)
      then (fun z => mk_symbol z n moduleKernel) <$> Text.ParseUint 16 a else None
  | [a; t; n; m] =>
      if bool_decide (t = "T"%string) || bool_decide (t = "t"%string)
      then (fun z => mk_symbol z n m) <$> Text.ParseUint 16 a else None
  | _ => None
  end.

(** The used part of ksymbolCache after the lines; [None] is the index panic
    when ksymbolCounter reaches ksymbolMax. *)
Fixpoint load_lines (lines : list string) (cache : list symbol) : option (list symbol) :=
  match lines with
  | [] => Some cache
  | line :: lines' =>
      match parse_line line with
      | None => load_lines lines' cache
      | Some s =>
          if ksymbolMax <=? Z.of_nat (length cache) then None
          else load_lines lines' (cache ++ [s])
      end
  end.

Section Search.
(** sort.Sort, which does not promise the order of equal addresses. *)
Context (sort : list symbol -> list symbol).

(** [lines] is [None] if /proc/kallsyms cannot be opened. *)
Definition loadKAllSymbols (lines : option (list string)) : option (list symbol) :=
  match lines with
  | None => Some [defaultSymbol]
  | Some ls => sort <$> load_lines ls [defaultSymbol]
  end.

(** ksymbolCache[i]: the part behind the counter is zero; [None] is the panic
    of an index beyond the slice. *)
Definition cache_at (cache : list symbol) (i : nat) : option symbol :=
  if ksymbolMax <=? Z.of_nat i then None else Some (nth i cache zero_symbol).

(** h := (i + j) >> 1 *)
Definition mid (i j : nat) : nat := Nat.div2 (i + j).

Lemma mid_bounds i j : (i < j)%nat -> (i <= mid i j < j)%nat.
Proof.
  intros Hlt. unfold mid. rewrite Nat.div2_div.
  pose proof (Nat.div_mod_eq (i + j) 2). pose proof (Nat.mod_upper_bound (i + j) 2 ltac:(lia)). lia.
Qed.

(** The loop of ksymbolSearch: the final [i]. *)
Equations search_loop (cache : list symbol) (key : Z) (i j : nat) : nat by wf (j - i)%nat lt :=
search_loop cache key i j with lt_dec i j := {
  | right _ => i
  | left Hlt with Z.compare (Addr (nth (mid i j) cache zero_symbol)) key := {
      | Eq => mid i j
      | Lt => search_loop cache key (mid i j + 1) j
      | Gt => search_loop cache key i (mid i j) } }.
Next Obligation. pose proof (mid_bounds i j Hlt). lia. Qed.
Next Obligation. pose proof (mid_bounds i j Hlt). lia. Qed.

Definition ksymbolSearch (cache : list symbol) (key : Z) : option symbol :=
  let i := search_loop cache key 0 (length cache) in
  match cache_at cache i with
  | None => None
  | Some s =>
      if Addr s =? key then Some s
      else match i with
           | O => cache_at cache 0
           | S i' => cache_at cache i'
           end
  end.

(** The addresses DumpKernelBackTrace looks up. *)
Fixpoint stack_addrs (stack : list Z) (maxDepth : nat) : list Z :=
  match stack, maxDepth with
  | a :: stack', S n => if a =? 0 then [] else a :: stack_addrs stack' n
  | _, _ => []
  end.

Definition format_symbol (s : symbol) : string :=
  Name s +:+ "/" +:+ format_x (Addr s) +:+ " " +:+ Module_ s.

Fixpoint back_trace (cache : list symbol) (addrs : list Z) : option (list string) :=
  match addrs with
  | [] => Some []
  | a :: addrs' =>
      s ← ksymbolSearch cache a;
      rest ← back_trace cache addrs';
      Some (if bool_decide (Name s = EmptyString) then rest else format_symbol s :: rest)
  end.

Definition DumpKernelBackTrace (cache : list symbol) (stack : list Z) (maxDepth : nat)
    : option (list string) :=
  back_trace cache (stack_addrs stack maxDepth).
End Search.

(** ** Lemmas *)

Definition addr_le (a b : symbol) : Prop := Addr a <= Addr b.
#[global] Instance addr_le_dec a b : Decision (addr_le a b) := Z_le_dec (Addr a) (Addr b).
#[global] Instance addr_le_trans : Transitive addr_le.
Proof. unfold addr_le. intros x y z. lia. Qed.
#[global] Instance addr_le_total : Total addr_le.
Proof. unfold addr_le. intros x y. lia. Qed.
Definition addr (cache : list symbol) (k : nat) : Z := Addr (nth k cache zero_symbol).

Lemma addr_sorted cache a b :
  StronglySorted addr_le cache -> (a <= b < length cache)%nat -> addr cache a <= addr cache b.
Proof.
  intros Hs. revert a b. induction Hs as [|s l Hs IH Hf]; intros a b Hab; cbn [length] in *; [lia|].
  destruct a as [|a], b as [|b]; unfold addr in *; cbn [nth]; [lia| |lia|apply IH; lia].
  rewrite List.Forall_forall in Hf. apply Hf, nth_In. lia.
Qed.

(** What the loop leaves: the position of the key, or the one it would have. *)
Definition found (cache : list symbol) (key : Z) (r : nat) : Prop :=
  ((r < length cache)%nat /\ addr cache r = key) \/
  ((r <= length cache)%nat /\ (forall k, (k < r)%nat -> addr cache k < key) /\
   forall k, (r <= k < length cache)%nat -> key < addr cache k).

Lemma search_loop_found cache key i j :
  StronglySorted addr_le cache -> (i <= j <= length cache)%nat ->
  (forall k, (k < i)%nat -> addr cache k < key) ->
  (forall k, (j <= k < length cache)%nat -> key < addr cache k) ->
  found cache key (search_loop cache key i j).
Proof.
  funelim (search_loop cache key i j); intros Hs Hij Hl Hr;
    try (pose proof (mid_bounds i j Hlt) as Hm).
  - right. repeat split; [lia | done | intros k Hk; apply Hr; lia].
  - left. apply Z.compare_eq in Heq. split; [lia | exact Heq].
  - apply H; [done | lia | | done]. intros k Hk.
    assert (addr cache k <= addr cache (mid i j)) by (apply addr_sorted; [done | lia]).
    apply -> Z.compare_lt_iff in Heq. unfold addr in *. lia.
  - apply H; [done | lia | done |]. intros k Hk.
    assert (addr cache (mid i j) <= addr cache k) by (apply addr_sorted; [done | lia]).
    apply -> Z.compare_gt_iff in Heq. unfold addr in *. lia.
Qed.

(** One iteration of the loop. *)
Inductive loop_step (cache : list symbol) (key : Z) : nat * nat -> nat * nat -> Prop :=
| step_right i j : (i < j)%nat -> addr cache (mid i j) < key ->
    loop_step cache key (i, j) ((mid i j + 1)%nat, j)
| step_left i j : (i < j)%nat -> key < addr cache (mid i j) ->
    loop_step cache key (i, j) (i, mid i j).

Lemma mid_half i j : (i < j)%nat -> (2 * (j - (mid i j + 1)) < j - i /\ 2 * (mid i j - i) <= j - i)%nat.
Proof.
  intros Hlt. unfold mid. rewrite Nat.div2_div.
  pose proof (Nat.div_mod_eq (i + j) 2). pose proof (Nat.mod_upper_bound (i + j) 2 ltac:(lia)). lia.
Qed.

Lemma loop_step_half cache key x y :
  loop_step cache key x y -> (x.1 < x.2 /\ 2 * (y.2 - y.1) <= x.2 - x.1)%nat.
Proof. intros []; cbn [fst snd]; pose proof (mid_half i j ltac:(lia)); lia. Qed.

Lemma loop_steps_half cache key n x y :
  nsteps (loop_step cache key) n x y -> (2 ^ n * (y.2 - y.1) <= x.2 - x.1)%nat.
Proof.
  induction 1 as [|n x y z Hxy Hyz IH]; [simpl; lia|].
  apply loop_step_half in Hxy. rewrite Nat.pow_succ_r'. nia.
Qed.

(** The exit of the loop, with the [i] it leaves. *)
Definition loop_exit (cache : list symbol) (key : Z) (x : nat * nat) (r : nat) : Prop :=
  (x.2 <= x.1 /\ r = x.1)%nat \/
  ((x.1 < x.2)%nat /\ addr cache (mid x.1 x.2) = key /\ r = mid x.1 x.2).

Lemma search_loop_exit cache key i j :
  exists k x, nsteps (loop_step cache key) k (i, j) x /\
    loop_exit cache key x (search_loop cache key i j).
Proof.
  funelim (search_loop cache key i j).
  - exists 0%nat, (i, j). split; [constructor | left; cbn; lia].
  - exists 0%nat, (i, j). split; [constructor | right]. by apply Z.compare_eq in Heq.
  - destruct H as (k & x & Hn & Hx). exists (S k), x. split; [|done].
    eapply nsteps_l; [apply step_right|]; [done | by apply Z.compare_lt_iff | done].
  - destruct H as (k & x & Hn & Hx). exists (S k), x. split; [|done].
    eapply nsteps_l; [apply step_left|]; [done | by apply Z.compare_gt_iff | done].
Qed.

(** A cache below the largest size is not read out of range. *)
Lemma search_loop_range cache key i j : (i <= j)%nat -> (i <= search_loop cache key i j <= j)%nat.
Proof.
  funelim (search_loop cache key i j); intros; [lia|..]; pose proof (mid_bounds i j Hlt); lia.
Qed.

Lemma ksymbolSearch_total cache key :
  Z.of_nat (length cache) < ksymbolMax -> exists s, ksymbolSearch cache key = Some s.
Proof.
  intros Hn. pose proof (search_loop_range cache key 0 (length cache) ltac:(lia)) as Hr.
  unfold ksymbolSearch. set (r := search_loop _ _ _ _) in *. clearbody r.
  assert (forall k, (k <= r)%nat -> exists s, cache_at cache k = Some s) as Hat.
  { intros k Hk. unfold cache_at. destruct (Z.leb_spec ksymbolMax (Z.of_nat k)); [lia | by eexists]. }
  destruct (Hat r ltac:(lia)) as [s ->]. destruct (_ =? _); [by eexists|]. destruct r; apply Hat; lia.
Qed.

(** The search on a sorted cache that has a symbol at address 0. *)
Section Greatest.
Context (cache : list symbol) (key : Z).
Hypothesis cache_sorted : StronglySorted addr_le cache.
Hypothesis cache_zero : exists s, In s cache /\ Addr s = 0.
Hypothesis key_nonneg : 0 <= key.
Hypothesis cache_room : Z.of_nat (length cache) < ksymbolMax.

Lemma cache_at_in k : (k <= length cache)%nat -> cache_at cache k = Some (nth k cache zero_symbol).
Proof. intros Hk. unfold cache_at. destruct (Z.leb_spec ksymbolMax (Z.of_nat k)); [lia | done]. Qed.

Lemma missed_bounds r :
  (forall k, (k < r)%nat -> addr cache k < key) ->
  (forall k, (r <= k < length cache)%nat -> key < addr cache k) -> (0 < r)%nat /\ 0 < key.
Proof.
  intros Hl Hg. destruct cache_zero as (s0 & Hin & H0).
  destruct (In_nth cache s0 zero_symbol Hin) as (k & Hkl & E).
  specialize (Hl k). specialize (Hg k). unfold addr in *. rewrite E in *. lia.
Qed.

Lemma search_greatest :
  exists s, ksymbolSearch cache key = Some s /\ In s cache /\ Addr s <= key /\
    forall t, In t cache -> Addr t <= key -> Addr t <= Addr s.
Proof.
  assert (found cache key (search_loop cache key 0 (length cache))) as Hf
    by (apply search_loop_found; [done | lia | intros; lia | intros; lia]).
  unfold ksymbolSearch. set (r := search_loop cache key 0 (length cache)) in *. clearbody r.
  destruct Hf as [[Hr Ha]|(Hr & Hl & Hg)].
  - rewrite cache_at_in by lia. unfold addr in Ha. rewrite (proj2 (Z.eqb_eq _ _) Ha).
    eexists. split; [done|]. split; [apply nth_In; lia|]. rewrite Ha. split; [lia | done].
  - destruct (missed_bounds r Hl Hg) as [Hr0 Hk0].
    rewrite !cache_at_in by lia. destruct r as [|r]; [lia|].
    destruct (Z.eqb_spec (Addr (nth (S r) cache zero_symbol)) key) as [E|_].
    { exfalso. specialize (Hg (S r)). unfold addr in Hg.
      destruct (Nat.eq_dec (S r) (length cache)) as [El|]; [|lia].
      rewrite nth_overflow in E by lia. cbn in E. lia. }
    rewrite cache_at_in by lia. exists (nth r cache zero_symbol).
    split; [done|]. split; [apply nth_In; lia|]. specialize (Hl r ltac:(lia)) as Hlr.
    unfold addr in Hlr. split; [lia|]. intros t Ht Hle.
    destruct (In_nth cache t zero_symbol Ht) as (k & Hkl & <-).
    destruct (Nat.le_gt_cases (S r) k); [specialize (Hg k ltac:(lia)); unfold addr in Hg; lia|].
    apply (addr_sorted cache k r cache_sorted). lia.
Qed.
End Greatest.

(** What loading leaves. *)
Lemma load_lines_some lines : forall cache,
  Z.of_nat (length cache + length (omap parse_line lines)) <= ksymbolMax ->
  load_lines lines cache = Some (cache ++ omap parse_line lines).
Proof.
  induction lines as [|line lines IH]; intros cache Hle; cbn [load_lines omap list_omap] in *.
  - by rewrite app_nil_r.
  - destruct (parse_line line) as [s|]; [|by apply IH]. cbn [length] in Hle.
    destruct (Z.leb_spec ksymbolMax (Z.of_nat (length cache))); [lia|].
    rewrite IH by (rewrite length_app; cbn [length]; unfold omap in *; lia).
    by rewrite <- app_assoc.
Qed.

Lemma load_lines_none lines : forall cache,
  Z.of_nat (length cache) <= ksymbolMax ->
  ksymbolMax < Z.of_nat (length cache + length (omap parse_line lines)) ->
  load_lines lines cache = None.
Proof.
  induction lines as [|line lines IH]; intros cache Hc Hlt; cbn [load_lines omap list_omap] in *.
  - cbn [length] in Hlt. lia.
  - destruct (parse_line line) as [s|]; [|by apply IH]. cbn [length] in Hlt.
    destruct (Z.leb_spec ksymbolMax (Z.of_nat (length cache))); [done|].
    apply IH; rewrite length_app; cbn [length]; unfold omap in *; lia.
Qed.

(** ** Theorems *)

(** Round trip of addresses: the %x of a back trace reads back with
    strconv.ParseUint in base 16 as the same 64-bit address. *)
Theorem format_x_roundtrip z : 0 <= z < 2 ^ 64 -> Text.ParseUint 16 (format_x z) = Some z.
Proof. intros Hz. apply Text.ParseUint_Format; lia. Qed.

(** C17: termination of the binary search: over a cache of n symbols, sorted or
    not, the loop of [ksymbolSearch] reaches its exit with the index
    [search_loop] returns, after at most log2 n + 1 iterations. *)
Theorem search_terminates cache key :
  exists k x, nsteps (loop_step cache key) k (0%nat, length cache) x /\
    loop_exit cache key x (search_loop cache key 0 (length cache)) /\
    (k <= S (Nat.log2 (length cache)))%nat.
Proof.
  destruct (search_loop_exit cache key 0 (length cache)) as (k & x & Hk & Hx).
  exists k, x. split_and!; [done.. |]. destruct k as [|k]; [lia|].
  apply nsteps_inv_r in Hk as (y & Hk & Hs).
  apply loop_steps_half in Hk. apply loop_step_half in Hs. cbn [fst snd] in *.
  pose proof (Nat.pow_nonzero 2 k ltac:(lia)). apply le_n_S, Nat.log2_le_pow2; nia.
Qed.

(** Loading panics iff /proc/kallsyms has ksymbolMax or more text symbols:
    the first slot of the cache is the default symbol's. *)
Theorem load_panics_iff sort lines :
  loadKAllSymbols sort (Some lines) = None <->
  ksymbolMax <= Z.of_nat (length (omap parse_line lines)).
Proof.
  unfold loadKAllSymbols. destruct (Z.lt_ge_cases (Z.of_nat (length (omap parse_line lines))) ksymbolMax).
  - rewrite load_lines_some by (cbn [length]; lia). split; [done | lia].
  - rewrite load_lines_none by (cbn [length]; unfold ksymbolMax in *; lia). done.
Qed.

Section Resolve.
Context (sort : list symbol -> list symbol).
Hypothesis sort_perm : forall l, Permutation (sort l) l.
Hypothesis sort_sorted : forall l, StronglySorted addr_le (sort l).

Lemma loaded lines :
  Z.of_nat (length (omap parse_line lines)) < ksymbolMax - 1 ->
  exists cache, loadKAllSymbols sort (Some lines) = Some cache /\
    StronglySorted addr_le cache /\ Permutation cache (defaultSymbol :: omap parse_line lines) /\
    Z.of_nat (length cache) < ksymbolMax.
Proof.
  intros Hlt. unfold loadKAllSymbols. rewrite load_lines_some by (cbn [length]; lia).
  eexists. split; [done|]. split; [apply sort_sorted|]. split; [apply sort_perm|].
  rewrite (Permutation_length (sort_perm _)). cbn [length app]. lia.
Qed.

End Resolve.


End Symbol.
