(* ===== verification/Containers.v ===== *)
(** * The containers an automatic tracer watches

    The tracers of core/autotracing keep a map from container ID to what they
    know of the container, and use it in the same two passes: the first enters
    or refreshes every listed container and marks it alive, the second walks
    the map in Go's order, deletes the entries that were not marked, clears the
    mark and visits the rest until a visit reports. This file has the two
    passes over any kind of entry and their lemmas; Dload.v and Cpuidle.v
    instantiate them. *)
From S2P Require Import Prelude.
From stdpp Require Import base gmap list strings.

Module Containers.

Section Update.
Context {C I : Type}.
(** The entry of a container: a new one, and one that is already there. *)
Context (key : C -> string) (fresh : C -> I) (refresh : C -> I -> I).

Definition update_one (m : gmap string I) (c : C) : gmap string I :=
  match m !! key c with
  | Some i => <[key c := refresh c i]> m
  | None => <[key c := fresh c]> m
  end.

Definition update_all (m : gmap string I) (cs : list C) : gmap string I := foldl update_one m cs.

Lemma update_all_other cs : forall m id, id ∉ key <$> cs -> update_all m cs !! id = m !! id.
Proof.
  induction cs as [|c cs IH]; intros m id Hid; [done|].
  change (update_all m (c :: cs)) with (update_all (update_one m c) cs). cbn [fmap list_fmap] in Hid.
  rewrite IH by set_solver. unfold update_one.
  destruct (m !! key c); rewrite lookup_insert_ne by set_solver; done.
Qed.

(** The entry of a container once it is listed. *)
Definition entry (m : gmap string I) (c : C) : I :=
  match m !! key c with Some i => refresh c i | None => fresh c end.

Lemma update_all_in cs c : forall m,
  NoDup (key <$> cs) -> c ∈ cs -> update_all m cs !! key c = Some (entry m c).
Proof.
  induction cs as [|c' cs IH]; intros m Hnd Hin; [set_solver|].
  cbn [fmap list_fmap] in Hnd. apply NoDup_cons in Hnd as [Hni Hnd].
  change (update_all m (c' :: cs)) with (update_all (update_one m c') cs).
  apply elem_of_cons in Hin as [<-|Hin].
  - rewrite update_all_other by done. unfold update_one, entry.
    destruct (m !! key c); by rewrite lookup_insert_eq.
  - rewrite IH by done. f_equal.
    assert (key c' <> key c) by (intros E; apply Hni; rewrite E; by apply list_elem_of_fmap_2).
    unfold entry, update_one. by destruct (m !! key c'); rewrite lookup_insert_ne.
Qed.

Lemma update_all_Forall (P : string -> I -> Prop) cs :
  (forall c, P (key c) (fresh c)) -> (forall c i, P (key c) i -> P (key c) (refresh c i)) ->
  forall m, map_Forall P m -> map_Forall P (update_all m cs).
Proof.
  intros Hf Hr. induction cs as [|c cs IH]; intros m Hm; [done|]. apply IH. unfold update_one.
  destruct (m !! key c) as [i|] eqn:E; apply map_Forall_insert_2; auto.
Qed.
End Update.

Section Sweep.
Context {I R : Type}.
(** The mark of an entry. *)
Context (alive : I -> bool) (set_alive : bool -> I -> I).

Definition keys (m : gmap string I) : list string := (map_to_list m).*1.

(** [order] is the order in which the iteration meets the keys. *)
Fixpoint sweep (visit : I -> I * option R) (order : list string) (m : gmap string I)
    : option (I * R) * gmap string I :=
  match order with
  | [] => (None, m)
  | id :: order' =>
      match m !! id with
      | None => sweep visit order' m
      | Some i =>
          if negb (alive i) then sweep visit order' (delete id m)
          else
            let '(i, report) := visit (set_alive false i) in
            match report with
            | Some r => (Some (i, r), <[id := i]> m)
            | None => sweep visit order' (<[id := i]> m)
            end
      end
  end.

Context (visit : I -> I * option R).

Lemma sweep_skip order : forall m id, id ∉ order -> (sweep visit order m).2 !! id = m !! id.
Proof.
  induction order as [|id' order IH]; intros m id Hid; [done|].
  assert (id' <> id) by set_solver. assert (id ∉ order) by set_solver. cbn [sweep].
  repeat case_match; cbn [snd]; rewrite ?IH by done; by simplify_map_eq.
Qed.

(** A pass without a report has visited every marked entry. *)
Lemma sweep_visits order id i : forall m m',
  NoDup order -> id ∈ order -> m !! id = Some i -> alive i = true ->
  sweep visit order m = (None, m') ->
  exists i', visit (set_alive false i) = (i', None) /\ m' !! id = Some i'.
Proof.
  induction order as [|id' order IH]; intros m m' Hnd Hin Hm Ha Hd; [set_solver|].
  apply NoDup_cons in Hnd as [Hni Hnd]. cbn [sweep] in Hd. destruct (decide (id' = id)) as [->|Hne].
  - rewrite Hm, Ha in Hd. cbn [negb] in Hd.
    destruct (visit (set_alive false i)) as [i' [r|]]; [done|]. exists i'. split; [done|].
    pose proof (sweep_skip order (<[id:=i']> m) id Hni) as Hs. rewrite Hd in Hs.
    cbn [snd] in Hs. rewrite Hs. apply lookup_insert_eq.
  - assert (id ∈ order) by set_solver.
    repeat case_match; simplify_eq; refine (IH _ m' Hnd _ _ Ha Hd); [done | by simplify_map_eq..].
Qed.

(** A report is that of a visit to a marked entry of the map. *)
Lemma sweep_reports order : forall m i r m',
  NoDup order -> sweep visit order m = (Some (i, r), m') ->
  exists id i0, id ∈ order /\ m !! id = Some i0 /\ alive i0 = true /\
    visit (set_alive false i0) = (i, Some r) /\ m' !! id = Some i.
Proof.
  induction order as [|id' order IH]; intros m i r m' Hnd Hs; [done|].
  apply NoDup_cons in Hnd as [Hni Hnd]. cbn [sweep] in Hs.
  assert (forall m1, (forall id, id <> id' -> m1 !! id = m !! id) -> sweep visit order m1 = (Some (i, r), m') ->
    exists id i0, id ∈ id' :: order /\ m !! id = Some i0 /\ alive i0 = true /\
      visit (set_alive false i0) = (i, Some r) /\ m' !! id = Some i) as Hrest.
  { intros m1 Hm1 Hs1. destruct (IH _ _ _ _ Hnd Hs1) as (id & i0 & Hin & Hm & Hv).
    exists id, i0. rewrite <- Hm1 by (intros ->; done). split; [by right | done]. }
  destruct (m !! id') as [i0|] eqn:Em; [|by apply (Hrest m)].
  destruct (alive i0) eqn:Ea; cbn [negb] in Hs.
  - destruct (visit (set_alive false i0)) as [i1 [r1|]] eqn:Ev.
    + injection Hs as <- <- <-. exists id', i0. split_and!; try done; [by left | apply lookup_insert_eq].
    + apply (Hrest _ ltac:(intros; by rewrite lookup_insert_ne) Hs).
  - apply (Hrest _ ltac:(intros; by rewrite lookup_delete_ne) Hs).
Qed.

(** What a pass does to a marked entry: it ends before it, visits it without
    a report, or ends with its report. *)
Lemma sweep_entry order id i : forall m o m',
  NoDup order -> m !! id = Some i -> alive i = true -> sweep visit order m = (o, m') ->
  exists i', m' !! id = Some i' /\
    (i' = i \/ visit (set_alive false i) = (i', None) \/
     exists r, visit (set_alive false i) = (i', Some r) /\ o = Some (i', r)).
Proof.
  induction order as [|id' order IH]; intros m o m' Hnd Hm Ha Hs; cbn [sweep] in Hs.
  { injection Hs as <- <-. eauto. }
  apply NoDup_cons in Hnd as [Hni Hnd]. destruct (decide (id' = id)) as [->|Hne].
  - rewrite Hm, Ha in Hs. cbn [negb] in Hs. destruct (visit (set_alive false i)) as [i' [r|]].
    + injection Hs as <- <-. exists i'. split; [apply lookup_insert_eq | right; right; by eexists].
    + pose proof (sweep_skip order (<[id:=i']> m) id Hni) as Hk. rewrite Hs in Hk. cbn [snd] in Hk.
      exists i'. rewrite Hk. split; [apply lookup_insert_eq | by right; left].
  - repeat case_match; simplify_eq; try (refine (IH _ _ _ Hnd _ Ha Hs); by simplify_map_eq).
    exists i. rewrite lookup_insert_ne by done. split; [done | by left].
Qed.

Lemma sweep_Forall (P : string -> I -> Prop) order :
  (forall k i, P k i -> P k (visit (set_alive false i)).1) ->
  forall m, map_Forall P m -> map_Forall P (sweep visit order m).2.
Proof.
  intros HP. induction order as [|id order IH]; intros m Hm; cbn [sweep]; [done|].
  destruct (m !! id) as [i|] eqn:E; [|by apply IH].
  pose proof (HP id i (map_Forall_lookup_1 _ _ _ _ Hm E)) as Hi.
  destruct (negb (alive i)); [by apply IH, map_Forall_delete|].
  destruct (visit (set_alive false i)) as [i' [r|]]; cbn [fst snd] in *;
    [by apply map_Forall_insert_2 | by apply IH, map_Forall_insert_2].
Qed.

(** An invariant of the entries that rules out reports. *)
Lemma sweep_quiet (P : I -> Prop) order :
  (forall i, P i -> exists i', visit (set_alive false i) = (i', None) /\ P i') ->
  forall m, map_Forall (fun _ => P) m ->
  exists m', sweep visit order m = (None, m') /\ map_Forall (fun _ => P) m'.
Proof.
  intros HP. induction order as [|id order IH]; intros m Hm; cbn [sweep]; [by eauto|].
  destruct (m !! id) as [i|] eqn:E; [|by apply IH].
  destruct (HP i (map_Forall_lookup_1 _ _ _ _ Hm E)) as (i' & -> & Hi').
  destruct (negb (alive i)); [by apply IH, map_Forall_delete | by apply IH, map_Forall_insert_2].
Qed.
End Sweep.

End Containers.
