(* ===== verification/Parseutil.v ===== *)
(** * internal/utils/parseutil, internal/cgroups/pids and paths: the files of a cgroup

    The functions that read a number, a table of keys and values or a list of
    task IDs from a file. A file system is a function from cleaned absolute
    paths, as their elements, to what opening and reading the file gives. *)
From S2P Require Import Prelude Text.
From stdpp Require Import base gmap list strings.
From Stdlib Require Import ZArith Lia Ascii.

Open Scope Z_scope.

(** ** Results with an error *)

Inductive error := ENOENT | EIO | ErrNumber | ErrFormat | ErrTooLong.
#[global] Instance error_eq_dec : EqDecision error.
Proof. solve_decision. Defined.

Inductive result (A : Type) := Ok (a : A) | Err (e : error).
Arguments Ok {A} a.
Arguments Err {A} e.
#[global] Instance result_ret : MRet result := @Ok.
#[global] Instance result_bind : MBind result := fun A B k r =>
  match r with Ok a => k a | Err e => Err e end.

Definition number (o : option Z) : result Z := match o with Some z => Ok z | None => Err ErrNumber end.

(** ** Paths *)

(** Clean of an absolute path, by its elements; [stack] is the path so far,
    innermost first. *)
Fixpoint clean (stack elems : list string) : list string :=
  match elems with
  | [] => rev stack
  | e :: elems' =>
      if bool_decide (e = ".")%string then clean stack elems'
      else if bool_decide (e = "..")%string then clean (tail stack) elems'
      else clean (e :: stack) elems'
  end.
Definition split_path (s : string) : list string := Text.FieldsFunc (Ascii.eqb "/") s.
Definition RootfsDefaultPath : string := "/sys/fs/cgroup".

(** paths.Path *)
Definition Path (path : list string) : list string :=
  clean [] (concat (split_path <$> RootfsDefaultPath :: path)).

(** filepath.Join of a cleaned directory and a name. *)
Definition filepath_Join (dir : list string) (name : string) : list string := clean (rev dir) (split_path name).

(** What opening and reading a file gives. *)
Inductive file := NoFile | Unreadable | Content (s : string).
Definition fs : Type := list string -> file.
Definition Open (f : file) : result string :=
  match f with NoFile => Err ENOENT | Unreadable => Err EIO | Content s => Ok s end.

(** ** parseutils.go *)

Definition ReadUint (f : fs) (path : list string) : result Z :=
  v ← Open (f path); number (Text.ParseUint 10 (Text.TrimSpace v)).
Definition ReadInt (f : fs) (path : list string) : result Z :=
  v ← Open (f path); number (Text.ParseInt (Text.TrimSpace v)).

Definition parseKV (raw : string) : result (string * Z) :=
  match Text.Fields raw with
  | [p0; p1] => v ← number (Text.ParseUint 10 p1); Ok (p0, v)
  | _ => Err ErrFormat
  end.

(** The loop of RawKV over the lines. *)
Fixpoint scan_kvs (lines : list string) (raw : gmap string Z) : result (gmap string Z) :=
  match lines with
  | [] => Ok raw
  | l :: lines' => kv ← parseKV l; scan_kvs lines' (<[kv.1 := kv.2]> raw)
  end.
Definition RawKV (f : fs) (path : list string) : result (gmap string Z) :=
  s ← Open (f path);
  let (lines, complete) := Text.Scan s in
  raw ← scan_kvs lines ∅;
  if complete then Ok raw else Err ErrTooLong.

Definition KV (f : fs) (path : list string) : result (string * Z) :=
  s ← Open (f path);
  match Text.split_lines s EmptyString with
  | [] => parseKV EmptyString
  | l :: _ => if Text.fits l then parseKV (Text.dropCR l) else Err ErrTooLong
  end.

(** raw[key] of a Go map *)
Definition index (raw : gmap string Z) (key : string) : Z := default 0 (raw !! key).

(** ** pids.go *)

Fixpoint scan_tasks (lines : list string) (out : list Z) : result (list Z) :=
  match lines with
  | [] => Ok out
  | t :: lines' =>
      if bool_decide (t = EmptyString) then scan_tasks lines' out
      else pid ← number (Text.ParseInt t); scan_tasks lines' (out ++ [s32 pid])
  end.
Definition Tasks (f : fs) (path : list string) (name : string) : result (list Z) :=
  s ← Open (f (filepath_Join path name));
  let (lines, complete) := Text.Scan s in
  out ← scan_tasks lines [];
  if complete then Ok out else Err ErrTooLong.

(** ** What the kernel prints *)

(** One value and a newline. *)
Definition print_value (v : string) : string := v +:+ String Text.newline EmptyString.
Definition print_kv (kv : string * Z) : string :=
  kv.1 +:+ String " " (Text.FormatUint 10 kv.2).
(** Lines, each with its newline. *)
Fixpoint print_lines (lines : list string) : string :=
  match lines with
  | [] => EmptyString
  | l :: lines' => l +:+ String Text.newline (print_lines lines')
  end.
Definition print_kvs (kvs : list (string * Z)) : string := print_lines (print_kv <$> kvs).
Definition print_tasks (pids : list Z) : string := print_lines (Text.FormatInt <$> pids).

(** Keys a kernel file has: words much shorter than the buffer. *)
Definition kv_ok (kv : string * Z) : Prop :=
  Text.is_word kv.1 /\ (String.length kv.1 < 1024)%nat /\ is_u 64 kv.2.

(** ** Lemmas *)

Lemma ReadUint_printed f path z :
  f path = Content (print_value (Text.FormatUint 10 z)) -> is_u 64 z -> ReadUint f path = Ok z.
Proof.
  intros Hf Hz. unfold ReadUint. rewrite Hf. cbn [Open mbind result_bind]. unfold print_value.
  rewrite Text.TrimSpace_line by apply Text.FormatUint_word.
  by rewrite Text.ParseUint_Format.
Qed.

Lemma ReadInt_printed f path z :
  f path = Content (print_value (Text.FormatInt z)) -> - 2 ^ 63 <= z < 2 ^ 63 -> ReadInt f path = Ok z.
Proof.
  intros Hf Hz. unfold ReadInt. rewrite Hf. cbn [Open mbind result_bind]. unfold print_value.
  rewrite Text.TrimSpace_line by apply Text.FormatInt_word.
  by rewrite Text.ParseInt_Format.
Qed.

Lemma parseKV_words k v : Text.is_word k -> Text.is_word v ->
  parseKV (k +:+ String " " v) = (z ← number (Text.ParseUint 10 v); Ok (k, z)).
Proof. intros Hk Hv. unfold parseKV. by rewrite Text.Fields_two. Qed.

Lemma parseKV_printed kv : Text.is_word kv.1 -> is_u 64 kv.2 -> parseKV (print_kv kv) = Ok kv.
Proof.
  intros Hk Hv. destruct kv as [k v]. unfold print_kv. cbn [fst snd] in *.
  rewrite parseKV_words by (done || apply Text.FormatUint_word). by rewrite Text.ParseUint_Format.
Qed.

(** No white space but blanks. *)
Definition in_line (c : ascii) : bool := negb (Text.is_space c) || (c =? " ")%char.

Lemma print_kv_in_line kv : Text.is_word kv.1 -> Text.all_chars in_line (print_kv kv) = true.
Proof.
  intros [_ Hk]. destruct (Text.FormatUint_word kv.2) as [_ Hv]. unfold print_kv.
  rewrite Text.all_chars_app. cbn [Text.all_chars]. apply andb_true_iff.
  split; [|apply andb_true_iff; split; [done|]];
    (eapply Text.all_chars_impl; [|eassumption]); intros c Hc; unfold in_line; by rewrite Hc.
Qed.

Lemma print_kv_fits kv : (String.length kv.1 < 1024)%nat -> Text.fits (print_kv kv) = true.
Proof.
  intros Hk. pose proof (Text.FormatUint_length 10 kv.2) as Hv. unfold Text.fits. apply Z.ltb_lt.
  unfold print_kv. rewrite Text.length_append. cbn [String.length]. lia.
Qed.

Lemma split_printed lines :
  Forall (fun l => Text.all_chars in_line l = true) lines ->
  Text.split_lines (print_lines lines) EmptyString = lines.
Proof.
  induction 1 as [|l lines Hl _ IH]; [done|]. cbn [print_lines].
  rewrite Text.split_lines_cons, IH; [done|].
  refine (Text.all_chars_impl _ _ l _ Hl). intros c.
  destruct (Ascii.eqb_spec c Text.newline) as [->|]; done.
Qed.

Lemma dropCR_in_line l : Text.all_chars in_line l = true -> Text.dropCR l = l.
Proof.
  intros Hl. apply Text.dropCR_id. refine (Text.all_chars_impl _ _ l _ Hl). intros c.
  destruct (Ascii.eqb_spec c "013") as [->|]; done.
Qed.

(** The scanner yields the printed lines. *)
Lemma Scan_printed lines :
  Forall (fun l => Text.all_chars in_line l = true) lines -> Forall (fun l => Text.fits l = true) lines ->
  Text.Scan (print_lines lines) = (lines, true).
Proof.
  intros Hl Hf. unfold Text.Scan. rewrite split_printed by done.
  assert (Text.take_fitting lines = lines) as ->.
  { clear Hl. induction Hf as [|l lines Hl _ IH]; [done|]. cbn. by rewrite Hl, IH. }
  f_equal.
  - clear Hf. induction Hl as [|l lines Hl _ IH]; [done|]. cbn. rewrite dropCR_in_line by done. f_equal. apply IH.
  - apply forallb_forall. intros l Hin%list_elem_of_In. by eapply Forall_forall in Hf.
Qed.

Lemma scan_kvs_printed kvs : forall raw,
  Forall kv_ok kvs -> scan_kvs (print_kv <$> kvs) raw = Ok (list_to_map (reverse kvs) ∪ raw).
Proof.
  induction kvs as [|kv kvs IH]; intros raw H.
  - cbn. by rewrite (left_id_L ∅ (∪)).
  - inversion H as [|? ? (Hk & _ & Hv) H']; subst. cbn [fmap list_fmap scan_kvs].
    rewrite parseKV_printed by done. cbn [mbind result_bind]. rewrite IH by done. f_equal.
    rewrite reverse_cons, list_to_map_app, <- (assoc_L (∪)). f_equal.
    destruct kv as [k v]. cbn. by rewrite insert_empty, <- insert_union_singleton_l.
Qed.

(** ** Theorems *)

(** The table of a file the kernel printed is the printed one, where a
    repeated key has its last value. *)
Theorem RawKV_roundtrip f path kvs :
  f path = Content (print_kvs kvs) -> Forall kv_ok kvs ->
  RawKV f path = Ok (list_to_map (reverse kvs)).
Proof.
  intros Hf H. unfold RawKV. rewrite Hf. cbn [Open mbind result_bind]. unfold print_kvs.
  rewrite Scan_printed.
  - rewrite scan_kvs_printed by done. cbn. by rewrite (right_id_L ∅ (∪)).
  - apply Forall_fmap. eapply Forall_impl; [exact H|]. intros kv (Hk & _). by apply print_kv_in_line.
  - apply Forall_fmap. eapply Forall_impl; [exact H|]. intros kv (_ & Hk & _). by apply print_kv_fits.
Qed.

(** The value of one key of such a table. *)
Lemma index_printed kvs k v :
  NoDup kvs.*1 -> (k, v) ∈ kvs -> index (list_to_map (reverse kvs)) k = v.
Proof.
  intros Hnd Hin. unfold index. rewrite (elem_of_list_to_map_1 _ k v); [done | |].
  - rewrite fmap_reverse, (reverse_Permutation kvs.*1). done.
  - by rewrite (reverse_Permutation kvs).
Qed.

(** The task IDs of a file the kernel printed are the printed ones. *)
Lemma scan_tasks_printed pids : forall out,
  Forall (fun p => - 2 ^ 31 <= p < 2 ^ 31) pids ->
  scan_tasks (Text.FormatInt <$> pids) out = Ok (out ++ pids).
Proof.
  induction pids as [|p pids IH]; intros out H; [cbn; by rewrite app_nil_r|].
  inversion H as [|? ? Hp H']; subst. cbn [fmap list_fmap scan_tasks].
  destruct (Text.FormatInt_word p) as [Hw _]. rewrite bool_decide_false by done.
  rewrite Text.ParseInt_Format by lia. cbn [number mbind result_bind]. rewrite IH by done.
  rewrite <- app_assoc. cbn. unfold s32. rewrite Z.mod_small by lia. do 2 f_equal. f_equal. lia.
Qed.

Theorem Tasks_roundtrip f path name pids :
  f (filepath_Join path name) = Content (print_tasks pids) -> Forall (fun p => - 2 ^ 31 <= p < 2 ^ 31) pids ->
  Tasks f path name = Ok pids.
Proof.
  intros Hf H. unfold Tasks. rewrite Hf. cbn [Open mbind result_bind]. unfold print_tasks.
  rewrite Scan_printed.
  - rewrite scan_tasks_printed by done. done.
  - apply Forall_fmap. eapply Forall_impl; [exact H|]. intros p _.
    destruct (Text.FormatInt_word p) as [_ Hw]. refine (Text.all_chars_impl _ _ _ _ Hw).
    intros c Hc. unfold in_line. by rewrite Hc.
  - apply Forall_fmap. eapply Forall_impl; [exact H|]. intros p _. unfold Text.fits, Text.FormatInt. apply Z.ltb_lt.
    destruct (p <? 0); [cbn [compose String.length]; pose proof (Text.FormatUint_length 10 (- p))
      | pose proof (Text.FormatUint_length 10 p)]; lia.
Qed.

(** A table is read exactly if each line of the file is a key and an unsigned
    64-bit number and fits the scanner's buffer. *)
Theorem RawKV_ok_iff f path s : f path = Content s ->
  (exists raw, RawKV f path = Ok raw) <->
  Forall (fun l => Text.fits l = true /\ exists kv, parseKV (Text.dropCR l) = Ok kv)
    (Text.split_lines s EmptyString).
Proof.
  intros Hf. unfold RawKV. rewrite Hf. cbn [Open mbind result_bind]. unfold Text.Scan.
  generalize (Text.split_lines s EmptyString) as lines. generalize (∅ : gmap string Z) as raw0.
  intros raw0 lines. revert raw0. induction lines as [|l lines IH]; intros raw0; [split; [done | by eexists]|].
  cbn [Text.take_fitting forallb]. destruct (Text.fits l) eqn:El; cbn [andb].
  - cbn [fmap list_fmap scan_kvs mbind result_bind]. destruct (parseKV (Text.dropCR l)) as [kv|e] eqn:Ek.
    + cbn [mbind result_bind]. specialize (IH (<[kv.1:=kv.2]> raw0)). rewrite Forall_cons, <- IH.
      split; [intros [raw H] | intros [_ H]]; eauto.
    + split; [intros [raw H]; done|]. intros [[_ [kv H]] _]%Forall_cons. congruence.
  - split; [intros [raw H]; done|]. intros [[H _] _]%Forall_cons. congruence.
Qed.
