(* ===== verification/CgroupFs.v ===== *)
(** * internal/cgroups: the interface of the cgroup file systems

    [Cgroup] is the interface of cgroups.go, as far as it reads, and
    [CgroupReads] what a manager promises to the collectors: on the files the
    kernel prints for a group, the answers are the group's quota, usage and
    memory. CgroupV1 and CgroupV2 implement it. *)
From S2P Require Import Prelude Text Parseutil.
From stdpp Require Import base gmap list strings.
From Stdlib Require Import ZArith Lia Ascii.

Open Scope Z_scope.

(** ** stats.go *)

(** In microseconds. *)
Record CpuUsage := mk_usage { Usage : Z; User : Z; System : Z }.
Record CpuQuota := mk_quota { Quota : Z; Period : Z }.
Record MemoryUsage := mk_memory { MemUsage : Z; MaxLimited : Z }.

Definition MaxUint64 : Z := 2 ^ 64 - 1.

(** ** The interface *)
Class Cgroup (C : Type) := {
  Name : C -> string;
  Pids : C -> fs -> string -> result (list Z);
  cpuUsage : C -> fs -> string -> result CpuUsage;
  CpuStatRaw : C -> fs -> string -> result (gmap string Z);
  CpuQuotaAndPeriod : C -> fs -> string -> result CpuQuota;
  MemoryStatRaw : C -> fs -> string -> result (gmap string Z);
  MemoryEventRaw : C -> fs -> string -> result (gmap string Z);
  memoryUsage : C -> fs -> string -> result MemoryUsage;
}.

(** ** What the kernel shows of a group *)

(** CPU times in nanoseconds, a bandwidth in microseconds, memory in bytes;
    [None] is no limit. *)
Record group := mk_group
  { g_quota : option Z; g_period : Z; g_user : Z; g_system : Z; g_total : Z;
    g_memory : Z; g_limit : option Z; g_pids : list Z; g_stat : list (string * Z) }.

(** The values fit the kernel's types; cpu.stat has further keys. *)
Definition group_ok (g : group) : Prop :=
  (forall q, g_quota g = Some q -> 0 <= q < 2 ^ 63) /\ is_u 64 (g_period g) /\
  is_u 64 (g_user g) /\ is_u 64 (g_system g) /\ is_u 64 (g_total g) /\ is_u 64 (g_memory g) /\
  (forall l, g_limit g = Some l -> is_u 64 l) /\
  Forall (fun p => - 2 ^ 31 <= p < 2 ^ 31) (g_pids g) /\
  Forall kv_ok (g_stat g) /\
  NoDup (["usage_usec"; "user_usec"; "system_usec"]%string ++ (g_stat g).*1).

(** ** The promise of a manager *)

(** User and system time in units of [grain] microseconds. *)
Definition rounded (grain t : Z) : Z := t / 1000 / grain * grain.

Class CgroupReads (C : Type) `{Cgroup C} := {
  shows : C -> fs -> string -> group -> Prop;
  grain : C -> Z;
  grain_ok c : 1 <= grain c <= 10000;
  reads_quota c f p g : group_ok g -> shows c f p g ->
    CpuQuotaAndPeriod c f p = Ok (mk_quota (default MaxUint64 (g_quota g)) (g_period g));
  reads_usage c f p g : group_ok g -> shows c f p g ->
    cpuUsage c f p = Ok (mk_usage (g_total g / 1000) (rounded (grain c) (g_user g)) (rounded (grain c) (g_system g)));
  reads_memory c f p g l : group_ok g -> shows c f p g -> g_limit g = Some l ->
    memoryUsage c f p = Ok (mk_memory (g_memory g) l);
  reads_stat c f p g k v : group_ok g -> shows c f p g -> (k, v) ∈ g_stat g ->
    exists raw, CpuStatRaw c f p = Ok raw /\ index raw k = v;
  reads_pids c f p g : group_ok g -> shows c f p g -> Pids c f p = Ok (g_pids g);
}.

(** ** Lemmas *)

Lemma div_u64 t d : is_u 64 t -> 1 < d -> is_u 64 (t / d).
Proof.
  unfold is_u. intros Ht Hd. split; [apply Z.div_pos; lia|].
  apply Z.div_lt_upper_bound; [lia|]. nia.
Qed.

Lemma kv_ok_small k v : Text.is_word k -> (String.length k < 1024)%nat -> is_u 64 v -> kv_ok (k, v).
Proof. done. Qed.

Lemma rounded_1 t : rounded 1 t = t / 1000.
Proof. unfold rounded. rewrite Z.div_1_r. lia. Qed.
