(* ===== verification/CgroupV1.v ===== *)
(** * internal/cgroups/v1: the legacy hierarchies

    The operations of [CgroupV1], the files the kernel shows of a group in the
    cpu and memory hierarchies, and that the operations keep the promise of the
    interface on them. *)
From S2P Require Import Prelude Text Parseutil CgroupFs.
From stdpp Require Import base gmap list strings.
From Stdlib Require Import ZArith Lia Ascii.

Open Scope Z_scope.

(** ** v1/cgroups.go *)
Module V1.

Record CgroupV1 := mk_v1 { name : string }.
Definition New : CgroupV1 := mk_v1 "legacy".

Definition clockTicks : Z := 100.
Definition microsecondsInSecond : Z := 1000000.

Definition Tasks (f : fs) (path : string) : result (list Z) :=
  Parseutil.Tasks f (Path ["cpu"; path]) "tasks".

Definition CpuUsage (f : fs) (path : string) : result CgroupFs.CpuUsage :=
  raw ← RawKV f (Path ["cpu"; path; "cpuacct.stat"]);
  usage ← ReadUint f (Path ["cpu"; path; "cpuacct.usage"]);
  let user := u64 (index raw "user" * microsecondsInSecond) / clockTicks in
  let system := u64 (index raw "system" * microsecondsInSecond) / clockTicks in
  Ok (mk_usage (usage / 1000) user system).

Definition CpuStatRaw (f : fs) (path : string) : result (gmap string Z) :=
  RawKV f (Path ["cpu"; path; "cpu.stat"]).

Definition CpuQuotaAndPeriod (f : fs) (path : string) : result CpuQuota :=
  period ← ReadUint f (Path ["cpu"; path; "cpu.cfs_period_us"]);
  quota ← ReadInt f (Path ["cpu"; path; "cpu.cfs_quota_us"]);
  if quota =? -1 then Ok (mk_quota MaxUint64 period) else Ok (mk_quota (u64 quota) period).

Definition MemoryStatRaw (f : fs) (path : string) : result (gmap string Z) :=
  RawKV f (Path ["memory"; path; "memory.stat"]).

(** The nil map of a missing file reads as the empty one. *)
Definition MemoryEventRaw (f : fs) (path : string) : result (gmap string Z) :=
  match RawKV f (Path ["memory"; path; "memory.events"]) with
  | Err ENOENT => Ok ∅
  | r => r
  end.

Definition MemoryUsage (f : fs) (path : string) : result MemoryUsage :=
  usage ← ReadUint f (Path ["memory"; path; "memory.usage_in_bytes"]);
  maxLimited ← ReadUint f (Path ["memory"; path; "memory.limit_in_bytes"]);
  Ok (mk_memory usage maxLimited).

End V1.

#[global] Instance cgroup_v1 : Cgroup V1.CgroupV1 := {|
  Name := V1.name; Pids _ := V1.Tasks; cpuUsage _ := V1.CpuUsage; CpuStatRaw _ := V1.CpuStatRaw;
  CpuQuotaAndPeriod _ := V1.CpuQuotaAndPeriod; MemoryStatRaw _ := V1.MemoryStatRaw;
  MemoryEventRaw _ := V1.MemoryEventRaw; memoryUsage _ := V1.MemoryUsage |}.

(** ** What the kernel shows of a group *)

(** No limit of memory, in v1: PAGE_COUNTER_MAX pages. *)
Definition unlimited : Z := 2 ^ 63 - 4096.

Record shows_v1 (f : fs) (path : string) (g : group) : Prop := {
  v1_quota : f (Path ["cpu"; path; "cpu.cfs_quota_us"]) =
    Content (print_value (Text.FormatInt (default (-1) (g_quota g))));
  v1_period : f (Path ["cpu"; path; "cpu.cfs_period_us"]) =
    Content (print_value (Text.FormatUint 10 (g_period g)));
  v1_acct : f (Path ["cpu"; path; "cpuacct.stat"]) =
    Content (print_kvs [("user"%string, g_user g / 10000000); ("system"%string, g_system g / 10000000)]);
  v1_usage : f (Path ["cpu"; path; "cpuacct.usage"]) =
    Content (print_value (Text.FormatUint 10 (g_total g)));
  v1_stat : f (Path ["cpu"; path; "cpu.stat"]) = Content (print_kvs (g_stat g));
  v1_memory : f (Path ["memory"; path; "memory.usage_in_bytes"]) =
    Content (print_value (Text.FormatUint 10 (g_memory g)));
  v1_limit : f (Path ["memory"; path; "memory.limit_in_bytes"]) =
    Content (print_value (Text.FormatUint 10 (default unlimited (g_limit g))));
  v1_tasks : f (filepath_Join (Path ["cpu"; path]) "tasks") = Content (print_tasks (g_pids g)) }.

(** ** Lemmas *)

(** Ticks of 10 ms are read as the microseconds, rounded down. *)
Lemma ticks_us t : is_u 64 t ->
  u64 (t / 10000000 * V1.microsecondsInSecond) / V1.clockTicks = rounded 10000 t.
Proof.
  unfold is_u, V1.microsecondsInSecond, V1.clockTicks, rounded. intros Ht.
  rewrite Z.div_div by lia. change (1000 * 10000) with 10000000.
  assert (0 <= t / 10000000 < 2 ^ 64 / 1000000) as Hb.
  { split; [apply Z.div_pos; lia|]. apply Z.div_lt_upper_bound; [lia|].
    change (2 ^ 64 / 1000000) with 18446744073709. lia. }
  change (2 ^ 64 / 1000000) with 18446744073709 in Hb.
  rewrite u64_small by (unfold is_u; lia).
  replace (t / 10000000 * 1000000) with (t / 10000000 * 10000 * 100) by lia. apply Z.div_mul. lia.
Qed.

(** The promise is kept. *)
#[global] Program Instance reads_v1 : CgroupReads V1.CgroupV1 :=
  {| shows _ := shows_v1; grain _ := 10000 |}.
Next Obligation. done. Qed.
Next Obligation.
  intros c f p g (Hq & Hp & _) Hf. cbn. unfold V1.CpuQuotaAndPeriod.
  rewrite (ReadUint_printed _ _ _ (v1_period _ _ _ Hf)) by done. cbn [mbind result_bind].
  rewrite (ReadInt_printed _ _ _ (v1_quota _ _ _ Hf)).
  - cbn [mbind result_bind]. destruct (g_quota g) as [q|]; [|done]. specialize (Hq q eq_refl). cbn [from_option id].
    destruct (Z.eqb_spec q (-1)); [lia|]. rewrite u64_small by (unfold is_u; lia). done.
  - destruct (g_quota g) as [q|]; [specialize (Hq q eq_refl); cbn; lia | cbn; lia].
Qed.
Next Obligation.
  intros c f p g (_ & _ & Hu & Hs & Ht & _) Hf. cbn. unfold V1.CpuUsage.
  rewrite (RawKV_roundtrip _ _ _ (v1_acct _ _ _ Hf)).
  - cbn [mbind result_bind]. rewrite (ReadUint_printed _ _ _ (v1_usage _ _ _ Hf)) by done.
    cbn [mbind result_bind].
    rewrite !(index_printed [_; _] _ (g_user g / 10000000)), !(index_printed [_; _] _ (g_system g / 10000000))
      by (set_solver || by apply (bool_decide_unpack _)).
    by rewrite !ticks_us.
  - repeat (constructor; [apply kv_ok_small; [by apply (bool_decide_unpack _) | cbn; lia | by apply div_u64]|]). done.
Qed.
Next Obligation.
  intros c f p g l (_ & _ & _ & _ & _ & Hm & Hl & _) Hf E. cbn. unfold V1.MemoryUsage.
  rewrite (ReadUint_printed _ _ _ (v1_memory _ _ _ Hf)) by done. cbn [mbind result_bind].
  pose proof (v1_limit _ _ _ Hf) as Hlim. rewrite E in Hlim. cbn [from_option id] in Hlim.
  by rewrite (ReadUint_printed _ _ _ Hlim (Hl l E)).
Qed.
Next Obligation.
  intros c f p g k v (_ & _ & _ & _ & _ & _ & _ & _ & Hst & Hnd) Hf Hin. cbn. unfold V1.CpuStatRaw.
  eexists. split; [by apply (RawKV_roundtrip _ _ _ (v1_stat _ _ _ Hf))|].
  apply index_printed; [|done]. by apply NoDup_app in Hnd as (_ & _ & ?).
Qed.
Next Obligation.
  intros c f p g (_ & _ & _ & _ & _ & _ & _ & Hp & _) Hf. by apply (Tasks_roundtrip _ _ _ _ (v1_tasks _ _ _ Hf)).
Qed.
