(* ===== verification/CgroupV2.v ===== *)
(** * internal/cgroups/v2: the unified hierarchy

    The operations of [CgroupV2], the files the kernel shows of a group, and
    that the operations keep the promise of the interface on them. *)
From S2P Require Import Prelude Text Parseutil CgroupFs.
From stdpp Require Import base gmap list strings.
From Stdlib Require Import ZArith Lia Ascii.

Open Scope Z_scope.

(** ** v2/cgroups.go *)
Module V2.

Record CgroupV2 := mk_v2 { name : string }.
Definition New : CgroupV2 := mk_v2 "unified".

Definition Tasks (f : fs) (path : string) : result (list Z) :=
  Parseutil.Tasks f (Path [path]) "cgroup.threads".

Definition CpuStatRaw (f : fs) (path : string) : result (gmap string Z) :=
  RawKV f (Path [path; "cpu.stat"]).

Definition CpuUsage (f : fs) (path : string) : result CgroupFs.CpuUsage :=
  raw ← CpuStatRaw f path;
  Ok (mk_usage (index raw "usage_usec") (index raw "user_usec") (index raw "system_usec")).

Definition CpuQuotaAndPeriod (f : fs) (path : string) : result CpuQuota :=
  kv ← KV f (Path [path; "cpu.max"]);
  let (maxQuota, period) := kv : string * Z in
  if bool_decide (maxQuota = "max"%string) then Ok (mk_quota MaxUint64 period)
  else quota ← number (Text.ParseUint 10 maxQuota); Ok (mk_quota quota period).

Definition MemoryStatRaw (f : fs) (path : string) : result (gmap string Z) :=
  RawKV f (Path [path; "memory.stat"]).

Definition MemoryEventRaw (f : fs) (path : string) : result (gmap string Z) :=
  RawKV f (Path [path; "memory.events"]).

Definition MemoryUsage (f : fs) (path : string) : result MemoryUsage :=
  usage ← ReadUint f (Path [path; "memory.current"]);
  maxLimited ← ReadUint f (Path [path; "memory.max"]);
  Ok (mk_memory usage maxLimited).

End V2.

#[global] Instance cgroup_v2 : Cgroup V2.CgroupV2 := {|
  Name := V2.name; Pids _ := V2.Tasks; cpuUsage _ := V2.CpuUsage; CpuStatRaw _ := V2.CpuStatRaw;
  CpuQuotaAndPeriod _ := V2.CpuQuotaAndPeriod; MemoryStatRaw _ := V2.MemoryStatRaw;
  MemoryEventRaw _ := V2.MemoryEventRaw; memoryUsage _ := V2.MemoryUsage |}.

(** ** What the kernel shows of a group *)

(** A number, or max where there is no limit. *)
Definition print_max (o : option Z) : string :=
  match o with Some z => Text.FormatUint 10 z | None => "max" end.

Record shows_v2 (f : fs) (path : string) (g : group) : Prop := {
  v2_max : f (Path [path; "cpu.max"]) =
    Content (print_lines [print_max (g_quota g) +:+ String " " (Text.FormatUint 10 (g_period g))]);
  v2_stat : f (Path [path; "cpu.stat"]) =
    Content (print_kvs (("usage_usec"%string, g_total g / 1000) :: ("user_usec"%string, g_user g / 1000) ::
      ("system_usec"%string, g_system g / 1000) :: g_stat g));
  v2_memory : f (Path [path; "memory.current"]) = Content (print_value (Text.FormatUint 10 (g_memory g)));
  v2_limit : f (Path [path; "memory.max"]) = Content (print_value (print_max (g_limit g)));
  v2_tasks : f (filepath_Join (Path [path]) "cgroup.threads") = Content (print_tasks (g_pids g)) }.

(** ** Lemmas *)

(** The first line of a printed file. *)
Lemma KV_printed f path l lines :
  f path = Content (print_lines (l :: lines)) -> Forall (fun l => Text.all_chars in_line l = true) (l :: lines) ->
  Text.fits l = true -> KV f path = parseKV l.
Proof.
  intros Hf Hl Hfit. unfold KV. rewrite Hf. cbn [Open mbind result_bind]. rewrite split_printed by done.
  rewrite Hfit. apply Forall_cons in Hl as [Hl _]. by rewrite dropCR_in_line.
Qed.

(** Two words and a blank. *)
Lemma two_words_in_line k v :
  Text.is_word k -> Text.is_word v -> Text.all_chars in_line (k +:+ String " " v) = true.
Proof.
  intros [_ Hk] [_ Hv]. rewrite Text.all_chars_app. cbn [Text.all_chars]. apply andb_true_iff.
  split; [|apply andb_true_iff; split; [done|]];
    (eapply Text.all_chars_impl; [|eassumption]); intros c Hc; unfold in_line; by rewrite Hc.
Qed.

Lemma print_max_word o : Text.is_word (print_max o).
Proof. destruct o; [apply Text.FormatUint_word | split; [done | reflexivity]]. Qed.

Lemma print_max_length o : (String.length (print_max o) <= 64)%nat.
Proof. destruct o; [apply Text.FormatUint_length | cbn; lia]. Qed.

Lemma FormatUint_not_max z : 0 <= z < 2 ^ 64 -> Text.FormatUint 10 z <> "max"%string.
Proof. intros Hz E. pose proof (Text.ParseUint_Format 10 z ltac:(lia) Hz) as H. by rewrite E in H. Qed.

(** cpu.max: the quota or max, and the period. *)
Lemma v2_quota f p q period :
  f (Path [p; "cpu.max"]) = Content (print_lines [print_max q +:+ String " " (Text.FormatUint 10 period)]) ->
  (forall z, q = Some z -> 0 <= z < 2 ^ 63) -> is_u 64 period ->
  V2.CpuQuotaAndPeriod f p = Ok (mk_quota (default MaxUint64 q) period).
Proof.
  intros Hf Hq Hp. unfold V2.CpuQuotaAndPeriod.
  pose proof (print_max_word q) as Hw. pose proof (Text.FormatUint_word period) as Hw'.
  rewrite (KV_printed _ _ _ [] Hf).
  - rewrite parseKV_words by done. rewrite Text.ParseUint_Format by (done || lia). cbn [number mbind result_bind].
    destruct q as [q|]; [|done]. cbn [print_max from_option id]. specialize (Hq q eq_refl).
    rewrite bool_decide_false by (apply FormatUint_not_max; lia).
    rewrite Text.ParseUint_Format by lia. done.
  - constructor; [by apply two_words_in_line | constructor].
  - unfold Text.fits. apply Z.ltb_lt. rewrite Text.length_append. cbn [String.length].
    pose proof (print_max_length q). pose proof (Text.FormatUint_length 10 period). lia.
Qed.

(** cpu.stat: the times first, then the rest of the table. *)
Lemma v2_cpu_stat f p g : group_ok g -> shows_v2 f p g ->
  exists raw, V2.CpuStatRaw f p = Ok raw /\
    index raw "usage_usec" = g_total g / 1000 /\ index raw "user_usec" = g_user g / 1000 /\
    index raw "system_usec" = g_system g / 1000 /\ forall k v, (k, v) ∈ g_stat g -> index raw k = v.
Proof.
  intros (_ & _ & Hu & Hs & Ht & _ & _ & _ & Hst & Hnd) Hf.
  eexists. split.
  { unfold V2.CpuStatRaw. rewrite (RawKV_roundtrip _ _ _ (v2_stat _ _ _ Hf)); [reflexivity|].
    repeat (constructor; [apply kv_ok_small; [by apply (bool_decide_unpack _) | cbn; lia | by apply div_u64]|]). done. }
  repeat split; [..|intros k v Hin]; apply index_printed; try exact Hnd; set_solver.
Qed.

(** The promise is kept. *)
#[global] Program Instance reads_v2 : CgroupReads V2.CgroupV2 :=
  {| shows _ := shows_v2; grain _ := 1 |}.
Next Obligation. done. Qed.
Next Obligation.
  intros c f p g (Hq & Hp & _) Hf. apply v2_quota; [apply (v2_max _ _ _ Hf) | done | done].
Qed.
Next Obligation.
  intros c f p g Hg Hf. destruct (v2_cpu_stat f p g Hg Hf) as (raw & E & Ht & Hu & Hs & _).
  cbn. unfold V2.CpuUsage. rewrite E. cbn [mbind result_bind]. by rewrite Ht, Hu, Hs, !rounded_1.
Qed.
Next Obligation.
  intros c f p g l (_ & _ & _ & _ & _ & Hm & Hl & _) Hf E. cbn. unfold V2.MemoryUsage.
  rewrite (ReadUint_printed _ _ _ (v2_memory _ _ _ Hf)) by done. cbn [mbind result_bind].
  pose proof (v2_limit _ _ _ Hf) as Hlim. rewrite E in Hlim. cbn [print_max] in Hlim.
  by rewrite (ReadUint_printed _ _ _ Hlim (Hl l E)).
Qed.
Next Obligation.
  intros c f p g k v Hg Hf Hin. destruct (v2_cpu_stat f p g Hg Hf) as (raw & E & _ & _ & _ & H). eauto.
Qed.
Next Obligation.
  intros c f p g (_ & _ & _ & _ & _ & _ & _ & Hp & _) Hf. by apply (Tasks_roundtrip _ _ _ _ (v2_tasks _ _ _ Hf)).
Qed.
