(* ===== verification/Cgroups.v ===== *)
(** * internal/cgroups/cgroups.go: the manager of the host, and the two versions side by side

    [NewCgroupManager] chooses the manager by the mode of the host; its
    interface value keeps the promise of the interface, and the two managers
    agree on what the kernel shows of the same group. *)
From S2P Require Import Prelude Text Parseutil CgroupFs CgroupV1 CgroupV2.
From stdpp Require Import base gmap list strings.
From Stdlib Require Import ZArith Lia Ascii.

Open Scope Z_scope.

(** ** cgroups.go *)

(** The modes of a host, and the managers NewCgroupManager makes. *)
Inductive Mode := Unavailable | Legacy | Hybrid | Unified.
Definition manager : Type := V1.CgroupV1 + V2.CgroupV2.
Definition NewCgroupManager (m : Mode) : option manager :=
  match m with
  | Legacy | Hybrid => Some (inl V1.New)
  | Unified => Some (inr V2.New)
  | Unavailable => None
  end.

(** An interface value dispatches on what it holds. *)
Definition dispatch {A} (op1 op2 : fs -> string -> A) (c : manager) : fs -> string -> A :=
  match c with inl _ => op1 | inr _ => op2 end.
#[global] Instance cgroup_manager : Cgroup manager := {|
  Name c := match c with inl c => V1.name c | inr c => V2.name c end;
  Pids := dispatch V1.Tasks V2.Tasks; cpuUsage := dispatch V1.CpuUsage V2.CpuUsage;
  CpuStatRaw := dispatch V1.CpuStatRaw V2.CpuStatRaw;
  CpuQuotaAndPeriod := dispatch V1.CpuQuotaAndPeriod V2.CpuQuotaAndPeriod;
  MemoryStatRaw := dispatch V1.MemoryStatRaw V2.MemoryStatRaw;
  MemoryEventRaw := dispatch V1.MemoryEventRaw V2.MemoryEventRaw;
  memoryUsage := dispatch V1.MemoryUsage V2.MemoryUsage |}.

(** So does the interface value the agent holds. *)
Definition manager_shows (c : manager) : fs -> string -> group -> Prop :=
  match c with inl _ => shows_v1 | inr _ => shows_v2 end.
Definition manager_grain (c : manager) : Z := match c with inl _ => 10000 | inr _ => 1 end.
#[global] Program Instance reads_manager : CgroupReads manager :=
  {| shows := manager_shows; grain := manager_grain |}.
Next Obligation. by intros []. Qed.
Next Obligation. intros [c|c]; [exact (reads_quota (C := V1.CgroupV1) c) | exact (reads_quota (C := V2.CgroupV2) c)]. Qed.
Next Obligation. intros [c|c]; [exact (reads_usage (C := V1.CgroupV1) c) | exact (reads_usage (C := V2.CgroupV2) c)]. Qed.
Next Obligation. intros [c|c]; [exact (reads_memory (C := V1.CgroupV1) c) | exact (reads_memory (C := V2.CgroupV2) c)]. Qed.
Next Obligation. intros [c|c]; [exact (reads_stat (C := V1.CgroupV1) c) | exact (reads_stat (C := V2.CgroupV2) c)]. Qed.
Next Obligation. intros [c|c]; [exact (reads_pids (C := V1.CgroupV1) c) | exact (reads_pids (C := V2.CgroupV2) c)]. Qed.

(** ** Theorems *)

(** Without a memory limit v1 answers the kernel's largest limit, and v2 fails
    on the word max. *)
Lemma memory_unlimited_v1 f p g : group_ok g -> shows_v1 f p g -> g_limit g = None ->
  V1.MemoryUsage f p = Ok (mk_memory (g_memory g) unlimited).
Proof.
  intros (_ & _ & _ & _ & _ & Hm & _) H1 Hl. unfold V1.MemoryUsage.
  rewrite (ReadUint_printed _ _ _ (v1_memory _ _ _ H1)) by done. cbn [mbind result_bind].
  pose proof (v1_limit _ _ _ H1) as E. rewrite Hl in E. cbn [from_option id] in E.
  by rewrite (ReadUint_printed _ _ _ E) by (unfold is_u, unlimited; lia).
Qed.

Lemma memory_unlimited_v2 f p g : group_ok g -> shows_v2 f p g -> g_limit g = None -> V2.MemoryUsage f p = Err ErrNumber.
Proof.
  intros (_ & _ & _ & _ & _ & Hm & _) H2 Hl. unfold V2.MemoryUsage.
  rewrite (ReadUint_printed _ _ _ (v2_memory _ _ _ H2)) by done. cbn [mbind result_bind].
  unfold ReadUint. rewrite (v2_limit _ _ _ H2), Hl. reflexivity.
Qed.


(** A group of two cores with some usage, and the files of both hierarchies. *)
Definition group0 : group :=
  mk_group (Some 200000) 100000 1234567890 987654321 2222222222 4096000 (Some 8192000) [1; 4242]
    [("nr_throttled"%string, 3); ("throttled_time"%string, 250)].

Definition files (l : list (list string * string)) : fs :=
  fun path => match (list_to_map l : gmap (list string) string) !! path with
              | Some s => Content s | None => NoFile end.

Definition files_v1 (path : string) (g : group) : fs := files
  [(Path ["cpu"; path; "cpu.cfs_quota_us"], print_value (Text.FormatInt (default (-1) (g_quota g))));
   (Path ["cpu"; path; "cpu.cfs_period_us"], print_value (Text.FormatUint 10 (g_period g)));
   (Path ["cpu"; path; "cpuacct.stat"],
     print_kvs [("user"%string, g_user g / 10000000); ("system"%string, g_system g / 10000000)]);
   (Path ["cpu"; path; "cpuacct.usage"], print_value (Text.FormatUint 10 (g_total g)));
   (Path ["cpu"; path; "cpu.stat"], print_kvs (g_stat g));
   (Path ["memory"; path; "memory.usage_in_bytes"], print_value (Text.FormatUint 10 (g_memory g)));
   (Path ["memory"; path; "memory.limit_in_bytes"],
     print_value (Text.FormatUint 10 (default unlimited (g_limit g))));
   (filepath_Join (Path ["cpu"; path]) "tasks", print_tasks (g_pids g))].

Definition files_v2 (path : string) (g : group) : fs := files
  [(Path [path; "cpu.max"], print_lines [print_max (g_quota g) +:+ String " " (Text.FormatUint 10 (g_period g))]);
   (Path [path; "cpu.stat"],
     print_kvs (("usage_usec"%string, g_total g / 1000) :: ("user_usec"%string, g_user g / 1000) ::
      ("system_usec"%string, g_system g / 1000) :: g_stat g));
   (Path [path; "memory.current"], print_value (Text.FormatUint 10 (g_memory g)));
   (Path [path; "memory.max"], print_value (print_max (g_limit g)));
   (filepath_Join (Path [path]) "cgroup.threads", print_tasks (g_pids g))].

Lemma group0_ok : group_ok group0.
Proof.
  unfold group_ok, group0, is_u. cbn [g_quota g_period g_user g_system g_total g_memory g_limit g_pids g_stat].
  split; [intros ? [= <-]; lia|]. do 5 (split; [lia|]). split; [intros ? [= <-]; lia|]. split; [|split].
  - repeat (constructor; [lia|]). constructor.
  - repeat (constructor; [apply kv_ok_small; [by apply (bool_decide_unpack _) | cbn; lia | unfold is_u; lia]|]). constructor.
  - by apply (bool_decide_unpack _).
Qed.

Lemma shows_v1_group0 : shows_v1 (files_v1 "/pod/c1" group0) "/pod/c1" group0.
Proof. constructor; vm_compute; reflexivity. Qed.
Lemma shows_v2_group0 : shows_v2 (files_v2 "/pod/c1" group0) "/pod/c1" group0.
Proof. constructor; vm_compute; reflexivity. Qed.


(** A missing memory.events is no error in v1: the kernels without the file
    have no events to show. *)
Theorem v1_events_missing f path : f (Path ["memory"; path; "memory.events"]) = NoFile ->
  V1.MemoryEventRaw f path = Ok ∅.
Proof. intros E. unfold V1.MemoryEventRaw, RawKV. by rewrite E. Qed.
