(* ===== verification/CgroupPath.v ===== *)
(** * internal/pod/container_cgroup_path.go: the cgroup of a container

    The path of a container's cgroup below the root of a hierarchy, for the two
    cgroup drivers of the kubelet, from the pod's quality of service and UID. *)
From S2P Require Import Prelude Text Parseutil.
From stdpp Require Import base list strings.
From Stdlib Require Import ZArith Lia Ascii.

Open Scope Z_scope.

Module CgroupPath.

Definition defaultSystemdSuffix : string := ".slice".
Definition defaultNodeCgroupName : string := "kubepods".

(** ** strings *)

Fixpoint map_chars (f : ascii -> ascii) (s : string) : string :=
  match s with EmptyString => EmptyString | String c rest => String (f c) (map_chars f rest) end.
(** strings.ToLower, of ASCII. *)
Definition ToLower (s : string) : string :=
  map_chars (fun c => let n := nat_of_ascii c in
    if Nat.leb 65 n && Nat.leb n 90 then ascii_of_nat (n + 32) else c) s.
(** strings.TrimSuffix *)
Fixpoint TrimSuffix (s suffix : string) : string :=
  if bool_decide (s = suffix) then EmptyString
  else match s with EmptyString => EmptyString | String c rest => String c (TrimSuffix rest suffix) end.
(** strings.Join with a dash *)
Fixpoint Join (l : list string) : string :=
  match l with [] => EmptyString | [s] => s | s :: l' => s +:+ String "-" (Join l') end.

(** path.Join of relative elements: the cleaned elements, innermost first in
    [stack]. *)
Fixpoint clean_relative (stack elems : list string) : list string :=
  match elems with
  | [] => rev stack
  | e :: elems' =>
      if bool_decide (e = ".")%string then clean_relative stack elems'
      else if bool_decide (e = "..")%string then
        match stack with
        | s :: stack' => if bool_decide (s = "..")%string then clean_relative (e :: stack) elems' else clean_relative stack' elems'
        | [] => clean_relative [e] elems'
        end
      else clean_relative (e :: stack) elems'
  end.
Fixpoint slashes (l : list string) : string :=
  match l with [] => "." | [s] => s | s :: l' => s +:+ String "/" (slashes l') end.

(** ** Paths *)

Definition escapeSystemd (part : string) : string :=
  map_chars (fun c => if (c =? "-")%char then "_"%char else c) part.

(** The loop of expandSytemdSlice. *)
Fixpoint expand (prefix : string) (components : list string) : string :=
  match components with
  | [] => EmptyString
  | component :: rest =>
      ("/" +:+ prefix +:+ component +:+ defaultSystemdSuffix) +:+ expand (prefix +:+ component +:+ "-") rest
  end.
Definition expandSytemdSlice (slice : string) : string :=
  expand EmptyString (Text.Split "-" (TrimSuffix slice defaultSystemdSuffix)).

Definition ToSystemd (paths : list string) : string :=
  expandSytemdSlice (Join (escapeSystemd <$> paths) +:+ defaultSystemdSuffix).
Definition ToCgroupfs (paths : list string) : string :=
  "/" +:+ slashes (clean_relative [] (concat (split_path <$> paths))).

(** The quality of service and the UID of the pod, and the kubelet's driver. *)
Definition containerCgroupPath (driver qos uid containerID : string) : list string :=
  [defaultNodeCgroupName] ++
  (if bool_decide (qos = "Guaranteed")%string then [] else [ToLower qos]) ++
  ["pod" +:+ uid] ++
  (if bool_decide (driver = "systemd")%string then [] else [containerID]).

Definition containerCgroupSuffix (driver qos uid containerID : string) : string :=
  let name := containerCgroupPath driver qos uid containerID in
  if bool_decide (driver = "systemd")%string then ToSystemd name else ToCgroupfs name.

(** ** Lemmas *)

Definition no_char (c : ascii) (s : string) : bool := Text.all_chars (fun d => negb (d =? c)%char) s.

Lemma escape_no_dash s : no_char "-" (escapeSystemd s) = true.
Proof.
  unfold no_char, escapeSystemd. induction s as [|c s IH]; [done|]. cbn. rewrite IH, andb_true_r.
  by destruct (Ascii.eqb_spec c "-") as [->|Hne]; [|apply Ascii.eqb_neq in Hne; rewrite Hne].
Qed.

Lemma Split_no_sep c s : no_char c s = true -> Text.Split c s = [s].
Proof.
  unfold no_char. induction s as [|d s IH]; [done|]. cbn. intros [Hd Hs]%andb_true_iff. apply negb_true_iff in Hd.
  by rewrite Hd, IH.
Qed.

Lemma Split_sep c s t : no_char c s = true -> Text.Split c (s +:+ String c t) = s :: Text.Split c t.
Proof.
  unfold no_char. induction s as [|d s IH]; intros Hs.
  - change (EmptyString +:+ String c t) with (String c t). cbn [Text.Split]. by rewrite Ascii.eqb_refl.
  - cbn in Hs. apply andb_true_iff in Hs as [Hd Hs]. apply negb_true_iff in Hd.
    rewrite Text.append_cons. cbn [Text.Split]. by rewrite Hd, IH.
Qed.

(** Splitting at the dashes inverts joining parts without one. *)
Lemma Split_Join_dash l : l <> [] -> Forall (fun s => no_char "-" s = true) l -> Text.Split "-" (Join l) = l.
Proof.
  intros Hne Hf. induction Hf as [|s l Hs Hf IH]; [done|]. destruct l as [|s' l]; [by apply Split_no_sep|].
  change (Join (s :: s' :: l)) with (s +:+ String "-" (Join (s' :: l))). by rewrite Split_sep, IH.
Qed.

Lemma length_neq s t : String.length s <> String.length t -> s <> t.
Proof. congruence. Qed.

Lemma TrimSuffix_app s suffix : TrimSuffix (s +:+ suffix) suffix = s.
Proof.
  induction s as [|c s IH].
  - change (EmptyString +:+ suffix) with suffix. destruct suffix; cbn [TrimSuffix]; by rewrite bool_decide_true.
  - rewrite Text.append_cons. cbn [TrimSuffix]. rewrite bool_decide_false; [by rewrite IH|].
    apply length_neq. cbn [String.length]. rewrite Text.length_append. lia.
Qed.

(** ** Theorems *)

(** The systemd path of a cgroup is one slice below the other, each named by
    the parts up to it: the escaping of the parts makes the split at the dashes
    give the parts back. *)
Theorem ToSystemd_nested paths : paths <> [] -> ToSystemd paths = expand EmptyString (escapeSystemd <$> paths).
Proof.
  intros Hne. unfold ToSystemd, expandSytemdSlice. rewrite TrimSuffix_app, Split_Join_dash; [done | by destruct paths |].
  apply Forall_fmap, Forall_true. intros s. apply escape_no_dash.
Qed.

(** The example of the source. *)
Example ToSystemd_example : ToSystemd ["kubepods"; "burstable"; "pod1234-abcd-5678-efgh"] =
  "/kubepods.slice/kubepods-burstable.slice/kubepods-burstable-pod1234_abcd_5678_efgh.slice"%string.
Proof. vm_compute. reflexivity. Qed.

(** With the systemd driver the containers of a pod share one path, the pod's
    slice, which does not name the container. *)
Theorem systemd_containers_share qos uid id1 id2 :
  containerCgroupSuffix "systemd" qos uid id1 = containerCgroupSuffix "systemd" qos uid id2.
Proof. reflexivity. Qed.

End CgroupPath.
