(* ===== verification/Usym.v ===== *)
(** * internal/symbol/usymbols.go: symbols of user addresses

    [ResolveUstack] names the function of a user address: it loads, once per
    process, the sections and function symbols of the executable and the
    mappings of /proc/pid/maps, and, once per path, the function symbols of a
    mapped library; then it searches the section of the address and the symbol
    in it with sort.Search.

    What elf.Open finds in a file and what the links of /proc hold are inputs;
    a Go panic is a value. *)
From S2P Require Import Prelude Text Parseutil.
From stdpp Require Import base gmap list strings sorting.
From Equations Require Import Equations.
From Stdlib Require Import ZArith Lia Ascii.

Open Scope Z_scope.

Module Usym.

(** ** Data *)

Inductive section_type := elftype | libtype.
#[global] Instance section_type_eq_dec : EqDecision section_type.
Proof. solve_decision. Defined.

Record symbol := mk_symbol { sym_name : string; sym_start : Z; size : Z }.
Record section := mk_section { name : string; start : Z; end_ : Z; sectiontype : section_type }.
Definition no_section : section := mk_section EmptyString 0 0 elftype.

Record elfcache := mk_elfcache { sections : list section; symcaches : list symbol }.

(** Paths are cleaned, as their elements. *)
Record Usym := mk_usym
  { elfcaches : gmap Z elfcache; libcaches : gmap (list string) (list symbol) }.
Definition NewUsym : Usym := mk_usym ∅ ∅.

(** What debug/elf reads: an entry of a symbol table with its type, and a file,
    whose tables may be missing. *)
Record elf_symbol := mk_elf_symbol { s_name : string; s_info : Z; s_value : Z; s_size : Z }.
Record elf_section := mk_elf_section { x_name : string; x_addr : Z; x_size : Z }.
Record elf_file := mk_elf_file
  { Sections : list elf_section; DynamicSymbols : option (list elf_symbol); Symbols : option (list elf_symbol) }.

Definition STT_FUNC : Z := 2.
Definition ST_TYPE (info : Z) : Z := Z.land info 15.

(** The system as the resolver finds it. *)
Record world := mk_world
  { readlink : list string -> option string; elf_open : list string -> option elf_file; proc_files : fs }.

(** ** Reading *)

Definition functions (l : list elf_symbol) : list symbol :=
  (fun s => mk_symbol (s_name s) (s_value s) (s_size s)) <$> filter (fun s => ST_TYPE (s_info s) = STT_FUNC) l.

Definition getElfSymbols (f : elf_file) : list symbol :=
  functions (default [] (DynamicSymbols f)) ++ functions (default [] (Symbols f)).

Definition backedArr : list string :=
  ["anon_inode:[perf_event]"; "[stack]"; "[vvar]"; "[vdso]"; "[vsyscall]"; "[heap]"; "//anon";
   "/dev/zero"; "/anon_hugepage"; "/SYSV"].
Definition isInBacked (str : string) : bool := existsb (String.eqb str) backedArr.

(** /proc/pid and a file in it. *)
Definition proc (pid : Z) (file : string) : list string := ["proc"%string; Text.FormatUint 10 pid; file].
(** A path below /proc/pid/root. *)
Definition in_root (pid : Z) (path : string) : list string := clean (rev (proc pid "root")) (split_path path).

Definition getExePath (w : world) (pid : Z) : option (list string) :=
  in_root pid <$> readlink w (proc pid "exe").

(** A line of /proc/pid/maps: no section, one, or the panic of a range without
    a dash. *)
Inductive parsed := Skip | Mapping (s : section) | BadRange.
Definition parse_map (line : string) : parsed :=
  match Text.Fields line with
  | f0 :: _ :: _ :: _ :: _ :: path :: _ =>
      match Text.Split "-" f0 with
      | start :: end_ :: _ =>
          if isInBacked path then Skip
          else Mapping (mk_section path (Text.parse_value 16 start 0) (Text.parse_value 16 end_ 0) libtype)
      | _ => BadRange
      end
  | _ => Skip
  end.
Fixpoint load_maps (lines : list string) (acc : list section) : option (list section) :=
  match lines with
  | [] => Some acc
  | l :: lines' =>
      match parse_map l with
      | Skip => load_maps lines' acc
      | Mapping s => load_maps lines' (acc ++ [s])
      | BadRange => None
      end
  end.

Definition elf_sections (f : elf_file) : list section :=
  (fun s => mk_section (x_name s) (x_addr s) (u64 (x_addr s + x_size s)) elftype) <$> Sections f.

(** ** sort.Search *)

(** The middle of the bracket. *)
Definition mid (i j : nat) : nat := ((i + j) / 2)%nat.
Arguments mid : simpl never.

Lemma usym_mid_bounds i j : (i < j)%nat -> (i <= mid i j < j)%nat.
Proof.
  intros H. unfold mid. pose proof (Nat.div_mod_eq (i + j) 2). pose proof (Nat.mod_upper_bound (i + j) 2 ltac:(lia)). lia.
Qed.

(** The loop: [i] and [j] bracket the smallest index with the predicate. *)
Equations? search (p : nat -> bool) (i j : nat) : nat by wf (j - i)%nat lt :=
  search p i j with decide (i < j)%nat => {
    | right _ => i
    | left Hij with p (mid i j) => {
        | true => search p i (mid i j)
        | false => search p (S (mid i j)) j } }.
Proof.
  all: pose proof (usym_mid_bounds i j Hij); lia.
Qed.
Definition Search (n : nat) (p : nat -> bool) : nat := search p 0 n.

(** ** Resolving *)

Section Sort.
(** sort.Slice by start, which does not promise the order of equal keys. *)
Context (sort : forall A, (A -> Z) -> list A -> list A).

Inductive result := Done (u : Usym) (sym : string) | Panic.

(** The cache of a process; [inr true] is an error, [inr false] the panic. *)
Definition read_elf (w : world) (pid : Z) : elfcache + bool :=
  match getExePath w pid ≫= elf_open w with
  | None => inr true
  | Some f =>
      match proc_files w (proc pid "maps") with
      | Content text =>
          match load_maps (Text.Scan text).1 (elf_sections f) with
          | None => inr false
          | Some secs => inl (mk_elfcache (sort _ start secs) (sort _ sym_start (getElfSymbols f)))
          end
      | _ => inr true
      end
  end.

Definition loadElfCaches (w : world) (pid : Z) (u : Usym) : Usym + bool :=
  match elfcaches u !! pid with
  | Some _ => inl u
  | None =>
      match read_elf w pid with
      | inr b => inr b
      | inl elf => inl (mk_usym (<[pid := elf]> (elfcaches u)) (libcaches u))
      end
  end.

Definition read_lib (w : world) (libPath : list string) : option (list symbol) :=
  sort _ sym_start ∘ getElfSymbols <$> elf_open w libPath.

Definition loadLibCache (w : world) (libPath : list string) (u : Usym) : option Usym :=
  match libcaches u !! libPath with
  | Some _ => Some u
  | None =>
      syms ← read_lib w libPath;
      Some (mk_usym (elfcaches u) (<[libPath := syms]> (libcaches u)))
  end.

(** The element before the first one that starts after the address; [None]
    where every element starts at most at the address, or none does. The slice
    is read at the index and, for the log, after it: [OutOfRange] would be the
    panic of that read. *)
Inductive found (A : Type) := NotFound | Before (x : A) | OutOfRange.
Arguments NotFound {A}. Arguments Before {A} x. Arguments OutOfRange {A}.
Definition search_before {A} (key : A -> Z) (addr : Z) (l : list A) : found A :=
  let index := Search (length l) (fun i => match l !! i with Some x => addr <? key x | None => false end) in
  if Nat.eqb index (length l) then NotFound
  else match index with
       | O => NotFound
       | S index => match l !! index, l !! S index with Some x, Some _ => Before x | _, _ => OutOfRange end
       end.

Definition searchSection (u : Usym) (pid addr : Z) : option section :=
  match elfcaches u !! pid with
  | None => Some no_section
  | Some e =>
      match search_before start addr (sections e) with
      | NotFound => Some no_section
      | Before s =>
          if negb (String.eqb (name s) EmptyString) && (addr <=? end_ s) && (start s <=? addr)
          then Some s else Some no_section
      | OutOfRange => None
      end
  end.

Definition unknown : string := "<unknown>".
Definition searchSym (addr : Z) (symbols : list symbol) : option string :=
  match search_before sym_start addr symbols with
  | NotFound => Some EmptyString
  | Before s =>
      if negb (String.eqb (sym_name s) EmptyString) && (sym_start s <=? addr) && (addr <? u64 (sym_start s + size s))
      then Some (sym_name s) else Some unknown
  | OutOfRange => None
  end.

Definition finish (u : Usym) (o : option string) : result :=
  match o with Some s => Done u s | None => Panic end.

Definition ResolveUstack (w : world) (u : Usym) (addr pid : Z) : result :=
  match loadElfCaches w pid u with
  | inr true => Done u EmptyString
  | inr false => Panic
  | inl u =>
      match searchSection u pid addr with
      | None => Panic
      | Some sec =>
          if bool_decide (name sec = EmptyString) then Done u EmptyString
          else if bool_decide (sectiontype sec = elftype) then
            match elfcaches u !! pid with
            | None => Done u EmptyString
            | Some e => finish u (searchSym addr (symcaches e))
            end
          else
            let libpath := in_root pid (name sec) in
            let addr := u64 (addr - start sec) in
            match loadLibCache w libpath u with
            | None => Done u EmptyString
            | Some u =>
                match libcaches u !! libpath with
                | None => Done u EmptyString
                | Some syms => finish u (searchSym addr syms)
                end
            end
      end
  end.

(** The resolver over a list of addresses of processes, until a panic. *)
Fixpoint resolve_all (w : world) (u : Usym) (calls : list (Z * Z)) : list string :=
  match calls with
  | [] => []
  | (addr, pid) :: calls' =>
      match ResolveUstack w u addr pid with
      | Panic => []
      | Done u s => s :: resolve_all w u calls'
      end
  end.

End Sort.

#[global] Arguments NotFound {A}.
#[global] Arguments Before {A} x.
#[global] Arguments OutOfRange {A}.

(** ** Lemmas: sort.Search *)

Lemma search_range p i j : (i <= j)%nat -> (i <= search p i j <= j)%nat.
Proof.
  funelim (search p i j); intros Hle; [lia | |]; pose proof (usym_mid_bounds i j Hij); lia.
Qed.

(** Of a predicate that stays true once it is, the loop finds the first index
    with it, or the end. *)
Lemma search_spec p i j : (i <= j)%nat ->
  (forall a b, (i <= a <= b)%nat -> (b < j)%nat -> p a = true -> p b = true) ->
  (forall k, (i <= k < search p i j)%nat -> p k = false) /\
  ((search p i j < j)%nat -> p (search p i j) = true).
Proof.
  funelim (search p i j); intros Hle Hmono; [split; [intros; lia | lia]|..];
    pose proof (usym_mid_bounds i j Hij) as Hh.
  - destruct H as [Hf Ht]; [lia | intros a b ? ?; apply Hmono; lia|]. split; [done|]. intros _.
    pose proof (search_range p i (mid i j) ltac:(lia)).
    destruct (decide (search p i (mid i j) < mid i j)%nat) as [|]; [by apply Ht|].
    by replace (search p i (mid i j)) with (mid i j) by lia.
  - destruct H as [Hf Ht]; [lia | intros a b ? ?; apply Hmono; lia|]. split; [|done].
    intros k Hk. destruct (decide (mid i j < k)%nat); [apply Hf; lia|].
    destruct (p k) eqn:E; [|done]. rewrite (Hmono k (mid i j)) in Heq by (lia || done). done.
Qed.

(** *** A sorted slice *)

Lemma filter_all {A} (P : A -> Prop) `{!forall x, Decision (P x)} l : Forall P l -> filter P l = l.
Proof. induction 1 as [|x l Hx _ IH]; [done|]. by rewrite filter_cons_True, IH. Qed.
Lemma filter_none {A} (P : A -> Prop) `{!forall x, Decision (P x)} l : Forall (fun x => ~ P x) l -> filter P l = [].
Proof. induction 1 as [|x l Hx _ IH]; [done|]. by rewrite filter_cons_False. Qed.

(** Sorted by a key. *)
Abbreviation by_key key := (fun x y => key x <= key y).

(** The reference: the last of the elements that start at most at the address,
    unless they are all of them. *)
Definition ref_before {A} (key : A -> Z) (addr : Z) (l : list A) : option A :=
  let le := filter (fun x => key x <= addr) l in
  if Nat.eqb (length le) (length l) then None else last le.

Lemma sorted_lookup {A} (key : A -> Z) l : StronglySorted (by_key key) l -> forall a b x y,
  (a <= b)%nat -> l !! a = Some x -> l !! b = Some y -> key x <= key y.
Proof.
  induction 1 as [|z l Hs IH Hz]; intros a b x y Hab Ha Hb; [done|]. destruct a as [|a], b as [|b]; cbn in Ha, Hb.
  - injection Ha as <-. injection Hb as <-. lia.
  - injection Ha as <-. rewrite Forall_forall in Hz. apply Hz. by eapply list_elem_of_lookup_2.
  - lia.
  - apply (IH a b); [lia | done | done].
Qed.

(** The search index splits a sorted slice at the address. *)
Lemma Search_filter {A} (key : A -> Z) addr l : StronglySorted (by_key key) l ->
  let index := Search (length l) (fun i => match l !! i with Some x => addr <? key x | None => false end) in
  filter (fun x => key x <= addr) l = take index l /\ (index <= length l)%nat.
Proof.
  intros Hs index. set (p := fun i => match l !! i with Some x => addr <? key x | None => false end) in *.
  pose proof (search_range p 0 (length l) ltac:(lia)) as Hr. fold (Search (length l) p) in Hr. fold index in Hr.
  destruct (search_spec p 0 (length l) ltac:(lia)) as [Hf Ht].
  { intros a b Hab Hb. unfold p. destruct (l !! a) as [x|] eqn:Ea; [|done].
    destruct (lookup_lt_is_Some_2 l b Hb) as [y Ey]. rewrite Ey.
    pose proof (sorted_lookup key l Hs a b x y ltac:(lia) Ea Ey). lia. }
  fold (Search (length l) p) in Hf, Ht. fold index in Hf, Ht. split; [|lia].
  rewrite <- (take_drop index l) at 1. rewrite filter_app, filter_all, filter_none, app_nil_r; [done |..].
  - apply Forall_lookup. intros k y Hk. rewrite lookup_drop in Hk.
    assert (index + k < length l)%nat as Hlt by (by eapply lookup_lt_Some).
    destruct (lookup_lt_is_Some_2 l index ltac:(lia)) as [x Ex]. specialize (Ht ltac:(lia)). unfold p in Ht. rewrite Ex in Ht.
    pose proof (sorted_lookup key l Hs index (index + k) x y ltac:(lia) Ex Hk). lia.
  - apply Forall_lookup. intros k x Hk. apply lookup_take_Some in Hk as [Hk Hlt].
    specialize (Hf k ltac:(lia)). unfold p in Hf. rewrite Hk in Hf. lia.
Qed.

Lemma search_before_ref {A} (key : A -> Z) addr l : StronglySorted (by_key key) l ->
  search_before key addr l = match ref_before key addr l with Some x => Before x | None => NotFound end.
Proof.
  intros Hs. destruct (Search_filter key addr l Hs) as [Hf Hr]. unfold search_before, ref_before. rewrite Hf.
  set (index := Search _ _) in *. clearbody index. rewrite length_take, Nat.min_l by done.
  destruct (Nat.eqb_spec index (length l)); [done|]. destruct index as [|index]; [done|].
  destruct (lookup_lt_is_Some_2 l index ltac:(lia)) as [x Ex].
  destruct (lookup_lt_is_Some_2 l (S index) ltac:(lia)) as [y Ey]. rewrite Ex, Ey.
  by rewrite (take_S_r l index x Ex), last_snoc.
Qed.

(** Reads stay in range on any slice, sorted or not. *)
Lemma search_before_in_range {A} (key : A -> Z) addr l : search_before key addr l <> OutOfRange.
Proof.
  unfold search_before. set (p := fun i => _). pose proof (search_range p 0 (length l) ltac:(lia)) as Hr.
  unfold Search. set (index := search p 0 (length l)) in *. clearbody index.
  destruct (Nat.eqb_spec index (length l)); [done|]. destruct index as [|index]; [done|].
  destruct (lookup_lt_is_Some_2 l index ltac:(lia)) as [x Ex].
  destruct (lookup_lt_is_Some_2 l (S index) ltac:(lia)) as [y Ey]. by rewrite Ex, Ey.
Qed.

(** ** The reference resolver *)

(** No cache and no binary search: the files are read for every address, and
    the sections and symbols are scanned. *)
Definition ref_section (e : elfcache) (addr : Z) : section :=
  match ref_before start addr (sections e) with
  | Some s => if negb (String.eqb (name s) EmptyString) && (addr <=? end_ s) then s else no_section
  | None => no_section
  end.

Definition ref_sym (addr : Z) (symbols : list symbol) : string :=
  match ref_before sym_start addr symbols with
  | Some s =>
      if negb (String.eqb (sym_name s) EmptyString) && (addr <? u64 (sym_start s + size s)) then sym_name s else unknown
  | None => EmptyString
  end.

Section Reference.
Context (sort : forall A, (A -> Z) -> list A -> list A).

(** [None] is the panic. *)
Definition ref_resolve (w : world) (addr pid : Z) : option string :=
  match read_elf sort w pid with
  | inr true => Some EmptyString
  | inr false => None
  | inl e =>
      let sec := ref_section e addr in
      if bool_decide (name sec = EmptyString) then Some EmptyString
      else if bool_decide (sectiontype sec = elftype) then Some (ref_sym addr (symcaches e))
      else match read_lib sort w (in_root pid (name sec)) with
           | None => Some EmptyString
           | Some syms => Some (ref_sym (u64 (addr - start sec)) syms)
           end
  end.

Fixpoint ref_all (w : world) (calls : list (Z * Z)) : list string :=
  match calls with
  | [] => []
  | (addr, pid) :: calls' =>
      match ref_resolve w addr pid with None => [] | Some s => s :: ref_all w calls' end
  end.

Hypothesis sort_sorted : forall A (key : A -> Z) l, StronglySorted (by_key key) (sort A key l).

(** What the caches hold is what reading the files gives. *)
Definition cached (w : world) (u : Usym) : Prop :=
  (forall pid e, elfcaches u !! pid = Some e -> read_elf sort w pid = inl e) /\
  (forall path syms, libcaches u !! path = Some syms -> read_lib sort w path = Some syms).

Lemma read_elf_sorted w pid e : read_elf sort w pid = inl e ->
  StronglySorted (by_key start) (sections e) /\ StronglySorted (by_key sym_start) (symcaches e).
Proof.
  unfold read_elf. destruct (getExePath w pid ≫= elf_open w) as [f|]; [|done].
  destruct (proc_files w _); [done.. |]. destruct (load_maps _ _); [|done].
  intros [= <-]. split; apply sort_sorted.
Qed.

Lemma read_lib_sorted w path syms : read_lib sort w path = Some syms -> StronglySorted (by_key sym_start) syms.
Proof. unfold read_lib. intros [f [_ ->]]%fmap_Some. apply sort_sorted. Qed.

Lemma loadElfCaches_cached w pid u : cached w u ->
  match loadElfCaches sort w pid u with
  | inl u' => exists e, read_elf sort w pid = inl e /\ elfcaches u' !! pid = Some e /\ cached w u'
  | inr b => read_elf sort w pid = inr b
  end.
Proof.
  intros [He Hl]. unfold loadElfCaches. destruct (elfcaches u !! pid) as [e|] eqn:E.
  { exists e. split; [by apply He|]. done. }
  destruct (read_elf sort w pid) as [e|b] eqn:Er; [|done].
  exists e. split; [done|]. split; [apply lookup_insert_eq|]. split; [|done].
  intros pid' e'. cbn. rewrite lookup_insert_Some. intros [[<- <-]|[_ H]]; [done | by apply He].
Qed.

Lemma loadLibCache_cached w path u : cached w u ->
  match loadLibCache sort w path u with
  | Some u' => exists syms, read_lib sort w path = Some syms /\ libcaches u' !! path = Some syms /\ cached w u'
  | None => read_lib sort w path = None
  end.
Proof.
  intros [He Hl]. unfold loadLibCache. destruct (libcaches u !! path) as [syms|] eqn:E.
  { exists syms. split; [by apply Hl|]. done. }
  destruct (read_lib sort w path) as [syms|] eqn:Er; [|done]. cbn [mbind option_bind].
  exists syms. split; [done|]. split; [apply lookup_insert_eq|]. split; [done|].
  intros path' syms'. cbn. rewrite lookup_insert_Some. intros [[<- <-]|[_ H]]; [done | by apply Hl].
Qed.

Lemma ref_before_le {A} (key : A -> Z) addr l x : ref_before key addr l = Some x -> x ∈ l /\ key x <= addr.
Proof.
  unfold ref_before. destruct (Nat.eqb _ _); [done|]. intros H.
  apply last_Some_elem_of in H. apply list_elem_of_filter in H as [??]. done.
Qed.

Lemma searchSection_ref u pid addr e : elfcaches u !! pid = Some e -> StronglySorted (by_key start) (sections e) ->
  searchSection u pid addr = Some (ref_section e addr).
Proof.
  intros E Hs. unfold searchSection, ref_section. rewrite E, search_before_ref by done.
  destruct (ref_before start addr (sections e)) as [s|] eqn:Er; [|done].
  apply ref_before_le in Er as [_ Hle]. rewrite (proj2 (Z.leb_le _ _) Hle), andb_true_r. by destruct (_ && _).
Qed.

Lemma searchSym_ref addr syms : StronglySorted (by_key sym_start) syms -> searchSym addr syms = Some (ref_sym addr syms).
Proof.
  intros Hs. unfold searchSym, ref_sym. rewrite search_before_ref by done.
  destruct (ref_before sym_start addr syms) as [s|] eqn:Er; [|done].
  apply ref_before_le in Er as [_ Hle]. rewrite (proj2 (Z.leb_le _ _) Hle), andb_true_r. by destruct (_ && _).
Qed.

(** One call, from any caches of these files. *)
Lemma ResolveUstack_ref w u addr pid : cached w u ->
  match ResolveUstack sort w u addr pid with
  | Done u' s => ref_resolve w addr pid = Some s /\ cached w u'
  | Panic => ref_resolve w addr pid = None
  end.
Proof.
  intros Hc. unfold ResolveUstack, ref_resolve. pose proof (loadElfCaches_cached w pid u Hc) as He.
  destruct (loadElfCaches sort w pid u) as [u1|[|]]; [|by rewrite He..].
  destruct He as (e & Er & Eu & Hc1). rewrite Er. destruct (read_elf_sorted w pid e Er) as [Hs1 Hs2].
  rewrite (searchSection_ref u1 pid addr e Eu Hs1). cbv zeta.
  destruct (bool_decide (name _ = EmptyString)); [done|].
  destruct (bool_decide (sectiontype _ = elftype)); [rewrite Eu, searchSym_ref; done|].
  pose proof (loadLibCache_cached w (in_root pid (name (ref_section e addr))) u1 Hc1) as Hl.
  destruct (loadLibCache sort w _ u1) as [u2|]; [|by rewrite Hl].
  destruct Hl as (syms & El & Eu2 & Hc2). rewrite El, Eu2, searchSym_ref by (by eapply read_lib_sorted). done.
Qed.

(** ** Theorems *)

(** C10: the resolver is its reference: over any list of addresses of processes,
    while the files stay as they are, the caches and the binary searches give
    the names that reading the files for every address and scanning the
    sections and symbols give. *)
Theorem usym_equivalent w calls : resolve_all sort w NewUsym calls = ref_all w calls.
Proof.
  assert (forall u, cached w u -> resolve_all sort w u calls = ref_all w calls) as H.
  { induction calls as [|[addr pid] calls IH]; intros u Hu; [done|]. cbn [resolve_all ref_all].
    pose proof (ResolveUstack_ref w u addr pid Hu) as Hr. destruct (ResolveUstack sort w u addr pid) as [u' s|].
    - destruct Hr as [-> Hc]. by rewrite IH.
    - by rewrite Hr. }
  apply H. split; intros ? ? H0; cbn in H0; by rewrite lookup_empty in H0.
Qed.

End Reference.

(** A name is the name of a symbol that contains the address. *)
Theorem usym_sound addr syms s : StronglySorted (by_key sym_start) syms ->
  searchSym addr syms = Some s -> s <> EmptyString -> s <> unknown ->
  exists y, y ∈ syms /\ sym_name y = s /\ sym_start y <= addr < u64 (sym_start y + size y).
Proof.
  intros Hs. rewrite searchSym_ref by done. unfold ref_sym. intros [= <-].
  destruct (ref_before sym_start addr syms) as [y|] eqn:E; [|done]. apply ref_before_le in E as [Hin Hle].
  destruct (String.eqb _ _); cbn [negb andb]; [done|].
  destruct (Z.ltb_spec addr (u64 (sym_start y + size y))); [|done]. intros _ _. by exists y.
Qed.

(** The last function of a file has no name: an address at or above the start
    of every symbol resolves to nothing, even inside the last one. *)
Theorem usym_last_symbol_lost addr syms : StronglySorted (by_key sym_start) syms ->
  Forall (fun y => sym_start y <= addr) syms -> searchSym addr syms = Some EmptyString.
Proof.
  intros Hs Hall. rewrite searchSym_ref by done. unfold ref_sym, ref_before.
  by rewrite filter_all, Nat.eqb_refl.
Qed.

Lemma finish_total u addr syms : finish u (searchSym addr syms) <> Panic.
Proof.
  unfold searchSym. destruct (search_before sym_start addr syms) eqn:E; [done | by destruct (_ && _) |].
  by apply search_before_in_range in E.
Qed.

(** The slices are never read out of range. *)
Lemma ResolveUstack_total sort w u addr pid :
  read_elf sort w pid <> inr false -> ResolveUstack sort w u addr pid <> Panic.
Proof.
  intros Hb. unfold ResolveUstack.
  assert (loadElfCaches sort w pid u <> inr false) as Hl.
  { unfold loadElfCaches. destruct (elfcaches u !! pid); [done|]. by destruct (read_elf sort w pid) as [|[|]]. }
  destruct (loadElfCaches sort w pid u) as [u1|[|]]; [|done..]. unfold searchSection.
  destruct (elfcaches u1 !! pid) as [e|] eqn:Ee; [|done].
  destruct (search_before start addr (sections e)) as [|s|] eqn:Es; [done | | by apply search_before_in_range in Es].
  destruct (_ && _); [|done]. destruct (bool_decide _); [done|].
  destruct (bool_decide _); [apply finish_total|].
  destruct (loadLibCache sort w _ u1) as [u2|]; [|done]. destruct (libcaches u2 !! _); [apply finish_total | done].
Qed.

(** The only panic is that of a range without a dash in /proc/pid/maps. *)
Theorem usym_panics_iff sort w addr pid u : elfcaches u !! pid = None ->
  ResolveUstack sort w u addr pid = Panic <-> read_elf sort w pid = inr false.
Proof.
  intros Hnone. split.
  - intros H. destruct (read_elf sort w pid) as [e|[|]] eqn:E; [..|done];
      by apply ResolveUstack_total in H; rewrite ?E.
  - intros E. unfold ResolveUstack, loadElfCaches. by rewrite Hnone, E.
Qed.

(** ** Example *)

(** A process of a fixed-address executable with two functions, and a library
    with three. *)
Definition by_start (A : Type) (key : A -> Z) : list A -> list A := @merge_sort A (by_key key) (fun x y => decide (key x <= key y)).
Lemma by_start_sorted A (key : A -> Z) l : StronglySorted (by_key key) (by_start A key l).
Proof. apply StronglySorted_merge_sort; intros x y; cbn; lia. Qed.

Definition exe0 : elf_file :=
  mk_elf_file [mk_elf_section ".text" 0x401000 0x1000] None
    (Some [mk_elf_symbol "main" 18 0x401100 0x80; mk_elf_symbol "data" 17 0x404000 8;
           mk_elf_symbol "_start" 18 0x401000 0x40]).
Definition lib0 : elf_file :=
  mk_elf_file [] (Some [mk_elf_symbol "write" 18 0x300 0x20; mk_elf_symbol "read" 18 0x200 0x20;
                        mk_elf_symbol "open" 18 0x100 0x20]) None.
Definition maps0 : string := print_lines
  ["00401000-00402000 r-xp 00001000 08:02 173521 /bin/app";
   "7f0000000000-7f0000001000 r-xp 00000000 08:02 135522 /lib/libc.so";
   "7ffc00000000-7ffc00021000 rw-p 00000000 00:00 0 [stack]";
   "7ffd00000000-7ffd00001000 r-xp 00000000 08:02 135523 /lib/ld.so"].
Definition world0 : world := mk_world
  (fun p => if bool_decide (p = proc 42 "exe") then Some "/bin/app"%string else None)
  (fun p => if bool_decide (p = in_root 42 "/bin/app") then Some exe0
            else if bool_decide (p = in_root 42 "/lib/libc.so") then Some lib0 else None)
  (fun p => if bool_decide (p = proc 42 "maps") then Content maps0 else NoFile).

(** An address of the library, one of another process and one of the stack. *)
Lemma usym_equivalent_witness :
  resolve_all by_start world0 NewUsym [(0x7f0000000205, 42); (0x7f0000000105, 42); (0x401000, 7); (0x7ffc00000000, 42)] =
    ["read"; "open"; ""; ""]%string /\
  resolve_all by_start world0 NewUsym [(0x7f0000000205, 42); (0x7f0000000105, 42)] =
    ref_all by_start world0 [(0x7f0000000205, 42); (0x7f0000000105, 42)].
Proof.
  split; [vm_compute; reflexivity|].
  apply (usym_equivalent by_start by_start_sorted world0).
Defined.

(** The last function of the library, write, is not found, although the
    address is in it. *)
Example last_function_lost : resolve_all by_start world0 NewUsym [(0x7f0000000305, 42)] = [EmptyString].
Proof. vm_compute. reflexivity. Qed.

(** The offset of a mapping, its third field, is not used: with the text of the
    library mapped from offset 0x100 on, an address of open, whose value is
    0x100, is searched as 0x5 and not found. *)
Definition maps1 : string := print_lines
  ["7f0000000000-7f0000001000 r-xp 00000100 08:02 135522 /lib/libc.so";
   "7ffd00000000-7ffd00001000 r-xp 00000000 08:02 135523 /lib/ld.so"].
Definition world1 : world := mk_world (readlink world0) (elf_open world0)
  (fun p => if bool_decide (p = proc 42 "maps") then Content maps1 else NoFile).
Example mapping_offset_ignored : resolve_all by_start world1 NewUsym [(0x7f0000000005, 42)] = [EmptyString].
Proof. vm_compute. reflexivity. Qed.

End Usym.
