(* ===== verification/Dload.v ===== *)
(** * core/autotracing/dload.go: D-state load of containers

    Every five seconds the tracer lists the containers, asks the kernel for
    the task counts of each, keeps exponentially damped averages in the
    kernel's fixed point, and reports the first container whose average of
    uninterruptible tasks is above the threshold.

    Loads are kept in hundredths: the code's [load] is the float
    int + frac/100 of the two integers computed here, compared with a
    configured threshold; the rounding of that float is not modelled. *)
From S2P Require Import Prelude Containers.
From stdpp Require Import base gmap list strings.
From Stdlib Require Import ZArith Lia.

Open Scope Z_scope.

Module Dload.

(** ** Load averages *)

Definition fShift : Z := 11.
Definition fixed1 : Z := Z.shiftl 1 fShift.
Definition exp1 : Z := 1884.
Definition exp5 : Z := 2014.

Definition calcLoad (load exp active : Z) : Z :=
  let newload := u64 (load * exp + active * (fixed1 - exp)) in
  let newload := u64 (newload + Z.shiftl 1 (fShift - 1)) in
  newload / fixed1.

Definition calcLoadavg (avgnrun : Z * Z) (active : Z) : Z * Z :=
  let active := if 0 <? active then u64 (active * fixed1) else 0 in
  (calcLoad avgnrun.1 exp1 active, calcLoad avgnrun.2 exp5 active).

Definition loadInt (x : Z) : Z := Z.shiftr x fShift.
Definition loadFrac (x : Z) : Z := loadInt (u64 (Z.land x (fixed1 - 1) * 100)).

(** In hundredths. *)
Definition hundredths (x : Z) : Z := 100 * loadInt x + loadFrac x.
Definition getAvenrun (avgnrun : Z * Z) (offset shift : Z) : Z * Z :=
  (hundredths (u64 (Z.shiftl (u64 (avgnrun.1 + offset)) shift)),
   hundredths (u64 (Z.shiftl (u64 (avgnrun.2 + offset)) shift))).

(** ** State *)

(** The fields of pod.Container the tracer uses; StartedAt in nanoseconds. *)
Record Container := mk_container { ID : string; CgroupSuffix : string; StartedAt : Z }.

(** cadvisor's info/v1 LoadStats. *)
Record LoadStats := mk_stats
  { NrSleeping : Z; NrRunning : Z; NrStopped : Z; NrUninterruptible : Z; NrIoWait : Z }.

Record containerDloadInfo := mk_info
  { path : string; name : string; container : Container;
    avgnrun : Z * Z; load : Z * Z; avgnuni : Z * Z; loaduni : Z * Z; alive : bool }.

Abbreviation dmap := (gmap string containerDloadInfo).

Definition set_alive (b : bool) (i : containerDloadInfo) : containerDloadInfo :=
  mk_info (path i) (name i) (container i) (avgnrun i) (load i) (avgnuni i) (loaduni i) b.

Definition updateLoad (i : containerDloadInfo) (nrRunning nrUninterruptible : Z) : containerDloadInfo :=
  let run := calcLoadavg (avgnrun i) (u64 (nrRunning + nrUninterruptible)) in
  let uni := calcLoadavg (avgnuni i) nrUninterruptible in
  mk_info (path i) (name i) (container i)
    run (getAvenrun run (fixed1 / 200) 0) uni (getAvenrun uni (fixed1 / 200) 0) (alive i).

(** ** The tracer *)

Section Tracer.
(** paths.Path("cpu", suffix) *)
Context (cpu_path : string -> string).
(** The configuration, the threshold in hundredths. *)
Context (thresh interval : Z).

Definition fresh (c : Container) : containerDloadInfo :=
  mk_info (cpu_path (CgroupSuffix c)) (CgroupSuffix c) c (0, 0) (0, 0) (0, 0) (0, 0) true.

Definition refresh (c : Container) (i : containerDloadInfo) : containerDloadInfo :=
  mk_info (cpu_path (CgroupSuffix c)) (CgroupSuffix c) c
    (avgnrun i) (load i) (avgnuni i) (loaduni i) true.

(** [None] is the error of pod.GetAllContainers. *)
Definition updateContainersDload (containers : option (list Container)) (m : dmap) : option dmap :=
  match containers with
  | None => None
  | Some cs => Some (Containers.update_all ID fresh refresh m cs)
  end.

(** One round of the world: what pod, the netlink socket, the clock and the
    order of Go's map iteration answer. *)
Record round := mk_round
  { containers : option (list Container); netlink_ok : bool; now : Z;
    GetCpuLoad : string -> string -> option LoadStats;
    range_order : list string -> list string }.

Definition started (r : round) (c : Container) : bool :=
  negb (now r <? StartedAt c + interval * 1000000000).

(** The body of the loop for a live container. *)
Definition visit (r : round) (i : containerDloadInfo) : containerDloadInfo * option LoadStats :=
  if negb (started r (container i)) then (i, None)
  else match GetCpuLoad r (name i) (path i) with
       | None => (i, None)
       | Some stats =>
           let i := updateLoad i (NrRunning stats) (NrUninterruptible stats) in
           (i, if thresh <? (loaduni i).1 then Some stats else None)
       end.

(** [None] is "no dload containers" or the error of netlink.New. *)
Definition detectDloadContainer (r : round) (m : dmap)
    : option (containerDloadInfo * LoadStats) * dmap :=
  if negb (netlink_ok r) then (None, m)
  else Containers.sweep alive set_alive (visit r) (range_order r (Containers.keys m)) m.

(** The loop of Start: the containers reported, up to the first error of the
    container list, which ends it. *)
Fixpoint Start (rounds : list round) (m : dmap) : list (containerDloadInfo * LoadStats) * dmap :=
  match rounds with
  | [] => ([], m)
  | r :: rounds' =>
      match updateContainersDload (containers r) m with
      | None => ([], m)
      | Some m =>
          let '(found, m) := detectDloadContainer r m in
          let '(rest, m) := Start rounds' m in
          (option_list found ++ rest, m)
      end
  end.
End Tracer.

(** ** The average as arithmetic *)

Lemma calcLoad_exact load exp active :
  0 <= load <= 2 ^ 40 -> 0 <= exp <= 2048 -> 0 <= active <= 2 ^ 40 ->
  calcLoad load exp active = (load * exp + active * (2048 - exp) + 1024) / 2048.
Proof.
  intros Hl He Ha. unfold calcLoad. change fixed1 with 2048. change (Z.shiftl 1 (fShift - 1)) with 1024.
  rewrite (u64_small (load * exp + _)) by (unfold is_u; nia). rewrite u64_small by (unfold is_u; nia). done.
Qed.

(** One sample of the one-minute average towards A = active * fixed1. *)
Definition damp (A x : Z) : Z := (x * 1884 + A * 164 + 1024) / 2048.

Lemma damp_div A x : 2048 * damp A x <= x * 1884 + A * 164 + 1024 < 2048 * damp A x + 2048.
Proof.
  unfold damp. pose proof (Z.div_mod (x * 1884 + A * 164 + 1024) 2048 ltac:(lia)).
  pose proof (Z.mod_pos_bound (x * 1884 + A * 164 + 1024) 2048 ltac:(lia)). lia.
Qed.

Lemma damp_mono A x y : x <= y -> damp A x <= damp A y.
Proof. pose proof (damp_div A x). pose proof (damp_div A y). lia. Qed.

Lemma damp_le A x M : x <= M -> A <= M -> damp A x <= M.
Proof. pose proof (damp_div A x). lia. Qed.

Lemma damp_ge A x : 0 <= x -> 0 <= A -> 0 <= damp A x.
Proof. pose proof (damp_div A x). lia. Qed.

Lemma damp_stall A x : A - 6 <= x -> A - 6 <= damp A x.
Proof. pose proof (damp_div A x). lia. Qed.

Definition samples (A : Z) (k : nat) (x : Z) : Z := Nat.iter k (damp A) x.

Lemma samples_mono A k x y : x <= y -> samples A k x <= samples A k y.
Proof. intros H. induction k; [done|]. by apply damp_mono. Qed.

Lemma samples_add A a b x : samples A (a + b) x = samples A a (samples A b x).
Proof. apply Nat.iter_add. Qed.

Lemma samples_stall A k x : A - 6 <= x -> A - 6 <= samples A k x.
Proof. intros H. induction k; [done|]. by apply damp_stall. Qed.

(** The distance to A, scaled so that each sample shrinks it by 1884/2048. *)
Definition gap (A x : Z) : Z := 164 * (A - x) - 1023.

Lemma samples_gap A k x :
  2048 ^ Z.of_nat k * gap A (samples A k x) <= 1884 ^ Z.of_nat k * gap A x.
Proof.
  induction k as [|k IH]; [cbn; lia|]. rewrite Nat2Z.inj_succ, !Z.pow_succ_r by lia.
  change (samples A (S k) x) with (damp A (samples A k x)).
  pose proof (damp_div A (samples A k x)) as Hd.
  assert (2048 * gap A (damp A (samples A k x)) <= 1884 * gap A (samples A k x)) by (unfold gap; lia).
  pose proof (Z.pow_pos_nonneg 2048 (Z.of_nat k)). nia.
Qed.

Lemma nine_samples A x : 2 * Z.max 0 (gap A (samples A 9 x)) <= Z.max 0 (gap A x).
Proof.
  pose proof (samples_gap A 9 x) as H. change (Z.of_nat 9) with 9 in H.
  remember (gap A (samples A 9 x)) as g. remember (gap A x) as g0. lia.
Qed.

Lemma nine_samples_iter A j x :
  2 ^ Z.of_nat j * Z.max 0 (gap A (samples A (9 * j) x)) <= Z.max 0 (gap A x).
Proof.
  induction j as [|j IH]; [change (samples A (9 * 0) x) with x; lia|].
  replace (9 * S j)%nat with (9 + 9 * j)%nat by lia. rewrite samples_add.
  pose proof (nine_samples A (samples A (9 * j) x)).
  rewrite Nat2Z.inj_succ, Z.pow_succ_r by lia.
  pose proof (Z.pow_pos_nonneg 2 (Z.of_nat j)). nia.
Qed.

(** Samples after which an average that started anywhere is within 6 of A. *)
Definition settle (A : Z) : nat := 9 * Z.to_nat (Z.log2 (164 * A) + 1).

Lemma samples_settle A k x : 0 < A -> 0 <= x -> (settle A <= k)%nat -> A - 6 <= samples A k x.
Proof.
  intros HA Hx Hk. replace k with ((k - settle A) + settle A)%nat by lia.
  rewrite samples_add. apply samples_stall. unfold settle.
  pose proof (Z.log2_nonneg (164 * A)) as Hlog.
  pose proof (nine_samples_iter A (Z.to_nat (Z.log2 (164 * A) + 1)) x) as H.
  rewrite Z2Nat.id in H by lia. pose proof (Z.log2_spec (164 * A) ltac:(lia)) as [_ Hs].
  replace (Z.log2 (164 * A) + 1) with (Z.succ (Z.log2 (164 * A))) in * by lia.
  remember (gap A (samples A _ x)) as g eqn:Eg. unfold gap in *. nia.
Qed.

Lemma hundredths_div x : 0 <= x -> hundredths x = 100 * x / 2048.
Proof.
  intros Hx. unfold hundredths, loadFrac, loadInt. rewrite !Z.shiftr_div_pow2 by done.
  change (fixed1 - 1) with (Z.ones 11). rewrite Z.land_ones by done. change (2 ^ fShift) with 2048.
  change (2 ^ 11) with 2048. pose proof (Z.mod_pos_bound x 2048 ltac:(lia)).
  rewrite u64_small by (unfold is_u; lia). rewrite (Z.div_mod x 2048) at 3 by done.
  replace (100 * (2048 * (x / 2048) + x mod 2048)) with (x mod 2048 * 100 + 100 * (x / 2048) * 2048) by lia.
  rewrite Z.div_add by done. lia.
Qed.

Lemma getAvenrun_fst a : 0 <= a.1 <= 2 ^ 40 -> (getAvenrun a (fixed1 / 200) 0).1 = 100 * (a.1 + 10) / 2048.
Proof.
  intros Ha. cbn [getAvenrun fst]. change (fixed1 / 200) with 10. rewrite Z.shiftl_0_r.
  rewrite !u64_small by (try apply u64_range; unfold is_u; lia). apply hundredths_div. lia.
Qed.

(** An average within 6 of n tasks reads as a load of at least n, one of at
    most n tasks as a load of at most n. *)
Lemma load_ge n x : 2048 * n - 6 <= x -> 100 * n <= 100 * (x + 10) / 2048.
Proof. intros H. apply Z.div_le_lower_bound; lia. Qed.

Lemma load_le n x : x <= 2048 * n -> 100 * (x + 10) / 2048 <= 100 * n.
Proof. intros H. apply Z.lt_succ_r, Z.div_lt_upper_bound; lia. Qed.

(** The number of tasks of a container: at most the kernel's PID limit. *)
Definition task_max : Z := 2 ^ 22.

Lemma calcLoadavg_fst avg n :
  0 <= avg.1 <= 2 ^ 40 -> 0 <= n <= task_max -> (calcLoadavg avg n).1 = damp (2048 * n) avg.1.
Proof.
  unfold task_max. intros Ha Hn. cbn [calcLoadavg fst]. change fixed1 with 2048.
  assert ((if 0 <? n then u64 (n * 2048) else 0) = 2048 * n) as ->.
  { destruct (Z.ltb_spec 0 n); [rewrite u64_small by (unfold is_u; lia)|]; lia. }
  rewrite calcLoad_exact by (unfold exp1; lia). done.
Qed.

(** ** The map of containers *)

Section TracerLemmas.
Context (cpu_path : string -> string) (thresh interval : Z).
(** The average of a container, 0 before it is first seen. *)
Definition cur (m : dmap) (id : string) : Z :=
  match m !! id with Some i => (avgnuni i).1 | None => 0 end.

(** A round in which container [c] is listed, has run for the monitor gap, and
    has [n] uninterruptible tasks. *)
Definition hung_round (c : Container) (n : Z) (r : round) : Prop :=
  exists cs st, containers r = Some cs /\ NoDup (ID <$> cs) /\ c ∈ cs /\ netlink_ok r = true /\
    started interval r c = true /\
    GetCpuLoad r (CgroupSuffix c) (cpu_path (CgroupSuffix c)) = Some st /\ NrUninterruptible st = n /\
    forall l, Permutation (range_order r l) l.

Lemma quiet_round c n r m m1 m2 :
  hung_round c n r -> 0 <= cur m (ID c) <= 2 ^ 40 -> 0 <= n <= task_max ->
  updateContainersDload cpu_path (containers r) m = Some m1 ->
  detectDloadContainer thresh interval r m1 = (None, m2) ->
  cur m2 (ID c) = damp (2048 * n) (cur m (ID c)) /\ 100 * (cur m2 (ID c) + 10) / 2048 <= thresh.
Proof.
  intros (cs & st & Ec & Hnd & Hin & Hnl & Hst & Hg & Hn & Hp) Hcur Hnb Hu Hd.
  unfold updateContainersDload in Hu. rewrite Ec in Hu. injection Hu as <-.
  unfold detectDloadContainer in Hd. rewrite Hnl in Hd. cbn [negb] in Hd.
  pose proof (Containers.update_all_in ID (fresh cpu_path) (refresh cpu_path) cs c m Hnd Hin) as Hi.
  set (i := Containers.entry ID (fresh cpu_path) (refresh cpu_path) m c) in *.
  assert ((avgnuni i).1 = cur m (ID c) /\ alive i = true /\
    visit thresh interval r (set_alive false i) =
      let i' := updateLoad (set_alive false i) (NrRunning st) n in
      (i', if thresh <? (loaduni i').1 then Some st else None)) as (Hav & Ha & Hv).
  { unfold i, Containers.entry, cur. destruct (m !! ID c); unfold visit;
      cbn -[updateLoad started Z.ltb]; rewrite Hst, Hg, Hn; done. }
  apply (Containers.sweep_visits _ _ _ _ (ID c) i) in Hd; [| | | done | done].
  - destruct Hd as (i' & Hi' & Em). rewrite Hv in Hi'. apply pair_equal_spec in Hi' as [<- Hle].
    destruct (Z.ltb_spec thresh (loaduni (updateLoad (set_alive false i) (NrRunning st) n)).1) as [|Et]; [done|].
    assert (0 <= (avgnuni i).1 <= 2 ^ 40) as Hb by lia.
    pose proof (calcLoadavg_fst (avgnuni i) n Hb Hnb) as E.
    cbn [updateLoad set_alive loaduni avgnuni] in Et.
    pose proof (damp_le (2048 * n) (avgnuni i).1 (2 ^ 40)). pose proof (damp_ge (2048 * n) (avgnuni i).1).
    unfold task_max in Hnb. rewrite getAvenrun_fst in Et by lia.
    unfold cur in *. rewrite Em. cbn [updateLoad set_alive avgnuni]. rewrite E in *. by rewrite <- Hav.
  - rewrite Hp. apply NoDup_fst_map_to_list.
  - rewrite Hp. apply list_elem_of_fmap. exists (ID c, i). split; [done|]. by apply elem_of_map_to_list.
Qed.

Lemma quiet_rounds c n rs : forall m,
  Forall (hung_round c n) rs -> 0 <= cur m (ID c) <= 2 ^ 40 -> 0 <= n <= task_max -> rs <> [] ->
  (Start cpu_path thresh interval rs m).1 = [] ->
  100 * (samples (2048 * n) (length rs) (cur m (ID c)) + 10) / 2048 <= thresh.
Proof.
  induction rs as [|r rs IH]; intros m Hf Hcur Hn Hne Hs; [done|].
  apply Forall_cons in Hf as [Hr Hf]. cbn [Start] in Hs.
  destruct (updateContainersDload cpu_path (containers r) m) as [m1|] eqn:Eu.
  2: { destruct Hr as (cs & _ & Ec & _). by rewrite Ec in Eu. }
  destruct (detectDloadContainer thresh interval r m1) as [found m2] eqn:Ed.
  destruct (Start cpu_path thresh interval rs m2) as [rest m3] eqn:Es. cbn [fst] in Hs.
  apply app_nil in Hs as [Hfd ->]. destruct found; [done|].
  destruct (quiet_round c n r m m1 m2 Hr Hcur Hn Eu Ed) as [Hc2 Hle].
  cbn [length]. unfold samples. rewrite Nat.iter_succ_r, <- Hc2.
  destruct rs as [|r' rs]; [done|]. apply IH; [done | | done | done | by rewrite Es].
  unfold task_max in Hn. rewrite Hc2. split; [apply damp_ge; lia | apply damp_le; lia].
Qed.

(** An average that has never seen more than n tasks. *)
Definition below (n : Z) (i : containerDloadInfo) : Prop := 0 <= (avgnuni i).1 <= 2048 * n.

(** No container has more than n uninterruptible tasks in the round. *)
Definition calm_round (n : Z) (r : round) : Prop :=
  forall nm p st, GetCpuLoad r nm p = Some st -> 0 <= NrUninterruptible st <= n.

Lemma updateLoad_below n i nr nu :
  n <= task_max -> below n i -> 0 <= nu <= n ->
  below n (updateLoad i nr nu) /\ (loaduni (updateLoad i nr nu)).1 <= 100 * n.
Proof.
  unfold task_max, below. intros Hn Ha Hu. cbn [updateLoad avgnuni loaduni].
  assert (0 <= (calcLoadavg (avgnuni i) nu).1 <= 2048 * n) as Hb.
  { rewrite calcLoadavg_fst by (unfold task_max; lia). split; [apply damp_ge; lia | apply damp_le; lia]. }
  split; [done|]. rewrite getAvenrun_fst by lia. apply load_le; lia.
Qed.

Lemma visit_below n r i :
  n <= task_max -> 100 * n <= thresh -> calm_round n r -> below n i ->
  exists i', visit thresh interval r (set_alive false i) = (i', None) /\ below n i'.
Proof.
  intros Hn Ht Hr Hi. unfold visit. destruct (negb _); [by eexists|].
  destruct (GetCpuLoad r _ _) as [st|] eqn:Eg; [|by eexists].
  destruct (updateLoad_below n (set_alive false i) (NrRunning st) (NrUninterruptible st) Hn Hi (Hr _ _ _ Eg)) as [Ha Hl].
  eexists. split; [|exact Ha]. cbn zeta. f_equal. by destruct (Z.ltb_spec thresh
    (loaduni (updateLoad (set_alive false i) (NrRunning st) (NrUninterruptible st))).1); [lia|].
Qed.

Lemma Start_below n rs : 0 <= n <= task_max -> 100 * n <= thresh -> Forall (calm_round n) rs -> forall m,
  map_Forall (fun _ => below n) m -> (Start cpu_path thresh interval rs m).1 = [].
Proof.
  intros Hn Ht Hf. induction Hf as [|r rs Hr Hf IH]; intros m Hb; [done|]. cbn [Start].
  unfold updateContainersDload. destruct (containers r) as [cs|]; [|done].
  pose proof (Containers.update_all_Forall ID (fresh cpu_path) (refresh cpu_path) (fun _ => below n) cs
    ltac:(intros; unfold below; cbn [fresh avgnuni fst]; lia) ltac:(done) m Hb) as Hb1.
  set (m1 := Containers.update_all _ _ _ m cs) in *. clearbody m1.
  assert (exists m2, detectDloadContainer thresh interval r m1 = (None, m2) /\
    map_Forall (fun _ => below n) m2) as (m2 & -> & Hb2).
  { unfold detectDloadContainer. destruct (negb (netlink_ok r)); [by eauto|].
    apply Containers.sweep_quiet; [|done]. intros i. apply visit_below; [lia | done..]. }
  specialize (IH m2 Hb2). destruct (Start cpu_path thresh interval rs m2). cbn [fst] in *. by rewrite IH.
Qed.
End TracerLemmas.

(** ** Theorems *)

(** C20: liveness of the D-state tracer: if a container keeps n uninterruptible
    tasks, n above the threshold, in every round of a run of at least
    settle (2048 n) rounds, whatever the other containers do and whatever
    order the map is walked in, the run reports a container. *)
Theorem dload_reports cpu_path thresh interval c n rs m :
  0 < n <= task_max -> thresh < 100 * n -> 0 <= cur m (ID c) <= 2 ^ 40 ->
  Forall (hung_round cpu_path interval c n) rs -> (settle (2048 * n) <= length rs)%nat ->
  (Start cpu_path thresh interval rs m).1 <> [].
Proof.
  intros Hn Ht Hcur Hf Hlen Hs. assert (rs <> []) as Hne.
  { intros ->. unfold settle in Hlen. cbn [length] in Hlen.
    pose proof (Z.log2_nonneg (164 * (2048 * n))). lia. }
  pose proof (quiet_rounds cpu_path thresh interval c n rs m Hf Hcur ltac:(lia) Hne Hs).
  pose proof (samples_settle (2048 * n) (length rs) (cur m (ID c)) ltac:(lia) ltac:(lia) Hlen) as Hge.
  apply load_ge in Hge. lia.
Qed.

(** A world with one container and one uninterruptible task in it. *)
Definition hung_world : round :=
  mk_round (Some [mk_container "c" "kubepods/c" 0]) true (3600 * 1000000000)
    (fun _ _ => Some (mk_stats 0 0 0 1 0)) (fun l => l).

Lemma dload_reports_witness :
  (Start (fun p => p) 50 180 (replicate 171 hung_world) ∅).1 <> [].
Proof.
  apply (dload_reports (fun p => p) 50 180 (mk_container "c" "kubepods/c" 0) 1 (replicate 171 hung_world) ∅).
  - vm_compute. split; [done | discriminate].
  - lia.
  - unfold cur. rewrite lookup_empty. lia.
  - apply Forall_replicate. exists [mk_container "c" "kubepods/c" 0], (mk_stats 0 0 0 1 0).
    split_and!; try reflexivity; [apply NoDup_singleton | by apply list_elem_of_singleton].
  - vm_compute. lia.
Defined.

(** A report is the sample of a container that has run for the monitor gap
    and whose load is above the threshold. *)
Theorem dload_report_sound thresh interval r m i st m' :
  Permutation (range_order r (Containers.keys m)) (Containers.keys m) ->
  detectDloadContainer thresh interval r m = (Some (i, st), m') ->
  started interval r (container i) = true /\ GetCpuLoad r (name i) (path i) = Some st /\
  thresh < (loaduni i).1.
Proof.
  intros Hp. unfold detectDloadContainer. destruct (negb (netlink_ok r)); [done|].
  intros Hs. apply Containers.sweep_reports in Hs as (id & i0 & _ & _ & _ & Hv & _);
    [|rewrite Hp; apply NoDup_fst_map_to_list].
  unfold visit in Hv. destruct (started interval r _) eqn:Est; [|done]. cbn [negb] in Hv.
  destruct (GetCpuLoad r _ _) as [st'|] eqn:Eg; [|done]. cbn zeta in Hv.
  apply pair_equal_spec in Hv as [<- Hv].
  destruct (Z.ltb_spec thresh (loaduni (updateLoad (set_alive false i0) (NrRunning st') (NrUninterruptible st'))).1); [|done].
  injection Hv as ->. done.
Qed.

(** C21: no false alarms: from an empty map, and in every run in which no container
    ever has more than n uninterruptible tasks, a threshold of n or more is
    never reported, however the averages round. *)
Theorem dload_no_false_alarm cpu_path thresh interval n rs :
  0 <= n <= task_max -> 100 * n <= thresh -> Forall (calm_round n) rs ->
  (Start cpu_path thresh interval rs ∅).1 = [].
Proof. intros Hn Ht Hf. apply (Start_below cpu_path thresh interval n); done. Qed.

Lemma dload_no_false_alarm_witness : (Start (fun p => p) 100 180 (replicate 171 hung_world) ∅).1 = [].
Proof.
  apply (dload_no_false_alarm (fun p => p) 100 180 1).
  - vm_compute. split; discriminate.
  - lia.
  - apply Forall_replicate. intros nm p st [= <-]. cbn. lia.
Defined.

End Dload.
