(* ===== verification/Cpuidle.v ===== *)
(** * core/autotracing/cpuidle.go and cpusys.go: CPU usage tracers

    [Cpuidle] samples the CPU usage of every container, turns it into a
    percentage of the container's quota, and starts a profile of a container
    whose usage and its change are above the thresholds. [Cpusys] does the same
    with the system time of /proc/stat for the whole machine.

    Machine integers keep their width; a division by zero, a Go panic, is a
    value. Duration.Seconds is cut to whole seconds exactly, without the rounding
    of its floating point value. *)
From S2P Require Import Prelude Parseutil CgroupFs CgroupV2 Cgroups Containers.
From stdpp Require Import base gmap list strings sorting.
From Stdlib Require Import ZArith Lia Sorted.

Open Scope Z_scope.

(** int64 division, which truncates; [None] is the panic. *)
Definition div64 (a b : Z) : option Z := if b =? 0 then None else Some (s64 (Z.quot a b)).

(** ** cpuidle.go *)
Module Cpuidle.

Record cpuStats := mk_cpu { user : Z; sys : Z; total : Z }.
#[global] Instance cpuStats_eq_dec : EqDecision cpuStats.
Proof. solve_decision. Defined.
Definition zero : cpuStats := mk_cpu 0 0 0.

(** Times in nanoseconds since Go's zero time, durations in nanoseconds. *)
Definition Sub (t u : Z) : Z := Z.max (- 2 ^ 63) (Z.min (2 ^ 63 - 1) (t - u)).
Definition Microseconds (d : Z) : Z := Z.quot d 1000.
Definition whole_seconds (d : Z) : Z := Z.quot d 1000000000.

Record containerCPUInfo := mk_info
  { prevUsagePercentage : cpuStats; nowUsagePercentage : cpuStats; deltaUsagePercentage : cpuStats;
    prevUsage : cpuStats; path : string; alive : bool; id : string; traceTime : Z; updateTime : Z }.

Record cpuIdleThreshold := mk_threshold
  { deltaUser : Z; deltaSys : Z; deltaTotal : Z; usageUser : Z; usageSys : Z; usageTotal : Z;
    intervalContinuousPerf : Z }.

(** What the cgroup manager and the clock answer during one update; the three
    times are those of time.Since, of the last time.Now of the update, and of
    the one in shouldCareThisEvent. *)
Record reading := mk_reading
  { quota : option CpuQuota; usage : option CpuUsage; t_since : Z; t_update : Z; t_care : Z }.

(** The answers of a cgroup manager on the files [f]. *)
Definition answer {A} (r : Parseutil.result A) : option A :=
  match r with Parseutil.Ok a => Some a | Parseutil.Err _ => None end.
Definition read_cgroup `{Cgroup C} (c : C) (f : fs) (t_since t_update t_care : Z) (path : string) : reading :=
  mk_reading (answer (CpuQuotaAndPeriod c f path)) (answer (cpuUsage c f path)) t_since t_update t_care.

(** pod.Container's fields. *)
Record Container := mk_container { ID : string; CgroupSuffix : string }.

Definition set_alive (b : bool) (i : containerCPUInfo) : containerCPUInfo :=
  mk_info (prevUsagePercentage i) (nowUsagePercentage i) (deltaUsagePercentage i)
    (prevUsage i) (path i) b (id i) (traceTime i) (updateTime i).

Definition fresh (c : Container) : containerCPUInfo :=
  mk_info zero zero zero zero (CgroupSuffix c) true (ID c) 0 0.
Definition refresh (c : Container) (i : containerCPUInfo) : containerCPUInfo :=
  mk_info (prevUsagePercentage i) (nowUsagePercentage i) (deltaUsagePercentage i)
    (prevUsage i) (CgroupSuffix c) true (ID c) (traceTime i) (updateTime i).

(** [None] is the error of pod.GetNormalContainers. *)
Definition updateContainersCPUIdle (containers : option (list Container)) (m : gmap string containerCPUInfo)
    : option (gmap string containerCPUInfo) :=
  Containers.update_all ID fresh refresh m <$> containers.

Definition containerCpuUsage (u : CpuUsage) : cpuStats :=
  mk_cpu (s64 (User u)) (s64 (System u)) (s64 (Usage u)).

Definition containerCpuUsageDelta (cpu1 cpu2 : cpuStats) : cpuStats :=
  mk_cpu (s64 (user cpu1 - user cpu2)) (s64 (sys cpu1 - sys cpu2)) (s64 (total cpu1 - total cpu2)).

(** 100 * delta / elapsed / cores *)
Definition percentage (delta elapsed cores : Z) : option Z :=
  q ← div64 (s64 (100 * delta)) elapsed; div64 q cores.

Definition percentages (delta : cpuStats) (elapsed cores : Z) : option cpuStats :=
  u ← percentage (user delta) elapsed cores;
  s ← percentage (sys delta) elapsed cores;
  t ← percentage (total delta) elapsed cores;
  Some (mk_cpu u s t).

Inductive error := ErrQuota | ErrTooLarge | ErrTooSmall | ErrUsage | ErrFirst | ErrNoChange | Panic.

(** The result of updateContainerCpuUsage, [None] being nil, and the entry. *)
Definition updateContainerCpuUsage (r : reading) (i : containerCPUInfo)
    : containerCPUInfo * option error :=
  match quota r with
  | None => (i, Some ErrQuota)
  | Some q =>
      if Quota q =? 2 ^ 64 - 1 then (i, Some ErrTooLarge)
      else if Period q =? 0 then (i, Some Panic)
      else
        let cpuCores := s64 (Quota q / Period q) in
        if cpuCores =? 0 then (i, Some ErrTooSmall)
        else match usage r with
             | None => (i, Some ErrUsage)
             | Some u =>
                 if bool_decide (prevUsage i = zero) then
                   (mk_info (prevUsagePercentage i) (nowUsagePercentage i) (deltaUsagePercentage i)
                      (containerCpuUsage u) (path i) (alive i) (id i) (traceTime i) (t_update r),
                    Some ErrFirst)
                 else
                   let delta := containerCpuUsageDelta (containerCpuUsage u) (prevUsage i) in
                   if total delta =? 0 then
                     (mk_info (prevUsagePercentage i) (nowUsagePercentage i) (deltaUsagePercentage i)
                        (prevUsage i) (path i) (alive i) (id i) (traceTime i) (t_update r),
                      Some ErrNoChange)
                   else
                     let updateElasped := Microseconds (Sub (t_since r) (updateTime i)) in
                     match percentages delta updateElasped cpuCores with
                     | None => (i, Some Panic)
                     | Some now =>
                         let prev := if bool_decide (prevUsagePercentage i = zero)
                                     then now else prevUsagePercentage i in
                         (mk_info now now (containerCpuUsageDelta now prev)
                            (containerCpuUsage u) (path i) (alive i) (id i) (traceTime i) (t_update r),
                          None)
                     end
             end
  end.

(** The condition on usage and change. *)
Definition above (th : cpuIdleThreshold) (i : containerCPUInfo) : bool :=
  (usageUser th <? user (nowUsagePercentage i)) && (deltaUser th <? user (deltaUsagePercentage i)) ||
  (usageSys th <? sys (nowUsagePercentage i)) && (deltaSys th <? sys (deltaUsagePercentage i)) ||
  (usageTotal th <? total (nowUsagePercentage i)) && (deltaTotal th <? total (deltaUsagePercentage i)).

Definition shouldCareThisEvent (th : cpuIdleThreshold) (r : reading) (i : containerCPUInfo)
    : containerCPUInfo * bool :=
  let nowtime := t_care r in
  if intervalContinuousPerf th <? whole_seconds (Sub nowtime (traceTime i)) then
    if above th i then
      (mk_info (prevUsagePercentage i) (nowUsagePercentage i) (deltaUsagePercentage i)
         zero (path i) (alive i) (id i) nowtime (updateTime i), true)
    else (i, false)
  else (i, false).

(** What ends the walk over the map. *)
Inductive outcome := Care | Crash.

Definition visit (th : cpuIdleThreshold) (world : string -> reading) (i : containerCPUInfo)
    : containerCPUInfo * option outcome :=
  match updateContainerCpuUsage (world (path i)) i with
  | (i, Some Panic) => (i, Some Crash)
  | (i, Some _) => (i, None)
  | (i, None) =>
      let '(i, care) := shouldCareThisEvent th (world (path i)) i in
      (i, if care then Some Care else None)
  end.

Definition detectCPUIdleContainer (th : cpuIdleThreshold) (world : string -> reading)
    (order : list string) (m : gmap string containerCPUInfo)
    : option (containerCPUInfo * outcome) * gmap string containerCPUInfo :=
  Containers.sweep alive set_alive (visit th world) order m.

(** ** Rounds *)

(** One round of the world; [perf_ok] is the result of the profiler. *)
Record round := mk_round
  { containers : option (list Container); world : string -> reading;
    range_order : list string -> list string; perf_ok : bool }.

(** The loop of Start: the containers profiled with the times of the decisions.
    An error of the container list or of the profiler, or a panic, ends it. *)
Fixpoint Start (th : cpuIdleThreshold) (rounds : list round) (m : gmap string containerCPUInfo)
    : list (string * Z) :=
  match rounds with
  | [] => []
  | r :: rounds' =>
      match updateContainersCPUIdle (containers r) m with
      | None => []
      | Some m =>
          match detectCPUIdleContainer th (world r) (range_order r (Containers.keys m)) m with
          | (None, m) => Start th rounds' m
          | (Some (_, Crash), _) => []
          | (Some (i, Care), m) =>
              (id i, traceTime i) :: if perf_ok r then Start th rounds' m else []
          end
      end
  end.

(** ** Lemmas *)

Lemma s64_quot_small a b : 0 <= a < 2 ^ 63 -> 0 < b -> div64 a b = Some (a / b).
Proof.
  intros Ha Hb. unfold div64. destruct (Z.eqb_spec b 0); [lia|]. rewrite Z.quot_div_nonneg by lia.
  rewrite s64_small; [done|]. pose proof (Z.div_pos a b ltac:(lia) Hb).
  pose proof (Z.div_le_upper_bound a b a Hb). nia.
Qed.

Lemma percentage_exact d e c :
  0 <= d < 2 ^ 56 -> 0 < e -> 0 < c -> percentage d e c = Some (100 * d / (e * c)).
Proof.
  intros Hd He Hc. unfold percentage. rewrite s64_small by lia. rewrite s64_quot_small by lia. cbn [mbind option_bind].
  rewrite s64_quot_small; [by rewrite Z.div_div by lia | | done].
  split; [apply Z.div_pos; lia|]. apply Z.div_lt_upper_bound; nia.
Qed.

(** The times of a group as the manager's grain shows them. *)
Definition shown `{CgroupReads C} (c : C) (g : group) : cpuStats :=
  mk_cpu (rounded (grain c) (g_user g)) (rounded (grain c) (g_system g)) (g_total g / 1000).

Lemma rounded_mono k t t' : 0 < k -> 0 <= t <= t' -> 0 <= rounded k t <= rounded k t'.
Proof.
  intros Hk Ht. unfold rounded. pose proof (Z.div_le_mono t t' 1000 ltac:(lia) ltac:(lia)).
  pose proof (Z.div_le_mono (t / 1000) (t' / 1000) k ltac:(lia) ltac:(lia)).
  pose proof (Z.div_pos t 1000 ltac:(lia) ltac:(lia)). pose proof (Z.div_pos (t / 1000) k ltac:(lia) ltac:(lia)). nia.
Qed.

Lemma rounded_bound k t : 0 < k -> is_u 64 t -> 0 <= rounded k t < 2 ^ 55.
Proof.
  unfold is_u, rounded. intros Hk Ht. pose proof (Z.div_pos t 1000 ltac:(lia) ltac:(lia)).
  pose proof (Z.div_pos (t / 1000) k ltac:(lia) ltac:(lia)).
  pose proof (Z.mul_div_le (t / 1000) k ltac:(lia)). pose proof (Z.mul_div_le t 1000 ltac:(lia)). lia.
Qed.

Lemma seconds_ge k t u :
  0 <= k -> k < whole_seconds (Sub t u) -> (k + 1) * 1000000000 <= t - u.
Proof.
  intros Hk. unfold whole_seconds, Sub. set (d := Z.max _ _). assert (d <= t - u \/ d < 0) as Hd by lia.
  clearbody d. pose proof (Z.quot_rem' d 1000000000).
  destruct (Z.le_gt_cases 0 d); [pose proof (Z.rem_bound_pos d 1000000000 ltac:(lia) ltac:(lia)); lia|].
  pose proof (Z.rem_bound_pos_neg d 1000000000 ltac:(lia) ltac:(lia)). lia.
Qed.

Lemma care_time th r i i' :
  0 <= intervalContinuousPerf th -> shouldCareThisEvent th r i = (i', true) ->
  traceTime i + (intervalContinuousPerf th + 1) * 1000000000 <= traceTime i'.
Proof.
  intros H0. unfold shouldCareThisEvent.
  destruct (Z.ltb_spec (intervalContinuousPerf th) (whole_seconds (Sub (t_care r) (traceTime i)))) as [Hlt|]; [|done].
  destruct (above th i); [|done]. intros [= <-]. apply seconds_ge in Hlt; [cbn; lia | done].
Qed.

Lemma update_keeps r i i' e :
  updateContainerCpuUsage r i = (i', e) -> traceTime i' = traceTime i /\ id i' = id i.
Proof. unfold updateContainerCpuUsage. intros H. repeat case_match; simplify_eq; done. Qed.

Lemma care_keeps th r i : (shouldCareThisEvent th r i).2 = false -> (shouldCareThisEvent th r i).1 = i.
Proof. unfold shouldCareThisEvent. by repeat case_match. Qed.

Lemma visit_id th w i : id (visit th w i).1 = id i.
Proof.
  unfold visit. destruct (updateContainerCpuUsage (w (path i)) i) as [i' e] eqn:E.
  apply update_keeps in E as [_ <-]. unfold shouldCareThisEvent. by repeat (case_match; simplify_eq).
Qed.

Lemma visit_trace th w i i' o :
  0 <= intervalContinuousPerf th -> visit th w i = (i', o) ->
  match o with
  | Some Care => traceTime i + (intervalContinuousPerf th + 1) * 1000000000 <= traceTime i'
  | _ => traceTime i' = traceTime i
  end.
Proof.
  intros H0. unfold visit. destruct (updateContainerCpuUsage (w (path i)) i) as [i1 e] eqn:E.
  apply update_keeps in E as [Ht _]. destruct e as [e|].
  - destruct e; intros [= <- <-]; done.
  - pose proof (care_time th (w (path i1)) i1) as Hc. pose proof (care_keeps th (w (path i1)) i1) as Hk.
    destruct (shouldCareThisEvent th (w (path i1)) i1) as [i2 [|]]; intros [= <- <-].
    + rewrite <- Ht. by apply Hc.
    + cbn [fst snd] in Hk. by rewrite Hk.
Qed.

(** Every entry is under its own ID. *)
Definition keyed (m : gmap string containerCPUInfo) : Prop := map_Forall (fun k i => id i = k) m.

Lemma detect_keyed th w order m : keyed m -> keyed (detectCPUIdleContainer th w order m).2.
Proof. apply Containers.sweep_Forall. intros k i <-. apply (visit_id th w (set_alive false i)). Qed.

(** The last time a container was profiled, Go's zero time before the first. *)
Definition last_trace (m : gmap string containerCPUInfo) (cid : string) : Z :=
  match m !! cid with Some i => traceTime i | None => 0 end.

(** A round that lists the container. *)
Definition listed (cid : string) (r : round) : Prop :=
  exists cs, containers r = Some cs /\ NoDup (ID <$> cs) /\ cid ∈ ID <$> cs /\
    forall l, Permutation (range_order r l) l.

Lemma update_listed cid r m :
  listed cid r -> keyed m ->
  exists m1 i, updateContainersCPUIdle (containers r) m = Some m1 /\ keyed m1 /\
    m1 !! cid = Some i /\ alive i = true /\ traceTime i = last_trace m cid.
Proof.
  intros (cs & Ec & Hnd & Hin & _) Hk. rewrite Ec. apply list_elem_of_fmap in Hin as (c & -> & Hin).
  eexists _, _. split; [done|]. split.
  { by apply Containers.update_all_Forall. }
  split; [by apply Containers.update_all_in|].
  unfold Containers.entry, last_trace. by destruct (m !! ID c).
Qed.

Lemma detect_trace th w order cid i m o m' :
  0 <= intervalContinuousPerf th -> NoDup order -> keyed m -> m !! cid = Some i -> alive i = true ->
  detectCPUIdleContainer th w order m = (o, m') ->
  match o with
  | Some (j, Care) =>
      (id j = cid -> traceTime i + (intervalContinuousPerf th + 1) * 1000000000 <= traceTime j /\
                     last_trace m' cid = traceTime j) /\
      (id j <> cid -> last_trace m' cid = traceTime i)
  | _ => last_trace m' cid = traceTime i
  end.
Proof.
  intros H0 Hnd Hk Hm Ha Hs. pose proof (detect_keyed th w order m Hk) as Hk'. rewrite Hs in Hk'. cbn [snd] in Hk'.
  pose proof Hs as Hs2. apply (Containers.sweep_entry _ _ _ _ cid i) in Hs2 as (i' & Hm' & Hi'); [|done..].
  assert (last_trace m' cid = traceTime i') as -> by (unfold last_trace; by rewrite Hm').
  assert (id i' = cid) as Hid by apply (map_Forall_lookup_1 _ _ _ _ Hk' Hm').
  destruct o as [[j out]|].
  2: { destruct Hi' as [->|[Hv|(? & _ & [=])]]; [done|]. apply visit_trace in Hv; done. }
  apply Containers.sweep_reports in Hs as (k & j0 & _ & Hk0 & _ & Hv & Hj); [|done].
  assert (id j = k) as Hidj by apply (map_Forall_lookup_1 _ _ _ _ Hk' Hj).
  apply visit_trace in Hv as Hvt; [|done]. destruct out.
  - split.
    + intros E. assert (k = cid) as -> by congruence. rewrite Hm in Hk0. injection Hk0 as <-.
      rewrite Hm' in Hj. injection Hj as ->. done.
    + intros Hne. destruct Hi' as [->|[Hv'|(r & Hv' & [= <- _])]]; [done| |done].
      apply visit_trace in Hv'; done.
  - destruct Hi' as [->|[Hv'|(r & Hv' & [= <- <-])]]; [done|..]; apply visit_trace in Hv'; done.
Qed.

(** The profiles of one container. *)
Definition times (cid : string) (l : list (string * Z)) : list Z :=
  snd <$> filter (fun e => e.1 = cid) l.

Lemma Start_spaced th cid rs : 0 <= intervalContinuousPerf th -> Forall (listed cid) rs -> forall m,
  keyed m ->
  Sorted (fun a b => a + (intervalContinuousPerf th + 1) * 1000000000 <= b)
    (last_trace m cid :: times cid (Start th rs m)).
Proof.
  intros H0 Hf. induction Hf as [|r rs Hr Hf IH]; intros m Hk; cbn [Start]; [repeat constructor|].
  destruct (update_listed cid r m Hr Hk) as (m1 & i & -> & Hk1 & Hm1 & Ha & Ht).
  destruct Hr as (_ & _ & _ & _ & Hp).
  assert (NoDup (range_order r (Containers.keys m1))) as Hnd by (rewrite Hp; apply NoDup_fst_map_to_list).
  destruct (detectCPUIdleContainer th (world r) (range_order r (Containers.keys m1)) m1) as [o m2] eqn:Ed.
  pose proof (detect_keyed th (world r) (range_order r (Containers.keys m1)) m1 Hk1) as Hk2.
  rewrite Ed in Hk2. cbn [snd] in Hk2. specialize (IH m2 Hk2).
  pose proof (detect_trace _ _ _ cid i _ _ _ H0 Hnd Hk1 Hm1 Ha Ed) as Hd.
  destruct o as [[j [|]]|]; [|repeat constructor|by rewrite <- Ht, <- Hd].
  unfold times in *. rewrite filter_cons. cbn [fst]. destruct Hd as [Hd1 Hd2]. case_decide as E.
  - destruct (Hd1 E) as [Hgap Hl]. rewrite Hl in IH. cbn [fmap list_fmap snd].
    rewrite Ht in Hgap. destruct (perf_ok r); [constructor; [exact IH | constructor; exact Hgap] | repeat constructor; exact Hgap].
  - rewrite (Hd2 E), Ht in IH. destruct (perf_ok r); [done | repeat constructor].
Qed.

(** ** Theorems *)

(** Spacing of profiles: while a container stays listed, and whatever the
    other containers do, two profiles of it are more than
    intervalContinuousPerf whole seconds apart. *)
Theorem cpuidle_spacing th cid rs :
  0 <= intervalContinuousPerf th -> Forall (listed cid) rs ->
  Sorted (fun a b => a + (intervalContinuousPerf th + 1) * 1000000000 <= b)
    (times cid (Start th rs ∅)).
Proof.
  intros H0 Hf. pose proof (Start_spaced th cid rs H0 Hf ∅ (map_Forall_empty _)) as Hs.
  apply Sorted_inv in Hs as [Hs _]. exact Hs.
Qed.

(** The change of the shown times between two readings of a growing group. *)
Lemma delta_shown `{CgroupReads C} (c : C) g0 g :
  group_ok g0 -> group_ok g -> g_user g0 <= g_user g -> g_system g0 <= g_system g -> g_total g0 <= g_total g ->
  let d := mk_cpu (user (shown c g) - user (shown c g0)) (sys (shown c g) - sys (shown c g0))
             (total (shown c g) - total (shown c g0)) in
  containerCpuUsageDelta (containerCpuUsage (mk_usage (g_total g / 1000)
      (rounded (grain c) (g_user g)) (rounded (grain c) (g_system g)))) (shown c g0) = d /\
  containerCpuUsage (mk_usage (g_total g / 1000) (rounded (grain c) (g_user g)) (rounded (grain c) (g_system g))) = shown c g /\
  0 <= user d < 2 ^ 56 /\ 0 <= sys d < 2 ^ 56 /\ 0 <= total d < 2 ^ 56.
Proof.
  intros (_ & _ & Hu0 & Hs0 & Ht0 & _) (_ & _ & Hu & Hs & Ht & _) Husr Hsys Htot d.
  assert (0 < grain c) as Hk by (pose proof (grain_ok c); lia).
  pose proof (rounded_bound (grain c) (g_user g) Hk Hu). pose proof (rounded_bound (grain c) (g_system g) Hk Hs).
  pose proof (rounded_bound 1 (g_total g) ltac:(lia) Ht) as Hbt. rewrite rounded_1 in Hbt.
  pose proof (rounded_mono (grain c) (g_user g0) (g_user g) Hk ltac:(unfold is_u in *; lia)).
  pose proof (rounded_mono (grain c) (g_system g0) (g_system g) Hk ltac:(unfold is_u in *; lia)).
  pose proof (rounded_mono 1 (g_total g0) (g_total g) ltac:(lia) ltac:(unfold is_u in *; lia)) as Hmt. rewrite !rounded_1 in Hmt.
  subst d. unfold containerCpuUsageDelta, containerCpuUsage, shown. cbn [User System Usage user sys total].
  split; [|split].
  - rewrite !s64_small; repeat rewrite s64_small by lia; first [done | lia].
  - by rewrite !s64_small by lia.
  - lia.
Qed.

(** Bounds of the quotient over whole cores when the quota is [q] per [per]. *)
Lemma percentage_bounds used e q per :
  0 < per -> 0 < q / per -> 0 < e -> 0 <= used ->
  (used <= e * (q / per) -> 0 <= 100 * used / (e * (q / per)) <= 100) /\
  (used * per <= e * q -> 0 <= 100 * used / (e * (q / per)) < 200).
Proof.
  intros Hp Hc He Hu. pose proof (Z.div_mod q per ltac:(lia)). pose proof (Z.mod_pos_bound q per Hp).
  split; intros Hle; (split; [apply Z.div_pos; nia|]).
  - apply Z.div_le_upper_bound; nia.
  - apply Z.div_lt_upper_bound; [nia|]. assert (used * per < e * (q / per + 1) * per) by nia.
    assert (used < e * (q / per + 1)) by (apply (Zmult_lt_reg_r _ _ per); lia). nia.
Qed.

(** C36: one update from the files of the cgroup, through any manager that
    keeps the interface's promise, on every branch: a group without a quota or
    with less than one core is refused and its entry kept; a first reading is
    stored and a reading without new time only moves the clock; otherwise, if
    the times grew since the reading stored before, the percentages are the time
    used since then over the time of the cores, the quota rounded down to whole
    ones, and rounded down. The total is then at most 100 if the use fits those
    cores, and only below 200 if it fits the quota itself. *)
Theorem cpuidle_percentages `{CgroupReads C} (c : C) f g0 g i t1 t2 t3 :
  group_ok g0 -> group_ok g -> shows c f (path i) g ->
  0 < g_period g -> (forall q, g_quota g = Some q -> q / g_period g < 2 ^ 31) ->
  prevUsage i = zero \/ prevUsage i = shown c g0 ->
  g_user g0 <= g_user g -> g_system g0 <= g_system g -> g_total g0 <= g_total g ->
  let e := Microseconds (Sub t1 (updateTime i)) in
  0 < e ->
  let (i', err) := updateContainerCpuUsage (read_cgroup c f t1 t2 t3 (path i)) i in
  match g_quota g with
  | None => err = Some ErrTooLarge /\ i' = i
  | Some q =>
      let cores := q / g_period g in
      let used := total (shown c g) - total (shown c g0) in
      if cores =? 0 then err = Some ErrTooSmall /\ i' = i
      else if bool_decide (prevUsage i = zero) then
        err = Some ErrFirst /\ prevUsage i' = shown c g /\ updateTime i' = t2 /\
        nowUsagePercentage i' = nowUsagePercentage i
      else if used =? 0 then
        err = Some ErrNoChange /\ prevUsage i' = prevUsage i /\ updateTime i' = t2 /\
        nowUsagePercentage i' = nowUsagePercentage i
      else
        err = None /\ prevUsage i' = shown c g /\ updateTime i' = t2 /\
        nowUsagePercentage i' =
          mk_cpu (100 * (user (shown c g) - user (shown c g0)) / (e * cores))
                 (100 * (sys (shown c g) - sys (shown c g0)) / (e * cores)) (100 * used / (e * cores)) /\
        (used <= e * cores -> 0 <= total (nowUsagePercentage i') <= 100) /\
        (used * g_period g <= e * q -> 0 <= total (nowUsagePercentage i') < 200)
  end.
Proof.
  intros Hg0 Hg Hf Hper Hcores Hprev Husr Hsys Htot e He.
  destruct (delta_shown c g0 g Hg0 Hg Husr Hsys Htot) as (Hd & Hnow & Hdu & Hds & Hdt).
  pose proof Hg as (Hq & _). unfold updateContainerCpuUsage, read_cgroup. cbn [quota usage t_since t_update].
  rewrite (reads_quota c f (path i) g Hg Hf), (reads_usage c f (path i) g Hg Hf). cbn [answer].
  destruct (g_quota g) as [q|]; [|by cbn]. specialize (Hq _ eq_refl). specialize (Hcores _ eq_refl).
  cbn [from_option Datatypes.id Quota Period]. cbn zeta. rewrite (proj2 (Z.eqb_neq q (2 ^ 64 - 1))) by lia.
  rewrite (proj2 (Z.eqb_neq (g_period g) 0)) by lia.
  pose proof (Z.div_pos q (g_period g) ltac:(lia) Hper). rewrite s64_small by lia.
  destruct (Z.eqb_spec (q / g_period g) 0) as [|Hc]; [done|]. case_bool_decide as Hz.
  { rewrite Hnow. done. }
  destruct Hprev as [Hprev|Hprev]; [done|]. rewrite Hprev, Hd. cbn [total]. case_if; [done|].
  fold e. unfold percentages. cbn [user sys total]. cbn [user sys total] in Hdu, Hds, Hdt.
  rewrite !percentage_exact by lia. cbn [mbind option_bind]. rewrite Hnow.
  split; [done|]. split; [done|]. split; [done|]. split; [done|]. cbn [nowUsagePercentage total].
  apply percentage_bounds; lia.
Qed.

(** Within a quota of 1.9 cores, a container that uses all of it reads 190%. *)
Lemma cpuidle_fraction_reads_190 :
  let (i', err) := updateContainerCpuUsage
    (mk_reading (Some (mk_quota 190000 100000)) (Some (mk_usage 2900000 2900000 0)) 1000000000 1000000000 0)
    (mk_info zero zero zero (mk_cpu 1000000 0 1000000) "kubepods/c" true "c" 0 0) in
  err = None /\ total (nowUsagePercentage i') = 190.
Proof. vm_compute. done. Qed.

(** An idle container that bursts is missed: if all three percentages of the
    previous measurement are 0, the current one is taken as the previous, so
    the change is 0 and no profile starts, whatever the usage. *)
Theorem cpuidle_idle_burst_missed th w i :
  prevUsagePercentage i = zero -> 0 <= deltaUser th -> 0 <= deltaSys th -> 0 <= deltaTotal th ->
  (visit th w i).2 <> Some Care.
Proof.
  intros Hp Hu Hs Ht. unfold visit. destruct (updateContainerCpuUsage (w (path i)) i) as [i' [e|]] eqn:E.
  { by destruct e. }
  assert (deltaUsagePercentage i' = zero) as Hz.
  { unfold updateContainerCpuUsage in E. rewrite Hp, (bool_decide_eq_true_2 (zero = zero)) in E by done.
    repeat case_match; simplify_eq; try done. cbn. unfold containerCpuUsageDelta. by rewrite !Z.sub_diag. }
  assert (above th i' = false) as Ha.
  { unfold above. rewrite Hz. cbn [user sys total zero].
    rewrite !(proj2 (Z.ltb_ge _ 0)) by done. by rewrite !andb_false_r. }
  unfold shouldCareThisEvent. rewrite Ha. by destruct (_ <? _).
Qed.

(** Examples: a container of two cores that used 1.5 s of CPU in a second. *)
Definition th0 : cpuIdleThreshold := mk_threshold 30 0 30 75 45 90 1800.
Definition day : Z := 86400 * 1000000000.
Definition read0 (used t : Z) : reading :=
  mk_reading (Some (mk_quota 200000 100000)) (Some (mk_usage used used 0)) t t t.
Definition round0 (used t : Z) : round :=
  mk_round (Some [mk_container "c" "kubepods/c"]) (fun _ => read0 used t) (fun l => l) true.
(** Three measurements, the last of a burst. *)
Definition burst (t : Z) : list round :=
  [round0 1000000 t; round0 1200000 (t + 1000000000); round0 3200000 (t + 2000000000)].

Lemma burst_listed t : Forall (listed "c") (burst t).
Proof.
  repeat constructor; exists [mk_container "c" "kubepods/c"]; (split_and!;
    [done | apply NoDup_singleton | by apply list_elem_of_singleton | done]).
Qed.

Lemma cpuidle_spacing_witness :
  Start th0 (burst day ++ burst (2 * day)) ∅ = [("c", day + 2000000000); ("c", 2 * day + 2000000000)]%string /\
  Sorted (fun a b => a + 1801 * 1000000000 <= b) (times "c" (Start th0 (burst day ++ burst (2 * day)) ∅)).
Proof.
  split; [vm_compute; reflexivity|].
  apply (cpuidle_spacing th0 "c" (burst day ++ burst (2 * day))); [cbn; lia|].
  apply Forall_app. split; apply burst_listed.
Defined.

Definition measured (used pct t : Z) : containerCPUInfo :=
  mk_info (mk_cpu pct 0 pct) (mk_cpu pct 0 pct) zero (mk_cpu used 0 used) "kubepods/c" true "c" 0 t.

(** The group later: 1.5 s more of CPU time. *)
Definition group1 : group :=
  mk_group (Some 200000) 100000 2234567890 1487654321 3722222222 4096000 (Some 8192000) [1; 4242]
    [("nr_throttled"%string, 3); ("throttled_time"%string, 250)].

Lemma group1_ok : group_ok group1.
Proof.
  destruct group0_ok as (Hq & Hp & _ & _ & _ & Hm & Hl & Ht & Hs & Hn).
  unfold group_ok. split; [exact Hq|]. split; [exact Hp|]. do 3 (split; [by vm_compute|]).
  split; [exact Hm|]. split; [exact Hl|]. split; [exact Ht|]. split; [exact Hs | exact Hn].
Qed.

Lemma shows_group1 : manager_shows (inr V2.New) (files_v2 "/pod/c1" group1) "/pod/c1" group1.
Proof. constructor; vm_compute; reflexivity. Qed.

Definition seen0 : containerCPUInfo :=
  mk_info zero zero zero (shown (inr V2.New : manager) group0) "/pod/c1" true "c1" 0 day.

Lemma cpuidle_percentages_witness :
  let (i', err) := updateContainerCpuUsage
    (read_cgroup (inr V2.New : manager) (files_v2 "/pod/c1" group1) (day + 1000000000) day day "/pod/c1") seen0 in
  err = None /\ nowUsagePercentage i' = mk_cpu 50 25 75.
Proof.
  pose proof (cpuidle_percentages (inr V2.New : manager) (files_v2 "/pod/c1" group1) group0 group1 seen0
    (day + 1000000000) day day group0_ok group1_ok shows_group1 ltac:(reflexivity)
    ltac:(intros q [= <-]; reflexivity) (or_intror eq_refl) ltac:(vm_compute; discriminate)
    ltac:(vm_compute; discriminate) ltac:(vm_compute; discriminate) ltac:(reflexivity)) as H.
  destruct (updateContainerCpuUsage _ _) as [i' err]. cbn [g_quota group1] in H. cbn zeta in H.
  match type of H with context [bool_decide ?P] => change (bool_decide P) with false in H end.
  destruct H as (He & _ & _ & Hn & _). split; [exact He | exact Hn].
Defined.

Lemma cpuidle_idle_burst_missed_witness :
  (visit th0 (fun _ => read0 3000000 (day + 1000000000)) (measured 1000000 0 day)).2 <> Some Care.
Proof. apply (cpuidle_idle_burst_missed th0); [done | cbn; lia..]. Defined.
End Cpuidle.

(** ** cpusys.go *)
Module Cpusys.

Record cpuUsage := mk_usage { system : Z; total : Z }.

Record cpuSysTracing := mk_tracing
  { usage : option cpuUsage; sysPercent : Z; sysPercentDelta : Z }.
Record cpuSysThreshold := mk_threshold { delta : Z; usage_limit : Z }.

Definition start : cpuSysTracing := mk_tracing None 0 0.

(** The numbers of the first line of /proc/stat; [None] where ParseUint fails. *)
Fixpoint sum_fields (i : nat) (fields : list (option Z)) (u : cpuUsage) : option cpuUsage :=
  match fields with
  | [] => Some u
  | None :: _ => None
  | Some val :: fields' =>
      sum_fields (S i) fields'
        (mk_usage (if Nat.eqb i 2 then val else system u) (u64 (total u + val)))
  end.
Definition cpuSysUsage (fields : list (option Z)) : option cpuUsage := sum_fields 0 fields (mk_usage 0 0).

Inductive result := Ok (c : cpuSysTracing) | Err | Panic.

(** [fields] is [None] if /proc/stat cannot be opened. *)
Definition updateCpuSysUsage (fields : option (list (option Z))) (c : cpuSysTracing) : result :=
  match fields ≫= cpuSysUsage with
  | None => Err
  | Some u =>
      match usage c with
      | None => Ok (mk_tracing (Some u) (sysPercent c) (sysPercentDelta c))
      | Some prev =>
          let sysUsageDelta := u64 (system u - system prev) in
          let sysTotalDelta := u64 (total u - total prev) in
          if sysTotalDelta =? 0 then Panic
          else
            let sysPercentage := s64 (u64 (100 * sysUsageDelta) / sysTotalDelta) in
            Ok (mk_tracing (Some u) sysPercentage (s64 (sysPercentage - sysPercent c)))
      end
  end.

Definition cpuSysTracing_shouldCareThisEvent (th : cpuSysThreshold) (c : cpuSysTracing) : bool :=
  (usage_limit th <? sysPercent c) || (delta th <? sysPercentDelta c).

(** The rounds of Start without the profiler: for each, whether it starts a
    profile; ends at an error or a panic. *)
Fixpoint rounds (th : cpuSysThreshold) (inputs : list (option (list (option Z)))) (c : cpuSysTracing)
    : list bool :=
  match inputs with
  | [] => []
  | fields :: inputs' =>
      match updateCpuSysUsage fields c with
      | Ok c => cpuSysTracing_shouldCareThisEvent th c :: rounds th inputs' c
      | Err | Panic => []
      end
  end.


(** ** Lemmas *)

(** The counters of one reading. *)
Definition reads (fields : option (list (option Z))) (u : cpuUsage) : Prop := fields ≫= cpuSysUsage = Some u.

(** A step of the counters: the total grows by d, the system time by s. *)
Definition grows (prev u : cpuUsage) (s d : Z) : Prop :=
  u64 (system u - system prev) = s /\ u64 (total u - total prev) = d /\ 0 <= s <= d /\ 0 < d < 2 ^ 57.

Lemma update_grows fields c prev u s d :
  usage c = Some prev -> reads fields u -> grows prev u s d ->
  updateCpuSysUsage fields c = Ok (mk_tracing (Some u) (100 * s / d) (s64 (100 * s / d - sysPercent c))).
Proof.
  intros Hc Hr (Hs & Hd & Hsd & Hd0). unfold updateCpuSysUsage. unfold reads in Hr. rewrite Hr, Hc, Hs, Hd.
  destruct (Z.eqb_spec d 0); [lia|]. rewrite u64_small by (unfold is_u; lia).
  assert (0 <= 100 * s / d <= 100).
  { split; [apply Z.div_pos; lia | apply Z.div_le_upper_bound; lia]. }
  by rewrite (s64_small (100 * s / d)) by lia.
Qed.

(** Readings with the same percentage p of system time between any two. *)
Inductive steady (p : Z) : cpuUsage -> list (option (list (option Z))) -> Prop :=
| steady_nil u : steady p u []
| steady_cons prev u s d fields rest :
    reads fields u -> grows prev u s d -> 100 * s / d = p -> steady p u rest ->
    steady p prev (fields :: rest).

Lemma steady_quiet th p u inputs : steady p u inputs -> forall c,
  usage c = Some u -> sysPercent c = p -> p <= usage_limit th -> 0 <= delta th ->
  rounds th inputs c = replicate (length inputs) false.
Proof.
  induction 1 as [|prev u s d fields rest Hr Hg Hp Hs IH]; intros c Hc Hpc Hle Hd; [done|].
  cbn [rounds length replicate]. rewrite (update_grows fields c prev u s d) by done.
  rewrite Hp, Hpc, Z.sub_diag. f_equal; [|by apply IH].
  unfold cpuSysTracing_shouldCareThisEvent. cbn [sysPercent sysPercentDelta].
  change (s64 0) with 0. by rewrite !(proj2 (Z.ltb_ge _ _)) by done.
Qed.

(** ** Theorems *)

(** Percentages of /proc/stat: after the first reading, counters that grow by
    s system and d total ticks give the percentage 100 s / d, between 0 and
    100, and its change from the one before. *)
Theorem cpusys_percentage fields c prev u s d :
  usage c = Some prev -> reads fields u -> grows prev u s d -> 0 <= sysPercent c <= 100 ->
  exists c', updateCpuSysUsage fields c = Ok c' /\ usage c' = Some u /\ sysPercent c' = 100 * s / d /\
    0 <= sysPercent c' <= 100 /\ sysPercentDelta c' = sysPercent c' - sysPercent c.
Proof.
  intros Hc Hr Hg Hp. eexists. split; [by apply (update_grows fields c prev u s d)|].
  cbn [usage sysPercent sysPercentDelta]. destruct Hg as (_ & _ & Hsd & Hd).
  assert (0 <= 100 * s / d <= 100).
  { split; [apply Z.div_pos; lia | apply Z.div_le_upper_bound; lia]. }
  split_and!; try done; [lia..|]. apply s64_small. lia.
Qed.

(** A false alarm at start: on a machine whose share of system time is p at
    every reading, below the usage threshold but above that of the change, the
    tracer starts a profile at its second reading, since the first percentage
    counts as a change from 0, and at no other. *)
Theorem cpusys_first_measure_alarm th p f0 u0 f1 u1 s d rest :
  reads f0 u0 -> reads f1 u1 -> grows u0 u1 s d -> 100 * s / d = p -> steady p u1 rest ->
  0 <= delta th < p -> p <= usage_limit th ->
  rounds th (f0 :: f1 :: rest) start = false :: true :: replicate (length rest) false.
Proof.
  intros Hr0 Hr1 Hg Hp Hs Hd Hu. unfold reads in Hr0.
  assert (p <= 100) as H100.
  { destruct Hg as (_ & _ & Hsd & Hd0). rewrite <- Hp. apply Z.div_le_upper_bound; lia. }
  cbn [rounds]. unfold updateCpuSysUsage at 1. rewrite Hr0. cbn [usage start].
  f_equal.
  { unfold cpuSysTracing_shouldCareThisEvent. cbn [sysPercent sysPercentDelta start].
    by rewrite !(proj2 (Z.ltb_ge _ _)) by lia. }
  rewrite (update_grows f1 _ u0 u1 s d) by done. rewrite Hp. cbn [sysPercent start].
  rewrite Z.sub_0_r, s64_small by lia. f_equal; [|apply (steady_quiet th p u1); try done; lia].
  unfold cpuSysTracing_shouldCareThisEvent. cbn [sysPercent sysPercentDelta].
  by rewrite (proj2 (Z.ltb_lt (delta th) p)), orb_true_r by lia.
Qed.

(** A reading with the given system and idle ticks. *)
Definition stat (sy idle : Z) : option (list (option Z)) := Some [Some 0; Some 0; Some sy; Some idle].

Lemma cpusys_percentage_witness :
  exists c', updateCpuSysUsage (stat 140 260) (mk_tracing (Some (mk_usage 100 200)) 10 0) = Ok c' /\
    sysPercent c' = 20 /\ sysPercentDelta c' = 10.
Proof.
  destruct (cpusys_percentage (stat 140 260) (mk_tracing (Some (mk_usage 100 200)) 10 0)
    (mk_usage 100 200) (mk_usage 140 400) 40 200) as (c' & E & _ & Hp & _ & Hd);
    [done | done | vm_compute; repeat split; discriminate | cbn; lia |].
  exists c'. rewrite Hd, Hp. done.
Defined.

Lemma cpusys_first_measure_alarm_witness :
  rounds (mk_threshold 30 50) [stat 0 0; stat 40 60; stat 80 120] start = [false; true; false].
Proof.
  apply (cpusys_first_measure_alarm (mk_threshold 30 50) 40 (stat 0 0) (mk_usage 0 0)
    (stat 40 60) (mk_usage 40 100) 40 100 [stat 80 120]);
    [done | done | vm_compute; repeat split; discriminate | done | | cbn; lia | cbn; lia].
  apply (steady_cons 40 _ (mk_usage 80 200) 40 100);
    [done | vm_compute; repeat split; discriminate | done | constructor].
Defined.
End Cpusys.
