(* ===== verification/Gauge.v ===== *)
(** * float64 values and the gauges of the collectors

    A float64 is NaN or the exact rational: the rounding is not modelled. *)
From S2P Require Import Prelude Cpuidle.
From stdpp Require Import base gmap list strings.
From Stdlib Require Import ZArith Lia QArith Lqa.

Open Scope Z_scope.

(** ** float64 *)

Inductive float := NaN | Num (q : Q).

(** float64(x) * 100 / y. Where y is 0 the code has x = 0, and 0/0 is NaN. *)
Definition percent (x y : Z) : float :=
  if y =? 0 then NaN else Num (inject_Z x * 100 / inject_Z y).

Definition zero : float := Num 0.

(** One gauge; no container means the host. *)
Record Data := mk_data { container_id : option string; metric_name : string; value : float }.

(** pod.Container's fields. *)
Abbreviation Container := Cpuidle.Container.

(** ** Lemmas *)

(** Between 0 and 100, or NaN. *)
Definition in_percent (x : float) : Prop :=
  match x with NaN => True | Num q => (0 <= q <= 100)%Q end.

Lemma percent_range x y : 0 <= x <= y -> in_percent (percent x y).
Proof.
  intros Hx. unfold percent. destruct (Z.eqb_spec y 0); [done|]. cbn.
  assert (0 < inject_Z y)%Q as Hy by (change 0%Q with (inject_Z 0); rewrite <- Zlt_Qlt; lia).
  split.
  - apply Qle_shift_div_l; [done|]. change 100%Q with (inject_Z 100). change 0%Q with (inject_Z 0).
    rewrite <- !inject_Z_mult, <- Zle_Qle. lia.
  - apply Qle_shift_div_r; [done|]. change 100%Q with (inject_Z 100).
    rewrite <- !inject_Z_mult, <- Zle_Qle. lia.
Qed.
