(* ===== verification/Filter.v ===== *)
(** * core/metrics/filter.go: which metrics are exported

    The filter of the configuration, and what a collection gives. *)
From S2P Require Import Prelude Gauge.
From stdpp Require Import base list strings.

(** A compiled pattern is the set of names it matches. *)
Record fieldFilter := mk_filter { ignorePattern : option (string -> bool); acceptPattern : option (string -> bool) }.

(** [MustCompile] answers [None] where a pattern is malformed, and the code
    panics. *)
Definition compile (MustCompile : string -> option (string -> bool)) (pattern : string) : option (option (string -> bool)) :=
  if bool_decide (pattern = EmptyString) then Some None else Some <$> MustCompile pattern.
Definition newFieldFilter (MustCompile : string -> option (string -> bool)) (ignoredPattern acceptPattern : string)
    : option fieldFilter :=
  i ← compile MustCompile ignoredPattern; a ← compile MustCompile acceptPattern; Some (mk_filter i a).

Definition ignored (f : fieldFilter) (name : string) : bool :=
  match ignorePattern f with Some p => p name | None => false end ||
  match acceptPattern f with Some p => negb (p name) | None => false end.

(** The result of a collector's Update: the gauges, an error or a panic. *)
Inductive outcome := Metrics (ms : list Data) | Failed | Panicked.

(** ** Theorems *)

(** The filter exports the names the accepting pattern matches and the ignoring
    one does not; an empty pattern accepts, or ignores, nothing in particular. *)
Theorem filter_accepts MustCompile ign acc f name :
  newFieldFilter MustCompile ign acc = Some f ->
  ignored f name = false <->
  (ign = EmptyString \/ exists p, MustCompile ign = Some p /\ p name = false) /\
  (acc = EmptyString \/ exists p, MustCompile acc = Some p /\ p name = true).
Proof.
  unfold newFieldFilter, compile, ignored. intros H. rewrite orb_false_iff.
  repeat case_bool_decide; cbn in H;
    destruct (MustCompile ign), (MustCompile acc); simplify_option_eq; cbn; rewrite ?negb_false_iff; naive_solver.
Qed.
