(* ===== verification/CpuUtil.v ===== *)
(** * core/metrics/cpu_util.go: CPU utilisation of the containers and the host

    The collector turns the CPU time of every container, over its quota, and of
    the host into percentages. It reads the cgroup through the interface of
    CgroupFs, so the theorems hold for either version. Times are nanoseconds
    since Go's zero time. *)
From S2P Require Import Prelude Parseutil CgroupFs CgroupV1 CgroupV2 Cgroups Cpuidle Gauge.
From stdpp Require Import base gmap list strings.
From Stdlib Require Import ZArith Lia QArith Lqa.

Open Scope Z_scope.

Module CpuUtil.

Record cpuMetric := mk_metric
  { lastUsrTime : Z; lastSysTime : Z; lastCPUTotal : Z; lasTimestamp : Z;
    utilTotal : float; utilSys : float; utilUsr : float }.
Definition new_metric : cpuMetric := mk_metric 0 0 0 0 zero zero zero.

Section Manager.
Context `{Cgroup C} (c : C).

(** [path] is the container's, or empty for the host. *)
Definition cpuMetricUpdate (f : fs) (now : Z) (path : string) (cpuCount : Z) (m : cpuMetric)
    : result cpuMetric :=
  let elapsed := Cpuidle.Sub now (lasTimestamp m) in
  if elapsed <? 1000000000 then Ok m
  else
    stat ← cpuUsage c f path;
    let usageTotal := Usage stat in
    let usageUsr := User stat in
    let usageSys := System stat in
    let deltaTotal := u64 (usageTotal - lastCPUTotal m) in
    let deltaUsrTime := u64 (usageUsr - lastUsrTime m) in
    let deltaSysTime := u64 (usageSys - lastSysTime m) in
    let deltaUsageSum := cpuCount * Cpuidle.Microseconds elapsed in
    if (deltaUsageSum <? deltaTotal) || (deltaUsageSum <? u64 (deltaUsrTime + deltaSysTime)) then
      Ok (mk_metric usageUsr usageSys usageTotal now (utilTotal m) (utilSys m) (utilUsr m))
    else
      Ok (mk_metric usageUsr usageSys usageTotal now
            (percent deltaTotal deltaUsageSum) (percent deltaSysTime deltaUsageSum)
            (percent deltaUsrTime deltaUsageSum)).

(** The collector: the life resources of the containers by their ID, and the
    host's metric. *)
Record cpuUtilCollector := mk_collector
  { resources : gmap string cpuMetric; hostCPUCount : Z; hostCPUMetric : cpuMetric }.

(** [None] is the panic of a division by a period of 0. *)
Definition container_count (q : CpuQuota) : option Z :=
  if Period q =? 0 then None else Some (s64 (Quota q / Period q)).

Definition gauges (id : option string) (m : cpuMetric) : list Data :=
  [mk_data id "usr" (utilUsr m); mk_data id "sys" (utilSys m); mk_data id "total" (utilTotal m)].

(** One pass of the loop: the metrics of a container; [None] is the panic. *)
Definition update_container (f : fs) (now : option string -> Z) (ct : Container)
    (res : gmap string cpuMetric) : option (gmap string cpuMetric * list Data) :=
  match CpuQuotaAndPeriod c f (Cpuidle.CgroupSuffix ct) with
  | Err _ => Some (res, [])
  | Ok q =>
      if Quota q =? MaxUint64 then Some (res, [])
      else
        count ← container_count q;
        let id := Cpuidle.ID ct in
        match cpuMetricUpdate f (now (Some id)) (Cpuidle.CgroupSuffix ct) count
                (default new_metric (res !! id)) with
        | Err _ => Some (res, [])
        | Ok m => Some (<[id := m]> res, mk_data (Some id) "count" (Num (inject_Z count)) :: gauges (Some id) m)
        end
  end.

Fixpoint update_containers (f : fs) (now : option string -> Z) (cts : list Container)
    (res : gmap string cpuMetric) : option (gmap string cpuMetric * list Data) :=
  match cts with
  | [] => Some (res, [])
  | ct :: cts' =>
      '(res, ms) ← update_container f now ct res;
      '(res, ms') ← update_containers f now cts' res;
      Some (res, ms ++ ms')
  end.

Inductive outcome := Metrics (ms : list Data) | Failed | Panicked.

(** [containers] is [None] where pod.GetContainersByType fails. *)
Definition Update (f : fs) (now : option string -> Z) (containers : option (list Container))
    (u : cpuUtilCollector) : cpuUtilCollector * outcome :=
  match containers with
  | None => (u, Failed)
  | Some cts =>
      match update_containers f now cts (resources u) with
      | None => (u, Panicked)
      | Some (res, ms) =>
          match cpuMetricUpdate f (now None) EmptyString (hostCPUCount u) (hostCPUMetric u) with
          | Err _ => (mk_collector res (hostCPUCount u) (hostCPUMetric u), Failed)
          | Ok m => (mk_collector res (hostCPUCount u) m, Metrics (ms ++ gauges None m))
          end
      end
  end.

(** ** Lemmas *)

(** The total of an update is in range whatever the files hold. *)
Lemma update_range f now path n m m' :
  cpuMetricUpdate f now path n m = Ok m' -> in_percent (utilTotal m) -> in_percent (utilTotal m').
Proof.
  unfold cpuMetricUpdate. intros E Hm. destruct (_ <? 1000000000); [by simplify_eq|].
  destruct (cpuUsage c f path) as [s|]; [|done]. cbn [mbind result_bind] in E.
  destruct (Z.ltb_spec (n * Cpuidle.Microseconds (Cpuidle.Sub now (lasTimestamp m)))
    (u64 (Usage s - lastCPUTotal m))) as [|Hle]; cbn [orb] in E; [by simplify_eq|].
  destruct (_ <? u64 (_ + _)); simplify_eq; [done|]. cbn [utilTotal].
  apply percent_range. pose proof (u64_range (Usage s - lastCPUTotal m)) as [? _]. done.
Qed.

Definition wf (u : cpuUtilCollector) : Prop :=
  map_Forall (fun _ m => in_percent (utilTotal m)) (resources u) /\ in_percent (utilTotal (hostCPUMetric u)).

(** Every total among the gauges is in range. *)
Definition totals_ok (ms : list Data) : Prop :=
  Forall (fun d => metric_name d = "total"%string -> in_percent (value d)) ms.

Lemma gauges_ok id m : in_percent (utilTotal m) -> totals_ok (gauges id m).
Proof. intros Hm. unfold totals_ok, gauges. repeat (constructor; [done|]). constructor. Qed.

Lemma update_container_ok f now ct res res' ms :
  map_Forall (fun _ m => in_percent (utilTotal m)) res ->
  update_container f now ct res = Some (res', ms) ->
  map_Forall (fun _ m => in_percent (utilTotal m)) res' /\ totals_ok ms.
Proof.
  intros Hres. unfold update_container.
  destruct (CpuQuotaAndPeriod _ _ _) as [q|]; [|intros [= <- <-]; split; [done | constructor]].
  destruct (_ =? MaxUint64); [intros [= <- <-]; split; [done | constructor]|].
  destruct (container_count q) as [n|]; [|done]. cbn [mbind option_bind].
  destruct (cpuMetricUpdate _ _ _ _ _) as [m|] eqn:E; intros [= <- <-]; [|split; [done | constructor]].
  assert (in_percent (utilTotal m)) as Hm.
  { apply (update_range _ _ _ _ _ _ E). destruct (res !! Cpuidle.ID ct) as [m0|] eqn:E0; cbn.
    - apply (map_Forall_lookup_1 _ _ _ _ Hres E0).
    - by split. }
  split; [by apply map_Forall_insert_2|]. constructor; [done | by apply gauges_ok].
Qed.

Lemma update_containers_ok f now cts : forall res res' ms,
  map_Forall (fun _ m => in_percent (utilTotal m)) res ->
  update_containers f now cts res = Some (res', ms) ->
  map_Forall (fun _ m => in_percent (utilTotal m)) res' /\ totals_ok ms.
Proof.
  induction cts as [|ct cts IH]; intros res res' ms Hres; cbn [update_containers].
  - intros [= <- <-]. split; [done | constructor].
  - destruct (update_container f now ct res) as [[res1 ms1]|] eqn:E1; [|done]. cbn [mbind option_bind].
    destruct (update_containers f now cts res1) as [[res2 ms2]|] eqn:E2; [|done]. cbn [mbind option_bind].
    intros [= <- <-]. apply update_container_ok in E1 as [H1 Hm1]; [|done].
    apply IH in E2 as [H2 Hm2]; [|done]. split; [done | by apply Forall_app].
Qed.

Lemma Update_wf f now cts u :
  wf u -> wf (Update f now cts u).1 /\
    match (Update f now cts u).2 with Metrics ms => totals_ok ms | _ => True end.
Proof.
  intros [Hres Hhost]. unfold Update. destruct cts as [cts|]; [|done].
  destruct (update_containers f now cts (resources u)) as [[res ms]|] eqn:E; [|done].
  apply update_containers_ok in E as [Hr Hm]; [|done].
  destruct (cpuMetricUpdate _ _ _ _ _) as [m|] eqn:Em; [|done].
  apply update_range in Em; [|done]. split; [done|]. apply Forall_app. split; [done | by apply gauges_ok].
Qed.

(** A run: collections one after the other, each with the files, clocks and
    containers it finds. *)
Definition input : Type := fs * (option string -> Z) * option (list Container).
Fixpoint run (ins : list input) (u : cpuUtilCollector) : list outcome :=
  match ins with
  | [] => []
  | (f, now, cts) :: ins' =>
      let (u, o) := Update f now cts u in
      o :: match o with Panicked => [] | _ => run ins' u end
  end.

Definition start (hostCPUs : Z) : cpuUtilCollector := mk_collector ∅ hostCPUs new_metric.

Lemma run_ok ins : forall u, wf u ->
  Forall (fun o => match o with Metrics ms => totals_ok ms | _ => True end) (run ins u).
Proof.
  induction ins as [|[[f now] cts] ins IH]; intros u Hu; [constructor|]. cbn [run].
  destruct (Update_wf f now cts u Hu) as [Hu' Ho]. destruct (Update f now cts u) as [u' o]. cbn [fst snd] in *.
  constructor; [done|]. destruct o; [by apply IH.. | constructor].
Qed.

(** ** Theorems *)

(** C37: range of the utilisation: over any run of collections, whatever the cgroup
    files, clocks and containers, every total utilisation reported for a
    container or the host is NaN or between 0 and 100 percent. *)
Theorem cpu_util_range ins hostCPUs :
  Forall (fun o => match o with Metrics ms => totals_ok ms | _ => True end) (run ins (start hostCPUs)).
Proof. apply run_ok. split; [apply map_Forall_empty | by split]. Qed.

(** Updates of a container whose quota is below one core. *)
Lemma small_quota_update f now path m m' :
  (utilTotal m = zero \/ utilTotal m = NaN) -> cpuMetricUpdate f now path 0 m = Ok m' ->
  utilTotal m' = zero \/ utilTotal m' = NaN.
Proof.
  unfold cpuMetricUpdate. intros Hm E. destruct (_ <? 1000000000); [by simplify_eq|].
  destruct (cpuUsage c f path) as [s|]; [|done]. cbn [mbind result_bind] in E.
  destruct (_ || _); simplify_eq; [done|]. by right.
Qed.

(** A container with a quota below one core has no utilisation: whatever it
    uses, every update leaves its total 0, or NaN. *)
Theorem cpu_util_small_quota path (ticks : list (fs * Z)) m' :
  foldr (fun t r => m ← r; cpuMetricUpdate t.1 t.2 path 0 m) (Ok new_metric) ticks = Ok m' ->
  utilTotal m' = zero \/ utilTotal m' = NaN.
Proof.
  revert m'. induction ticks as [|[f now] ticks IH]; intros m'; cbn [foldr]; [intros [= <-]; by left|].
  destruct (foldr _ _ ticks) as [m|]; [|done]. cbn [mbind result_bind fst snd]. apply small_quota_update. by apply IH.
Qed.

End Manager.

Section Reads.
Context `{CgroupReads C} (c : C).

(** What a metric holds after it saw the group at a time. *)
Definition saw (m : cpuMetric) (g : group) (t : Z) : Prop :=
  lastUsrTime m = rounded (grain c) (g_user g) /\ lastSysTime m = rounded (grain c) (g_system g) /\
  lastCPUTotal m = g_total g / 1000 /\ lasTimestamp m = t.

Lemma delta_rounded k t t' : 0 < k -> is_u 64 t -> is_u 64 t' -> t <= t' ->
  u64 (rounded k t' - rounded k t) = rounded k t' - rounded k t /\ 0 <= rounded k t' - rounded k t < 2 ^ 55.
Proof.
  intros Hk Ht Ht' Hle. pose proof (Cpuidle.rounded_bound k t Hk Ht).
  pose proof (Cpuidle.rounded_bound k t' Hk Ht').
  pose proof (Cpuidle.rounded_mono k t t' Hk ltac:(unfold is_u in *; lia)).
  rewrite u64_small by (unfold is_u; lia). lia.
Qed.

(** Exact utilisation, for any manager that keeps the interface's promise: an
    update a second or more after the one that saw the group as [g0] sees it
    as [g]; if the group used at most the time of its cores since, the
    utilisations are its times over that time, in percent, and user and system
    add up to at most 100; else the old utilisations stay. *)
Theorem cpu_util_exact f path g0 g n m t :
  group_ok g0 -> group_ok g -> saw m g0 (lasTimestamp m) -> shows c f path g ->
  g_user g0 <= g_user g -> g_system g0 <= g_system g -> g_total g0 <= g_total g ->
  1000000000 <= t - lasTimestamp m < 2 ^ 63 ->
  let dt := g_total g / 1000 - g_total g0 / 1000 in
  let du := rounded (grain c) (g_user g) - rounded (grain c) (g_user g0) in
  let ds := rounded (grain c) (g_system g) - rounded (grain c) (g_system g0) in
  let sum := n * ((t - lasTimestamp m) / 1000) in
  exists m', cpuMetricUpdate c f t path n m = Ok m' /\ saw m' g t /\
    (dt <= sum -> du + ds <= sum ->
       utilTotal m' = percent dt sum /\ utilUsr m' = percent du sum /\ utilSys m' = percent ds sum /\
       in_percent (percent (du + ds) sum)) /\
    (sum < dt \/ sum < du + ds ->
       utilTotal m' = utilTotal m /\ utilUsr m' = utilUsr m /\ utilSys m' = utilSys m).
Proof.
  intros Hg0 Hg (Eu & Es & Et & _) Hf Hu Hs Ht Hnow dt du ds sum.
  pose proof Hg0 as (_ & _ & Iu0 & Is0 & It0 & _). pose proof Hg as (_ & _ & Iu & Is & It & _).
  assert (0 < grain c) as Hk by (pose proof (grain_ok c); lia).
  destruct (delta_rounded (grain c) _ _ Hk Iu0 Iu Hu) as [Du Bu].
  destruct (delta_rounded (grain c) _ _ Hk Is0 Is Hs) as [Ds Bs].
  destruct (delta_rounded 1 _ _ ltac:(lia) It0 It Ht) as [Dt Bt]. rewrite !rounded_1 in Dt, Bt.
  assert (Cpuidle.Sub t (lasTimestamp m) = t - lasTimestamp m) as Hsub by (unfold Cpuidle.Sub; lia).
  unfold cpuMetricUpdate. rewrite Hsub. destruct (Z.ltb_spec (t - lasTimestamp m) 1000000000); [lia|].
  rewrite (reads_usage c f path g Hg Hf). cbn [mbind result_bind Usage User System].
  rewrite Eu, Es, Et, Du, Ds, Dt. unfold Cpuidle.Microseconds. rewrite Z.quot_div_nonneg by lia. fold sum dt du ds.
  fold dt in Bt. fold du in Bu. fold ds in Bs. rewrite (u64_small (du + ds)) by (unfold is_u; lia).
  destruct (Z.ltb_spec sum dt), (Z.ltb_spec sum (du + ds)); cbn [orb]; eexists; (split; [reflexivity|]);
    (split; [done|]); (split; [intros; try lia | intros; try lia]); try done.
  split_and!; try done. apply percent_range. lia.
Qed.

End Reads.

(** ** Examples *)

Lemma cpu_util_small_quota_witness :
  exists m', cpuMetricUpdate (inl V1.New : manager) (files_v1 "/pod/c1" group0) 1000000000 "/pod/c1" 0 new_metric = Ok m' /\
    (utilTotal m' = zero \/ utilTotal m' = NaN).
Proof.
  eexists. split; [vm_compute; reflexivity|].
  apply (cpu_util_small_quota (inl V1.New : manager) "/pod/c1" [(files_v1 "/pod/c1" group0, 1000000000)]).
  vm_compute. reflexivity.
Defined.

(** 1.5 s of CPU time on two cores in a second. *)
Definition saw0 : cpuMetric := mk_metric 1234567 987654 2222222 5000000000 zero zero zero.

Lemma cpu_util_exact_witness :
  exists m', cpuMetricUpdate (inr V2.New : manager) (files_v2 "/pod/c1" Cpuidle.group1) 6000000000 "/pod/c1" 2 saw0 = Ok m' /\
    utilTotal m' = percent 1500000 2000000.
Proof.
  destruct (cpu_util_exact (inr V2.New : manager) (files_v2 "/pod/c1" Cpuidle.group1) "/pod/c1" group0 Cpuidle.group1 2
    saw0 6000000000 group0_ok Cpuidle.group1_ok) as (m' & E & _ & Hu & _).
  - vm_compute. split_and!; reflexivity.
  - exact Cpuidle.shows_group1.
  - vm_compute. discriminate.
  - vm_compute. discriminate.
  - vm_compute. discriminate.
  - vm_compute. split; [discriminate | reflexivity].
  - exists m'. split; [exact E|]. apply Hu; vm_compute; discriminate.
Defined.

End CpuUtil.
