(* ===== verification/CpuStat.v ===== *)
(** * core/metrics/cpu_stat.go: wait rates of the containers

    The collector turns the wait times of cpu.stat into rates of the wait and
    run time. It reads the cgroup through the interface of CgroupFs, so the
    theorems hold for either version. Times are nanoseconds since Go's zero
    time. *)
From S2P Require Import Prelude Parseutil CgroupFs CgroupV1 CgroupV2 Cgroups Cpuidle Gauge.
From stdpp Require Import base gmap list strings.
From Stdlib Require Import ZArith Lia QArith Lqa.

Open Scope Z_scope.

Module CpuStat.

Record cpuStat := mk_stat
  { nrThrottled : Z; throttledTime : Z; nrBursts : Z; burstTime : Z;
    hierarchyWaitSum : Z; innerWaitSum : Z; cpuTotal : Z;
    waitrateHierarchy : float; waitrateInner : float; waitrateExter : float; waitrateThrottled : float;
    lastUpdate : Z }.
Definition new_stat : cpuStat := mk_stat 0 0 0 0 0 0 0 zero zero zero zero 0.

(** The differences of the wait times: hierarchy, inner, external and
    throttled. *)
Record waits := mk_waits { hierarchy : Z; inner : Z; exter : Z; throttled : Z }.

Definition deltas (hier inn thr : Z) (cpu : cpuStat) : waits :=
  let deltaHierarchyWaitSum := u64 (hier - hierarchyWaitSum cpu) in
  if deltaHierarchyWaitSum <=? 0 then mk_waits 0 0 0 0
  else
    let deltaThrottledSum := u64 (thr - throttledTime cpu) in
    let deltaInnerWaitSum := u64 (inn - innerWaitSum cpu) in
    let deltaHierarchyWaitSum :=
      if deltaHierarchyWaitSum <? u64 (deltaThrottledSum + deltaInnerWaitSum)
      then u64 (deltaThrottledSum + deltaInnerWaitSum) else deltaHierarchyWaitSum in
    mk_waits deltaHierarchyWaitSum deltaInnerWaitSum
      (u64 (u64 (deltaHierarchyWaitSum - deltaThrottledSum) - deltaInnerWaitSum)) deltaThrottledSum.

Definition rate (x sum : Z) : float := if sum =? 0 then zero else percent x sum.

Section Manager.
Context `{Cgroup C} (c : C).

Definition cpuMetricUpdate (f : fs) (now : Z) (path : string) (cpu : cpuStat) : result cpuStat :=
  if Cpuidle.Sub now (lastUpdate cpu) <? 1000000000 then Ok cpu
  else
    raw ← CpuStatRaw c f path;
    usage ← cpuUsage c f path;
    let total := u64 (Usage usage * 1000) in
    let d := deltas (index raw "hierarchy_wait_sum") (index raw "inner_wait_sum") (index raw "throttled_time") cpu in
    let deltaWaitRunSum := u64 (u64 (hierarchy d + total) - cpuTotal cpu) in
    Ok (mk_stat (index raw "nr_throttled") (index raw "throttled_time") (index raw "nr_bursts")
          (index raw "burst_time") (index raw "hierarchy_wait_sum") (index raw "inner_wait_sum") total
          (rate (hierarchy d) deltaWaitRunSum) (rate (inner d) deltaWaitRunSum)
          (rate (exter d) deltaWaitRunSum) (rate (throttled d) deltaWaitRunSum) now).

Definition gauges (id : string) (s : cpuStat) : list Data :=
  [mk_data (Some id) "wait_rate" (waitrateHierarchy s); mk_data (Some id) "inner_wait_rate" (waitrateInner s);
   mk_data (Some id) "exter_wait_rate" (waitrateExter s); mk_data (Some id) "throttle_wait_rate" (waitrateThrottled s);
   mk_data (Some id) "nr_throttled" (Num (inject_Z (nrThrottled s)));
   mk_data (Some id) "nr_bursts" (Num (inject_Z (nrBursts s)));
   mk_data (Some id) "burst_time" (Num (inject_Z (burstTime s)))].

(** The loop of Update, over the life resources of the containers by ID. *)
Fixpoint update_containers (f : fs) (now : string -> Z) (cts : list Container) (res : gmap string cpuStat)
    : gmap string cpuStat * list Data :=
  match cts with
  | [] => (res, [])
  | ct :: cts' =>
      let id := Cpuidle.ID ct in
      match cpuMetricUpdate f (now id) (Cpuidle.CgroupSuffix ct) (default new_stat (res !! id)) with
      | Err _ => update_containers f now cts' res
      | Ok s =>
          let (res, ms) := update_containers f now cts' (<[id := s]> res) in (res, gauges id s ++ ms)
      end
  end.

(** [None] is the error of pod.GetContainersByType. *)
Definition Update (f : fs) (now : string -> Z) (containers : option (list Container))
    (res : gmap string cpuStat) : gmap string cpuStat * option (list Data) :=
  match containers with
  | None => (res, None)
  | Some cts => let (res, ms) := update_containers f now cts res in (res, Some ms)
  end.

End Manager.

(** ** Lemmas *)

(** The wait times of a group, in nanoseconds. *)
Record wait_times := mk_times { w_hierarchy : Z; w_inner : Z; w_throttled : Z }.
Definition has_waits (g : group) (w : wait_times) : Prop :=
  ("hierarchy_wait_sum"%string, w_hierarchy w) ∈ g_stat g /\ ("inner_wait_sum"%string, w_inner w) ∈ g_stat g /\
  ("throttled_time"%string, w_throttled w) ∈ g_stat g.

(** The waits between two readings. *)
Definition waited (w0 w : wait_times) : waits :=
  let dh := w_hierarchy w - w_hierarchy w0 in
  let di := w_inner w - w_inner w0 in
  let dth := w_throttled w - w_throttled w0 in
  if dh =? 0 then mk_waits 0 0 0 0 else let h := Z.max dh (dth + di) in mk_waits h di (h - dth - di) dth.

Definition grew (w0 w : wait_times) : Prop :=
  0 <= w_hierarchy w0 <= w_hierarchy w /\ 0 <= w_inner w0 <= w_inner w /\ 0 <= w_throttled w0 <= w_throttled w /\
  w_hierarchy w < 2 ^ 62 /\ w_inner w < 2 ^ 62 /\ w_throttled w < 2 ^ 62.

Definition remembers (cpu : cpuStat) (w : wait_times) : Prop :=
  hierarchyWaitSum cpu = w_hierarchy w /\ innerWaitSum cpu = w_inner w /\ throttledTime cpu = w_throttled w.

Lemma deltas_exact cpu w0 w : remembers cpu w0 -> grew w0 w ->
  deltas (w_hierarchy w) (w_inner w) (w_throttled w) cpu = waited w0 w.
Proof.
  intros (Eh & Ei & Et) (Hh & Hi & Ht & Bh & Bi & Bt). unfold deltas, waited. rewrite Eh, Ei, Et.
  rewrite !(u64_small (_ - w_hierarchy w0)), !(u64_small (_ - w_inner w0)), !(u64_small (_ - w_throttled w0))
    by (unfold is_u; lia).
  rewrite !(u64_small (_ + _)) by (unfold is_u; lia).
  destruct (Z.leb_spec (w_hierarchy w - w_hierarchy w0) 0), (Z.eqb_spec (w_hierarchy w - w_hierarchy w0) 0); try lia; [done|].
  destruct (Z.ltb_spec (w_hierarchy w - w_hierarchy w0)
    (w_throttled w - w_throttled w0 + (w_inner w - w_inner w0))).
  - rewrite Z.max_r by lia. rewrite !u64_small; unfold is_u; f_equal; rewrite ?u64_small; unfold is_u; lia.
  - rewrite Z.max_l by lia. rewrite !u64_small; unfold is_u; f_equal; rewrite ?u64_small; unfold is_u; lia.
Qed.

Lemma waited_sum w0 w : grew w0 w ->
  let d := waited w0 w in
  hierarchy d = inner d + exter d + throttled d /\ 0 <= inner d /\ 0 <= exter d /\ 0 <= throttled d /\
  hierarchy d < 2 ^ 63.
Proof.
  intros (Hh & Hi & Ht & ?). unfold waited. destruct (_ =? 0); cbn; lia.
Qed.

(** The rational of a rate. *)
Definition frac (x : float) : Q := match x with NaN => 0 | Num q => q end.

Lemma rate_add x y z sum : (frac (rate (x + y + z) sum) == frac (rate x sum) + frac (rate y sum) + frac (rate z sum))%Q.
Proof.
  unfold rate, percent. destruct (Z.eqb_spec sum 0); cbn [frac zero]; [ring|]. rewrite !inject_Z_plus. field.
  change 0%Q with (inject_Z 0). rewrite inject_Z_injective. done.
Qed.

Lemma rate_range x sum : 0 <= x <= sum -> (0 <= frac (rate x sum) <= 100)%Q.
Proof.
  intros Hx. unfold rate. destruct (Z.eqb_spec sum 0) as [|Hne]; [cbn; split; discriminate|].
  pose proof (percent_range x sum Hx) as Hr. unfold percent in *.
  rewrite (proj2 (Z.eqb_neq sum 0) Hne) in *. exact Hr.
Qed.

Section Reads.
Context `{CgroupReads C} (c : C).

(** ** Theorems *)

(** C38: wait rates, for any manager that keeps the interface's promise: an update a
    second or more after the one that remembered the wait times [w0] and the
    CPU time of [g0] succeeds; the four rates are between 0 and 100 percent,
    and the hierarchy's rate is the sum of the inner, external and throttled
    ones, whose shares are those of the waits over waits plus run time. *)
Theorem cpu_stat_rates f path g0 g w0 w cpu t :
  group_ok g -> shows c f path g -> has_waits g w -> remembers cpu w0 -> grew w0 w ->
  cpuTotal cpu = g_total g0 / 1000 * 1000 -> 0 <= g_total g0 <= g_total g -> g_total g < 2 ^ 63 ->
  1000000000 <= t - lastUpdate cpu < 2 ^ 63 ->
  let d := waited w0 w in
  let sum := hierarchy d + (g_total g / 1000 - g_total g0 / 1000) * 1000 in
  exists s, cpuMetricUpdate c f t path cpu = Ok s /\ remembers s w /\
    cpuTotal s = g_total g / 1000 * 1000 /\ lastUpdate s = t /\
    waitrateInner s = rate (inner d) sum /\ waitrateExter s = rate (exter d) sum /\
    waitrateThrottled s = rate (throttled d) sum /\
    (frac (waitrateHierarchy s) == frac (waitrateInner s) + frac (waitrateExter s) + frac (waitrateThrottled s))%Q /\
    Forall (fun x => 0 <= frac x <= 100)%Q
      [waitrateHierarchy s; waitrateInner s; waitrateExter s; waitrateThrottled s].
Proof.
  intros Hg Hf (Hh & Hi & Hth) Hrem Hgrew Htot Hle Hb Hnow d sum.
  destruct (waited_sum w0 w Hgrew) as (Hsum & H1 & H2 & H3 & H4). fold d in Hsum, H1, H2, H3, H4.
  destruct (reads_stat c f path g _ _ Hg Hf Hh) as (raw & Eraw & Ih).
  destruct (reads_stat c f path g _ _ Hg Hf Hi) as (raw1 & E1 & Ii).
  destruct (reads_stat c f path g _ _ Hg Hf Hth) as (raw2 & E2 & It).
  rewrite Eraw in E1, E2. injection E1 as <-. injection E2 as <-.
  assert (Cpuidle.Sub t (lastUpdate cpu) = t - lastUpdate cpu) as Hsub by (unfold Cpuidle.Sub; lia).
  unfold cpuMetricUpdate. rewrite Hsub. destruct (Z.ltb_spec (t - lastUpdate cpu) 1000000000); [lia|].
  rewrite Eraw. cbn [mbind result_bind]. rewrite (reads_usage c f path g Hg Hf). cbn [mbind result_bind Usage].
  rewrite Ih, Ii, It, (deltas_exact cpu w0 w Hrem Hgrew). fold d.
  pose proof (Z.div_mod (g_total g) 1000 ltac:(lia)). pose proof (Z.mod_pos_bound (g_total g) 1000 ltac:(lia)).
  pose proof (Z.div_le_mono (g_total g0) (g_total g) 1000 ltac:(lia) ltac:(lia)).
  pose proof (Z.div_pos (g_total g0) 1000 ltac:(lia) ltac:(lia)).
  rewrite (u64_small (g_total g / 1000 * 1000)) by (unfold is_u; lia).
  rewrite (u64_small (hierarchy d + _)) by (unfold is_u; lia).
  replace (u64 _) with sum by (rewrite u64_small; unfold is_u; lia).
  eexists. split; [reflexivity|].
  cbn [cpuTotal lastUpdate waitrateInner waitrateExter waitrateThrottled waitrateHierarchy].
  split; [done|]. do 5 (split; [done|]). split; [rewrite Hsum; apply rate_add|].
  repeat (constructor; [apply rate_range; lia|]). constructor.
Qed.

(** A cpu.stat without hierarchy_wait_sum, that of a kernel that does not keep
    it, gives wait rates of 0. *)
Theorem cpu_stat_absent f path t cpu s raw :
  CpuStatRaw c f path = Ok raw -> raw !! "hierarchy_wait_sum"%string = None -> hierarchyWaitSum cpu = 0 ->
  cpuMetricUpdate c f t path cpu = Ok s -> s = cpu \/
  Forall (fun x => frac x == 0)%Q [waitrateHierarchy s; waitrateInner s; waitrateExter s; waitrateThrottled s].
Proof.
  intros Eraw Hno Hz. unfold cpuMetricUpdate. destruct (_ <? 1000000000); [intros [= <-]; by left|].
  rewrite Eraw. cbn [mbind result_bind]. destruct (cpuUsage c f path) as [u|]; [|done]. cbn [mbind result_bind].
  assert (index raw "hierarchy_wait_sum" = 0) as -> by (unfold index; by rewrite Hno).
  unfold deltas. rewrite Hz. change (u64 (0 - 0) <=? 0) with true. cbv iota zeta. intros [= <-]. right.
  cbn [waitrateHierarchy waitrateInner waitrateExter waitrateThrottled hierarchy inner exter throttled].
  assert (forall sum, frac (rate 0 sum) == 0)%Q as Hr.
  { intros sum. unfold rate, percent. destruct (sum =? 0); cbn [frac zero]; [reflexivity|].
    change (inject_Z 0) with 0%Q. unfold Qdiv. ring. }
  repeat (constructor; [apply Hr|]). constructor.
Qed.

End Reads.

(** ** Examples *)

(** A group with wait times: 1 s of CPU time and 0.5 s of waits later. *)
Definition group_w (total : Z) (w : wait_times) : group :=
  mk_group (Some 200000) 100000 total 0 total 4096000 (Some 8192000) [1]
    [("hierarchy_wait_sum"%string, w_hierarchy w); ("inner_wait_sum"%string, w_inner w);
     ("throttled_time"%string, w_throttled w)].
Definition w0 : wait_times := mk_times 1000000000 400000000 100000000.
Definition w1 : wait_times := mk_times 1500000000 600000000 200000000.

Lemma group_w_ok total w :
  is_u 64 total -> is_u 64 (w_hierarchy w) -> is_u 64 (w_inner w) -> is_u 64 (w_throttled w) -> group_ok (group_w total w).
Proof.
  intros Ht H1 H2 H3. unfold group_ok, group_w.
  cbn [g_quota g_period g_user g_system g_total g_memory g_limit g_pids g_stat].
  split; [intros ? [= <-]; lia|]. split; [unfold is_u; lia|]. split; [done|]. split; [unfold is_u; lia|].
  split; [done|]. split; [unfold is_u; lia|]. split; [intros ? [= <-]; unfold is_u; lia|]. split; [|split].
  - repeat (constructor; [lia|]). constructor.
  - repeat (constructor; [apply kv_ok_small; [by apply (bool_decide_unpack _) | cbn; lia | done]|]). constructor.
  - by apply (bool_decide_unpack _).
Qed.

Lemma shows_group_w : manager_shows (inl V1.New) (files_v1 "/pod/c1" (group_w 3000000000 w1)) "/pod/c1" (group_w 3000000000 w1).
Proof. constructor; vm_compute; reflexivity. Qed.

Definition stat0 : cpuStat :=
  mk_stat 0 100000000 0 0 1000000000 400000000 2000000000 zero zero zero zero 5000000000.

Lemma cpu_stat_rates_witness :
  exists s, cpuMetricUpdate (inl V1.New : manager) (files_v1 "/pod/c1" (group_w 3000000000 w1)) 6000000000 "/pod/c1" stat0 = Ok s /\
    waitrateInner s = rate 200000000 1500000000 /\
    (frac (waitrateHierarchy s) == frac (waitrateInner s) + frac (waitrateExter s) + frac (waitrateThrottled s))%Q.
Proof.
  destruct (cpu_stat_rates (inl V1.New : manager) (files_v1 "/pod/c1" (group_w 3000000000 w1)) "/pod/c1"
    (group_w 2000000000 w0) (group_w 3000000000 w1) w0 w1 stat0 6000000000) as (s & E & _ & _ & _ & Ei & _ & _ & Hs & _).
  - apply group_w_ok; unfold is_u; cbn; lia.
  - exact shows_group_w.
  - unfold has_waits. cbn. set_solver.
  - done.
  - unfold grew. cbn. lia.
  - reflexivity.
  - cbn. lia.
  - cbn. lia.
  - cbn. lia.
  - exists s. split; [exact E|]. split; [exact Ei | exact Hs].
Defined.

(** The guard against a wait sum that went back compares an unsigned number
    with 0: a decrease of one nanosecond is taken for a wait of 2^64 - 1. *)
Example wait_sum_went_back :
  let d := deltas 999999999 400000000 100000000 stat0 in
  hierarchy d = 2 ^ 64 - 1 /\ exter d = 2 ^ 64 - 1.
Proof. vm_compute. split; reflexivity. Qed.

End CpuStat.
