(* ===== verification/Memburst.v ===== *)
(** * core/autotracing/memburst.go: bursts of anonymous memory

    The tracer samples Active(anon) + Inactive(anon) of /proc/meminfo into a
    circular buffer, reports the processes with most memory when the newest
    sample is a multiple of the oldest one and above a share of all memory, and
    then keeps silent for a while.

    The burst ratio is a fraction; the code's float64 product is not rounded
    here. Times are nanoseconds. *)
From S2P Require Import Prelude Text.
From stdpp Require Import base gmap list strings sorting.
From Stdlib Require Import ZArith Lia Ascii Sorted.

Open Scope Z_scope.

Module Memburst.

(** ** /proc/meminfo *)

(** readMemInfo over the fields of each line; [None] is the error of strconv.Atoi. *)
Fixpoint readMemInfo (requiredKeys : gset string) (lines : list (list string)) (results : gmap string Z)
    : option (gmap string Z) :=
  match lines with
  | [] => Some results
  | (f0 :: f1 :: _) :: lines' =>
      let key := Text.Trim f0 [":"%char] in
      if bool_decide (key ∈ requiredKeys) then
        match Text.ParseInt (Text.Trim f1 [" "; "k"; "B"]%char) with
        | None => None
        | Some value =>
            let results := <[key := value]> results in
            if Nat.eqb (size results) (size requiredKeys) then Some results
            else readMemInfo requiredKeys lines' results
        end
      else readMemInfo requiredKeys lines' results
  | _ :: lines' => readMemInfo requiredKeys lines' results
  end.

(** A missing key reads as 0. *)
Definition get (m : gmap string Z) (k : string) : Z := default 0 (m !! k).

(** ** Processes *)

Record ProcessMemoryInfo := mk_process { PID : Z; ProcessName : string; MemorySize : Z }.
#[global] Instance ProcessMemoryInfo_eq_dec : EqDecision ProcessMemoryInfo.
Proof. solve_decision. Defined.
Definition by_memory (a b : ProcessMemoryInfo) : Prop := MemorySize b <= MemorySize a.

Section Tracer.
(** sort.Sort(ByMemory(_)), which may reorder processes of equal size. *)
Context (sort : list ProcessMemoryInfo -> list ProcessMemoryInfo).

(** What the process table answers for one process: its pid, and its name and
    resident size where they can be read. *)
Definition proc : Type := Z * option string * option Z.
Definition read_proc (p : proc) : option ProcessMemoryInfo :=
  let '(pid, name, rss) := p in
  match rss, name with
  | Some rss, Some name => Some (mk_process pid name rss)
  | _, _ => None
  end.

Definition getTopMemoryProcesses (topN : nat) (processes : option (list proc))
    : option (list ProcessMemoryInfo) :=
  match processes with
  | None => None
  | Some ps =>
      let pmInfos := sort (omap read_proc ps) in
      Some (if Nat.ltb (length pmInfos) topN then pmInfos else take topN pmInfos)
  end.

(** ** The check *)

(** The configuration, with memTotal, which Start reads: BurstRatio is
    ratio_num / ratio_den. *)
Record config := mk_config
  { historyWindowLength : nat; topNProcesses : nat; ratio_num : Z; ratio_den : Z;
    anonThreshold : Z; memTotal : Z; silencePeriod : Z }.

Record state := mk_state { currentIndex : nat; isHistoryFull : bool; history : list Z }.

(** What a sample finds: the lines of /proc/meminfo ([None] if it cannot be
    read) and the process table. *)
Record sample := mk_sample { meminfo : option (list (list string)); processes : option (list proc) }.

Definition anon_keys : gset string := {["Active(anon)"; "Inactive(anon)"]}%string.

Definition currentSum (s : sample) : option Z :=
  lines ← meminfo s; m ← readMemInfo anon_keys lines ∅;
  Some (s64 (get m "Active(anon)" + get m "Inactive(anon)")).

Definition burst (cfg : config) (current oldest : Z) : bool :=
  (ratio_num cfg * oldest <=? ratio_den cfg * current) &&
  (Z.quot (s64 (anonThreshold cfg * memTotal cfg)) 100 <=? current).

Inductive checked :=
| Checked (top : list ProcessMemoryInfo) (st : state)
| CheckErr
| CheckPanic.

Definition checkAndRecordMemoryUsage (cfg : config) (s : sample) (st : state) : checked :=
  match currentSum s with
  | None => Checked [] st
  | Some current =>
      let W := historyWindowLength cfg in
      if Nat.leb (length (history st)) (currentIndex st) then CheckPanic
      else
        let hist := <[currentIndex st := current]> (history st) in
        let full := if Nat.eqb (S (currentIndex st)) W then true else isHistoryFull st in
        let idx := (S (currentIndex st) mod W)%nat in
        let st := mk_state idx full hist in
        if full then
          match hist !! idx with
          | None => CheckPanic
          | Some oldest =>
              if burst cfg current oldest then
                match getTopMemoryProcesses (topNProcesses cfg) (processes s) with
                | Some top => Checked top st
                | None => CheckErr
                end
              else Checked [] st
          end
        else Checked [] st
  end.

Definition init (cfg : config) : state :=
  mk_state 0 false (replicate (historyWindowLength cfg) 0).

(** ** Start *)

(** A tick of the ticker, with the context's state and the time after it. *)
Record tick := mk_tick { tick_sample : sample; ctx_done : bool; now : Z }.

Inductive exit := Stopped | Failed | Panicked | Running.

(** The loop from a state: the reports saved with their times, and how it
    ended. *)
Fixpoint loop (cfg : config) (ticks : list tick) (lastReportTime : Z) (st : state)
    : list (Z * list ProcessMemoryInfo) * exit :=
  match ticks with
  | [] => ([], Running)
  | t :: ticks' =>
      match checkAndRecordMemoryUsage cfg (tick_sample t) st with
      | CheckPanic => ([], Panicked)
      | CheckErr => ([], Failed)
      | Checked top st =>
          if ctx_done t then ([], Stopped)
          else match top with
               | [] => loop cfg ticks' lastReportTime st
               | _ =>
                   if now t - lastReportTime <? silencePeriod cfg * 1000000000
                   then loop cfg ticks' lastReportTime st
                   else
                     let '(saved, e) := loop cfg ticks' (now t) st in
                     ((now t, top) :: saved, e)
               end
      end
  end.

(** [start] is the time at which Start runs and [first] its own sample. *)
Definition sampling (cfg : config) (start : Z) (first : sample) (ticks : list tick)
    : list (Z * list ProcessMemoryInfo) * exit :=
  match checkAndRecordMemoryUsage cfg first (init cfg) with
  | CheckPanic => ([], Panicked)
  | CheckErr => ([], Failed)
  | Checked _ st => loop cfg ticks (start - 24 * 3600 * 1000000000) st
  end.

(** memTotal from the lines [boot] of /proc/meminfo; [None] is an error. *)
Definition read_memTotal (boot : option (list (list string))) (cfg : config) : option config :=
  lines ← boot;
  memInfo ← readMemInfo {["MemTotal"%string]} lines ∅;
  Some (mk_config (historyWindowLength cfg) (topNProcesses cfg) (ratio_num cfg) (ratio_den cfg)
    (anonThreshold cfg) (get memInfo "MemTotal") (silencePeriod cfg)).

Definition Start (cfg : config) (boot : option (list (list string))) (start : Z) (first : sample) (ticks : list tick)
    : list (Z * list ProcessMemoryInfo) * exit :=
  match read_memTotal boot cfg with
  | None => ([], Failed)
  | Some cfg => sampling cfg start first ticks
  end.

(** ** What the tracer means to do *)

(** The same with all samples kept, newest last: the sample compared with is
    the one of [historyWindowLength] - 1 samples ago, if there is one. *)
Definition spec_check (cfg : config) (s : sample) (past : list Z) : option (list ProcessMemoryInfo) * list Z :=
  match currentSum s with
  | None => (Some [], past)
  | Some current =>
      let past := past ++ [current] in
      match decide (historyWindowLength cfg <= length past)%nat with
      | left _ =>
          if burst cfg current (nth (length past - historyWindowLength cfg) past 0)
          then (getTopMemoryProcesses (topNProcesses cfg) (processes s), past)
          else (Some [], past)
      | right _ => (Some [], past)
      end
  end.

Fixpoint spec_loop (cfg : config) (ticks : list tick) (lastReportTime : Z) (past : list Z)
    : list (Z * list ProcessMemoryInfo) * exit :=
  match ticks with
  | [] => ([], Running)
  | t :: ticks' =>
      match spec_check cfg (tick_sample t) past with
      | (None, _) => ([], Failed)
      | (Some top, past) =>
          if ctx_done t then ([], Stopped)
          else if bool_decide (top = []) || (now t - lastReportTime <? silencePeriod cfg * 1000000000)
          then spec_loop cfg ticks' lastReportTime past
          else
            let '(saved, e) := spec_loop cfg ticks' (now t) past in ((now t, top) :: saved, e)
      end
  end.

Definition spec_Start (cfg : config) (boot : option (list (list string))) (start : Z) (first : sample) (ticks : list tick)
    : list (Z * list ProcessMemoryInfo) * exit :=
  match read_memTotal boot cfg with
  | None => ([], Failed)
  | Some cfg =>
      match spec_check cfg first [] with
      | (None, _) => ([], Failed)
      | (Some _, past) => spec_loop cfg ticks (start - 24 * 3600 * 1000000000) past
      end
  end.
End Tracer.

(** ** The circular buffer *)

Section Ring.
Context (W : nat) (W_pos : (0 < W)%nat).

(** The state after the samples [past]. *)
Definition ring (past : list Z) (st : state) : Prop :=
  length (history st) = W /\ currentIndex st = (length past mod W)%nat /\
  isHistoryFull st = bool_decide (W <= length past)%nat /\
  forall k v, past !! k = Some v -> (length past <= k + W)%nat -> history st !! (k mod W)%nat = Some v.

Lemma mod_apart k n : (k < n < k + W)%nat -> (k mod W <> n mod W)%nat.
Proof.
  intros H E. pose proof (Nat.div_mod_eq k W). pose proof (Nat.div_mod_eq n W).
  assert (n - k = W * (n / W - k / W))%nat by nia. nia.
Qed.

Lemma mod_succ n : (S (n mod W) mod W = S n mod W)%nat.
Proof. rewrite <- Nat.add_1_r, Nat.Div0.add_mod_idemp_l. by rewrite Nat.add_1_r. Qed.

Lemma full_succ n : (W <= n)%nat \/ S (n mod W) = W <-> (W <= S n)%nat.
Proof.
  pose proof (Nat.mod_upper_bound n W ltac:(lia)). pose proof (Nat.div_mod_eq n W).
  destruct (Nat.le_gt_cases W n); [lia|]. rewrite Nat.mod_small by lia. lia.
Qed.

(** One sample. *)
Lemma ring_step past st current :
  ring past st ->
  let full := if Nat.eqb (S (currentIndex st)) W then true else isHistoryFull st in
  let st' := mk_state (S (currentIndex st) mod W)%nat full (<[currentIndex st := current]> (history st)) in
  (currentIndex st < length (history st))%nat /\ ring (past ++ [current]) st'.
Proof.
  intros (Hl & Hi & Hf & Hh). pose proof (Nat.mod_upper_bound (length past) W ltac:(lia)) as Hub.
  cbn zeta. split; [lia|]. unfold ring. cbn [currentIndex isHistoryFull history].
  rewrite length_insert, length_app, Nat.add_1_r. cbn [length]. split_and!.
  - done.
  - rewrite Hi. apply mod_succ.
  - pose proof (full_succ (length past)). rewrite Hf, Hi.
    destruct (Nat.eqb_spec (S (length past mod W)) W); symmetry.
    + apply bool_decide_eq_true_2. tauto.
    + apply bool_decide_ext. tauto.
  - intros k v Hk Hge. apply lookup_app_Some in Hk as [Hk|[Hle Hk]].
    + pose proof (lookup_lt_Some _ _ _ Hk). rewrite list_lookup_insert_ne.
      * apply Hh; [done | lia].
      * rewrite Hi. intros E. symmetry in E. revert E. apply mod_apart. lia.
    + assert (k = length past) as ->.
      { apply lookup_lt_Some in Hk. cbn [length] in Hk. lia. }
      rewrite Nat.sub_diag in Hk. injection Hk as <-. rewrite Hi. apply list_lookup_insert_eq. lia.
Qed.

(** The slot the check compares with. *)
Lemma ring_oldest past st :
  ring past st -> (W <= length past)%nat ->
  history st !! currentIndex st = Some (nth (length past - W) past 0).
Proof.
  intros (Hl & Hi & Hf & Hh) Hle. rewrite Hi.
  assert (past !! (length past - W)%nat = Some (nth (length past - W) past 0)) as E.
  { rewrite nth_lookup. destruct (lookup_lt_is_Some_2 past (length past - W)) as [v ->]; [lia | done]. }
  apply Hh in E; [|lia]. rewrite <- E. f_equal.
  rewrite <- (Nat.Div0.mod_add (length past - W) 1 W). f_equal. lia.
Qed.
End Ring.

Section Refine.
Context (sort : list ProcessMemoryInfo -> list ProcessMemoryInfo) (cfg : config).
Hypothesis window : (0 < historyWindowLength cfg)%nat.
#[local] Abbreviation W := (historyWindowLength cfg).

Lemma check_refines s past st :
  ring W past st ->
  match spec_check sort cfg s past with
  | (Some top, past') =>
      exists st', checkAndRecordMemoryUsage sort cfg s st = Checked top st' /\ ring W past' st'
  | (None, _) => checkAndRecordMemoryUsage sort cfg s st = CheckErr
  end.
Proof.
  intros Hr. unfold spec_check, checkAndRecordMemoryUsage. destruct (currentSum s) as [current|]; [|by eauto].
  destruct (ring_step W window past st current Hr) as [Hlt Hr'].
  rewrite (proj2 (Nat.leb_gt _ _) Hlt). cbn zeta in *.
  set (st' := mk_state _ _ _) in Hr'. pose proof (ring_oldest W window (past ++ [current]) st' Hr') as Ho.
  destruct (Hr') as (_ & _ & Hf & _). cbn [isHistoryFull st'] in Hf. unfold st' in Hr'. rewrite Hf in *.
  destruct (decide (W <= length (past ++ [current]))%nat) as [Hle|Hgt].
  - rewrite bool_decide_eq_true_2 in * by done. specialize (Ho Hle).
    cbn [st' history currentIndex] in Ho. rewrite Ho.
    destruct (burst cfg current _); [|by eexists].
    destruct (getTopMemoryProcesses sort _ _); [by eexists | done].
  - rewrite bool_decide_eq_false_2 in * by done. by eexists.
Qed.

Lemma loop_refines ticks : forall last past st,
  ring W past st -> loop sort cfg ticks last st = spec_loop sort cfg ticks last past.
Proof.
  induction ticks as [|t ticks IH]; intros last past st Hr; [done|]. cbn [loop spec_loop].
  pose proof (check_refines (tick_sample t) past st Hr) as Hc.
  destruct (spec_check sort cfg (tick_sample t) past) as [[top|] past']; [|by rewrite Hc].
  destruct Hc as (st' & -> & Hr'). destruct (ctx_done t); [done|].
  destruct top as [|p top]; [by apply IH|]. rewrite bool_decide_eq_false_2 by done. cbn [orb].
  destruct (_ <? _); [by apply IH|]. by rewrite (IH (now t) past' st').
Qed.

Lemma init_ring : ring W [] (init cfg).
Proof.
  unfold ring, init. cbn [history currentIndex isHistoryFull length]. rewrite length_replicate.
  split_and!; [done | by rewrite Nat.Div0.mod_0_l | symmetry; apply bool_decide_eq_false_2; lia |].
  intros k v. by rewrite lookup_nil.
Qed.
End Refine.

Lemma read_memTotal_window boot cfg cfg' :
  read_memTotal boot cfg = Some cfg' -> historyWindowLength cfg' = historyWindowLength cfg.
Proof. unfold read_memTotal. intros H. apply bind_Some in H as (l & _ & H). by apply bind_Some in H as (m & _ & [= <-]). Qed.

(** ** Theorems *)

(** C8: the circular buffer implements the window: for a positive window length,
    whatever the samples, the contexts and the clock are, Start saves exactly
    the reports of the specification that keeps every sample and compares the
    newest with the one of historyWindowLength - 1 samples before; it never
    panics. *)
Theorem memburst_refines sort cfg boot start first ticks :
  (0 < historyWindowLength cfg)%nat ->
  Start sort cfg boot start first ticks = spec_Start sort cfg boot start first ticks.
Proof.
  intros HW. unfold Start, spec_Start, sampling. destruct (read_memTotal boot cfg) as [cfg'|] eqn:E; [|reflexivity].
  rewrite <- (read_memTotal_window boot cfg cfg' E) in HW. clear E cfg. rename cfg' into cfg.
  pose proof (check_refines sort cfg HW first [] (init cfg) (init_ring cfg HW)) as Hc.
  destruct (spec_check sort cfg first []) as [[top|] past]; [|by rewrite Hc].
  destruct Hc as (st & -> & Hr). by apply loop_refines.
Qed.

(** A window of length 0 panics at the first sample that can be read. *)
Theorem memburst_zero_window sort cfg start first ticks sum :
  historyWindowLength cfg = 0%nat -> currentSum first = Some sum ->
  sampling sort cfg start first ticks = ([], Panicked).
Proof. intros HW Hs. unfold sampling, checkAndRecordMemoryUsage, init. by rewrite Hs, HW. Qed.

(** Silence: the saved reports are at least silencePeriod seconds apart. *)
Theorem memburst_silence sort cfg start first ticks :
  Sorted (fun a b => a + silencePeriod cfg * 1000000000 <= b) (fst <$> (sampling sort cfg start first ticks).1).
Proof.
  assert (forall ticks last st,
    Sorted (fun a b => a + silencePeriod cfg * 1000000000 <= b) (last :: (fst <$> (loop sort cfg ticks last st).1))) as Hl.
  { clear. induction ticks as [|t ticks IH]; intros last st; cbn [loop]; [repeat constructor|].
    destruct (checkAndRecordMemoryUsage sort cfg (tick_sample t) st) as [top st'| |]; [|repeat constructor..].
    destruct (ctx_done t); [repeat constructor|]. destruct top as [|p top]; [apply IH|].
    destruct (Z.ltb_spec (now t - last) (silencePeriod cfg * 1000000000)); [apply IH|].
    specialize (IH (now t) st'). destruct (loop sort cfg ticks (now t) st') as [saved e]. cbn [fst] in *.
    cbn [fmap list_fmap fst]. constructor; [exact IH | constructor; lia]. }
  unfold sampling. destruct (checkAndRecordMemoryUsage sort cfg first (init cfg)) as [? st| |]; [|constructor..].
  specialize (Hl ticks (start - 24 * 3600 * 1000000000) st). by apply Sorted_inv in Hl as [Hl _].
Qed.

(** The processes reported: at most topN, in decreasing order of memory, and
    none of those left out has more memory than one reported. *)
Theorem memburst_top sort topN ps :
  (forall l, Permutation (sort l) l) -> (forall l, StronglySorted by_memory (sort l)) ->
  exists top rest, getTopMemoryProcesses sort topN (Some ps) = Some top /\
    Permutation (top ++ rest) (omap read_proc ps) /\ StronglySorted by_memory top /\
    length top = Nat.min topN (length (omap read_proc ps)) /\
    forall p q, In p top -> In q rest -> by_memory p q.
Proof.
  intros Hp Hs. set (l := sort (omap read_proc ps)).
  assert ((if Nat.ltb (length l) topN then l else take topN l) = take topN l) as E.
  { destruct (Nat.ltb_spec (length l) topN); [by rewrite take_ge by lia | done]. }
  exists (take topN l), (drop topN l). unfold getTopMemoryProcesses. fold l. rewrite E, take_drop.
  specialize (Hs (omap read_proc ps)). fold l in Hs. rewrite <- (take_drop topN l) in Hs.
  apply StronglySorted_app in Hs as (Hx & Ht & _).
  split_and!; [done | apply Hp | done | |].
  - rewrite length_take. unfold l. by rewrite Hp.
  - intros p q Hin Hq. apply Hx; by apply list_elem_of_In.
Qed.

(** ** Witnesses *)

Definition meminfo0 (active inactive : string) : list (list string) :=
  [["MemTotal:"; "1000"; "kB"]; ["Active(anon):"; active; "kB"]; ["Inactive(anon):"; inactive; "kB"]]%string.
Definition sample0 (active : string) : sample :=
  mk_sample (Some (meminfo0 active "100")) (Some [(1, Some "a", Some 10); (2, None, Some 30); (3, Some "b", Some 20)]%string).
Definition tick0 (active : string) (t : Z) : tick := mk_tick (sample0 active) false t.
Definition cfg0 : config := mk_config 3 1 2 1 70 0 60.

#[global] Instance by_memory_dec a b : Decision (by_memory a b) := Z_le_dec (MemorySize b) (MemorySize a).
#[global] Instance by_memory_trans : Transitive by_memory.
Proof. unfold by_memory. intros x y z. lia. Qed.
#[global] Instance by_memory_total : Total by_memory.
Proof. unfold by_memory. intros x y. lia. Qed.

Lemma memburst_refines_witness :
  Start (merge_sort by_memory) cfg0 (Some (meminfo0 "0" "0")) 0 (sample0 "200") [tick0 "300" 10; tick0 "700" 20; tick0 "900" 30] =
    ([(20, [mk_process 3 "b" 20])], Running) /\
  Start (merge_sort by_memory) cfg0 (Some (meminfo0 "0" "0")) 0 (sample0 "200") [tick0 "300" 10; tick0 "700" 20; tick0 "900" 30] =
  spec_Start (merge_sort by_memory) cfg0 (Some (meminfo0 "0" "0")) 0 (sample0 "200") [tick0 "300" 10; tick0 "700" 20; tick0 "900" 30].
Proof.
  split; [vm_compute; reflexivity|].
  apply (memburst_refines (merge_sort by_memory) cfg0 (Some (meminfo0 "0" "0")) 0 (sample0 "200")). cbn. lia.
Defined.

Lemma memburst_top_witness :
  exists top rest, getTopMemoryProcesses (merge_sort by_memory) 1
      (Some [(1, Some "a", Some 10); (2, None, Some 30); (3, Some "b", Some 20)]%string) = Some top /\
    forall p q, In p top -> In q rest -> by_memory p q.
Proof.
  destruct (memburst_top (merge_sort by_memory) 1
    [(1, Some "a", Some 10); (2, None, Some 30); (3, Some "b", Some 20)]%string) as (top & rest & E & _ & _ & _ & H).
  - intros l. apply merge_sort_Permutation.
  - intros l. apply StronglySorted_merge_sort; exact _.
  - exists top, rest. split; [exact E | exact H].
Defined.

End Memburst.
