(* ===== verification/Tracing.v ===== *)
(** * pkg/tracing: tracers, their goroutines and the manager

    [Tracing] is one EventTracing of tracing.go with its goroutine and the
    manager's calls as steps that interleave; the tracer's own Start is what
    the environment decides. [Manager] is the map of tracers of manager.go and
    the registration of register_event.go. *)
From S2P Require Import Prelude.
From stdpp Require Import base gmap list strings.
From Stdlib Require Import ZArith Lia.

(** ** tracing.go *)
Module Tracing.

(** What ic.Start returns. *)
Inductive start_result := RetNil | ErrExitByCancelCtx | ErrNotSupported | ErrOther.

(** Where the goroutine of Start is. [InStart c] is inside ic.Start with the
    context [c]; [AtAssign] is between the loop's test and the assignment of
    c.cancelCtx in doStart. *)
Inductive pc :=
| Idle | AtLoop | AtAssign | InStart (c : nat) | AtReturn (c : nat) (r : start_result)
| AtHit | AtCheck | Sleeping | AtEnd | Exited.

(** The fields of EventTracing the control uses. Contexts are numbered; a
    context is cancelled once its cancel function has run. *)
Record state := mk_state
  { at_ : pc; exit : bool; isRunning : bool; hitCount : Z; cancelCtx : option nat;
    contexts : nat; cancelled : gset nat }.

Definition NewTracingEvent : state := mk_state Idle false false 0 None 0 ∅.

(** One step of the goroutine. Inside ic.Start, [ret] is what it returns on
    its own; with [None] it returns only if its context is cancelled. *)
Definition go_step (ret : option start_result) (s : state) : state :=
  match at_ s with
  | Idle | Exited => s
  | AtLoop =>
      mk_state (if exit s then AtEnd else AtAssign)
        (exit s) (isRunning s) (hitCount s) (cancelCtx s) (contexts s) (cancelled s)
  | AtAssign =>
      mk_state (InStart (contexts s))
        (exit s) (isRunning s) (hitCount s) (Some (contexts s)) (S (contexts s)) (cancelled s)
  | InStart c =>
      match ret with
      | Some r => mk_state (AtReturn c r)
                    (exit s) (isRunning s) (hitCount s) (cancelCtx s) (contexts s) (cancelled s)
      | None =>
          if bool_decide (c ∈ cancelled s)
          then mk_state (AtReturn c ErrExitByCancelCtx)
                 (exit s) (isRunning s) (hitCount s) (cancelCtx s) (contexts s) (cancelled s)
          else s
      end
  | AtReturn c r =>
      mk_state AtHit (match r with ErrNotSupported => true | _ => exit s end)
        (isRunning s) (hitCount s) (cancelCtx s) (contexts s) ({[c]} ∪ cancelled s)
  | AtHit =>
      mk_state AtCheck (exit s) (isRunning s) (hitCount s + 1) (cancelCtx s) (contexts s) (cancelled s)
  | AtCheck =>
      mk_state (if exit s then AtEnd else Sleeping)
        (exit s) (isRunning s) (hitCount s) (cancelCtx s) (contexts s) (cancelled s)
  | Sleeping =>
      mk_state AtLoop (exit s) (isRunning s) (hitCount s) (cancelCtx s) (contexts s) (cancelled s)
  | AtEnd =>
      mk_state Exited (exit s) false (hitCount s) (cancelCtx s) (contexts s) (cancelled s)
  end.

(** EventTracing.Start *)
Definition Start (s : state) : state :=
  mk_state AtLoop false true (hitCount s) (cancelCtx s) (contexts s) (cancelled s).

(** A call's result: nil, an error, or a panic of the calling goroutine, which
    the HTTP server recovers from. *)
Inductive call_result := CallOk | CallErr | CallPanic.

(** EventTracing.Stop; calling a nil c.cancelCtx panics. *)
Definition Stop (s : state) : state * call_result :=
  match cancelCtx s with
  | None => (mk_state (at_ s) true (isRunning s) (hitCount s) None (contexts s) (cancelled s), CallPanic)
  | Some c =>
      (mk_state (at_ s) true (isRunning s) (hitCount s) (Some c) (contexts s) ({[c]} ∪ cancelled s), CallOk)
  end.

(** The parts of MgrTracingEventStart and MgrTracingEventStop under the lock. *)
Definition start_tracer (s : state) : state * call_result :=
  if isRunning s then (s, CallErr) else (Start s, CallOk).
Definition stop_tracer (s : state) : state * call_result :=
  if isRunning s then Stop s else (s, CallErr).

Inductive event := Go (ret : option start_result) | MgrStart | MgrStop.

Definition step (e : event) (s : state) : state :=
  match e with
  | Go ret => go_step ret s
  | MgrStart => (start_tracer s).1
  | MgrStop => (stop_tracer s).1
  end.

Definition exec (es : list event) (s : state) : state := foldl (fun s e => step e s) s es.

(** ** Invariant *)

Definition running_pc (p : pc) : bool := match p with Idle | Exited => false | _ => true end.

Record wf (s : state) : Prop := mk_wf
  { wf_running : isRunning s = running_pc (at_ s);
    wf_ctx : match at_ s with
             | InStart c => cancelCtx s = Some c
             | AtReturn c _ => (c < contexts s)%nat
             | _ => True
             end;
    wf_fresh : forall c, c ∈ cancelled s -> (c < contexts s)%nat;
    wf_cancel : forall c, cancelCtx s = Some c -> (c < contexts s)%nat }.

Lemma tracer_init_wf : wf NewTracingEvent.
Proof. constructor; cbn; [done | done | set_solver | done]. Qed.

Lemma wf_go ret s : wf s -> wf (go_step ret s).
Proof.
  intros [Hr Hc Hf Hk]. unfold go_step. destruct (at_ s) eqn:E.
  - constructor; rewrite ?E; done.
  - constructor; cbn; [by destruct (exit s) | by destruct (exit s) | done | done].
  - constructor; cbn; [done | done | intros c Hin; specialize (Hf c Hin); lia | intros c [= <-]; lia].
  - destruct ret as [r|]; [|case_bool_decide]; constructor; cbn; rewrite ?E; eauto.
  - constructor; cbn; [done | done | | done]. intros c' [->%elem_of_singleton|Hin]%elem_of_union; eauto.
  - constructor; cbn; done.
  - constructor; cbn; [by destruct (exit s) | by destruct (exit s) | done | done].
  - constructor; cbn; done.
  - constructor; cbn; done.
  - constructor; rewrite ?E; done.
Qed.

Lemma tracer_step_wf e s : wf s -> wf (step e s).
Proof.
  intros Hw. destruct e as [ret| |]; cbn [step]; [by apply wf_go|..]; destruct Hw as [Hr Hc Hf Hk].
  - unfold start_tracer. destruct (isRunning s) eqn:E; cbn [fst]; [constructor; congruence || done|]. by constructor.
  - unfold stop_tracer. destruct (isRunning s) eqn:E; [|constructor; cbn [fst]; congruence || done].
    unfold Stop. destruct (cancelCtx s) as [c|] eqn:Ec; constructor; cbn; rewrite ?E, ?Ec in *; try done.
    intros c' [->%elem_of_singleton|Hin]%elem_of_union; eauto.
Qed.

Lemma tracer_exec_wf es : forall s, wf s -> wf (exec es s).
Proof. induction es as [|e es IH]; intros s Hw; [done|]. by apply IH, tracer_step_wf. Qed.

(** ** Stopping *)

(** A stop that has taken effect. *)
Definition stopping (s : state) : Prop :=
  exit s = true /\ isRunning s = true /\
  match at_ s with
  | Idle | Exited | AtAssign => False
  | InStart c => c ∈ cancelled s
  | _ => True
  end.

(** The steps of the goroutine that are left. *)
Definition rank (p : pc) : nat :=
  match p with
  | AtEnd => 1 | AtLoop | AtCheck => 2 | Sleeping | AtHit => 3 | AtReturn _ _ => 4 | InStart _ => 5
  | _ => 0
  end.

Lemma stopping_go ret s :
  stopping s ->
  at_ (go_step ret s) = Exited \/ stopping (go_step ret s) /\ (rank (at_ (go_step ret s)) < rank (at_ s))%nat.
Proof.
  intros (He & Hr & Hp). unfold go_step. destruct (at_ s) eqn:E; try done; rewrite ?He.
  - right. repeat split; cbn; try done; lia.
  - right. destruct ret as [r|]; [|rewrite bool_decide_eq_true_2 by done]; repeat split; cbn; try done; lia.
  - right. split; [|cbn; lia]. repeat split; cbn; try done. by destruct r.
  - right. repeat split; cbn; try done; lia.
  - right. repeat split; cbn; try done; lia.
  - right. repeat split; cbn; try done; lia.
  - by left.
Qed.

Lemma stopping_start s : stopping s -> (start_tracer s).1 = s.
Proof. intros (_ & Hr & _). unfold start_tracer. by rewrite Hr. Qed.

Lemma stopping_stop s : stopping s -> stopping (stop_tracer s).1 /\ at_ (stop_tracer s).1 = at_ s.
Proof.
  intros (He & Hr & Hp). unfold stop_tracer, Stop. rewrite Hr.
  destruct (cancelCtx s); repeat split; cbn; try done. destruct (at_ s); try done. set_solver.
Qed.

(** The number of steps a schedule gives the goroutine. *)
Definition go_count (es : list event) : nat :=
  length (filter (fun e => match e with Go _ => true | _ => false end = true) es).

Lemma stopping_exits es : forall s,
  stopping s -> (rank (at_ s) <= go_count es)%nat ->
  exists es1 es2, es = es1 ++ es2 /\ at_ (exec es1 s) = Exited.
Proof.
  induction es as [|e es IH]; intros s Hs Hk.
  { destruct Hs as (_ & _ & Hp). cbn in Hk. destruct (at_ s); cbn in Hk; (done || lia). }
  assert (forall s1, step e s = s1 -> (at_ s1 = Exited \/ exists es1 es2, es = es1 ++ es2 /\ at_ (exec es1 s1) = Exited) ->
    exists es1 es2, e :: es = es1 ++ es2 /\ at_ (exec es1 s) = Exited) as Hcons.
  { intros s1 Es [Hx|(es1 & es2 & -> & Hx)].
    - exists [e], es. split; [done|]. cbn. by rewrite Es.
    - exists (e :: es1), es2. split; [done|]. cbn. by rewrite Es. }
  unfold go_count in *. rewrite filter_cons in Hk.
  destruct e as [ret| |]; (apply (Hcons _ eq_refl) || idtac); cbn [step].
  - rewrite decide_True in Hk by done. cbn [length] in Hk.
    destruct (stopping_go ret s Hs) as [Hx|[Hs' Hlt]]; [by left|]. right. apply IH; [done | lia].
  - rewrite decide_False in Hk by done. right. rewrite stopping_start by done. by apply IH.
  - rewrite decide_False in Hk by done. destruct (stopping_stop s Hs) as [Hs' Hp].
    right. apply IH; [done | by rewrite Hp].
Qed.

(** ** Theorems *)

(** The control state is consistent in every interleaving of the goroutine
    with calls of the manager: isRunning says whether the goroutine is in its
    loop, so that there is never a second one, and inside ic.Start the stored
    cancel function is that of the context in use. *)
Theorem tracing_wf es : wf (exec es NewTracingEvent).
Proof. apply tracer_exec_wf, tracer_init_wf. Qed.

(** C18: liveness of Stop: in every reachable state in which the tracer runs and is
    not between the loop's test and the assignment of cancelCtx, a stop ends
    the goroutine within five of its own steps, whatever the manager is asked
    meanwhile, for every tracer whose Start returns once its context is
    cancelled. *)
Theorem stop_terminates es0 es :
  let s := exec es0 NewTracingEvent in
  isRunning s = true -> at_ s <> AtAssign -> (5 <= go_count es)%nat ->
  exists es1 es2, es = es1 ++ es2 /\ at_ (exec es1 (stop_tracer s).1) = Exited.
Proof.
  intros s Hr Ha Hk. destruct (tracer_exec_wf es0 _ tracer_init_wf) as [Hrun Hc _ _]. fold s in Hrun, Hc.
  apply stopping_exits.
  - unfold stop_tracer, Stop. rewrite Hr. rewrite Hr in Hrun.
    destruct (cancelCtx s) as [c|]; repeat split; cbn; try done; destruct (at_ s); try done. set_solver.
  - assert (at_ (stop_tracer s).1 = at_ s) as ->.
    { unfold stop_tracer, Stop. rewrite Hr. by destruct (cancelCtx s). }
    destruct (at_ s); cbn; lia.
Qed.

(** A stop in the window is lost: between the loop's test and the assignment
    of cancelCtx it cancels the context of the previous iteration, and the
    goroutine then enters ic.Start with a context nobody has cancelled and
    stays there for as long as ic.Start only returns when cancelled. *)
Theorem stop_lost_in_window es0 n :
  let s := exec es0 NewTracingEvent in
  at_ s = AtAssign ->
  let s' := exec (replicate (S n) (Go None)) (stop_tracer s).1 in
  exit s' = true /\ isRunning s' = true /\ at_ s' = InStart (contexts s) /\ contexts s ∉ cancelled s'.
Proof.
  intros s Ha. destruct (tracer_exec_wf es0 _ tracer_init_wf) as [Hrun _ Hf Hk]. fold s in Hrun, Hf, Hk.
  rewrite Ha in Hrun. cbn in Hrun. set (t := (stop_tracer s).1).
  assert (exit t = true /\ isRunning t = true /\ at_ t = AtAssign /\ contexts t = contexts s /\
    contexts s ∉ cancelled t) as (He & Hr & Hat & Hct & Hni).
  { unfold t, stop_tracer, Stop. rewrite Hrun. destruct (cancelCtx s) as [c|] eqn:Ec; cbn; split_and!; try done.
    - specialize (Hk c eq_refl). intros [E%elem_of_singleton|Hin]%elem_of_union; [lia|]. specialize (Hf _ Hin). lia.
    - intros Hin. specialize (Hf _ Hin). lia. }
  clearbody t. induction n as [|n IH].
  - cbn. unfold go_step. rewrite Hat, Hct. cbn. done.
  - rewrite replicate_S_end. unfold exec in *. rewrite foldl_app. cbn [foldl step].
    destruct IH as (He' & Hr' & Hat' & Hni'). unfold go_step. rewrite Hat'.
    by rewrite bool_decide_eq_false_2 by done.
Qed.

(** Stopping a tracer before its first context exists panics. *)
Theorem stop_before_first_context :
  (stop_tracer (exec [MgrStart; Go None] NewTracingEvent)).2 = CallPanic.
Proof. reflexivity. Qed.

Lemma stop_terminates_witness :
  exists es1 es2, replicate 5 (Go None) = es1 ++ es2 /\
    at_ (exec es1 (stop_tracer (exec [MgrStart; Go None; Go None] NewTracingEvent)).1) = Exited.
Proof. apply (stop_terminates [MgrStart; Go None; Go None]); [done | done | vm_compute; lia]. Defined.

(** The second iteration of a tracer whose first Start returned by itself. *)
Lemma stop_lost_in_window_witness :
  let s' := exec (replicate 100 (Go None))
    (stop_tracer (exec (MgrStart :: replicate 2 (Go None) ++ Go (Some ErrOther) :: replicate 5 (Go None)) NewTracingEvent)).1 in
  exit s' = true /\ at_ s' = InStart 1.
Proof.
  destruct (stop_lost_in_window (MgrStart :: replicate 2 (Go None) ++ Go (Some ErrOther) :: replicate 5 (Go None)) 99)
    as (He & _ & Ha & _); [done|]. split; [exact He | exact Ha].
Defined.

End Tracing.

(** ** manager.go and register_event.go *)
Module Manager.
Import Tracing.

Record mgr := mk_mgr { tracingEvents : gmap string state; blackListed : list string }.

Definition set_tracer (name : string) (s : state) (m : mgr) : mgr :=
  mk_mgr (<[name := s]> (tracingEvents m)) (blackListed m).

Definition MgrTracingEventStart (name : string) (m : mgr) : mgr * call_result :=
  match tracingEvents m !! name with
  | None => (m, CallErr)
  | Some te =>
      if bool_decide (name ∈ blackListed m) then
        (set_tracer name
           (mk_state (at_ te) (exit te) false (hitCount te) (cancelCtx te) (contexts te) (cancelled te)) m,
         CallErr)
      else let '(te, r) := start_tracer te in (set_tracer name te m, r)
  end.

Definition MgrTracingEventStop (name : string) (m : mgr) : mgr * call_result :=
  match tracingEvents m !! name with
  | None => (m, CallErr)
  | Some te => let '(te, r) := stop_tracer te in (set_tracer name te m, r)
  end.

(** A loop over the map in the given order that ends at the first failure. *)
Fixpoint for_all (call : string -> mgr -> mgr * call_result) (order : list string) (m : mgr)
    : mgr * call_result :=
  match order with
  | [] => (m, CallOk)
  | name :: order' =>
      match call name m with
      | (m, CallOk) => for_all call order' m
      | failed => failed
      end
  end.

Definition MgrTracingEventStartAll (order : list string) (m : mgr) : mgr * call_result :=
  for_all MgrTracingEventStart order m.
Definition MgrTracingEventStopAll (order : list string) (m : mgr) : mgr * call_result :=
  for_all MgrTracingEventStop order m.

(** Registration. A factory gives the flags of its tracer, or fails. *)
Definition FlagMetric : Z := 1.
Definition FlagTracing : Z := 2.

Fixpoint run_factories (black : list string) (factories : list (string * option Z)) (acc : gmap string Z)
    : option (gmap string Z) :=
  match factories with
  | [] => Some acc
  | (key, factory) :: factories' =>
      if bool_decide (key ∈ black) then run_factories black factories' acc
      else match factory with
           | None => None
           | Some flag =>
               if (Z.land flag (Z.lor FlagTracing FlagMetric) =? 0)%Z then None
               else run_factories black factories' (<[key := flag]> acc)
           end
  end.

(** tracingEventAttrMap and whether tracingOnce has run. *)
Record registry := mk_registry { attr_map : gmap string Z; once : bool }.

(** The error is that of this call only. *)
Definition NewRegister (black : list string) (factories : list (string * option Z)) (g : registry)
    : option (gmap string Z) * registry :=
  if once g then (Some (attr_map g), g)
  else match run_factories black factories ∅ with
       | None => (None, mk_registry (attr_map g) true)
       | Some attrs => (Some attrs, mk_registry attrs true)
       end.

Definition NewMgrTracingEvent (black : list string) (factories : list (string * option Z)) (g : registry)
    : option mgr * registry :=
  match NewRegister black factories g with
  | (None, g) => (None, g)
  | (Some attrs, g) =>
      (Some (mk_mgr ((fun _ => NewTracingEvent) <$> filter (fun kv => Z.land kv.2 FlagTracing <> 0%Z) attrs) black), g)
  end.

(** ** Lemmas *)

(** A tracer with a context to cancel. *)
Definition stoppable (s : state) : Prop := isRunning s = true /\ is_Some (cancelCtx s).

Lemma stop_ok name m s :
  tracingEvents m !! name = Some s -> stoppable s ->
  MgrTracingEventStop name m = (set_tracer name (stop_tracer s).1 m, CallOk).
Proof.
  intros Hm [Hr [c Hc]]. unfold MgrTracingEventStop, stop_tracer, Stop. by rewrite Hm, Hr, Hc.
Qed.

Lemma stop_exit s : stoppable s -> exit (stop_tracer s).1 = true /\ stoppable (stop_tracer s).1.
Proof. intros [Hr [c Hc]]. unfold stop_tracer, Stop. rewrite Hr, Hc. split; [done|]. split; [done | by eexists]. Qed.

(** The tracers of an order, all stoppable. *)
Definition all_stoppable (order : list string) (m : mgr) : Prop :=
  forall name, name ∈ order -> exists s, tracingEvents m !! name = Some s /\ stoppable s.

Lemma stop_all_prefix order : forall m rest,
  NoDup order -> all_stoppable order m ->
  exists m', MgrTracingEventStopAll (order ++ rest) m = MgrTracingEventStopAll rest m' /\
    (forall name, name ∈ order -> exists s, tracingEvents m' !! name = Some s /\ exit s = true) /\
    (forall name, name ∉ order -> tracingEvents m' !! name = tracingEvents m !! name).
Proof.
  induction order as [|n order IH]; intros m rest Hnd Hs.
  { exists m. split; [done|]. split; [|done]. intros name. by rewrite elem_of_nil. }
  apply NoDup_cons in Hnd as [Hni Hnd]. destruct (Hs n) as (s & Hm & Hst); [by left|].
  destruct (stop_exit s Hst) as [He _].
  destruct (IH (set_tracer n (stop_tracer s).1 m) rest Hnd) as (m' & E & Hin & Hout).
  { intros name Hname. destruct (Hs name) as (s' & Hm' & Hst'); [by right|]. exists s'. split; [|done].
    cbn. by rewrite lookup_insert_ne by (intros ->; done). }
  exists m'. split_and!.
  - unfold MgrTracingEventStopAll in *. cbn [app for_all]. by rewrite (stop_ok n m s Hm Hst).
  - intros name [->|Hname]%elem_of_cons; [|by apply Hin]. exists (stop_tracer s).1. split; [|done].
    rewrite Hout by done. cbn. apply lookup_insert_eq.
  - intros name Hname. rewrite Hout by set_solver. cbn. by rewrite lookup_insert_ne by set_solver.
Qed.

(** ** Theorems *)

(** Stopping all tracers succeeds and marks every one for exit, if all run and
    have a context. *)
Theorem stop_all_stops order m :
  NoDup order -> all_stoppable order m ->
  (MgrTracingEventStopAll order m).2 = CallOk /\
  forall name, name ∈ order ->
    exists s, tracingEvents (MgrTracingEventStopAll order m).1 !! name = Some s /\ exit s = true.
Proof.
  intros Hnd Hs. destruct (stop_all_prefix order m [] Hnd Hs) as (m' & E & Hin & _).
  rewrite app_nil_r in E. rewrite E. done.
Qed.

(** One tracer that does not run, say because it is not supported on this
    kernel, makes the others that come after it in the map's order run on: the
    call fails and leaves their state untouched. *)
Theorem stop_all_leaves_rest before name after m s :
  NoDup (before ++ name :: after) -> all_stoppable before m ->
  tracingEvents m !! name = Some s -> isRunning s = false ->
  (MgrTracingEventStopAll (before ++ name :: after) m).2 = CallErr /\
  forall other, other ∈ after ->
    tracingEvents (MgrTracingEventStopAll (before ++ name :: after) m).1 !! other = tracingEvents m !! other.
Proof.
  intros Hnd Hs Hm Hr. apply NoDup_app in Hnd as (Hb & Hba & Hna). apply NoDup_cons in Hna as [Hni _].
  destruct (stop_all_prefix before m (name :: after) Hb Hs) as (m' & E & _ & Hout). rewrite E.
  assert (name ∉ before) as Hnb by (intros Hin; apply (Hba name Hin); by left).
  unfold MgrTracingEventStopAll. cbn [for_all]. unfold MgrTracingEventStop, stop_tracer.
  rewrite (Hout name Hnb), Hm, Hr. split; [done|]. intros other Ho. cbn.
  rewrite lookup_insert_ne by (intros ->; done). apply Hout. intros Hin. apply (Hba other Hin). by right.
Qed.

(** Only the call that runs the factories reports their error: after it, every
    call succeeds with the map left from before, and the manager it makes has
    no tracers if that was empty. *)
Theorem register_error_once black factories black' factories' g :
  once g = false -> attr_map g = ∅ -> (NewRegister black factories g).1 = None ->
  exists m g', NewMgrTracingEvent black' factories' (NewRegister black factories g).2 = (Some m, g') /\
    tracingEvents m = ∅.
Proof.
  intros Ho Ha. unfold NewMgrTracingEvent, NewRegister. rewrite Ho.
  destruct (run_factories black factories ∅); [done|]. intros _. cbn. rewrite Ha.
  eexists _, _. split; [done|]. cbn. by rewrite map_filter_empty, fmap_empty.
Qed.

(** Two tracers, one of which has found itself unsupported and exited. *)
Definition unsupported : state := exec (MgrStart :: replicate 2 (Go None) ++ Go (Some ErrNotSupported) :: replicate 4 (Go None)) NewTracingEvent.
Definition in_start : state := exec [MgrStart; Go None; Go None] NewTracingEvent.
Definition mgr0 : mgr := mk_mgr {["a" := unsupported; "b" := in_start]}%string [].

Lemma stop_all_stops_witness :
  (MgrTracingEventStopAll ["b"]%string mgr0).2 = CallOk.
Proof.
  apply (stop_all_stops ["b"]%string mgr0); [apply NoDup_singleton|].
  intros name ->%list_elem_of_singleton. exists in_start. split; [done|]. split; [done | by eexists].
Defined.

Lemma stop_all_leaves_rest_witness :
  isRunning unsupported = false /\ (MgrTracingEventStopAll ["a"; "b"]%string mgr0).2 = CallErr.
Proof.
  split; [reflexivity|].
  apply (stop_all_leaves_rest [] "a" ["b"]%string mgr0 unsupported); [| |done|done].
  - apply NoDup_cons. split; [by rewrite list_elem_of_singleton | apply NoDup_singleton].
  - intros name. by rewrite elem_of_nil.
Defined.

Lemma register_error_once_witness :
  exists m g', NewMgrTracingEvent [] [("dload"%string, Some 2%Z)]
    (NewRegister [] [("oom"%string, None)] (mk_registry ∅ false)).2 = (Some m, g') /\ tracingEvents m = ∅.
Proof. apply (register_error_once [] [("oom"%string, None)]); done. Defined.

End Manager.
