(* ===== verification/Task.v ===== *)
(** * pkg/tracing/task.go: the tasks of the tracing service

    A task runs a command in a goroutine of its own while HTTP handlers ask for
    its result or stop it and a collector deletes finished tasks. The shared
    tasks are a heap that the cache points into; the goroutine of a task, every
    call of Result and of StopTask, and the collector are program counters whose
    steps make one access each to the cache, to a member of a task, to a context
    or to the clock, in the order of the source; an execution is any interleaving
    of the steps. The command, the random draws and the clock are what the
    environment answers. *)
From S2P Require Import Prelude.
From stdpp Require Import base gmap list strings.
From Stdlib Require Import ZArith Lia Ascii.

Open Scope Z_scope.

Module Task.

(** ** Data *)

Inductive Status := StatusCompleted | StatusFailed | StatusPending | StatusRunning | StatusNotExist.

#[export] Instance Status_eq_dec : EqDecision Status.
Proof. solve_decision. Defined.

Definition TaskStorageDB : Z := 1.
Definition TaskStorageStdout : Z := 2.
Definition TaskStorageLocal : Z := 3.

Inductive task_error :=
| ErrTaskNotFound
| ErrTaskTimeout
| ErrTaskCanceled
| ErrTaskCmd (err output : string).

Record task := mk_task {
  id : string;
  execBinary : string;
  execArgs : list string;
  stdoutData : string;
  status : Status;
  error : option task_error;
  storage : Z;
  deadlineTime : option Z   (* None is the zero time.Time *)
}.

Record TaskResult := mk_result {
  TaskStatus : Status;
  TaskData : string;
  TaskErr : option task_error
}.

(** What CombinedOutput returns. *)
Inductive outcome := CmdOk (output : string) | CmdErr (err output : string).

(** ctx.Err() *)
Inductive ctx_err := DeadlineExceeded | Canceled.

(** Where runTask stands: before its first store; in the command; before
    ctx.Err() after the store of StatusFailed; before the store of the error;
    before the switch on the storage; before the store of StatusCompleted; before
    the clock of the deferred call; before its store; returned. *)
Inductive pc :=
| RunStart
| RunExec
| RunFailed (err output : string)
| RunError (e : task_error)
| RunStore (output : string)
| RunComplete
| RunDeferred
| RunDeadline (now : Z)
| RunDone.

(** A task with its context and its goroutine. *)
Record proc := mk_proc { ptask : task; expires : Z; pctx : option ctx_err; ppc : pc }.

(** Where a call of Result or of StopTask stands: the next access to the cache,
    to the task or to the clock, with what was read before, or the answer. *)
Inductive rpc :=
| ResLoad
| ResFailed (p : nat)
| ResCompleted (p : nat)
| ResClock (p : nat)
| ResDeadline (p : nat) (now : Z)
| ResData (p : nat)
| ResStatus (p : nat) (d : string)
| ResErr (p : nat) (d : string) (st : Status)
| ResDone (r : TaskResult)
| StopLoad
| StopTest (p : nat)
| StopCancel (p : nat)
| StopDelete
| StopDone (e : option task_error).

Record request := mk_req { rname : string; at_ : rpc }.

(** Where the collector stands: between passes; in a pass that read the clock at
    [now], between keys; at the two tests of the status, the test of the deadline
    and the deletion for a key. *)
Inductive gpc :=
| GcIdle
| GcPass (now : Z)
| GcCompleted (now : Z) (i : string) (p : nat)
| GcFailed (now : Z) (i : string) (p : nat)
| GcDeadline (now : Z) (i : string) (p : nat)
| GcDelete (now : Z) (i : string).

Record state := mk_state {
  taskLifeTmpCache : gmap string nat;
  heap : list proc;
  outputs : list (string * string * string);  (* storage.SaveTaskOutput *)
  requests : list request;
  gc : gpc
}.

Definition init : state := mk_state ∅ [] [] [] GcIdle.

(** ** Operations *)

Definition set_status (st : Status) (t : task) : task :=
  mk_task (id t) (execBinary t) (execArgs t) (stdoutData t) st (error t) (storage t) (deadlineTime t).
Definition set_error (e : task_error) (t : task) : task :=
  mk_task (id t) (execBinary t) (execArgs t) (stdoutData t) (status t) (Some e) (storage t) (deadlineTime t).
Definition set_stdout (d : string) (t : task) : task :=
  mk_task (id t) (execBinary t) (execArgs t) d (status t) (error t) (storage t) (deadlineTime t).

(** In nanoseconds. *)
Definition life : Z := 600000000000.

Definition setDeadlineDefault (now : Z) (t : task) : task :=
  mk_task (id t) (execBinary t) (execArgs t) (stdoutData t) (status t) (error t) (storage t) (Some (now + life)).

(** now.After(deadlineTime) *)
Definition After (now : Z) (d : option Z) : bool := match d with None => true | Some d => d <? now end.

Definition charset : string := "abcdefghijklmnopqrstuvwxyzABCDEFGHIJKLMNOPQRSTUVWXYZ0123456789".

(** [None] is the panic on an error of rand.Int. *)
Definition allocTaskID (draw : nat -> option nat) : option string :=
  cs ← mapM (fun i => d ← draw i; String.get d charset) (seq 0 16);
  Some (String.string_of_list_ascii cs).

Definition on_heap (p : nat) (f : proc -> proc) (s : state) : state :=
  mk_state (taskLifeTmpCache s) (alter f p (heap s)) (outputs s) (requests s) (gc s).

Definition on_task (f : task -> task) (r : proc) : proc := mk_proc (f (ptask r)) (expires r) (pctx r) (ppc r).

Definition uncache (i : string) (s : state) : state :=
  mk_state (delete i (taskLifeTmpCache s)) (heap s) (outputs s) (requests s) (gc s).
Definition set_request (k : nat) (q : request) (s : state) : state :=
  mk_state (taskLifeTmpCache s) (heap s) (outputs s) (<[k := q]> (requests s)) (gc s).
Definition add_request (q : request) (s : state) : state :=
  mk_state (taskLifeTmpCache s) (heap s) (outputs s) (requests s ++ [q]) (gc s).
Definition set_gc (g : gpc) (s : state) : state :=
  mk_state (taskLifeTmpCache s) (heap s) (outputs s) (requests s) g.

(** A member of the task a pointer leads to. *)
Definition member {A} (f : task -> A) (d : A) (p : nat) (s : state) : A := from_option (fun r => f (ptask r)) d (heap s !! p).
Definition status_is (st : Status) (p : nat) (s : state) : bool := bool_decide (member status StatusNotExist p s = st).

(** The first cause of a context wins. *)
Definition cancel (c : ctx_err) (r : proc) : proc :=
  mk_proc (ptask r) (expires r) (match pctx r with None => Some c | Some c' => Some c' end) (ppc r).

Definition NewTask (now : Z) (draw : nat -> option nat) (bin : string) (timeout stype : Z) (args : list string)
  (s : state) : state * option string :=
  match allocTaskID draw with
  | None => (s, None)
  | Some i =>
      let t := mk_task i bin args EmptyString StatusPending None stype None in
      let r := mk_proc t (now + timeout) (if timeout <=? 0 then Some DeadlineExceeded else None) RunStart in
      (mk_state (<[i := length (heap s)]> (taskLifeTmpCache s)) (heap s ++ [r]) (outputs s) (requests s) (gc s), Some i)
  end.

Definition failure (ctx : option ctx_err) (err output : string) : task_error :=
  match ctx with
  | Some DeadlineExceeded => ErrTaskTimeout
  | Some Canceled => ErrTaskCanceled
  | None => ErrTaskCmd err output
  end.

(** One step of the goroutine; [o] is the answer of the command. *)
Definition run_step (now : Z) (o : outcome) (r : proc) : proc :=
  let t := ptask r in
  let go t k := mk_proc t (expires r) (pctx r) k in
  match ppc r with
  | RunStart => go (set_status StatusRunning t) RunExec
  | RunExec =>
      match o with
      | CmdErr err output => go (set_status StatusFailed t) (RunFailed err output)
      | CmdOk output => go t (RunStore output)
      end
  | RunFailed err output => go t (RunError (failure (pctx r) err output))
  | RunError e => go (set_error e t) RunDeferred
  | RunStore output => go (if storage t =? TaskStorageStdout then set_stdout output t else t) RunComplete
  | RunComplete => go (set_status StatusCompleted t) RunDeferred
  | RunDeferred => go t (RunDeadline now)
  | RunDeadline n => go (setDeadlineDefault n t) RunDone
  | RunDone => r
  end.

Definition run_output (r : proc) : list (string * string * string) :=
  match ppc r with
  | RunStore output =>
      if storage (ptask r) =? TaskStorageDB then [(execBinary (ptask r), id (ptask r), output)] else []
  | _ => []
  end.

Definition runTask (now : Z) (p : nat) (o : outcome) (s : state) : state :=
  match heap s !! p with
  | None => s
  | Some r =>
      mk_state (taskLifeTmpCache s) (<[p := run_step now o r]> (heap s)) (outputs s ++ run_output r) (requests s) (gc s)
  end.

(** A step of the collector within a key. *)
Definition gc_step (s : state) : state :=
  match gc s with
  | GcIdle | GcPass _ => s
  | GcCompleted now i p => set_gc (if status_is StatusCompleted p s then GcDeadline now i p else GcFailed now i p) s
  | GcFailed now i p => set_gc (if status_is StatusFailed p s then GcDeadline now i p else GcPass now) s
  | GcDeadline now i p => set_gc (if After now (member deadlineTime None p s) then GcDelete now i else GcPass now) s
  | GcDelete now i => set_gc (GcPass now) (uncache i s)
  end.

(** The tick, at which the collector reads the clock, and the next key of
    Range. *)
Definition gc_tick (now : Z) (s : state) : state :=
  match gc s with GcIdle | GcPass _ => set_gc (GcPass now) s | _ => s end.
Definition gc_visit (i : string) (s : state) : state :=
  match gc s, taskLifeTmpCache s !! i with
  | GcPass now, Some p => set_gc (GcCompleted now i p) s
  | _, _ => s
  end.

(** On tasks that do not change meanwhile. *)
Definition RunningTaskCount (s : state) : nat :=
  length (filter (fun kv : string * nat => status <$> (ptask <$> heap s !! kv.2) = Some StatusRunning)
    (map_to_list (taskLifeTmpCache s))).

Definition result_of (t : task) : TaskResult := mk_result (status t) (stdoutData t) (error t).

(** A step of a call of Result or of StopTask for [i]: where it goes, by what it
    reads, and what it writes. *)
Definition req_next (now : Z) (i : string) (c : rpc) (s : state) : rpc :=
  match c with
  | ResLoad =>
      match taskLifeTmpCache s !! i with
      | None => ResDone (mk_result StatusNotExist EmptyString (Some ErrTaskNotFound))
      | Some p => ResFailed p
      end
  | ResFailed p => if status_is StatusFailed p s then ResClock p else ResCompleted p
  | ResCompleted p => if status_is StatusCompleted p s then ResClock p else ResData p
  | ResClock p => ResDeadline p now
  | ResDeadline p _ => ResData p
  | ResData p => ResStatus p (member stdoutData EmptyString p s)
  | ResStatus p d => ResErr p d (member status StatusNotExist p s)
  | ResErr p d st => ResDone (mk_result st d (member error None p s))
  | StopLoad => match taskLifeTmpCache s !! i with None => StopDone (Some ErrTaskNotFound) | Some p => StopTest p end
  | StopTest p => if status_is StatusRunning p s then StopCancel p else StopDelete
  | StopCancel _ => StopDelete
  | StopDelete => StopDone None
  | ResDone _ | StopDone _ => c
  end.

Definition req_write (i : string) (c : rpc) (s : state) : state :=
  match c with
  | ResDeadline p n => on_heap p (on_task (setDeadlineDefault n)) s
  | StopCancel p => on_heap p (cancel Canceled) s
  | StopDelete => uncache i s
  | _ => s
  end.

Definition req_step (now : Z) (k : nat) (s : state) : state :=
  match requests s !! k with
  | None => s
  | Some q => set_request k (mk_req (rname q) (req_next now (rname q) (at_ q) s)) (req_write (rname q) (at_ q) s)
  end.

(** ** Executions *)

(** NewTask; a step of the goroutine of a task, whose command answers [o]; the
    timer of its context; the collector's tick, next key and step; a call of
    Result and of StopTask; a step of a call. *)
Inductive action :=
| ANew (draw : nat -> option nat) (bin : string) (timeout stype : Z) (args : list string)
| ARun (p : nat) (o : outcome)
| ATimer (p : nat)
| ATick
| AVisit (i : string)
| AGc
| AAsk (i : string)
| AStop (i : string)
| AReq (k : nat).

(** The timer of WithTimeout. *)
Definition timer (now : Z) (p : nat) (s : state) : state :=
  on_heap p (fun r => if expires r <=? now then cancel DeadlineExceeded r else r) s.

Definition step (now : Z) (a : action) (s : state) : state :=
  match a with
  | ANew draw bin timeout stype args => (NewTask now draw bin timeout stype args s).1
  | ARun p o => runTask now p o s
  | ATimer p => timer now p s
  | ATick => gc_tick now s
  | AVisit i => gc_visit i s
  | AGc => gc_step s
  | AAsk i => add_request (mk_req i ResLoad) s
  | AStop i => add_request (mk_req i StopLoad) s
  | AReq k => req_step now k s
  end.

Definition exec (tr : list (Z * action)) (s : state) : state := fold_left (fun s e => step e.1 e.2 s) tr s.

(** ** Lemmas *)

(** What a step at time [now] does to a task; [P] holds of the clock readings it
    may store. *)
Inductive moves (P : Z -> Prop) (now : Z) : proc -> proc -> Prop :=
| move_none r : moves P now r r
| move_run o r : moves P now r (run_step now o r)
| move_timer r : moves P now r (cancel DeadlineExceeded r)
| move_stop r : moves P now r (cancel Canceled r)
| move_asked n r : P n -> moves P now r (on_task (setDeadlineDefault n) r).

(** The readings a step stores as the deadline of [p]: that of a call. *)
Definition stores (a : action) (s : state) (p : nat) (n : Z) : Prop :=
  exists k q, a = AReq k /\ requests s !! k = Some q /\ at_ q = ResDeadline p n.

Lemma heap_on_heap q f s p r : heap s !! p = Some r ->
  heap (on_heap q f s) !! p = Some (if decide (p = q) then f r else r).
Proof.
  intros Hp. cbn [on_heap heap]. rewrite list_lookup_alter. destruct (decide (q = p)) as [->|Hn].
  - by rewrite Hp, decide_True.
  - by rewrite decide_False by congruence.
Qed.

(** The steps of the collector and of most calls leave the heap alone. *)
Lemma gc_step_heap s : heap (gc_step s) = heap s.
Proof. unfold gc_step. by destruct (gc s). Qed.

Lemma req_step_heap now k s p r : heap s !! p = Some r ->
  exists r', heap (req_step now k s) !! p = Some r' /\ moves (stores (AReq k) s p) now r r'.
Proof.
  intros Hp. unfold req_step. destruct (requests s !! k) as [q|] eqn:Ek; [|exists r; split; [exact Hp|constructor]].
  unfold set_request. cbn [heap].
  destruct (at_ q) as [ |p'|p'|p'|p' n|p'|p' d|p' d st|x| |p'|p'| |e] eqn:Ea; cbn [req_write];
    try (exists r; split; [exact Hp|constructor]).
  - rewrite (heap_on_heap _ _ _ _ _ Hp). eexists. split; [reflexivity|]. destruct (decide (p = p')) as [->|]; [|constructor].
    constructor. by exists k, q.
  - rewrite (heap_on_heap _ _ _ _ _ Hp). eexists. split; [reflexivity|]. destruct (decide (p = p')); constructor.
Qed.

Lemma step_heap now a s p r : heap s !! p = Some r ->
  exists r', heap (step now a s) !! p = Some r' /\ moves (stores a s p) now r r'.
Proof.
  intros Hp. destruct a as [draw bin timeout stype args|q o|q| |i| |i|i|k]; cbn [step].
  - unfold NewTask. destruct (allocTaskID draw); cbn [fst heap]; exists r; split; [|constructor|exact Hp|constructor].
    by apply lookup_app_l_Some.
  - unfold runTask. destruct (heap s !! q) as [rq|] eqn:Hq; [|exists r; split; [exact Hp|constructor]].
    cbn [heap]. destruct (decide (q = p)) as [->|Hn].
    + rewrite list_lookup_insert_eq by (by eapply lookup_lt_Some). rewrite Hp in Hq. injection Hq as <-.
      eexists; split; [reflexivity|constructor].
    + rewrite list_lookup_insert_ne by done. exists r; split; [exact Hp|constructor].
  - unfold timer. rewrite (heap_on_heap _ _ _ _ _ Hp). eexists; split; [reflexivity|].
    destruct (decide (p = q)); [|constructor]. destruct (expires r <=? now); constructor.
  - exists r. split; [|constructor]. unfold gc_tick. by destruct (gc s).
  - exists r. split; [|constructor]. unfold gc_visit. destruct (gc s); try done. by destruct (_ !! i).
  - exists r. split; [|constructor]. by rewrite gc_step_heap.
  - exists r. split; [exact Hp|constructor].
  - exists r. split; [exact Hp|constructor].
  - by apply req_step_heap.
Qed.

(** A property of a task that every move keeps holds along an execution. *)
Lemma exec_heap (Q : proc -> Prop) tr s p r :
  (forall P now r r', Q r -> moves P now r r' -> Q r') ->
  heap s !! p = Some r -> Q r -> exists r', heap (exec tr s) !! p = Some r' /\ Q r'.
Proof.
  intros Hm. revert s r. induction tr as [|[now a] tr IH]; intros s r Hp Hq; [by exists r|].
  destruct (step_heap now a s p r Hp) as (r' & Hp' & Hr). apply (IH _ r' Hp'). by eapply Hm.
Qed.

(** The status, the error and the data at each point of runTask. *)
Definition over (t : task) : Prop :=
  (status t = StatusFailed /\ is_Some (error t) /\ stdoutData t = EmptyString) \/ (status t = StatusCompleted /\ error t = None).
Definition coherent (r : proc) : Prop :=
  let t := ptask r in
  match ppc r with
  | RunStart => status t = StatusPending /\ error t = None /\ stdoutData t = EmptyString
  | RunExec | RunStore _ => status t = StatusRunning /\ error t = None /\ stdoutData t = EmptyString
  | RunFailed _ _ | RunError _ => status t = StatusFailed /\ error t = None /\ stdoutData t = EmptyString
  | RunComplete => status t = StatusRunning /\ error t = None
  | RunDeferred | RunDeadline _ => over t
  | RunDone => over t /\ is_Some (deadlineTime t)
  end.

Lemma coherent_moves P now r r' : coherent r -> moves P now r r' -> coherent r'.
Proof.
  unfold coherent, over. intros Hc Hm. destruct Hm as [r|o r|r|r|n r Hn]; [exact Hc| | | |].
  - unfold run_step. destruct (ppc r) eqn:E; cbn; try rewrite E; try naive_solver.
    + destruct o; cbn; naive_solver.
    + destruct (_ =? _); cbn; naive_solver.
  - destruct r as [t x c' k], k; exact Hc.
  - destruct r as [t x c' k], k; exact Hc.
  - destruct r as [t x c' k], k; cbn in *; naive_solver.
Qed.

Lemma moves_id P now r r' : moves P now r r' -> id (ptask r') = id (ptask r).
Proof.
  destruct 1 as [r|o r|r|r|n r Hn]; try reflexivity. unfold run_step.
  destruct (ppc r); try reflexivity; [by destruct o | by destruct (_ =? _)].
Qed.

(** The key NewTask takes at a step, if it is one. *)
Definition allocates (i : string) (a : action) : Prop :=
  match a with ANew draw _ _ _ _ => allocTaskID draw = Some i | _ => False end.

(** The steps that delete a key. *)
Definition deletes (i : string) (a : action) (s : state) : Prop :=
  (exists k, a = AReq k /\ requests s !! k = Some (mk_req i StopDelete)) \/ (a = AGc /\ exists now, gc s = GcDelete now i).

Lemma req_step_cache now k s i : taskLifeTmpCache (req_step now k s) !! i = taskLifeTmpCache s !! i \/
  taskLifeTmpCache (req_step now k s) !! i = None /\ requests s !! k = Some (mk_req i StopDelete).
Proof.
  unfold req_step. destruct (requests s !! k) as [[j c]|]; [|by left]. cbn [at_ rname].
  destruct c; unfold set_request; cbn [taskLifeTmpCache req_write uncache on_heap]; try by left.
  destruct (decide (j = i)) as [->|Hn]; [right; by rewrite lookup_delete_eq | left; by rewrite lookup_delete_ne].
Qed.

(** A step changes the entry of a key by allocating or by deleting it. *)
Lemma step_cache now a s i : ~ allocates i a ->
  taskLifeTmpCache (step now a s) !! i = taskLifeTmpCache s !! i \/
  (taskLifeTmpCache (step now a s) !! i = None /\ deletes i a s).
Proof.
  intros Ha. destruct a as [draw bin timeout stype args|q o|q| |j| |j|j|k]; cbn [step allocates] in *; try by left.
  - left. unfold NewTask. destruct (allocTaskID draw) as [j|]; [|reflexivity]. cbn [fst taskLifeTmpCache].
    rewrite lookup_insert_ne; [reflexivity|congruence].
  - left. unfold runTask. by destruct (heap s !! q).
  - left. unfold gc_tick. by destruct (gc s).
  - left. unfold gc_visit. destruct (gc s); try done. by destruct (_ !! j).
  - unfold gc_step. destruct (gc s) as [|n|n j p|n j p|n j p|n j] eqn:E; try by left. cbn [set_gc uncache taskLifeTmpCache].
    destruct (decide (j = i)) as [->|Hn]; [|left; by rewrite lookup_delete_ne].
    right. rewrite lookup_delete_eq. split; [done|]. right. split; [done|]. by exists n.
  - destruct (req_step_cache now k s i) as [E|[E Hq]]; [by left | right]. split; [done|]. left. by exists k.
Qed.

(** The cache points to tasks of that name, and every task is coherent. *)
Definition wf (s : state) : Prop :=
  (forall p r, heap s !! p = Some r -> coherent r) /\
  (forall i p, taskLifeTmpCache s !! i = Some p -> exists r, heap s !! p = Some r /\ id (ptask r) = i).

Lemma req_step_length now k s : length (heap (req_step now k s)) = length (heap s).
Proof.
  unfold req_step. destruct (requests s !! k) as [[j c]|]; [|done]. cbn [at_].
  destruct c; unfold set_request; cbn [heap req_write uncache on_heap]; rewrite ?length_alter; done.
Qed.

Lemma heap_new now a s p r : heap s !! p = None -> heap (step now a s) !! p = Some r ->
  coherent r /\ allocates (id (ptask r)) a /\ taskLifeTmpCache (step now a s) !! id (ptask r) = Some p.
Proof.
  intros Hn. assert (length (heap (step now a s)) = length (heap s) -> heap (step now a s) !! p = Some r -> False) as Hsame.
  { intros Hl Hr. apply lookup_lt_Some in Hr. apply lookup_ge_None in Hn. lia. }
  destruct a as [draw bin timeout stype args|q o|q| |j| |j|j|k]; cbn [step] in *.
  - unfold NewTask. destruct (allocTaskID draw) as [i|] eqn:E; cbn [fst heap taskLifeTmpCache]; [|congruence].
    intros Hr. rewrite lookup_app_r in Hr by (by apply lookup_ge_None).
    destruct (p - length (heap s))%nat as [|k] eqn:Ek; [|by destruct k].
    injection Hr as <-. cbn. apply lookup_ge_None in Hn. replace p with (length (heap s)) by lia.
    repeat split; [exact E|]. by rewrite lookup_insert_eq.
  - intros Hr. destruct Hsame; [|done]. unfold runTask. destruct (heap s !! q); [cbn; by rewrite length_insert | done].
  - intros Hr. destruct Hsame; [|done]. cbn. by rewrite length_alter.
  - intros Hr. destruct Hsame; [|done]. unfold gc_tick. by destruct (gc s).
  - intros Hr. destruct Hsame; [|done]. unfold gc_visit. destruct (gc s); try done. by destruct (_ !! j).
  - intros Hr. destruct Hsame; [|done]. by rewrite gc_step_heap.
  - intros Hr. by destruct Hsame.
  - intros Hr. by destruct Hsame.
  - intros Hr. destruct Hsame; [|done]. apply req_step_length.
Qed.

Lemma new_cached now draw bin timeout stype args s i : allocTaskID draw = Some i ->
  let s' := (NewTask now draw bin timeout stype args s).1 in
  taskLifeTmpCache s' !! i = Some (length (heap s)) /\
  exists r, heap s' !! length (heap s) = Some r /\ id (ptask r) = i.
Proof.
  intros E. unfold NewTask. rewrite E. cbn [fst taskLifeTmpCache heap]. rewrite lookup_insert_eq. split; [reflexivity|].
  eexists. split; [apply list_lookup_middle; reflexivity|reflexivity].
Qed.

Lemma task_step_wf now a s : wf s -> wf (step now a s).
Proof.
  intros [Hc Hi]. split.
  - intros p r' Hr'. destruct (heap s !! p) as [r|] eqn:Hr.
    + destruct (step_heap now a s p r Hr) as (r2 & Hr2 & Hm). rewrite Hr' in Hr2. injection Hr2 as <-.
      eapply coherent_moves; [by apply (Hc p)|exact Hm].
    + by apply (heap_new now a s p).
  - intros i p Hip. assert (Hd : allocates i a \/ ~ allocates i a).
    { destruct a as [draw bin timeout stype args| | | | | | | |]; try (right; exact (fun H => H)). cbn.
      destruct (decide (allocTaskID draw = Some i)); tauto. }
    destruct Hd as [Ha|Ha].
    + destruct a as [draw bin timeout stype args| | | | | | | |]; try contradiction. cbn [step allocates] in *.
      destruct (new_cached now draw bin timeout stype args s i Ha) as [Hip' Hr]. rewrite Hip in Hip'.
      by injection Hip' as ->.
    + destruct (step_cache now a s i Ha) as [E|[E _]]; [|congruence]. rewrite E in Hip.
      destruct (Hi i p Hip) as (r & Hr & Hid). destruct (step_heap now a s p r Hr) as (r' & Hr' & Hm).
      exists r'. split; [exact Hr'|]. by rewrite (moves_id _ now r r' Hm).
Qed.

Lemma task_exec_wf tr s : wf s -> wf (exec tr s).
Proof. revert s. induction tr as [|e tr IH]; intros s Hs; [exact Hs|]. apply IH. by apply task_step_wf. Qed.

Lemma wf_reachable tr : wf (exec tr init).
Proof. apply task_exec_wf. split; [intros p r Hr; discriminate Hr | intros i p Hi; discriminate Hi]. Qed.

Lemma task_exec_app tr1 tr2 s : exec (tr1 ++ tr2) s = exec tr2 (exec tr1 s).
Proof. apply fold_left_app. Qed.

(** ** Retention of results *)

(** The goroutine will not change the result any more; a reading of the clock it
    has still to store is not before [t0]. *)
Definition settled (t0 : Z) (k : pc) : Prop :=
  match k with RunDeferred | RunDone => True | RunDeadline n => t0 <= n | _ => False end.

Definition kept (t0 : Z) (res : TaskResult) (r : proc) : Prop :=
  result_of (ptask r) = res /\ settled t0 (ppc r) /\ exists d, deadlineTime (ptask r) = Some d /\ t0 + life <= d.

Lemma kept_moves t0 res P now r r' : t0 <= now -> (forall n, P n -> t0 <= n) -> kept t0 res r -> moves P now r r' -> kept t0 res r'.
Proof.
  intros Ht HP (Hr & Hs & d & Hd & Hle) Hm. destruct Hm as [r|o r|r|r|n r Hn].
  - by repeat split; [..|exists d].
  - unfold run_step, kept. destruct (ppc r) as [| | | | | | |n|] eqn:E; cbn in Hs; try done; cbn; rewrite ?E.
    + split; [exact Hr|]. split; [exact Ht|]. by exists d.
    + split; [exact Hr|]. split; [done|]. eexists; split; [reflexivity|lia].
    + split; [exact Hr|]. split; [done|]. by exists d.
  - unfold kept. cbn. split; [exact Hr|]. split; [exact Hs|]. by exists d.
  - unfold kept. cbn. split; [exact Hr|]. split; [exact Hs|]. by exists d.
  - unfold kept. cbn. split; [exact Hr|]. split; [exact Hs|]. specialize (HP n Hn). eexists; split; [reflexivity|lia].
Qed.

(** A call of StopTask that may still delete its name. *)
Definition stopping (c : rpc) : Prop :=
  match c with StopLoad | StopTest _ | StopCancel _ | StopDelete => True | _ => False end.

(** What a call of Result has read so far agrees with the answer [res] of [p]. *)
Definition agrees (p : nat) (res : TaskResult) (c : rpc) : Prop :=
  match c with
  | ResLoad => True
  | ResFailed q | ResCompleted q | ResClock q | ResDeadline q _ | ResData q => q = p
  | ResStatus q d => q = p /\ d = TaskData res
  | ResErr q d st => q = p /\ d = TaskData res /\ st = TaskStatus res
  | ResDone x => x = res
  | _ => False
  end.

(** No call is about to delete [i], and none will store a reading before [t0]. *)
Definition calls_ok (t0 : Z) (i : string) (p : nat) (q : request) : Prop :=
  (rname q = i -> ~ stopping (at_ q)) /\ forall n, at_ q = ResDeadline p n -> t0 <= n.

(** The collector's clock is not past the life of the result, what it holds of
    [i] is [p], and it is not about to delete [i]. *)
Definition gc_ok (t0 : Z) (i : string) (p : nat) (g : gpc) : Prop :=
  match g with
  | GcIdle => True
  | GcPass now => now <= t0 + life
  | GcCompleted now j q | GcFailed now j q | GcDeadline now j q => now <= t0 + life /\ (j = i -> q = p)
  | GcDelete now j => now <= t0 + life /\ j <> i
  end.

(** Nothing is under way at [s] that cuts the retention of [i] short of [t0] plus
    the life of a result. *)
Definition undisturbed (t0 : Z) (i : string) (p : nat) (s : state) : Prop :=
  Forall (calls_ok t0 i p) (requests s) /\ gc_ok t0 i p (gc s).

(** A step from [t0] on that neither reuses nor stops [i], nor starts a pass of
    the collector later than the life of a result. *)
Definition quiet (t0 : Z) (i : string) (e : Z * action) : Prop :=
  t0 <= e.1 /\ ~ allocates i e.2 /\ e.2 <> AStop i /\ (e.2 = ATick -> e.1 <= t0 + life).

Record retains (t0 : Z) (i : string) (p : nat) (res : TaskResult) (W : nat -> Prop) (s : state) : Prop := mk_retains {
  ret_cached : taskLifeTmpCache s !! i = Some p;
  ret_kept : exists r, heap s !! p = Some r /\ kept t0 res r;
  ret_calm : undisturbed t0 i p s;
  ret_answers : forall k q, W k -> requests s !! k = Some q -> rname q = i -> agrees p res (at_ q)
}.

Lemma member_kept {A} (f : task -> A) d t0 i p res W s : retains t0 i p res W s ->
  exists r, heap s !! p = Some r /\ kept t0 res r /\ member f d p s = f (ptask r).
Proof. intros [_ (r & Hr & Hk) _ _]. exists r. split; [done|]. split; [done|]. unfold member. by rewrite Hr. Qed.

Lemma req_write_same i c s : requests (req_write i c s) = requests s /\ gc (req_write i c s) = gc s.
Proof. by destruct c. Qed.

(** One step of a call keeps what it has read in agreement. *)
Lemma req_next_agrees t0 i p res W s now q : retains t0 i p res W s -> calls_ok t0 i p q -> t0 <= now ->
  let c := req_next now (rname q) (at_ q) s in
  calls_ok t0 i p (mk_req (rname q) c) /\ (rname q = i -> agrees p res (at_ q) -> agrees p res c).
Proof.
  intros Hret [Hs Hn] Hnow c. destruct q as [j c0]. cbn [rname at_] in *.
  assert (j = i -> taskLifeTmpCache s !! j = Some p) as Hj by (intros ->; apply Hret).
  split.
  - split; cbn [rname at_]; subst c.
    + intros Hi. specialize (Hs Hi). destruct c0; cbn [req_next stopping] in *; repeat case_match; cbn [stopping]; tauto.
    + intros n. destruct c0; cbn [req_next]; repeat case_match; intros; simplify_eq; lia.
  - intros Hi Ha. subst c. destruct (member_kept stdoutData EmptyString _ _ _ _ _ _ Hret) as (r & Hr & (Hres & _) & Ed).
    assert (member status StatusNotExist p s = status (ptask r)) as Est by (unfold member; by rewrite Hr).
    assert (member error None p s = error (ptask r)) as Ee by (unfold member; by rewrite Hr).
    rewrite <- Hres in Ha |- *. destruct c0; cbn [req_next agrees] in *; try done.
    + by rewrite (Hj Hi).
    + by destruct (status_is _ _ _).
    + by destruct (status_is _ _ _).
    + subst p0. split; [done|]. by rewrite Ed.
    + destruct Ha as [-> ->]. split; [done|]. split; [done|]. by rewrite Est.
    + destruct Ha as (-> & -> & ->). by rewrite Ee.
Qed.

(** What a step does to the calls. *)
Lemma step_requests now a s :
  requests (step now a s) = requests s \/
  (exists i c, (a = AAsk i /\ c = ResLoad \/ a = AStop i /\ c = StopLoad) /\ requests (step now a s) = requests s ++ [mk_req i c]) \/
  (exists k q, a = AReq k /\ requests s !! k = Some q /\
     requests (step now a s) = <[k := mk_req (rname q) (req_next now (rname q) (at_ q) s)]> (requests s)).
Proof.
  destruct a as [draw bin timeout stype args|q o|q| |j| |j|j|k]; cbn [step].
  - left. unfold NewTask. by destruct (allocTaskID draw).
  - left. unfold runTask. by destruct (heap s !! q).
  - by left.
  - left. unfold gc_tick. by destruct (gc s).
  - left. unfold gc_visit. destruct (gc s); try done. by destruct (_ !! j).
  - left. unfold gc_step. by destruct (gc s).
  - right. left. exists j, ResLoad. auto.
  - right. left. exists j, StopLoad. auto.
  - unfold req_step. destruct (requests s !! k) as [q|] eqn:E; [|by left]. right. right. exists k, q. split; [done|]. split; [done|].
    unfold set_request. cbn [requests]. by rewrite (proj1 (req_write_same _ _ _)).
Qed.

Lemma step_calls t0 i p res W now a s : retains t0 i p res W s -> quiet t0 i (now, a) ->
  Forall (calls_ok t0 i p) (requests (step now a s)) /\
  forall k q, W k -> requests (step now a s) !! k = Some q -> rname q = i -> agrees p res (at_ q).
Proof.
  intros Hret (Hnow & _ & Hstop & _). cbn [fst snd] in *. destruct (ret_calm _ _ _ _ _ _ Hret) as [Hcalls _].
  pose proof (ret_answers _ _ _ _ _ _ Hret) as Hans.
  destruct (step_requests now a s) as [->|[(j & c & Hj & ->)|(k & q & -> & Hq & ->)]]; [done|..].
  - split.
    + apply Forall_app. split; [done|]. apply Forall_singleton. destruct Hj as [[-> ->]|[-> ->]]; split; try done; cbn.
      * tauto.
      * intros Hi. subst j. by destruct Hstop.
    + intros k q Hk Hl Hi. apply lookup_app_Some in Hl as [Hl|[_ Hl]]; [by eapply Hans|].
      apply list_lookup_singleton_Some in Hl as [_ <-]. cbn in Hi. subst j. destruct Hj as [[-> ->]|[-> ->]]; done.
  - pose proof (proj1 (Forall_lookup _ _) Hcalls k q Hq) as Hok.
    destruct (req_next_agrees t0 i p res W s now q Hret Hok Hnow) as [H1 H2]. split; [by apply Forall_insert|].
    intros k' q' Hk' Hl Hi. destruct (decide (k' = k)) as [->|Hne].
    + rewrite list_lookup_insert_eq in Hl by (by eapply lookup_lt_Some). injection Hl as <-. cbn [rname at_] in *.
      apply H2; [done|]. by eapply Hans.
    + rewrite list_lookup_insert_ne in Hl by done. by eapply Hans.
Qed.

Lemma step_gc t0 i p res W now a s : retains t0 i p res W s -> quiet t0 i (now, a) -> gc_ok t0 i p (gc (step now a s)).
Proof.
  intros Hret (Hnow & _ & _ & Htick). cbn [fst snd] in *. destruct (ret_calm _ _ _ _ _ _ Hret) as [_ Hg].
  destruct a as [draw bin timeout stype args|q o|q| |j| |j|j|k]; cbn [step]; try exact Hg.
  - unfold NewTask. by destruct (allocTaskID draw).
  - unfold runTask. by destruct (heap s !! q).
  - specialize (Htick eq_refl). unfold gc_tick. destruct (gc s) eqn:E; try exact Htick; by rewrite E.
  - unfold gc_visit. destruct (gc s) as [|n|n j' q|n j' q|n j' q|n j'] eqn:E; try (by rewrite E).
    destruct (taskLifeTmpCache s !! j) as [q|] eqn:Ej; [|by rewrite E]. cbn in *. split; [done|]. intros ->.
    rewrite (ret_cached _ _ _ _ _ _ Hret) in Ej. by injection Ej as <-.
  - unfold gc_step. destruct (gc s) as [|n|n j q|n j q|n j q|n j] eqn:E; try (by rewrite E); cbn [set_gc gc].
    + by destruct (status_is _ _ _).
    + destruct (status_is _ _ _); [done | apply Hg].
    + destruct (After n (member deadlineTime None q s)) eqn:Ea; [|apply Hg]. destruct Hg as [Hn Hq]. split; [done|]. intros ->.
      specialize (Hq eq_refl). subst q.
      destruct (member_kept deadlineTime None _ _ _ _ _ _ Hret) as (r & _ & (_ & _ & d & Hd & Hle) & Em).
      rewrite Em, Hd in Ea. cbn in Ea. apply Z.ltb_lt in Ea. lia.
    + apply Hg.
  - unfold req_step. destruct (requests s !! k); [|done]. cbn. by rewrite (proj2 (req_write_same _ _ _)).
Qed.

Lemma step_retains t0 i p res W now a s : retains t0 i p res W s -> quiet t0 i (now, a) -> retains t0 i p res W (step now a s).
Proof.
  intros Hret Hq. pose proof Hq as (Hnow & Ha & _ & _). cbn [fst snd] in *.
  destruct (step_calls _ _ _ _ _ _ _ _ Hret Hq) as [Hcalls Hans]. pose proof (step_gc _ _ _ _ _ _ _ _ Hret Hq) as Hgc.
  destruct Hret as [Hc (r & Hr & Hk) [Hcalls0 Hgc0] Hans0]. constructor; [| | split; done | done].
  - destruct (step_cache now a s i Ha) as [->|[_ [(k & -> & Hk')|(-> & n & Hg)]]]; [done|exfalso..].
    + destruct (proj1 (Forall_lookup _ _) Hcalls0 k _ Hk') as [Hs _]. by apply Hs.
    + rewrite Hg in Hgc0. by destruct Hgc0.
  - destruct (step_heap now a s p r Hr) as (r' & Hr' & Hm). exists r'. split; [done|].
    eapply kept_moves; [exact Hnow | | exact Hk | exact Hm]. intros n (k & q & -> & Hk' & Hq').
    destruct (proj1 (Forall_lookup _ _) Hcalls0 k _ Hk') as [_ Hn]. by apply Hn.
Qed.

Lemma exec_retains t0 i p res W tr s : retains t0 i p res W s -> Forall (quiet t0 i) tr -> retains t0 i p res W (exec tr s).
Proof.
  intros Hret Htr. revert s Hret. induction Htr as [|[now a] tr Hq Htr IH]; intros s Hret; [done|].
  apply IH. by apply step_retains.
Qed.

Lemma exec_requests tr s : (length (requests s) <= length (requests (exec tr s)))%nat.
Proof.
  revert s. induction tr as [|[now a] tr IH]; intros s; [done|]. etrans; [|apply IH]. cbn [fst snd].
  destruct (step_requests now a s) as [->|[(i & c & _ & ->)|(k & q & _ & _ & ->)]]; [done|..];
    rewrite ?length_app, ?length_insert; lia.
Qed.

(** The steps of a call of Result left, at most. *)
Definition res_rank (c : rpc) : option nat :=
  match c with
  | ResLoad => Some 8 | ResFailed _ => Some 7 | ResCompleted _ => Some 6 | ResClock _ => Some 5 | ResDeadline _ _ => Some 4
  | ResData _ => Some 3 | ResStatus _ _ => Some 2 | ResErr _ _ _ => Some 1 | ResDone _ => Some 0 | _ => None
  end%nat.

Definition is_req (k : nat) (a : action) : bool := match a with AReq k' => bool_decide (k' = k) | _ => false end.
Definition asked (k : nat) (tr : list (Z * action)) : nat := length (filter (fun e => is_req k e.2) tr).

Lemma res_rank_next now i c s n : res_rank c = Some n -> exists m, res_rank (req_next now i c s) = Some m /\ (m <= n - 1)%nat.
Proof. destruct c; intros [= <-]; cbn [req_next]; repeat case_match; cbn; eexists; split; try reflexivity; lia. Qed.

Lemma exec_asked k i tr : forall s c n, requests s !! k = Some (mk_req i c) -> res_rank c = Some n ->
  exists c' m, requests (exec tr s) !! k = Some (mk_req i c') /\ res_rank c' = Some m /\ (m <= n - asked k tr)%nat.
Proof.
  induction tr as [|[now a] tr IH]; intros s c n Hk Hn.
  { exists c, n. split; [done|]. split; [done|]. cbn. lia. }
  assert (exists c' m, requests (step now a s) !! k = Some (mk_req i c') /\ res_rank c' = Some m /\
    (m <= n - if is_req k a then 1 else 0)%nat) as (c1 & m1 & Hk1 & Hn1 & Hle).
  { destruct (is_req k a) eqn:Ea.
    { destruct a as [| | | | | | | |k']; try discriminate Ea. apply bool_decide_eq_true in Ea as ->.
      exists (req_next now i c s). destruct (res_rank_next now i c s n Hn) as (m & Hm & Hle). exists m. cbn [step].
      split; [|done]. unfold req_step. rewrite Hk. cbn [set_request requests rname at_].
      rewrite (proj1 (req_write_same _ _ _)), list_lookup_insert_eq by (by eapply lookup_lt_Some). done. }
    destruct (step_requests now a s) as [->|[(j & c' & Hj & ->)|(k' & q & -> & Hq & ->)]].
    - exists c, n. split; [done|]. split; [done|]. lia.
    - exists c, n. split; [by apply lookup_app_l_Some|]. split; [done|]. lia.
    - apply bool_decide_eq_false in Ea. rewrite list_lookup_insert_ne by congruence. exists c, n. split; [done|]. split; [done|]. lia. }
  destruct (IH (step now a s) c1 m1 Hk1 Hn1) as (c2 & m2 & Hk2 & Hn2 & Hle2). exists c2, m2. split; [done|]. split; [done|].
  unfold asked in *. rewrite filter_cons. cbn [snd]. destruct (is_req k a);
    [rewrite decide_True by exact I | rewrite decide_False by exact (fun H => H)]; cbn [length]; lia.
Qed.

(** The answer of a task that is over for good. *)
Definition final (res : TaskResult) : Prop :=
  TaskStatus res = StatusCompleted \/ (TaskStatus res = StatusFailed /\ TaskErr res <> None).

Lemma over_final t : over t -> final (result_of t).
Proof. intros [(H1 & [e He] & _)|[H1 _]]; [right | by left]. cbn. by rewrite He. Qed.

Lemma settled_final t0 r : coherent r -> settled t0 (ppc r) -> final (result_of (ptask r)).
Proof. unfold coherent. destruct (ppc r); intros Hc Hs; try done; apply over_final; (exact Hc || exact (proj1 Hc)). Qed.

(** The store of the deadline by a call of Result. *)
Lemma store_retains t0 i p t r k now s :
  requests s !! k = Some (mk_req i (ResDeadline p t)) -> taskLifeTmpCache s !! i = Some p -> heap s !! p = Some r ->
  settled t0 (ppc r) -> undisturbed t0 i p s ->
  retains t0 i p (result_of (ptask r)) (fun j => j = k \/ (length (requests s) <= j)%nat) (step now (AReq k) s).
Proof.
  intros Hk Hc Hr Hs [Hcalls Hg]. cbn [step]. unfold req_step. rewrite Hk.
  pose proof (proj2 (proj1 (Forall_lookup _ _) Hcalls k _ Hk) t eq_refl) as Ht. cbn [rname at_ req_next req_write]. constructor.
  - exact Hc.
  - exists (on_task (setDeadlineDefault t) r). split; [cbn; by rewrite list_lookup_alter_eq, Hr|].
    split; [done|]. split; [exact Hs|]. exists (t + life). split; [done | lia].
  - split; [|exact Hg]. cbn. apply Forall_insert; [exact Hcalls|]. split; [cbn; tauto | discriminate].
  - cbn. intros j q Hj Hq _. destruct (decide (j = k)) as [->|Hne].
    + rewrite list_lookup_insert_eq in Hq by (by eapply lookup_lt_Some). by injection Hq as <-.
    + rewrite list_lookup_insert_ne in Hq by done. apply lookup_lt_Some in Hq. destruct Hj; [done | lia].
Qed.

(** A call that has been scheduled often enough has answered. *)
Lemma retained_answer t0 i p res W k c n tr s :
  retains t0 i p res W s -> Forall (quiet t0 i) tr -> W k -> requests s !! k = Some (mk_req i c) -> res_rank c = Some n ->
  (n <= asked k tr)%nat -> requests (exec tr s) !! k = Some (mk_req i (ResDone res)).
Proof.
  intros Hret Htr Hw Hk Hn Hle. destruct (exec_asked k i tr s c n Hk Hn) as (c' & m & Hk' & Hm & Hle').
  rewrite Hk'. pose proof (ret_answers _ _ _ _ _ _ (exec_retains _ _ _ _ _ _ _ Hret Htr) k _ Hw Hk' eq_refl) as Ha.
  cbn [at_] in Ha. destruct c'; cbn in Hm; try discriminate Hm; injection Hm as <-; try lia. cbn in Ha. by subst.
Qed.

(** ** Stopping *)

Definition cancelled (r : proc) : Prop :=
  pctx r = Some Canceled /\
  match ppc r with
  | RunError e => e = ErrTaskCanceled
  | RunDeferred | RunDeadline _ | RunDone => status (ptask r) = StatusFailed -> error (ptask r) = Some ErrTaskCanceled
  | _ => True
  end.

Lemma cancelled_moves P now r r' : cancelled r -> moves P now r r' -> cancelled r'.
Proof.
  intros [Hc Hs] Hm. unfold cancelled. destruct Hm as [r|o r|r|r|n r Hn]; cbn; rewrite ?Hc; try by split.
  unfold run_step. destruct (ppc r) eqn:E; cbn; rewrite ?E; split; try done; try (by destruct o); rewrite ?Hc; by subst.
Qed.

(** ** Progress *)

(** The steps of runTask left, at most. *)
Definition rank (k : pc) : nat :=
  match k with
  | RunStart => 6 | RunExec => 5 | RunStore _ | RunFailed _ _ => 4 | RunComplete | RunError _ => 3 | RunDeferred => 2
  | RunDeadline _ => 1 | RunDone => 0
  end.

Definition is_run (p : nat) (a : action) : bool :=
  match a with ARun q _ => bool_decide (q = p) | _ => false end.

Definition runs (p : nat) (tr : list (Z * action)) : nat := length (filter (fun e => is_run p e.2) tr).

Lemma rank_bound k : (rank k <= 6)%nat.
Proof. destruct k; cbn; lia. Qed.

Lemma rank_run_step now o r : (rank (ppc (run_step now o r)) <= rank (ppc r) - 1)%nat.
Proof. unfold run_step. destruct (ppc r) eqn:E; cbn; rewrite ?E; cbn; try lia. destruct o; cbn; lia. Qed.

Lemma rank_moves P now r r' : moves P now r r' -> (rank (ppc r') <= rank (ppc r))%nat.
Proof. destruct 1 as [r|o r|r|r|n r Hn]; cbn; try lia. pose proof (rank_run_step now o r). lia. Qed.

Lemma step_rank now a s p r : heap s !! p = Some r -> coherent r ->
  exists r', heap (step now a s) !! p = Some r' /\ coherent r' /\
    (rank (ppc r') <= rank (ppc r) - if is_run p a then 1 else 0)%nat.
Proof.
  intros Hr Hc. destruct (is_run p a) eqn:Ea.
  - destruct a as [|q o| | | | | | |]; try discriminate Ea. cbn [is_run] in Ea. apply bool_decide_eq_true in Ea as ->.
    exists (run_step now o r). cbn [step]. unfold runTask. rewrite Hr. cbn [heap].
    rewrite list_lookup_insert_eq by (by eapply lookup_lt_Some). split; [reflexivity|].
    split; [|apply rank_run_step]. by apply (coherent_moves (fun _ => False) now r); [|constructor].
  - destruct (step_heap now a s p r Hr) as (r' & Hr' & Hm). exists r'. split; [exact Hr'|].
    split; [by eapply coherent_moves|]. pose proof (rank_moves _ now r r' Hm). lia.
Qed.

Lemma exec_rank p tr s r : heap s !! p = Some r -> coherent r ->
  exists r', heap (exec tr s) !! p = Some r' /\ coherent r' /\ (rank (ppc r') <= rank (ppc r) - runs p tr)%nat.
Proof.
  revert s r. induction tr as [|[now a] tr IH]; intros s r Hr Hc; [exists r; split; [exact Hr|split; [exact Hc|change (runs p []) with 0%nat; lia]]|].
  destruct (step_rank now a s p r Hr Hc) as (r1 & Hr1 & Hc1 & Hk1).
  destruct (IH (step now a s) r1 Hr1 Hc1) as (r2 & Hr2 & Hc2 & Hk2). exists r2. split; [exact Hr2|].
  split; [exact Hc2|]. unfold runs in *. rewrite filter_cons. cbn [snd].
  destruct (is_run p a); [rewrite decide_True by exact I|rewrite decide_False by exact (fun H => H)]; cbn [length]; lia.
Qed.

(** ** The result *)

(** The answers of the command at the steps of the goroutine of [p]. *)
Definition answers (p : nat) (tr : list (Z * action)) : list outcome :=
  omap (fun e => match e.2 with ARun q o => if decide (q = p) then Some o else None | _ => None end) tr.

Lemma answers_length p tr : runs p tr = length (answers p tr).
Proof.
  unfold runs. induction tr as [|[now a] tr IH]; [done|]. rewrite filter_cons. unfold answers. cbn [omap list_omap snd].
  destruct a as [|q o| | | | | | |]; cbn [is_run]; try (rewrite decide_False by exact (fun H => H); exact IH).
  destruct (decide (q = p)) as [->|Hn].
  - rewrite bool_decide_eq_true_2 by done. rewrite decide_True by exact I. cbn [length]. by rewrite IH.
  - rewrite bool_decide_eq_false_2 by done. rewrite decide_False by exact (fun H => H). exact IH.
Qed.

(** What a task stored as [st] answers once its command has answered [o]. *)
Definition failed_by (err output : string) (e : task_error) : Prop :=
  e = ErrTaskTimeout \/ e = ErrTaskCanceled \/ e = ErrTaskCmd err output.
Definition stored (st : Z) (output : string) : string := if st =? TaskStorageStdout then output else EmptyString.
Definition ends (o : outcome) (st : Z) (res : TaskResult) : Prop :=
  match o with
  | CmdOk output => res = mk_result StatusCompleted (stored st output) None
  | CmdErr err output => exists e, res = mk_result StatusFailed EmptyString (Some e) /\ failed_by err output e
  end.

(** The goroutine is to end like that, [os] being the answers still to come. *)
Definition due (o : outcome) (st : Z) (os : list outcome) (r : proc) : Prop :=
  let t := ptask r in
  let blank := error t = None /\ stdoutData t = EmptyString in
  storage t = st /\
  match ppc r with
  | RunStart => os !! 1%nat = Some o /\ blank
  | RunExec => os !! 0%nat = Some o /\ blank
  | RunFailed err output => o = CmdErr err output /\ status t = StatusFailed /\ blank
  | RunError e => (exists err output, o = CmdErr err output /\ failed_by err output e) /\ status t = StatusFailed /\ blank
  | RunStore output => o = CmdOk output /\ blank
  | RunComplete => exists output, o = CmdOk output /\ stdoutData t = stored st output /\ error t = None
  | RunDeferred | RunDeadline _ | RunDone => ends o st (result_of t)
  end.

Lemma due_run o st os now o1 r : due o st (o1 :: os) r -> due o st os (run_step now o1 r).
Proof.
  intros [Hst Hd]. unfold run_step, due. destruct (ppc r) as [| |err out|e|out| | |n|] eqn:E; cbn; rewrite ?E.
  - by destruct Hd.
  - destruct Hd as [[= ->] Hb]. by destruct o.
  - destruct Hd as (-> & Hs & Hb). split; [done|]. split; [|done]. exists err, out. split; [done|].
    unfold failed_by, failure. destruct (pctx r) as [[]|]; auto.
  - destruct Hd as ((err & out & -> & He) & Hs & _ & Hb). split; [done|]. exists e. unfold result_of. cbn. by rewrite Hs, Hb.
  - destruct Hd as (-> & He & Hb). unfold stored. rewrite Hst. destruct (st =? TaskStorageStdout); split; try done; by exists out.
  - destruct Hd as (out & -> & Hs & He). split; [done|]. unfold result_of. cbn. by rewrite Hs, He.
  - done.
  - done.
  - done.
Qed.

(** Steps that are not the goroutine's leave the result and the point it has
    reached. *)
Definition same_run (r r' : proc) : Prop :=
  ppc r' = ppc r /\ storage (ptask r') = storage (ptask r) /\ result_of (ptask r') = result_of (ptask r).

Lemma due_same o st os r r' : same_run r r' -> due o st os r -> due o st os r'.
Proof.
  intros (Hp & Hs & Hr). unfold due. rewrite Hp, Hs. unfold result_of in *. injection Hr as H1 H2 H3.
  by rewrite H1, H2, H3.
Qed.

Lemma on_heap_same q f s p r : (forall r, same_run r (f r)) -> heap s !! p = Some r ->
  exists r', heap (on_heap q f s) !! p = Some r' /\ same_run r r'.
Proof.
  intros Hf Hp. rewrite (heap_on_heap _ _ _ _ _ Hp). eexists. split; [reflexivity|].
  destruct (decide (p = q)); [apply Hf | by repeat split].
Qed.

Lemma step_same now a s p r : heap s !! p = Some r -> is_run p a = false ->
  exists r', heap (step now a s) !! p = Some r' /\ same_run r r'.
Proof.
  intros Hp Ha. assert (Hrefl : same_run r r) by by repeat split.
  destruct a as [draw bin timeout stype args|q o|q| |i| |i|i|k]; cbn [step].
  - exists r. split; [|done]. unfold NewTask. destruct (allocTaskID draw); [by apply lookup_app_l_Some | done].
  - exists r. split; [|done]. apply bool_decide_eq_false in Ha. unfold runTask. destruct (heap s !! q); [|done].
    cbn [heap]. by rewrite list_lookup_insert_ne.
  - apply on_heap_same; [|done]. intros r0. by destruct (_ <=? _).
  - exists r. split; [|done]. unfold gc_tick. by destruct (gc s).
  - exists r. split; [|done]. unfold gc_visit. destruct (gc s); try done. by destruct (_ !! i).
  - exists r. split; [|done]. by rewrite gc_step_heap.
  - by exists r.
  - by exists r.
  - unfold req_step. destruct (requests s !! k) as [q|]; [|by exists r]. unfold set_request. cbn [heap].
    destruct (at_ q); cbn [req_write]; try (by exists r); by apply on_heap_same.
Qed.

Lemma exec_due p o st tr : forall s r, heap s !! p = Some r -> due o st (answers p tr) r ->
  exists r', heap (exec tr s) !! p = Some r' /\ due o st [] r'.
Proof.
  induction tr as [|[now a] tr IH]; intros s r Hr Hd; [by exists r|].
  destruct (is_run p a) eqn:Ea.
  - destruct a as [|q o1| | | | | | |]; try discriminate Ea. apply bool_decide_eq_true in Ea as ->.
    unfold answers in Hd. cbn [omap list_omap snd] in Hd. rewrite decide_True in Hd by done.
    apply (IH _ (run_step now o1 r)); [|by apply due_run]. cbn [fst snd step]. unfold runTask. rewrite Hr. cbn [heap].
    by rewrite list_lookup_insert_eq by (by eapply lookup_lt_Some).
  - destruct (step_same now a s p r Hr Ea) as (r' & Hr' & Hs). apply (IH _ r' Hr'). apply (due_same _ _ _ r); [exact Hs|].
    unfold answers in Hd. destruct a as [|q o1| | | | | | |]; try exact Hd. apply bool_decide_eq_false in Ea.
    cbn [omap list_omap snd] in Hd. by rewrite decide_False in Hd.
Qed.

(** ** Names *)

Lemma get_lookup n s : String.get n s = String.list_ascii_of_string s !! n.
Proof. revert n. induction s as [|c s IH]; intros [|n]; cbn; [reflexivity..|]. apply IH. Qed.

Lemma charset_injective x y c : String.get x charset = Some c -> String.get y charset = Some c -> x = y.
Proof.
  rewrite !get_lookup. intros Hx Hy.
  assert (Hd : NoDup (String.list_ascii_of_string charset)) by (apply (bool_decide_unpack _); vm_compute; exact I).
  exact (proj1 (NoDup_alt _) Hd x y c Hx Hy).
Qed.

Lemma allocTaskID_draws draw i k : allocTaskID draw = Some i -> (k < 16)%nat ->
  exists x c, draw k = Some x /\ String.list_ascii_of_string i !! k = Some c /\ String.get x charset = Some c.
Proof.
  unfold allocTaskID. intros H Hk. apply bind_Some in H as (cs & Hm & [= <-]). apply mapM_Some in Hm.
  rewrite String.list_ascii_of_string_of_list_ascii.
  destruct (Forall2_lookup_l _ _ _ k k Hm) as (c & Hc & Hd); [by apply lookup_seq|].
  apply bind_Some in Hd as (x & Hx & Hg). by exists x, c.
Qed.

(** ** Theorems *)

(** Under any interleaving every cached name leads to the task of that name, and
    status, error and data of every task are those of the point its goroutine
    has reached. *)
Theorem task_wf tr : wf (exec tr init).
Proof. apply wf_reachable. Qed.

(** C7: A call of Result for the name [i] that saw the final status and is about
    to store the deadline keeps the result for ten minutes. Suppose the goroutine
    of the task is past its last store to the result. Let [t0] be the earliest of
    the clock readings that this call, the goroutine and any other call have
    still to store as the deadline. Suppose no StopTask for [i] is under way and
    the collector, if it is in a pass, read its clock by [t0] plus ten minutes
    and is not about to delete [i]. After that store take any interleaving of
    steps, from [t0] on, that neither stops [i] nor gives its name to another
    task, and in which no pass of the collector begins later than ten minutes
    after [t0]. A call of Result for [i] made in it answers, once it has been
    scheduled eight times, with the status, the data and the error the task had
    at the store, and so does the first call after three further steps. The
    answer is a final one: Completed, or Failed with an error. *)
Theorem task_result_retained tr0 k i p t t0 r now0 tr1 now1 tr2 :
  let s := exec tr0 init in
  requests s !! k = Some (mk_req i (ResDeadline p t)) -> taskLifeTmpCache s !! i = Some p -> heap s !! p = Some r ->
  settled t0 (ppc r) -> undisturbed t0 i p s -> Forall (quiet t0 i) (tr1 ++ (now1, AAsk i) :: tr2) ->
  let s1 := exec ((now0, AReq k) :: tr1) s in
  let s2 := exec ((now1, AAsk i) :: tr2) s1 in
  let k' := length (requests s1) in
  ((8 <= asked k' tr2)%nat -> requests s2 !! k' = Some (mk_req i (ResDone (result_of (ptask r))))) /\
  ((3 <= asked k (tr1 ++ (now1, AAsk i) :: tr2))%nat -> requests s2 !! k = Some (mk_req i (ResDone (result_of (ptask r))))) /\
  final (result_of (ptask r)).
Proof.
  intros s Hk Hc Hr Hs Hu Hq s1 s2 k'. pose proof (store_retains t0 i p t r k now0 s Hk Hc Hr Hs Hu) as Hret.
  pose proof Hq as Hq'. apply Forall_app in Hq' as [Hq1 Hq2]. apply Forall_cons in Hq2 as [Hq2 Hq3].
  assert (Hlen : (length (requests s) <= length (requests s1))%nat).
  { subst s1. pose proof (exec_requests ((now0, AReq k) :: tr1) s). lia. }
  split; [|split].
  - intros Hn. pose proof (exec_retains _ _ _ _ _ tr1 _ Hret Hq1) as Hret1. fold s1 in Hret1.
    apply (retained_answer t0 i p _ _ k' ResLoad 8 tr2 (step now1 (AAsk i) s1)
      (step_retains _ _ _ _ _ _ _ _ Hret1 Hq2) Hq3 (or_intror Hlen)); [|done|exact Hn].
    cbn. by apply list_lookup_middle.
  - intros Hn. unfold s2, s1. cbn [exec fold_left fst snd]. change (fold_left _ tr1 ?x) with (exec tr1 x).
    change (fold_left _ tr2 (step now1 (AAsk i) ?x)) with (exec ((now1, AAsk i) :: tr2) x). rewrite <- task_exec_app.
    apply (retained_answer t0 i p _ _ k (ResData p) 3 _ _ Hret Hq (or_introl eq_refl)); [|done|exact Hn].
    cbn [step]. unfold req_step. rewrite Hk. cbn. by rewrite list_lookup_insert_eq by (by eapply lookup_lt_Some).
  - apply (settled_final t0); [|exact Hs]. by apply (wf_reachable tr0) in Hr.
Qed.

(** A StopTask that cancels the context before the goroutine reads ctx.Err():
    whatever follows, the context stays cancelled, and a failure of the command
    is reported as ErrTaskCanceled. *)
Theorem task_stop_running k i s p r tr now :
  requests s !! k = Some (mk_req i (StopCancel p)) -> heap s !! p = Some r -> pctx r = None ->
  (ppc r = RunExec \/ exists err output, ppc r = RunFailed err output) ->
  exists r', heap (exec ((now, AReq k) :: tr) s) !! p = Some r' /\ pctx r' = Some Canceled /\
    (ppc r' = RunDone -> status (ptask r') = StatusFailed -> error (ptask r') = Some ErrTaskCanceled).
Proof.
  intros Hk Hr Hctx Hpc.
  assert (Hs : heap (step now (AReq k) s) !! p = Some (cancel Canceled r)).
  { cbn [step]. unfold req_step. rewrite Hk. cbn. by rewrite list_lookup_alter_eq, Hr. }
  assert (Hcan : cancelled (cancel Canceled r)).
  { split; cbn; [by rewrite Hctx|]. by destruct Hpc as [->|(e & o & ->)]. }
  destruct (exec_heap cancelled tr _ p _ cancelled_moves Hs Hcan) as (r' & Hr' & H1 & H2).
  exists r'. split; [exact Hr'|]. split; [exact H1|]. intros Hd. by rewrite Hd in H2.
Qed.

(** C40: What a task ends with, under any interleaving of the other tasks, of
    calls of Result and StopTask, of timers and of the collector. From its start,
    once its goroutine has been scheduled six times, it has returned with a
    deadline set. If the command answered with its output, the task is Completed,
    without an error, with the output as its data if it is stored as stdout and
    no data otherwise. If the command failed, the task is Failed, without data,
    and its error is a timeout, a cancellation or the error of the command with
    its output. *)
Theorem task_finishes tr0 p r tr o0 o os :
  heap (exec tr0 init) !! p = Some r -> ppc r = RunStart -> answers p tr = o0 :: o :: os -> (4 <= length os)%nat ->
  exists r', heap (exec tr (exec tr0 init)) !! p = Some r' /\ ppc r' = RunDone /\
    is_Some (deadlineTime (ptask r')) /\ ends o (storage (ptask r)) (result_of (ptask r')).
Proof.
  intros Hr Hpc Ho Hn. pose proof (proj1 (wf_reachable tr0) p r Hr) as Hc.
  assert (Hrun : runs p tr = length (answers p tr)) by apply answers_length. rewrite Ho in Hrun. cbn [length] in Hrun.
  destruct (exec_rank p tr _ r Hr Hc) as (r' & Hr' & Hc' & Hk). rewrite Hpc in Hk. cbn [rank] in Hk.
  assert (ppc r' = RunDone) as Hd by (destruct (ppc r'); cbn in Hk; try lia; reflexivity).
  destruct (exec_due p o (storage (ptask r)) tr _ r Hr) as (r2 & Hr2 & _ & Hdue).
  { unfold due. rewrite Hpc, Ho. split; [done|]. split; [done|]. unfold coherent in Hc. rewrite Hpc in Hc. by destruct Hc. }
  rewrite Hr' in Hr2. injection Hr2 as <-. rewrite Hd in Hdue. exists r'. split; [exact Hr'|]. split; [exact Hd|].
  unfold coherent in Hc'. rewrite Hd in Hc'. by destruct Hc'.
Qed.

(** Two calls of allocTaskID give the same name only on the same sixteen draws. *)
Theorem task_ids_injective d1 d2 i :
  allocTaskID d1 = Some i -> allocTaskID d2 = Some i -> forall k, (k < 16)%nat -> d1 k = d2 k.
Proof.
  intros H1 H2 k Hk. apply allocTaskID_draws with (k := k) in H1 as (x1 & c1 & -> & Hc1 & Hg1); [|exact Hk].
  apply allocTaskID_draws with (k := k) in H2 as (x2 & c2 & -> & Hc2 & Hg2); [|exact Hk].
  f_equal. eapply charset_injective; [exact Hg1|]. congruence.
Qed.

(** ** Interleavings that lose or tear a result *)

Definition draw0 (k : nat) : option nat := Some k.
Definition name0 : string := "abcdefghijklmnop".
Definition launch : Z * action := (100, ANew draw0 "perf" 1000 TaskStorageStdout ["-a"]).

(** [n] steps of the goroutine, of the collector and of a call. *)
Definition goes (now : Z) (n : nat) : list (Z * action) := repeat (now, ARun 0 (CmdOk "stacks")) n.
Definition collects (now : Z) (n : nat) : list (Z * action) := repeat (now, AGc) n.
Definition serves (now : Z) (k n : nat) : list (Z * action) := repeat (now, AReq k) n.

(** The collector looks at the task between the store of its status and that of
    its first deadline: the zero deadline is past, and a result that was never
    read is gone. *)
Example task_gc_race :
  requests (exec (launch :: goes 200 4 ++ [(201, ATick); (201, AVisit name0)] ++ collects 201 3 ++ goes 202 2 ++
    (203, AAsk name0) :: serves 203 0 1) init)
  = [mk_req name0 (ResDone (mk_result StatusNotExist EmptyString (Some ErrTaskNotFound)))].
Proof. vm_compute. reflexivity. Qed.

(** A StopTask before the goroutine's first step deletes the name and cancels
    nothing: the command runs to its end, and cannot be stopped any more. *)
Example task_stop_pending :
  let s := exec (launch :: (101, AStop name0) :: serves 101 0 3 ++ (102, AStop name0) :: serves 102 1 1 ++ goes 200 6) init in
  (pctx <$> heap s, status <$> (ptask <$> heap s), requests s)
  = ([None], [StatusCompleted], [mk_req name0 (StopDone None); mk_req name0 (StopDone (Some ErrTaskNotFound))]).
Proof. vm_compute. reflexivity. Qed.

(** A call of Result that reads the data before the goroutine stores it and the
    status after answers Completed with no data. *)
Example task_torn_result :
  let s := exec (launch :: goes 200 2 ++ (200, AAsk name0) :: serves 200 0 4 ++ goes 201 2 ++ serves 202 0 2) init in
  (stdoutData <$> (ptask <$> heap s), requests s)
  = (["stacks"%string], [mk_req name0 (ResDone (mk_result StatusCompleted EmptyString None))]).
Proof. vm_compute. reflexivity. Qed.

(** The collector has found the deadline past when a call of Result renews it:
    the call answers with the result, and the next one finds no task. *)
Example task_collector_overtakes :
  let late := 202 + life + 1 in
  requests (exec (launch :: goes 202 6 ++ [(late, ATick); (late, AVisit name0)] ++ collects late 2 ++
    (late, AAsk name0) :: serves late 0 8 ++ collects late 1 ++ (late, AAsk name0) :: serves late 1 1) init)
  = [mk_req name0 (ResDone (mk_result StatusCompleted "stacks" None));
     mk_req name0 (ResDone (mk_result StatusNotExist EmptyString (Some ErrTaskNotFound)))].
Proof. vm_compute. reflexivity. Qed.

(** ** Witnesses *)

(** A task that has completed, with a call of Result that read the clock at 210. *)
Definition asking : list (Z * action) := launch :: goes 202 6 ++ (205, AAsk name0) :: serves 210 0 4.

(** A pass of the collector ten minutes later, then a second call. *)
Definition later : list (Z * action) := [(300, ATick); (300, AVisit name0); (300, AGc); (300, AGc); (210 + life, ATick);
  (210 + life, AVisit name0)] ++ collects (220 + life) 3.

Lemma task_result_retained_witness :
  requests (exec ((300 + life, AAsk name0) :: serves (300 + life) 1 8 ++ serves (300 + life) 0 3)
    (exec ((211, AReq 0) :: later) (exec asking init)))
  !! 1%nat = Some (mk_req name0 (ResDone (mk_result StatusCompleted "stacks" None))).
Proof.
  destruct (heap (exec asking init) !! 0%nat) as [r|] eqn:E; [|vm_compute in E; discriminate E].
  destruct (task_result_retained asking 0 name0 0 210 210 r 211 later (300 + life)
    (serves (300 + life) 1 8 ++ serves (300 + life) 0 3)) as (H & _ & _).
  - vm_compute. reflexivity.
  - vm_compute. reflexivity.
  - exact E.
  - vm_compute in E. injection E as <-. exact I.
  - split; [|exact I]. vm_compute. repeat constructor; [intros _ []|]. intros n [= <-]. discriminate.
  - repeat constructor; cbn; try discriminate; try (unfold life; lia); exact (fun H => H).
  - assert (Hr : result_of (ptask r) = mk_result StatusCompleted "stacks" None) by (vm_compute in E; by injection E as <-).
    rewrite Hr in H. apply H. vm_compute. lia.
Defined.

Lemma task_stop_running_witness :
  exists r', heap (exec ((250, AReq 0) :: [(300, ARun 0 (CmdErr "signal: killed" "")); (301, ARun 0 (CmdOk ""));
      (301, ARun 0 (CmdOk "")); (302, ARun 0 (CmdOk "")); (303, ARun 0 (CmdOk ""))])
      (exec (launch :: goes 200 1 ++ (201, AStop name0) :: serves 201 0 2) init)) !! 0%nat = Some r' /\
    error (ptask r') = Some ErrTaskCanceled.
Proof.
  destruct (heap (exec (launch :: goes 200 1 ++ (201, AStop name0) :: serves 201 0 2) init) !! 0%nat) as [r|] eqn:E;
    [|vm_compute in E; discriminate E].
  destruct (task_stop_running 0 name0 (exec (launch :: goes 200 1 ++ (201, AStop name0) :: serves 201 0 2) init) 0 r
    [(300, ARun 0 (CmdErr "signal: killed" "")); (301, ARun 0 (CmdOk "")); (301, ARun 0 (CmdOk ""));
     (302, ARun 0 (CmdOk "")); (303, ARun 0 (CmdOk ""))] 250) as (r' & Hr' & _ & He).
  - vm_compute. reflexivity.
  - exact E.
  - vm_compute in E. injection E as <-. reflexivity.
  - left. vm_compute in E. injection E as <-. reflexivity.
  - exists r'. split; [exact Hr'|]. vm_compute in Hr'. injection Hr' as <-. by apply He.
Defined.

Lemma task_finishes_witness :
  exists r', heap (exec (goes 200 3 ++ (200, AAsk name0) :: goes 200 3) (exec [launch] init)) !! 0%nat = Some r' /\
    result_of (ptask r') = mk_result StatusCompleted "stacks" None.
Proof.
  destruct (heap (exec [launch] init) !! 0%nat) as [r|] eqn:E; [|vm_compute in E; discriminate E].
  destruct (task_finishes [launch] 0 r (goes 200 3 ++ (200, AAsk name0) :: goes 200 3) (CmdOk "stacks") (CmdOk "stacks")
    (repeat (CmdOk "stacks") 4)) as (r' & Hr' & _ & _ & He).
  - exact E.
  - vm_compute in E. by injection E as <-.
  - vm_compute. reflexivity.
  - vm_compute. lia.
  - exists r'. split; [exact Hr'|]. vm_compute in E. injection E as <-. exact He.
Defined.

Lemma task_ids_injective_witness : draw0 3 = Some 3%nat.
Proof.
  apply (task_ids_injective draw0 (fun k => Some k) name0); [vm_compute; reflexivity | vm_compute; reflexivity | lia].
Defined.

End Task.
