(* ===== verification/NetdevEvents.v ===== *)
(** * core/events/netdev_events.go: link state changes

    The tracer reads the flags of the white-listed interfaces, subscribes to
    link messages, and counts and saves the changes of the administrative and
    of the carrier state. Counts are unbounded integers. *)
From S2P Require Import Prelude.
From stdpp Require Import base gmap list strings.
From Stdlib Require Import ZArith Lia.

Open Scope Z_scope.

Module NetdevEvents.

(** linkStatusType is a uint8. *)
Definition linkStatusUnknown : Z := 0.
Definition linkStatusAdminUp : Z := 1.
Definition linkStatusAdminDown : Z := 2.
Definition linkStatusCarrierUp : Z := 3.
Definition linkStatusCarrierDown : Z := 4.
Definition maxLinkStatus : Z := 5.

(** The index of the array; [None] is the panic beyond it. *)
Definition status_String (l : Z) : option string :=
  ["linkstatus_unknown"; "linkstatus_adminup"; "linkstatus_admindown";
   "linkstatus_carrierup"; "linkstatus_carrierdown"]%string !! Z.to_nat l.

(** unix.IFF_UP and unix.IFF_LOWER_UP *)
Definition IFF_UP : Z := 0x1.
Definition IFF_LOWER_UP : Z := 0x10000.

Definition flags2status (flags change : Z) : list Z :=
  (if Z.land change IFF_UP =? 0 then []
   else [if Z.land flags IFF_UP =? 0 then linkStatusAdminDown else linkStatusAdminUp]) ++
  (if Z.land change IFF_LOWER_UP =? 0 then []
   else [if Z.land flags IFF_LOWER_UP =? 0 then linkStatusCarrierDown else linkStatusCarrierUp]).

(** The two channels are open until closed; [saved] is what storage.Save was
    given. The count maps are one map from status and interface. *)
Record netdevTracing := mk_tracing
  { linkUpdateCh_closed : bool; linkDoneCh_closed : bool;
    ifFlagsMap : gmap string Z; metricsLinkStatusCountMap : gmap (Z * string) Z;
    saved : list (string * string) }.

Definition newNetdevTracing : netdevTracing := mk_tracing false false ∅ ∅ [].

Definition count (nt : netdevTracing) (status : Z) (ifname : string) : Z :=
  default 0 (metricsLinkStatusCountMap nt !! (status, ifname)).

(** data.LinkStatus after one more status. *)
Definition add_status (s : string) (status : Z) : string :=
  let n := default EmptyString (status_String status) in
  if bool_decide (s = EmptyString) then n else s +:+ ", " +:+ n.

Definition incr (ifname : string) (m : gmap (Z * string) Z) (status : Z) : gmap (Z * string) Z :=
  <[(status, ifname) := default 0 (m !! (status, ifname)) + 1]> m.

Definition record (ifname : string) (linkFlags flagsChange : Z) (AtStart : bool) (nt : netdevTracing)
    : netdevTracing :=
  let statuses := flags2status linkFlags flagsChange in
  let LinkStatus := foldl add_status EmptyString statuses in
  mk_tracing (linkUpdateCh_closed nt) (linkDoneCh_closed nt) (ifFlagsMap nt)
    (foldl (incr ifname) (metricsLinkStatusCountMap nt) statuses)
    (if negb AtStart && negb (bool_decide (LinkStatus = EmptyString))
     then saved nt ++ [(ifname, LinkStatus)] else saved nt).

Definition set_flags (ifname : string) (flags : Z) (nt : netdevTracing) : netdevTracing :=
  mk_tracing (linkUpdateCh_closed nt) (linkDoneCh_closed nt) (<[ifname := flags]> (ifFlagsMap nt))
    (metricsLinkStatusCountMap nt) (saved nt).

Definition handleEvent (ifname : string) (currFlags : Z) (nt : netdevTracing) : netdevTracing :=
  let lastFlags := default 0 (ifFlagsMap nt !! ifname) in
  let change := Z.lxor currFlags lastFlags in
  record ifname currFlags change false (set_flags ifname currFlags nt).

(** [links] is [None] if netlink.LinkList fails. *)
Definition checkLinkStatus (Whitelist : list string) (links : option (list (string * Z))) (nt : netdevTracing)
    : option netdevTracing :=
  match links with
  | None => None
  | Some ls =>
      Some (foldl (fun nt '(ifname, flags) =>
              if bool_decide (ifname ∈ Whitelist)
              then record ifname flags 0 true (set_flags ifname flags nt) else nt) nt ls)
  end.

(** Closing a closed channel panics; [None]. *)
Definition close (nt : netdevTracing) : option netdevTracing :=
  if linkDoneCh_closed nt then None
  else if linkUpdateCh_closed nt then None
  else Some (mk_tracing true true (ifFlagsMap nt) (metricsLinkStatusCountMap nt) (saved nt)).

Inductive message := NLMSG_ERROR | RTM_NEWLINK (ifname : string) (flags : Z) | OtherMessage.

Inductive exit := RetNil | RetErr | Panic | Blocked.

Definition on_newlink (ifname : string) (flags : Z) (nt : netdevTracing) : netdevTracing :=
  match ifFlagsMap nt !! ifname with
  | None => nt
  | Some _ => handleEvent ifname flags nt
  end.

Definition return_with (e : exit) (nt : netdevTracing) : netdevTracing * exit :=
  match close nt with
  | None => (nt, Panic)
  | Some nt => (nt, e)
  end.

(** The loop of Start on the messages of the channel. After them the loop
    blocks, unless the subscription closes the channel. *)
Fixpoint receive (messages : list message) (closes : bool) (nt : netdevTracing) : netdevTracing * exit :=
  if linkUpdateCh_closed nt then return_with RetNil nt
  else match messages with
       | [] =>
           if closes
           then return_with RetNil
                  (mk_tracing true (linkDoneCh_closed nt) (ifFlagsMap nt) (metricsLinkStatusCountMap nt) (saved nt))
           else (nt, Blocked)
       | NLMSG_ERROR :: _ => return_with RetErr nt
       | RTM_NEWLINK ifname flags :: messages' => receive messages' closes (on_newlink ifname flags nt)
       | OtherMessage :: messages' => receive messages' closes nt
       end.

Record world := mk_world
  { Whitelist : list string; LinkList : option (list (string * Z)); subscribes : bool;
    messages : list message; closes : bool }.

Definition Start (w : world) (nt : netdevTracing) : netdevTracing * exit :=
  match checkLinkStatus (Whitelist w) (LinkList w) nt with
  | None => (nt, RetErr)
  | Some nt =>
      if negb (subscribes w) then (nt, RetErr) else receive (messages w) (closes w) nt
  end.

(** ** Lemmas *)

Definition bit (k x : Z) : Z := Z.b2z (Z.testbit x k).

Lemma land_bit x k : 0 <= k -> (Z.land x (2 ^ k) =? 0) = negb (Z.testbit x k).
Proof.
  intros Hk. destruct (Z.testbit x k) eqn:E; cbn [negb].
  - apply Z.eqb_neq. intros H. apply (f_equal (fun z => Z.testbit z k)) in H.
    rewrite Z.land_spec, Z.bits_0, Z.pow2_bits_true, E in H by done. done.
  - apply Z.eqb_eq. apply Z.bits_inj'. intros n Hn. rewrite Z.land_spec, Z.bits_0.
    destruct (Z.eq_dec n k) as [->|Hne]; [by rewrite E|]. rewrite Z.pow2_bits_false by done. apply andb_false_r.
Qed.

Lemma count_incr ifn m status st' ifn' :
  default 0 (incr ifn m status !! (st', ifn')) =
  default 0 (m !! (st', ifn')) + (if bool_decide (st' = status /\ ifn' = ifn) then 1 else 0).
Proof.
  unfold incr. case_bool_decide as E.
  - destruct E as [-> ->]. by rewrite lookup_insert_eq.
  - rewrite lookup_insert_ne; [cbn; lia|]. intros [= -> ->]. by apply E.
Qed.

(** Up minus down of one of the two states, the administrative one (bit 0) or
    the carrier (bit 16). *)
Definition net (admin : bool) (nt : netdevTracing) (ifn : string) : Z :=
  if admin then count nt linkStatusAdminUp ifn - count nt linkStatusAdminDown ifn
  else count nt linkStatusCarrierUp ifn - count nt linkStatusCarrierDown ifn.
Definition state_bit (admin : bool) : Z := if admin then 0 else 16.

Lemma count_incrs ifn status ifn' l : forall m,
  default 0 (foldl (incr ifn) m l !! (status, ifn')) =
  default 0 (m !! (status, ifn')) +
  (if bool_decide (ifn' = ifn) then Z.of_nat (length (filter (fun s => s = status) l)) else 0).
Proof.
  induction l as [|s l IH]; intros m; cbn [foldl].
  { rewrite filter_nil. cbn [length]. case_bool_decide; lia. }
  rewrite IH, count_incr, filter_cons.
  destruct (decide (s = status)) as [->|Hs]; repeat case_bool_decide; cbn [length]; try lia; naive_solver lia.
Qed.

(** *** Specification, from the messages alone *)

(** The flags of an interface in the link messages up to the first error. *)
Fixpoint flags_seen (ms : list message) (ifn : string) : list Z :=
  match ms with
  | [] | NLMSG_ERROR :: _ => []
  | RTM_NEWLINK i flags :: ms' => if bool_decide (i = ifn) then flags :: flags_seen ms' ifn else flags_seen ms' ifn
  | OtherMessage :: ms' => flags_seen ms' ifn
  end.

(** How often bit [k] goes from [b] to its negation, from the flags [f] on. *)
Fixpoint changes (k : Z) (b : bool) (f : Z) (l : list Z) : Z :=
  match l with
  | [] => 0
  | g :: l' => (if Bool.eqb (Z.testbit f k) b && Bool.eqb (Z.testbit g k) (negb b) then 1 else 0) + changes k b g l'
  end.

(** The status of a state that goes up, or down. *)
Definition change_status (admin up : bool) : Z :=
  match admin, up with
  | true, true => linkStatusAdminUp | true, false => linkStatusAdminDown
  | false, true => linkStatusCarrierUp | false, false => linkStatusCarrierDown
  end.

Lemma changes_conserved k l : forall f,
  changes k false f l - changes k true f l = bit k (List.last l f) - bit k f.
Proof.
  induction l as [|g l IH]; intros f; cbn [changes]; [cbn; lia|].
  assert (List.last (g :: l) f = List.last l g) as ->.
  { clear. revert f g. induction l as [|h l IH]; intros f g; [done|]. change (List.last (h :: l) f = List.last (h :: l) g).
    by rewrite !IH. }
  specialize (IH g). unfold bit in *. destruct (Z.testbit f k), (Z.testbit g k); cbn [Bool.eqb andb negb Z.b2z] in *; lia.
Qed.

Lemma flags2status_counts admin up flags last :
  Z.of_nat (length (filter (fun s => s = change_status admin up) (flags2status flags (Z.lxor flags last)))) =
  changes (state_bit admin) (negb up) last [flags].
Proof.
  unfold flags2status. change IFF_UP with (2 ^ 0). change IFF_LOWER_UP with (2 ^ 16).
  rewrite !land_bit, !Z.lxor_spec by done. cbn [changes].
  destruct admin, up; cbn [state_bit change_status negb];
    destruct (Z.testbit flags 0), (Z.testbit last 0), (Z.testbit flags 16), (Z.testbit last 16); reflexivity.
Qed.

Lemma record_counts admin up ifn flags last b nt ifn' :
  count (record ifn flags (Z.lxor flags last) b nt) (change_status admin up) ifn' =
  count nt (change_status admin up) ifn' +
  (if bool_decide (ifn' = ifn) then changes (state_bit admin) (negb up) last [flags] else 0).
Proof. rewrite <- flags2status_counts. unfold count, record. cbn [metricsLinkStatusCountMap]. apply count_incrs. Qed.

(** The interface is watched with these flags. *)
Definition watched (nt : netdevTracing) (ifn : string) (flags : Z) : Prop := ifFlagsMap nt !! ifn = Some flags.

(** The counts after one message. *)
Lemma newlink_counts admin up nt i flags ifn f :
  watched nt ifn f ->
  watched (on_newlink i flags nt) ifn (if bool_decide (i = ifn) then flags else f) /\
  count (on_newlink i flags nt) (change_status admin up) ifn =
    count nt (change_status admin up) ifn +
    (if bool_decide (i = ifn) then changes (state_bit admin) (negb up) f [flags] else 0).
Proof.
  unfold watched, on_newlink. intros Hw. destruct (ifFlagsMap nt !! i) as [last|] eqn:E.
  - unfold handleEvent. rewrite E. cbn [default]. rewrite record_counts. cbn [record set_flags ifFlagsMap].
    rewrite (bool_decide_ext (ifn = i) (i = ifn)) by done. case_bool_decide as En.
    + subst i. rewrite lookup_insert_eq. rewrite E in Hw. by injection Hw as ->.
    + by rewrite lookup_insert_ne by done.
  - rewrite bool_decide_eq_false_2 by congruence. split; [done | lia].
Qed.

Lemma return_with_same e nt :
  ifFlagsMap (return_with e nt).1 = ifFlagsMap nt /\
  metricsLinkStatusCountMap (return_with e nt).1 = metricsLinkStatusCountMap nt.
Proof. unfold return_with, close. by repeat case_match; simplify_eq. Qed.

Lemma on_newlink_channels ifn flags nt :
  linkDoneCh_closed (on_newlink ifn flags nt) = linkDoneCh_closed nt /\
  linkUpdateCh_closed (on_newlink ifn flags nt) = linkUpdateCh_closed nt.
Proof. unfold on_newlink. by case_match. Qed.

Lemma receive_counts admin up ms closes ifn : forall nt f,
  watched nt ifn f -> linkUpdateCh_closed nt = false ->
  count (receive ms closes nt).1 (change_status admin up) ifn =
    count nt (change_status admin up) ifn + changes (state_bit admin) (negb up) f (flags_seen ms ifn).
Proof.
  assert (forall e nt, count (return_with e nt).1 (change_status admin up) ifn = count nt (change_status admin up) ifn) as Hret.
  { intros e nt. unfold count. by rewrite (proj2 (return_with_same e nt)). }
  induction ms as [|msg ms IH]; intros nt f Hw Hc; cbn [receive flags_seen]; rewrite Hc.
  - destruct closes; [rewrite Hret|]; unfold count; cbn [metricsLinkStatusCountMap fst changes]; lia.
  - destruct msg as [|i flags|]; [rewrite Hret; cbn [changes]; lia | | by apply IH].
    destruct (newlink_counts admin up nt i flags ifn f Hw) as [Hw1 E1].
    rewrite (IH _ _ Hw1), E1 by (by rewrite (proj2 (on_newlink_channels i flags nt))).
    case_bool_decide; cbn [changes]; lia.
Qed.

(** The scan at start sets flags and counts nothing. *)
Definition scan (Whitelist : list string) (nt : netdevTracing) (l : string * Z) : netdevTracing :=
  if bool_decide (l.1 ∈ Whitelist) then record l.1 l.2 0 true (set_flags l.1 l.2 nt) else nt.

Lemma checkLinkStatus_scan wl ls nt : checkLinkStatus wl (Some ls) nt = Some (foldl (scan wl) nt ls).
Proof.
  cbn. f_equal. revert nt. induction ls as [|[ifn f] ls IH]; intros nt; [done|]. cbn [foldl]. by rewrite IH.
Qed.

Lemma scan_same wl nt l :
  metricsLinkStatusCountMap (scan wl nt l) = metricsLinkStatusCountMap nt /\
  linkDoneCh_closed (scan wl nt l) = linkDoneCh_closed nt /\
  linkUpdateCh_closed (scan wl nt l) = linkUpdateCh_closed nt.
Proof. unfold scan. by case_bool_decide. Qed.

Lemma scans_same wl ls : forall nt,
  metricsLinkStatusCountMap (foldl (scan wl) nt ls) = metricsLinkStatusCountMap nt /\
  linkDoneCh_closed (foldl (scan wl) nt ls) = linkDoneCh_closed nt /\
  linkUpdateCh_closed (foldl (scan wl) nt ls) = linkUpdateCh_closed nt.
Proof.
  induction ls as [|l ls IH]; intros nt; [done|]. cbn [foldl].
  destruct (IH (scan wl nt l)) as (-> & -> & ->). apply scan_same.
Qed.

Lemma scans_other wl ls ifn : forall nt,
  ifn ∉ ls.*1 -> ifFlagsMap (foldl (scan wl) nt ls) !! ifn = ifFlagsMap nt !! ifn.
Proof.
  induction ls as [|[i f] ls IH]; intros nt Hn; [done|]. cbn [foldl fmap list_fmap fst] in *.
  rewrite IH by set_solver. unfold scan. cbn [fst snd]. case_bool_decide; [|done].
  cbn [record set_flags ifFlagsMap]. apply lookup_insert_ne. set_solver.
Qed.

Lemma scans_watched wl ls ifn f : forall nt,
  NoDup ls.*1 -> (ifn, f) ∈ ls -> ifn ∈ wl -> watched (foldl (scan wl) nt ls) ifn f.
Proof.
  induction ls as [|[i g] ls IH]; intros nt Hnd Hin Hw; [set_solver|]. cbn [fmap list_fmap fst] in Hnd.
  apply NoDup_cons in Hnd as [Hni Hnd]. cbn [foldl]. apply elem_of_cons in Hin as [[= <- <-]|Hin]; [|by apply IH].
  unfold watched. rewrite scans_other by done. unfold scan. cbn [fst snd].
  rewrite bool_decide_eq_true_2 by done. cbn [record set_flags ifFlagsMap]. apply lookup_insert_eq.
Qed.

(** What the loop's end says of the channels. *)
Lemma receive_exit ms closes : forall nt,
  (receive ms closes nt).2 <> RetNil /\
  (linkUpdateCh_closed nt = true -> (receive ms closes nt).2 = Panic) /\
  ((receive ms closes nt).2 = RetErr -> linkUpdateCh_closed (receive ms closes nt).1 = true).
Proof.
  induction ms as [|msg ms IH]; intros nt; cbn [receive].
  - unfold return_with, close. destruct nt as [[|] [|] fm cm sv]; destruct closes; cbn; done.
  - destruct (linkUpdateCh_closed nt) eqn:Eu.
    { unfold return_with, close. rewrite Eu. by destruct (linkDoneCh_closed nt). }
    destruct msg as [|ifn flags|].
    + unfold return_with, close. rewrite Eu. by destruct (linkDoneCh_closed nt).
    + destruct (IH (on_newlink ifn flags nt)) as (H1 & _ & H3). done.
    + destruct (IH nt) as (H1 & _ & H3). done.
Qed.

(** ** Theorems *)

(** C19: the counters are the changes the kernel reported: over one Start on
    open channels, for every white-listed interface of the link list, the ups
    (and the downs) counted for the administrative state and for the carrier are
    the changes of that bit along the flags of the scan and of the link messages
    of the interface up to the first error, whatever arrives for others; so ups
    minus downs is the state in the last of them minus the state at the scan. *)
Theorem netdev_counts_changes admin w nt ls ifn f :
  LinkList w = Some ls -> NoDup ls.*1 -> (ifn, f) ∈ ls -> ifn ∈ Whitelist w ->
  subscribes w = true -> linkUpdateCh_closed nt = false ->
  let k := state_bit admin in
  let seen := flags_seen (messages w) ifn in
  let nt' := (Start w nt).1 in
  (forall up, count nt' (change_status admin up) ifn - count nt (change_status admin up) ifn = changes k (negb up) f seen) /\
  net admin nt' ifn - net admin nt ifn = bit k (List.last seen f) - bit k f.
Proof.
  intros Hl Hnd Hin Hw Hs Hc k seen nt'.
  assert (forall up, count nt' (change_status admin up) ifn - count nt (change_status admin up) ifn = changes k (negb up) f seen) as H.
  { intros up. subst nt' k seen. unfold Start. rewrite Hl, checkLinkStatus_scan, Hs. cbn [negb].
    pose proof (scans_watched (Whitelist w) ls ifn f nt Hnd Hin Hw) as Hwat.
    destruct (scans_same (Whitelist w) ls nt) as (Hm & _ & Hu).
    rewrite (receive_counts admin up _ _ _ _ f Hwat) by (by rewrite Hu). unfold count. rewrite Hm. lia. }
  split; [exact H|]. rewrite <- changes_conserved. pose proof (H true) as Hup. pose proof (H false) as Hdown.
  unfold net. destruct admin; cbn [change_status negb] in Hup, Hdown; lia.
Qed.

(** Start never returns nil: the only way to it is a closed channel, and then
    the deferred close closes the channel again and panics. *)
Theorem netdev_start_never_nil w nt : (Start w nt).2 <> RetNil.
Proof.
  unfold Start. destruct (checkLinkStatus _ _ _); [|done]. destruct (negb _); [done|].
  by apply receive_exit.
Qed.

(** A tracer restarted after an error panics: a Start that subscribed and
    returned an error has closed the channels for good, and the next Start
    that subscribes panics. *)
Theorem netdev_restart_panics w1 w2 nt :
  LinkList w1 <> None -> subscribes w1 = true -> (Start w1 nt).2 = RetErr ->
  LinkList w2 <> None -> subscribes w2 = true ->
  (Start w2 (Start w1 nt).1).2 = Panic.
Proof.
  intros Hl1 Hs1 He Hl2 Hs2.
  assert (linkUpdateCh_closed (Start w1 nt).1 = true) as Hc.
  { unfold Start in *. rewrite Hs1 in *. destruct (LinkList w1) as [ls|]; [|done].
    rewrite checkLinkStatus_scan in *. by apply receive_exit. }
  set (nt1 := (Start w1 nt).1) in *. clearbody nt1.
  unfold Start. rewrite Hs2. destruct (LinkList w2) as [ls|]; [|done]. rewrite checkLinkStatus_scan. cbn [negb].
  apply receive_exit. destruct (scans_same (Whitelist w2) ls nt1) as (_ & _ & ->). done.
Qed.

(** eth0 up at start, then its carrier goes, an unknown interface appears, and
    the kernel reports an error. *)
Definition world0 : world :=
  mk_world ["eth0"]%string (Some [("lo", 0x10049); ("eth0", 0x11043)]%string) true
    [RTM_NEWLINK "eth0" 0x1003; RTM_NEWLINK "eth1" 0x1003; NLMSG_ERROR] false.

Lemma netdev_counts_changes_witness :
  saved (Start world0 newNetdevTracing).1 = [("eth0", "linkstatus_carrierdown")]%string /\
  count (Start world0 newNetdevTracing).1 linkStatusCarrierDown "eth0" = 1 /\
  net false (Start world0 newNetdevTracing).1 "eth0" = - 1.
Proof.
  split; [vm_compute; reflexivity|].
  destruct (netdev_counts_changes false world0 newNetdevTracing [("lo", 0x10049); ("eth0", 0x11043)]%string "eth0" 0x11043)
    as [H1 H2].
  - done.
  - apply (bool_decide_unpack _). vm_compute. exact I.
  - apply (bool_decide_unpack _). vm_compute. exact I.
  - apply (bool_decide_unpack _). vm_compute. exact I.
  - done.
  - done.
  - specialize (H1 false). cbn [change_status] in H1.
    change (count newNetdevTracing linkStatusCarrierDown "eth0") with 0 in H1.
    change (net false newNetdevTracing "eth0") with 0 in H2. rewrite Z.sub_0_r in H1, H2. by rewrite H1, H2.
Defined.

Lemma netdev_restart_panics_witness :
  (Start world0 (Start world0 newNetdevTracing).1).2 = Panic.
Proof.
  apply (netdev_restart_panics world0 world0 newNetdevTracing);
    [discriminate | reflexivity | vm_compute; reflexivity | discriminate | reflexivity].
Defined.

End NetdevEvents.
