(* ===== verification/Flamegraph.v ===== *)
(** * internal/flamegraph/flamegraph.go: from flame bearers to nested sets

    [LevelsToTree] turns the levels of a profile into a tree, [walkTree] lists
    the tree depth first and [EnumField] numbers the names. The nodes the code
    links through pointers are built as values; sample counts are unbounded
    integers. *)
From S2P Require Import Prelude.
From stdpp Require Import base gmap list strings sorting.
From Stdlib Require Import ZArith Lia Sorted.
From Equations Require Import Equations.

Open Scope Z_scope.

Module Flamegraph.

(** A bar of the graph: the fields of ProfileTree but for its children. *)
Record bar := mk_bar { Start : Z; Value : Z; Self : Z; Level : Z; Name : string }.

Inductive ProfileTree := Node (b : bar) (Nodes : list ProfileTree).
Definition bar_of (t : ProfileTree) : bar := let 'Node b _ := t in b.
Definition Nodes (t : ProfileTree) : list ProfileTree := let 'Node _ ns := t in ns.

(** ** LevelsToTree *)

(** itemStart >= currentParent.Start && itemEnd <= parentEnd *)
Definition in_bounds (p : bar) (itemStart itemEnd : Z) : bool :=
  (Start p <=? itemStart) && (itemEnd <=? Start p + Value p).

Definition name_at (names : list string) (i : Z) : option string :=
  if i <? 0 then None else names !! Z.to_nat i.

(** The loop over the bars of a level: the children of [cur] and of each of
    [parents], the stack. Every iteration takes a bar or a parent. [None] is
    the panic of an index out of range. *)
Equations assign (names : list string) (level : Z) (cur : bar) (parents : list bar) (values : list Z) (offset : Z)
    : option (list (list bar)) by wf (length parents + length values)%nat lt :=
assign names level cur parents [] offset := Some ([] :: ((fun _ => []) <$> parents));
assign names level cur parents (start :: value :: self :: rest) offset
  with in_bounds cur (start + offset) (start + offset + value) := {
  | true with rest := {
      | [] => None
      | name :: rest' =>
          match name_at names name with
          | None => None
          | Some n =>
              match assign names level cur parents rest' (start + offset + value) with
              | Some (g :: gs) => Some ((mk_bar (start + offset) value self level n :: g) :: gs)
              | _ => None
              end
          end }
  | false with parents := {
      | [] => Some [[]]
      | p :: parents' =>
          match assign names level p parents' (start :: value :: self :: rest) offset with
          | Some gs => Some ([] :: gs)
          | None => None
          end } };
assign names level cur parents _ offset := None.
Next Obligation. cbn. lia. Qed.

(** Split a list into groups of the sizes of [gs]. *)
Fixpoint regroup {A B} (gs : list (list A)) (l : list B) : list (list B) :=
  match gs with
  | [] => []
  | g :: gs' => take (length g) l :: regroup gs' (drop (length g) l)
  end.

(** The outer loop from level [level] on, with the parents of that level: the
    subtrees of the parents. *)
Fixpoint build (names : list string) (level : Z) (levels : list (list Z)) (parents : list bar)
    : option (list ProfileTree) :=
  match levels, parents with
  | [], _ => Some ((fun b => Node b []) <$> parents)
  | _, [] => Some []
  | values :: levels', cur :: parents' =>
      gs ← assign names level cur parents' values 0;
      kids ← build names (level + 1) levels' (concat gs);
      Some (zip_with Node parents (regroup gs kids))
  end.

Inductive result := Nil | Tree (t : ProfileTree) | Panic.

Definition LevelsToTree (levels : list (list Z)) (names : list string) : result :=
  match levels with
  | [] => Nil
  | values :: levels' =>
      match values !! 1%nat, values !! 2%nat, values !! 0%nat ≫= name_at names with
      | Some value, Some self, Some name =>
          match build names 1 levels' [mk_bar 0 value self 0 name] with
          | Some [t] => Tree t
          | _ => Panic
          end
      | _, _, _ => Panic
      end
  end.

(** ** walkTree *)

Fixpoint size (t : ProfileTree) : nat :=
  let 'Node _ ns := t in S (foldr (fun t n => (size t + n)%nat) 0%nat ns).
Definition size_all (l : list ProfileTree) : nat := foldr (fun t n => (size t + n)%nat) 0%nat l.

Lemma size_all_app a b : size_all (a ++ b) = (size_all a + size_all b)%nat.
Proof. induction a as [|t a IH]; [done|]. unfold size_all in *. cbn [app foldr]. lia. Qed.

(** The loop on the stack. append(stack[0].Nodes, stack[1:]...) writes behind
    the length of the node's own slice, if at all, so no node's children
    change. *)
Equations walk_stack (stack : list ProfileTree) : list bar by wf (size_all stack) lt :=
walk_stack [] := [];
walk_stack (t :: rest) := bar_of t :: walk_stack (Nodes t ++ rest).
Next Obligation.
  destruct t as [b ns]. rewrite size_all_app.
  change (size (Node b ns)) with (S (size_all ns)). cbn [Nodes]. lia.
Qed.

Definition walkTree (t : ProfileTree) : list bar := bar_of t :: walk_stack (Nodes t).

(** ** EnumField *)

(** data.EnumItemIndex is a uint16. *)
Record EnumField := mk_enum { field : list Z; valuesMap : gmap string Z; counter : Z }.
Definition NewEnumField : EnumField := mk_enum [] ∅ 0.

Definition Append (e : EnumField) (value : string) : EnumField :=
  match valuesMap e !! value with
  | Some valueIndex => mk_enum (field e ++ [valueIndex]) (valuesMap e) (counter e)
  | None => mk_enum (field e ++ [counter e]) (<[value := counter e]> (valuesMap e)) (u16 (counter e + 1))
  end.

(** The texts of GetField, filled in the order [kvs] of the map; the indices
    are below the number of names. *)
Definition fill (s : list string) (kv : string * Z) : list string := <[Z.to_nat kv.2 := kv.1]> s.
Definition GetField_text (kvs : list (string * Z)) : list string :=
  foldl fill (replicate (length kvs) EmptyString) kvs.

(** TreeToNestedSetDataFrame: the columns of the frame and the label field. *)
Record frame := mk_frame { levelField : list Z; valueField : list Z; selfField : list Z; labelField : EnumField }.
Definition TreeToNestedSetDataFrame (t : option ProfileTree) : frame :=
  let bars := match t with Some t => walkTree t | None => [] end in
  mk_frame (Level <$> bars) (Value <$> bars) (Self <$> bars) (foldl Append NewEnumField (Name <$> bars)).

(** ** Specification *)

(** Depth-first order. *)
Fixpoint preorder (t : ProfileTree) : list bar :=
  let 'Node b ns := t in b :: concat (map preorder ns).

(** The bars of a level in flame-bearer format: each start relative to the end
    of the bar before. *)
Fixpoint encode (index : string -> Z) (offset : Z) (bars : list bar) : list Z :=
  match bars with
  | [] => []
  | b :: bars' => Start b - offset :: Value b :: Self b :: index (Name b) :: encode index (Start b + Value b) bars'
  end.

(** The levels of a forest, at most [n]. *)
Fixpoint levels_of (n : nat) (f : list ProfileTree) : list (list bar) :=
  match n, f with
  | O, _ | _, [] => []
  | S n', _ => (bar_of <$> f) :: levels_of n' (concat (Nodes <$> f))
  end.

(** One bar ends before the other starts. *)
Definition before (a b : bar) : Prop := Start a + Value a <= Start b.
Definition inside (p b : bar) : Prop := Start p <= Start b /\ Start b + Value b <= Start p + Value p.

(** A forest at a level: bars of positive width in order, children inside. *)
Inductive wf_forest : Z -> list ProfileTree -> Prop :=
| wf_forest_intro level f :
    Forall (fun t => Level (bar_of t) = level /\ 0 < Value (bar_of t)) f ->
    StronglySorted before (bar_of <$> f) ->
    Forall (fun t => Forall (fun k => inside (bar_of t) (bar_of k)) (Nodes t)) f ->
    (f = [] \/ wf_forest (level + 1) (concat (Nodes <$> f))) ->
    wf_forest level f.

(** ** Lemmas *)

Lemma walk_stack_preorder s : walk_stack s = concat (map preorder s).
Proof.
  funelim (walk_stack s); [done|]. rewrite H. destruct t as [b ns]. cbn. by rewrite map_app, concat_app.
Qed.

Lemma length_assign_nil {A B} (l : list A) : concat ((fun _ => @nil B) <$> l) = [].
Proof. induction l; [done|]. done. Qed.

Lemma concat_nil_groups {A B} (gs : list (list A)) (ps : list B) :
  length gs = length ps -> concat gs = [] -> gs = (fun _ => []) <$> ps.
Proof.
  revert ps. induction gs as [|g gs IH]; intros [|p ps] Hl Hc; try done. cbn in *.
  apply app_nil in Hc as [-> Hc]. f_equal. apply IH; [lia | done].
Qed.

Lemma regroup_concat {A B} (gs : list (list A)) (hs : list (list B)) :
  length <$> gs = length <$> hs -> regroup gs (concat hs) = hs.
Proof.
  revert hs. induction gs as [|g gs IH]; intros [|h hs] E; try done. cbn in *. injection E as E1 E2.
  rewrite E1, take_app_length, drop_app_length. by rewrite IH.
Qed.

Section Roundtrip.
Context (names : list string) (index : string -> Z).
(** The names of the bars that are encoded. *)
Definition named (b : bar) : Prop := name_at names (index (Name b)) = Some (Name b).

Lemma assign_in level cur ps start value self name rest offset n :
  in_bounds cur (start + offset) (start + offset + value) = true -> name_at names name = Some n ->
  assign names level cur ps (start :: value :: self :: name :: rest) offset =
  match assign names level cur ps rest (start + offset + value) with
  | Some (g :: gs) => Some ((mk_bar (start + offset) value self level n :: g) :: gs)
  | _ => None
  end.
Proof. intros Hb Hn. rewrite assign_equation_4, Hb. cbn. by rewrite Hn. Qed.

Lemma assign_out level cur p ps start value self rest offset :
  in_bounds cur (start + offset) (start + offset + value) = false ->
  assign names level cur (p :: ps) (start :: value :: self :: rest) offset =
  match assign names level p ps (start :: value :: self :: rest) offset with
  | Some gs => Some ([] :: gs)
  | None => None
  end.
Proof. intros Hb. rewrite assign_equation_4, Hb. reflexivity. Qed.

(** The children of the current parent are taken first. *)
Lemma assign_take level cur ps g : forall offset rest gs',
  Forall (inside cur) g -> Forall (fun b => named b /\ Level b = level) g ->
  (forall offset', assign names level cur ps (encode index offset' rest) offset' = Some ([] :: gs')) ->
  assign names level cur ps (encode index offset (g ++ rest)) offset = Some (g :: gs').
Proof.
  induction g as [|b g IH]; intros offset rest gs' Hin Hn Hr; [apply Hr|].
  apply Forall_cons in Hin as [[Hb1 Hb2] Hin]. apply Forall_cons in Hn as [[Hnb Hlv] Hn].
  cbn [app encode].
  assert (in_bounds cur (Start b - offset + offset) (Start b - offset + offset + Value b) = true) as Hib.
  { unfold in_bounds. rewrite !(proj2 (Z.leb_le _ _)) by lia. done. }
  rewrite (assign_in level cur ps _ _ _ _ _ _ (Name b) Hib Hnb). rewrite Z.sub_add.
  rewrite (IH _ rest gs') by done. rewrite <- Hlv. by destruct b.
Qed.

Lemma assign_groups level gs : forall ps g cur offset,
  StronglySorted before (cur :: ps) -> Forall (fun b => 0 <= Value b) (cur :: ps) ->
  Forall2 (fun p g => Forall (inside p) g) (cur :: ps) (g :: gs) ->
  Forall (fun b => named b /\ Level b = level /\ 0 < Value b) (g ++ concat gs) ->
  assign names level cur ps (encode index offset (g ++ concat gs)) offset = Some (g :: gs).
Proof.
  induction gs as [|g' gs IH]; intros ps g cur offset Hs Hv Hin Hb;
    apply Forall2_cons in Hin as [Hg Hin]; apply Forall_app in Hb as [Hbg Hb];
    (apply assign_take; [done | eapply Forall_impl; [exact Hbg|]; cbn; tauto|]); intros offset'; cbn [concat] in *.
  - apply Forall2_nil_inv_r in Hin as ->. by rewrite assign_equation_1.
  - destruct ps as [|p ps]; [by apply Forall2_nil_inv_l in Hin|].
    apply StronglySorted_inv in Hs as [Hs Hcur]. apply Forall_cons in Hv as [Hvc Hv].
    destruct (g' ++ concat gs) as [|b bs] eqn:Egs.
    { cbn [encode]. rewrite assign_equation_1. apply app_nil in Egs as [-> Egs].
      apply Forall2_length in Hin as Hlen. f_equal. f_equal. symmetry.
      apply (concat_nil_groups ([] :: gs) (p :: ps)); [cbn in *; lia | done]. }
    assert (Start cur + Value cur <= Start b) as Hafter.
    { assert (b ∈ g' ++ concat gs) as Hbin by (rewrite Egs; by left).
      change (g' ++ concat gs) with (concat (g' :: gs)) in Hbin.
      apply list_elem_of_In, in_concat in Hbin as (grp & Hgrp & Hbg').
      apply list_elem_of_In, list_elem_of_lookup in Hgrp as [i Hi].
      destruct (Forall2_lookup_r _ _ _ _ _ Hin Hi) as (q & Hq & Hqin).
      rewrite Forall_forall in Hcur. assert (before cur q) as Hbef.
      { apply Hcur. by apply list_elem_of_lookup_2 with i. }
      rewrite Forall_forall in Hqin. apply list_elem_of_In in Hbg'. destruct (Hqin b Hbg'). unfold before in Hbef. lia. }
    cbn [encode]. rewrite assign_out.
    2: { unfold in_bounds. apply Forall_cons in Hb as [(_ & _ & Hpos) _].
         rewrite (proj2 (Z.leb_gt (Start b - offset' + offset' + Value b) _)) by lia. apply andb_false_r. }
    pose proof (IH ps g' p offset' Hs Hv Hin) as IH'. rewrite Egs in IH'. cbn [encode] in IH'.
    by rewrite IH'.
Qed.

Lemma size_all_kids f : (size_all (concat (Nodes <$> f)) + length f = size_all f)%nat.
Proof.
  induction f as [|[b ns] f IH]; [done|]. cbn [fmap list_fmap concat Nodes length]. rewrite size_all_app.
  change (size_all (Node b ns :: f)) with (S (size_all ns) + size_all f)%nat. lia.
Qed.

Lemma leaves f : concat (Nodes <$> f) = [] -> (fun b => Node b []) <$> (bar_of <$> f) = f.
Proof.
  induction f as [|[b ns] f IH]; [done|]. cbn. intros [-> H]%app_nil. f_equal. by apply IH.
Qed.

Lemma zip_nodes f : zip_with Node (bar_of <$> f) (Nodes <$> f) = f.
Proof. induction f as [|[b ns] f IH]; [done|]. cbn. by f_equal. Qed.

Lemma groups_of f : concat ((fun t => bar_of <$> Nodes t) <$> f) = bar_of <$> concat (Nodes <$> f).
Proof. induction f as [|t f IH]; [done|]. cbn. by rewrite fmap_app, IH. Qed.

(** The level below a forest, with the groups of its bars. *)
Lemma assign_level level t f :
  wf_forest level (t :: f) -> Forall named (bar_of <$> concat (Nodes <$> (t :: f))) ->
  assign names (level + 1) (bar_of t) (bar_of <$> f) (encode index 0 (bar_of <$> concat (Nodes <$> (t :: f)))) 0 =
  Some ((fun t => bar_of <$> Nodes t) <$> (t :: f)).
Proof.
  intros Hw Hn. inversion Hw as [? ? Hlv Hs Hin Hkids]; subst. destruct Hkids as [|Hkids]; [done|].
  inversion Hkids as [? ? Hlk _ _ _]; subst. rewrite <- groups_of.
  cbn [fmap list_fmap concat]. fold (fmap (M := list) (fun t => bar_of <$> Nodes t)). fold (fmap (M := list) bar_of).
  apply (assign_groups (level + 1) ((fun t => bar_of <$> Nodes t) <$> f) (bar_of <$> f) (bar_of <$> Nodes t) (bar_of t) 0).
  - exact Hs.
  - change (bar_of t :: (bar_of <$> f)) with (bar_of <$> (t :: f)). apply Forall_fmap.
    eapply Forall_impl; [exact Hlv|]. intros x [_ Hx]. cbn. lia.
  - change (Forall2 (fun p g => Forall (inside p) g) (bar_of <$> (t :: f)) ((fun t => bar_of <$> Nodes t) <$> (t :: f))).
    apply Forall2_fmap, Forall_Forall2_diag. eapply Forall_impl; [exact Hin|]. intros x Hx. cbn. by apply Forall_fmap.
  - change ((bar_of <$> Nodes t) ++ concat ((fun t => bar_of <$> Nodes t) <$> f)) with
      (concat ((fun t => bar_of <$> Nodes t) <$> (t :: f))). rewrite groups_of.
    apply Forall_fmap. apply (proj1 (Forall_fmap bar_of named _)) in Hn. apply Forall_and. split; [exact Hn|].
    eapply Forall_impl; [exact Hlk|]. done.
Qed.

Lemma build_levels n : forall f level,
  wf_forest level f -> (size_all (concat (Nodes <$> f)) <= n)%nat ->
  Forall (Forall named) (levels_of n (concat (Nodes <$> f))) ->
  build names (level + 1) (encode index 0 <$> levels_of n (concat (Nodes <$> f))) (bar_of <$> f) = Some f.
Proof.
  induction n as [|n IH]; intros f level Hw Hsz Hn.
  { cbn. rewrite leaves; [done|]. destruct (concat (Nodes <$> f)) as [|[b ns] k]; [done|].
    change (size_all (Node b ns :: k)) with (S (size_all ns) + size_all k)%nat in Hsz. lia. }
  destruct f as [|t f]; [done|]. set (kids := concat (Nodes <$> (t :: f))) in *.
  destruct (decide (kids = [])) as [E|E].
  { rewrite E. cbn [levels_of fmap list_fmap build]. f_equal. by apply (leaves (t :: f)). }
  assert (levels_of (S n) kids = (bar_of <$> kids) :: levels_of n (concat (Nodes <$> kids))) as El by by destruct kids.
  rewrite El in *. apply Forall_cons in Hn as [Hn1 Hn]. rewrite !fmap_cons. cbn [build].
  pose proof (assign_level level t f Hw Hn1) as Ha. fold kids in Ha. rewrite Ha. cbn [mbind option_bind].
  rewrite groups_of. fold kids.
  assert (wf_forest (level + 1) kids) as Hwk.
  { inversion Hw as [? ? _ _ _ [|Hk]]; subst; [done | exact Hk]. }
  rewrite IH; [|done| |done].
  2: { pose proof (size_all_kids kids). destruct kids; [done|]. cbn [length] in *. lia. }
  cbn [mbind option_bind]. f_equal. unfold kids.
  rewrite (regroup_concat _ (Nodes <$> (t :: f))); [apply (zip_nodes (t :: f))|].
  rewrite <- !list_fmap_compose. apply list_fmap_ext. intros i x _. cbn. apply length_fmap.
Qed.
End Roundtrip.

(** ** EnumField *)

(** The field after the names [l]: each name has the index of its first
    occurrence among the different names, in order. *)
Record enum_ok (l : list string) (e : EnumField) : Prop := mk_enum_ok
  { ok_counter : counter e = Z.of_nat (base.size (valuesMap e));
    ok_bound : forall k v, valuesMap e !! k = Some v -> 0 <= v < counter e;
    ok_inj : forall k1 k2 v, valuesMap e !! k1 = Some v -> valuesMap e !! k2 = Some v -> k1 = k2;
    ok_field : Forall2 (fun n v => valuesMap e !! n = Some v) l (field e) }.

Lemma Append_ok l e x :
  enum_ok l e -> Z.of_nat (base.size (valuesMap e)) < 2 ^ 16 - 1 -> enum_ok (l ++ [x]) (Append e x).
Proof.
  intros [Hc Hb Hi Hf] Hlt. unfold Append. destruct (valuesMap e !! x) as [v|] eqn:E.
  - constructor; cbn [counter valuesMap field]; try done. apply Forall2_app; [done | by repeat constructor].
  - assert (u16 (counter e + 1) = counter e + 1) as Hu by (unfold u16; apply Z.mod_small; lia).
    constructor; cbn [counter valuesMap field]; rewrite ?Hu.
    + rewrite map_size_insert_None by done. lia.
    + intros k v [[<- <-]|[_ Hk]]%lookup_insert_Some; [lia|]. specialize (Hb k v Hk). lia.
    + intros k1 k2 v [[<- <-]|[Hn1 H1]]%lookup_insert_Some [[<- E2]|[Hn2 H2]]%lookup_insert_Some; try done.
      * specialize (Hb k2 _ H2). lia.
      * subst v. specialize (Hb k1 _ H1). lia.
      * by apply (Hi k1 k2 v).
    + apply Forall2_app; [|repeat constructor; apply lookup_insert_eq].
      eapply Forall2_impl; [exact Hf|]. intros n v Hn. cbn in Hn. rewrite lookup_insert_ne; [done|]. congruence.
Qed.

(** The names already in the map stay. *)
Lemma size_Append e x : (base.size (valuesMap e) <= base.size (valuesMap (Append e x)))%nat.
Proof.
  unfold Append. destruct (valuesMap e !! x) eqn:E; [done|]. cbn. rewrite map_size_insert_None by done. lia.
Qed.

Lemma size_Appends l : forall e, (base.size (valuesMap e) <= base.size (valuesMap (foldl Append e l)))%nat.
Proof.
  induction l as [|x l IH]; intros e; [done|]. cbn [foldl].
  pose proof (size_Append e x). pose proof (IH (Append e x)). lia.
Qed.

Lemma Appends_ok l2 : forall l1 e,
  enum_ok l1 e -> Z.of_nat (base.size (valuesMap (foldl Append e l2))) < 2 ^ 16 - 1 ->
  enum_ok (l1 ++ l2) (foldl Append e l2).
Proof.
  induction l2 as [|x l2 IH]; intros l1 e He Hlt; [by rewrite app_nil_r|]. cbn [foldl] in *.
  rewrite cons_middle, app_assoc. apply IH; [|done]. apply Append_ok; [done|].
  pose proof (size_Appends l2 (Append e x)). pose proof (size_Append e x). lia.
Qed.

(** Filling the texts: the last write of a slot stays. *)
Lemma fill_other kvs i : forall s,
  (forall kv, kv ∈ kvs -> Z.to_nat kv.2 <> i) ->
  foldl fill s kvs !! i = s !! i.
Proof.
  induction kvs as [|[k v] kvs IH]; intros s H; [done|]. cbn [foldl fst snd].
  rewrite IH by (intros kv Hkv; apply H; by right). apply list_lookup_insert_ne. apply (H (k, v)). by left.
Qed.

Lemma fill_in kvs k v : forall s,
  NoDup kvs.*1 -> (forall k1 k2 v1 v2, (k1, v1) ∈ kvs -> (k2, v2) ∈ kvs -> Z.to_nat v1 = Z.to_nat v2 -> k1 = k2) ->
  (k, v) ∈ kvs -> (Z.to_nat v < length s)%nat ->
  foldl fill s kvs !! Z.to_nat v = Some k.
Proof.
  induction kvs as [|[k0 v0] kvs IH]; intros s Hnd Hinj Hin Hlt; [set_solver|]. cbn [foldl fst snd].
  cbn [fmap list_fmap fst] in Hnd. apply NoDup_cons in Hnd as [Hni Hnd].
  apply elem_of_cons in Hin as [[= -> ->]|Hin].
  - rewrite fill_other; [by apply list_lookup_insert_eq|]. intros [k1 v1] H1 E. cbn in E.
    assert (k1 = k0) as -> by (apply (Hinj k1 k0 v1 v0); [by right | by left | done]).
    apply Hni. apply list_elem_of_fmap. by exists (k0, v1).
  - apply IH; [done | | done | unfold fill; by rewrite length_insert].
    intros k1 k2 v1 v2 H1 H2. apply Hinj; by right.
Qed.

Lemma texts_ok l e kvs :
  enum_ok l e -> Permutation kvs (map_to_list (valuesMap e)) ->
  (fun v => GetField_text kvs !! Z.to_nat v) <$> field e = Some <$> l.
Proof.
  intros [Hc Hb Hi Hf] Hp. assert (forall k v, (k, v) ∈ kvs <-> valuesMap e !! k = Some v) as Hkv
    by (intros k v; by rewrite Hp, elem_of_map_to_list).
  assert (length kvs = base.size (valuesMap e)) as Hlen by by rewrite Hp, length_map_to_list.
  induction Hf as [|n v l fs Hn Hf IH]; [done|]. rewrite !fmap_cons. f_equal; [|exact IH].
  unfold GetField_text. apply fill_in.
  - rewrite Hp. apply NoDup_fst_map_to_list.
  - intros k1 k2 v1 v2 H1%Hkv H2%Hkv E. specialize (Hb _ _ H1) as B1. specialize (Hb _ _ H2) as B2.
    apply (Hi k1 k2 v1); [done|]. by replace v1 with v2 by lia.
  - by apply Hkv.
  - rewrite length_replicate, Hlen. specialize (Hb _ _ Hn). lia.
Qed.

(** The frame of a tree. *)
Lemma nested_set_rows t kvs :
  let f := TreeToNestedSetDataFrame (Some t) in
  Z.of_nat (base.size (valuesMap (labelField f))) < 2 ^ 16 - 1 ->
  Permutation kvs (map_to_list (valuesMap (labelField f))) ->
  levelField f = Level <$> preorder t /\ valueField f = Value <$> preorder t /\ selfField f = Self <$> preorder t /\
  (fun v => GetField_text kvs !! Z.to_nat v) <$> field (labelField f) = Some <$> (Name <$> preorder t).
Proof.
  intros f Hlt Hp. assert (walkTree t = preorder t) as E.
  { unfold walkTree. rewrite walk_stack_preorder. by destruct t. }
  unfold f, TreeToNestedSetDataFrame in *. cbn [levelField valueField selfField labelField] in *. rewrite E in *.
  split_and!; try done. apply texts_ok; [|done].
  pose proof (Appends_ok (Name <$> preorder t) [] NewEnumField) as H. rewrite app_nil_l in H. apply H; [|done].
  constructor; cbn; [done | intros k v; by rewrite lookup_empty | intros k1 k2 v; by rewrite lookup_empty | constructor].
Qed.

(** ** Theorems *)

(** C14: round trip of a profile: encode a tree, level by level with relative
    starts, and [LevelsToTree] gives the tree back: bars of positive width,
    children inside their parents and in order, the names in the table, and
    the root's first in it, since the code reads the root's name from the
    start of the bar. *)
Theorem flame_roundtrip names index b ns :
  Start b = 0 -> Level b = 0 -> name_at names 0 = Some (Name b) -> wf_forest 0 [Node b ns] ->
  Forall (Forall (named names index)) (levels_of (size_all ns) ns) ->
  LevelsToTree ([0; Value b; Self b; index (Name b)] :: (encode index 0 <$> levels_of (size_all ns) ns)) names =
  Tree (Node b ns).
Proof.
  intros Hs Hl Hn Hw Hnm. unfold LevelsToTree. cbn [lookup list_lookup mbind option_bind]. rewrite Hn.
  pose proof (build_levels names index (size_all ns) [Node b ns] 0 Hw) as Hb.
  cbn [fmap list_fmap concat Nodes bar_of] in Hb. rewrite app_nil_r in Hb. specialize (Hb ltac:(lia) Hnm).
  destruct b as [st v sf lv nm]. cbn [Start Level Value Self Name] in *. subst. change (0 + 1) with 1 in Hb. by rewrite Hb.
Qed.

(** The nested-set frame: the rows are the bars of the tree depth first, and
    the label of a row reads back as its name through the texts, whatever
    order the map of names is walked in, for fewer than 65535 different
    names. *)
Theorem nested_set_frame t kvs :
  let f := TreeToNestedSetDataFrame (Some t) in
  Z.of_nat (base.size (valuesMap (labelField f))) < 2 ^ 16 - 1 ->
  Permutation kvs (map_to_list (valuesMap (labelField f))) ->
  levelField f = Level <$> preorder t /\ valueField f = Value <$> preorder t /\ selfField f = Self <$> preorder t /\
  (fun v => GetField_text kvs !! Z.to_nat v) <$> field (labelField f) = Some <$> (Name <$> preorder t).
Proof. apply nested_set_rows. Qed.

(** A profile of three functions. *)
Definition tree0 : ProfileTree :=
  Node (mk_bar 0 10 1 0 "total") [Node (mk_bar 0 4 4 1 "f") []; Node (mk_bar 4 5 2 1 "g") [Node (mk_bar 5 3 3 2 "f") []]].
Definition index0 (n : string) : Z := if decide (n = "total"%string) then 0 else if decide (n = "f"%string) then 1 else 2.

Lemma flame_roundtrip_witness :
  LevelsToTree [[0; 10; 1; 0]; [0; 4; 4; 1; 0; 5; 2; 2]; [5; 3; 3; 1]] ["total"; "f"; "g"]%string = Tree tree0.
Proof.
  apply (flame_roundtrip ["total"; "f"; "g"]%string index0 (mk_bar 0 10 1 0 "total") (Nodes tree0)); try reflexivity.
  - do 3 (apply wf_forest_intro; [repeat constructor; cbn; lia | repeat constructor; unfold before; cbn; lia
      | repeat constructor; unfold inside; cbn; lia | right]).
    apply wf_forest_intro; [constructor | constructor | constructor | by left].
  - vm_compute. repeat constructor.
Defined.

Lemma nested_set_frame_witness :
  levelField (TreeToNestedSetDataFrame (Some tree0)) = [0; 1; 1; 2] /\
  (fun v => GetField_text (map_to_list (valuesMap (labelField (TreeToNestedSetDataFrame (Some tree0))))) !! Z.to_nat v) <$>
    field (labelField (TreeToNestedSetDataFrame (Some tree0))) = Some <$> ["total"; "f"; "g"; "f"]%string.
Proof.
  destruct (nested_set_frame tree0 (map_to_list (valuesMap (labelField (TreeToNestedSetDataFrame (Some tree0))))))
    as (H1 & _ & _ & H4).
  - vm_compute. reflexivity.
  - reflexivity.
  - split; [exact H1 | exact H4].
Defined.

End Flamegraph.
