(* ===== verification/Net.v ===== *)
(** * bpf/include/vmlinux_net.h and internal/utils/netutil: packet headers

    Where the network and transport headers of an sk_buff are, the header
    fields the programs copy, and the byte-order conversions the collectors
    apply to them. *)
From S2P Require Import Prelude Layout Bpf Vmlinux.
From stdpp Require Import base list strings.
From Stdlib Require Import ZArith Lia.
From Stdlib.Strings Require Byte.

Open Scope Z_scope.

Definition ETH_P_IP : Z := 0x0800.
Definition AF_INET : Z := 2.
(** From vmlinux.h. *)
Definition SOCK_STREAM : Z := 1.
Definition IPPROTO_TCP : Z := 6.
Definition TCP_CLOSE : Z := 7.

Definition skb_network_header (e : kenv) (skb : Z) : Z :=
  u64 (core_read e 8 skb skb_head + core_read e 2 skb skb_network_header_off).

Definition skb_transport_header (e : kenv) (skb : Z) : Z :=
  u64 (core_read e 8 skb skb_head + core_read e 2 skb skb_transport_header_off).

(** bpf_ntohs() on a little-endian target. *)
Definition bpf_ntohs (x : Z) : Z := u16 (Z.lor (Z.shiftr x 8) (Z.shiftl (Z.land x 255) 8)).

(** The [n] bytes of member [name] of a header copied to the stack. *)
Definition hdr_bytes (t : ctype) (n : nat) (name : string) (hdr : list byte) : list byte :=
  take n (drop (Z.to_nat (default 0 (offsetof t [name]))) hdr).
Definition hdr_field (t : ctype) (n : nat) (name : string) (hdr : list byte) : Z :=
  le_Z (hdr_bytes t n name hdr).

(** struct iphdr and struct tcphdr, 20 bytes each, read with bpf_probe_read(). *)
Definition read_iphdr (e : kenv) (skb : Z) : list byte :=
  probe_read e (Z.to_nat (sizeof Vmlinux.iphdr)) (skb_network_header e skb).
Definition read_tcphdr (e : kenv) (skb : Z) : list byte :=
  probe_read e (Z.to_nat (sizeof Vmlinux.tcphdr)) (skb_transport_header e skb).

(** ** internal/utils/netutil/netutil.go, on a little-endian host *)
Definition be_bytes (n : nat) (z : Z) : list byte := rev (le_bytes n z).
Definition be_Z (bs : list byte) : Z := le_Z (rev bs).

Definition InetNtop (ip : Z) : list Z := map byte_to_Z (le_bytes 4 ip).
Definition InetNtohs (val : Z) : Z := le_Z (be_bytes 2 val).
Definition InetNtohl (val : Z) : Z := le_Z (be_bytes 4 val).
Definition InetHtons (val : Z) : Z := be_Z (le_bytes 2 val).
Definition InetHtonl (val : Z) : Z := be_Z (le_bytes 4 val).

(** ** Lemmas *)

Lemma length_hdr_bytes t n name hdr :
  (Z.to_nat (default 0%Z (offsetof t [name])) + n <= length hdr)%nat ->
  length (hdr_bytes t n name hdr) = n.
Proof. intros. unfold hdr_bytes. rewrite length_take, length_drop. lia. Qed.

Lemma length_read_iphdr e skb : length (read_iphdr e skb) = 20%nat.
Proof. unfold read_iphdr. by rewrite length_probe_read. Qed.

Lemma length_read_tcphdr e skb : length (read_tcphdr e skb) = 20%nat.
Proof. unfold read_tcphdr. by rewrite length_probe_read. Qed.

Lemma hdr_field_range t n name hdr :
  (Z.to_nat (default 0%Z (offsetof t [name])) + n <= length hdr)%nat ->
  is_u (8 * Z.of_nat n) (hdr_field t n name hdr).
Proof.
  intros H. unfold hdr_field. rewrite <- (length_hdr_bytes t n name hdr H) at 1. apply le_Z_range.
Qed.

Lemma iphdr_field_range e skb n name :
  (Z.to_nat (default 0%Z (offsetof Vmlinux.iphdr [name])) + n <=? 20)%nat = true ->
  is_u (8 * Z.of_nat n) (hdr_field Vmlinux.iphdr n name (read_iphdr e skb)).
Proof. intros H. apply hdr_field_range. rewrite length_read_iphdr. by apply Nat.leb_le. Qed.

Lemma tcphdr_field_range e skb n name :
  (Z.to_nat (default 0%Z (offsetof Vmlinux.tcphdr [name])) + n <=? 20)%nat = true ->
  is_u (8 * Z.of_nat n) (hdr_field Vmlinux.tcphdr n name (read_tcphdr e skb)).
Proof. intros H. apply hdr_field_range. rewrite length_read_tcphdr. by apply Nat.leb_le. Qed.

(** What the collectors compute from a field is the value of its bytes in
    network order. *)
Lemma le_be_bytes bs : le_Z (be_bytes (length bs) (le_Z bs)) = be_Z bs.
Proof. unfold be_bytes, be_Z. by rewrite le_bytes_le_Z. Qed.

Lemma InetNtohs_le bs : length bs = 2%nat -> InetNtohs (le_Z bs) = be_Z bs.
Proof. intros Hx. unfold InetNtohs. rewrite <- Hx. apply le_be_bytes. Qed.

Lemma InetNtohl_le bs : length bs = 4%nat -> InetNtohl (le_Z bs) = be_Z bs.
Proof. intros Hx. unfold InetNtohl. rewrite <- Hx. apply le_be_bytes. Qed.

Lemma InetNtop_le bs : length bs = 4%nat -> InetNtop (le_Z bs) = map byte_to_Z bs.
Proof. intros Hx. unfold InetNtop. rewrite <- Hx. by rewrite le_bytes_le_Z. Qed.

Lemma length_iphdr_bytes e skb n name :
  (Z.to_nat (default 0%Z (offsetof Vmlinux.iphdr [name])) + n <=? 20)%nat = true ->
  length (hdr_bytes Vmlinux.iphdr n name (read_iphdr e skb)) = n.
Proof. intros H. apply length_hdr_bytes. rewrite length_read_iphdr. by apply Nat.leb_le. Qed.

Lemma length_tcphdr_bytes e skb n name :
  (Z.to_nat (default 0%Z (offsetof Vmlinux.tcphdr [name])) + n <=? 20)%nat = true ->
  length (hdr_bytes Vmlinux.tcphdr n name (read_tcphdr e skb)) = n.
Proof. intros H. apply length_hdr_bytes. rewrite length_read_tcphdr. by apply Nat.leb_le. Qed.

Lemma ntoh_hton n z :
  is_u (8 * Z.of_nat n) z -> be_Z (le_bytes n (le_Z (be_bytes n z))) = z.
Proof.
  intros Hz. assert (length (be_bytes n z) = n) as Hn
    by (unfold be_bytes; by rewrite length_rev, length_le_bytes).
  rewrite <- Hn at 1. rewrite le_bytes_le_Z. unfold be_Z, be_bytes. rewrite rev_involutive.
  by apply le_Z_le_bytes_small.
Qed.

(** ** Theorems *)

(** The conversions of netutil.go are inverse to each other and read
    network order: host-to-network undoes network-to-host on 16 and 32 bits, and
    a port or sequence number copied from a packet as raw bytes is converted to
    the big-endian value of those bytes. *)
Theorem netutil_roundtrip :
  (forall v, is_u 16 v -> InetHtons (InetNtohs v) = v) /\
  (forall v, is_u 32 v -> InetHtonl (InetNtohl v) = v) /\
  (forall bs, length bs = 2%nat -> InetNtohs (le_Z bs) = be_Z bs) /\
  (forall bs, length bs = 4%nat -> InetNtohl (le_Z bs) = be_Z bs) /\
  (forall bs, length bs = 4%nat -> InetNtop (le_Z bs) = map byte_to_Z bs).
Proof.
  split_and!; intros x Hx.
  - by apply (ntoh_hton 2).
  - by apply (ntoh_hton 4).
  - by apply InetNtohs_le.
  - by apply InetNtohl_le.
  - by apply InetNtop_le.
Qed.
