(* ===== verification/Netrecvlat.v ===== *)
(** * bpf/netrecvlat.c: receive latency of TCP packets

    The three probes on the receive path, the event they submit through the
    rate limiter and its decoding by core/events/netrecvlat.go. *)
From S2P Require Import Prelude Layout Bpf Vmlinux Net Ratelimit Limited.
From stdpp Require Import base gmap list strings.
From Stdlib Require Import ZArith Lia.
From Stdlib.Strings Require Byte.

Open Scope Z_scope.

Module Netrecvlat.

Definition rate_init : bpf_ratelimit := BPF_RATELIMIT 1 100.

Record perf_event_t := mk_event {
  comm : list byte;
  latency : Z;
  tgid_pid : Z;
  pkt_len : Z;
  sport : Z;
  dport : Z;
  saddr : Z;
  daddr : Z;
  seq : Z;
  ack_seq : Z;
  state : Z;
  where_ : Z
}.

Definition event_members : list member_decl :=
  ["comm" :- Array 16 c_char; "latency" :- c_u64; "tgid_pid" :- c_u64; "pkt_len" :- c_u64;
   "sport" :- c_u16; "dport" :- c_u16; "saddr" :- c_u32; "daddr" :- c_u32; "seq" :- c_u32;
   "ack_seq" :- c_u32; "state" :- c_u8; "where" :- c_u8]%ctype.

(** type netRcvPerfEvent struct *)
Definition netRcvPerfEvent (vs : list (list byte)) : option perf_event_t :=
  match vs with
  | [cm; lat; tp; pl; sp; dp; sa; da; sq; ak; st; wh] =>
      Some (mk_event cm (le_Z lat) (le_Z tp) (le_Z pl) (le_Z sp) (le_Z dp) (le_Z sa) (le_Z da)
              (le_Z sq) (le_Z ak) (le_Z st) (le_Z wh))
  | _ => None
  end.

#[global] Program Instance event_wire : Wire perf_event_t := {
  wire_members := event_members;
  wire_sizes := [16; 8; 8; 8; 2; 2; 4; 4; 4; 4; 1; 1]%nat;
  wire_fields r :=
    [comm r; le_bytes 8 (latency r); le_bytes 8 (tgid_pid r); le_bytes 8 (pkt_len r);
     le_bytes 2 (sport r); le_bytes 2 (dport r); le_bytes 4 (saddr r); le_bytes 4 (daddr r);
     le_bytes 4 (seq r); le_bytes 4 (ack_seq r); le_bytes 1 (state r); le_bytes 1 (where_ r)];
  wire_valid r := Z.of_nat (length (comm r)) = 16 /\ is_u 64 (latency r) /\ is_u 64 (tgid_pid r) /\
    is_u 64 (pkt_len r) /\ is_u 16 (sport r) /\ is_u 16 (dport r) /\ is_u 32 (saddr r) /\
    is_u 32 (daddr r) /\ is_u 32 (seq r) /\ is_u 32 (ack_seq r) /\ is_u 8 (state r) /\ is_u 8 (where_ r);
  wire_parse := netRcvPerfEvent
}.
Next Obligation. wire_sized. Qed.
Next Obligation. wire_parse. Qed.
Next Obligation. reflexivity. Qed.
Next Obligation. reflexivity. Qed.

(** enum skb_rcv_where *)
Definition TO_NETIF_RCV : Z := 0.
Definition TO_TCPV4_RCV : Z := 1.
Definition TO_USER_COPY : Z := 2.

Definition net_recv_lat_event_map : string := "net_recv_lat_event_map".

Record mix := mk_mix { ip_hdr : list byte; lat : Z; mix_state : Z; mix_where : Z }.

Section Programs.
(** Constants user space sets before loading. *)
Context (mono_wall_offset to_netif to_tcpv4 to_user_copy : Z).

(** The object's only mutable state is its limiter. *)
Definition delta_now_skb_tstamp (skb : Z) : M bpf_ratelimit Z :=
  tstamp ← asks (fun e => core_read e 8 skb skb_tstamp);
  if tstamp =? 0 then mret 0
  else now ← bpf_ktime_get_ns; mret (u64 (now + mono_wall_offset - tstamp)).

Definition get_state (e : kenv) (skb : Z) : Z :=
  core_read e 1 (core_read e 8 skb skb_sk) sock_skc_state.

(** The event of a packet the limiter grants. *)
Definition fill_event (e : kenv) (skb : Z) (m : mix) : perf_event_t :=
  let user := mix_where m =? TO_USER_COPY in
  let tcp_hdr := read_tcphdr e skb in
  mk_event
    (if user then cur_comm e else zeros 16)
    (lat m)
    (if user then cur_pid_tgid e else 0)
    (core_read e 4 skb skb_len)
    (hdr_field Vmlinux.tcphdr 2 "source" tcp_hdr)
    (hdr_field Vmlinux.tcphdr 2 "dest" tcp_hdr)
    (hdr_field Vmlinux.iphdr 4 "saddr" (ip_hdr m))
    (hdr_field Vmlinux.iphdr 4 "daddr" (ip_hdr m))
    (hdr_field Vmlinux.tcphdr 4 "seq" tcp_hdr)
    (hdr_field Vmlinux.tcphdr 4 "ack_seq" tcp_hdr)
    (mix_state m)
    (mix_where m).

Definition fill_and_output_event (skb : Z) (m : mix) : M bpf_ratelimit unit :=
  limited ← bpf_ratelimited (Some self_ptr);
  if (limited : bool) then mret tt
  else
    event ← asks (fun e => fill_event e skb m);
    bpf_perf_event_output net_recv_lat_event_map (wire_encode event).

Definition netif_receive_skb_prog (skb : Z) : M bpf_ratelimit Z :=
  protocol ← asks (fun e => core_read e 2 skb skb_protocol);
  if negb (protocol =? bpf_ntohs ETH_P_IP) then mret 0
  else
    ip_hdr ← asks (fun e => read_iphdr e skb);
    if negb (hdr_field Vmlinux.iphdr 1 "protocol" ip_hdr =? IPPROTO_TCP) then mret 0
    else
      delta ← delta_now_skb_tstamp skb;
      if delta <? u64 to_netif then mret 0
      else fill_and_output_event skb (mk_mix ip_hdr delta 0 TO_NETIF_RCV);; mret 0.

Definition tcp_v4_rcv_prog (skb : Z) : M bpf_ratelimit Z :=
  delta ← delta_now_skb_tstamp skb;
  if delta <? u64 to_tcpv4 then mret 0
  else
    ip_hdr ← asks (fun e => read_iphdr e skb);
    st ← asks (fun e => get_state e skb);
    fill_and_output_event skb (mk_mix ip_hdr delta st TO_TCPV4_RCV);; mret 0.

Definition skb_copy_datagram_iovec_prog (skb : Z) : M bpf_ratelimit Z :=
  protocol ← asks (fun e => core_read e 2 skb skb_protocol);
  if negb (protocol =? bpf_ntohs ETH_P_IP) then mret 0
  else
    ip_hdr ← asks (fun e => read_iphdr e skb);
    if negb (hdr_field Vmlinux.iphdr 1 "protocol" ip_hdr =? IPPROTO_TCP) then mret 0
    else
      delta ← delta_now_skb_tstamp skb;
      if delta <? u64 to_user_copy then mret 0
      else
        st ← asks (fun e => get_state e skb);
        fill_and_output_event skb (mk_mix ip_hdr delta st TO_USER_COPY);; mret 0.

Inductive stage := Netif | Tcpv4 | UserCopy.
Abbreviation hook := (stage * Z)%type.
Definition prog (h : hook) : M bpf_ratelimit Z :=
  match h with
  | (Netif, skb) => netif_receive_skb_prog skb
  | (Tcpv4, skb) => tcp_v4_rcv_prog skb
  | (UserCopy, skb) => skb_copy_datagram_iovec_prog skb
  end.

(** ** What is reported *)

(** The threshold of a stage, and whether it only looks at IPv4 TCP packets. *)
Definition threshold (st : stage) : Z :=
  u64 match st with Netif => to_netif | Tcpv4 => to_tcpv4 | UserCopy => to_user_copy end.

Definition is_ipv4_tcp (e : kenv) (skb : Z) : bool :=
  (core_read e 2 skb skb_protocol =? 8) &&
  (hdr_field Vmlinux.iphdr 1 "protocol" (read_iphdr e skb) =? 6).

Definition packet_ok (e : kenv) (h : hook) : bool :=
  match fst h with Tcpv4 => true | _ => is_ipv4_tcp e (snd h) end.

(** The age of a packet when the probe runs; 0 without a timestamp. *)
Definition age (e : kenv) (skb : Z) : Z :=
  let t := core_read e 8 skb skb_tstamp in
  if t =? 0 then 0 else u64 (ktime e 0%nat + mono_wall_offset - t).

Definition where_of (st : stage) : Z :=
  match st with Netif => 0 | Tcpv4 => 1 | UserCopy => 2 end.

Definition late_event (e : kenv) (h : hook) : perf_event_t :=
  let '(st, skb) := h in
  fill_event e skb (mk_mix (read_iphdr e skb) (age e skb)
    (match st with Netif => 0 | _ => get_state e skb end) (where_of st)).

(** The limiter is asked with the reading after the one [age] used. *)
Definition asks_limiter (e : kenv) (h : hook) : option nat :=
  if packet_ok e h && (threshold (fst h) <=? age e (snd h)) then
    Some (if core_read e 8 (snd h) skb_tstamp =? 0 then 0%nat else 1%nat)
  else None.

(** ** Lemmas *)

Lemma delta_run skb e w :
  delta_now_skb_tstamp skb e (W w 0%nat []) =
    (age e skb, W w (if core_read e 8 skb skb_tstamp =? 0 then 0%nat else 1%nat) []).
Proof. unfold delta_now_skb_tstamp, age. run_simpl. by case_if. Qed.

Lemma output_run e s n skb m :
  rl_interval s <> 0 ->
  fill_and_output_event skb m e (W s n []) =
    let '(limited, r) := ratelimit_at (ktime e n / NSEC_PER_SEC) s in
    (tt, W r (S n) (if (limited : bool) then []
                    else [(net_recv_lat_event_map, wire_encode (fill_event e skb m))])).
Proof.
  intros Hi. unfold fill_and_output_event, mbind, M_bind. rewrite ratelimited_run.
  cbn [self_ptr pget pset w_st w_clk w_out]. rewrite (proj2 (Z.eqb_neq _ _) Hi).
  by destruct (ratelimit_at _ _) as [[|] r].
Qed.

(** The tail the three programs share: compare the age, then report. *)
Lemma late_run e s skb th (k : Z -> M bpf_ratelimit Z) (m : Z -> mix) :
  rl_interval s <> 0 ->
  (forall d w, k d e w = (fill_and_output_event skb (m d);; mret 0) e w) ->
  run (delta ← delta_now_skb_tstamp skb; if delta <? th then mret 0 else k delta) e s =
    if th <=? age e skb then
      let n := if core_read e 8 skb skb_tstamp =? 0 then 0%nat else 1%nat in
      let '(limited, r) := ratelimit_at (ktime e n / NSEC_PER_SEC) s in
      (r, if (limited : bool) then []
          else [(net_recv_lat_event_map, wire_encode (fill_event e skb (m (age e skb))))])
    else (s, []).
Proof.
  intros Hi Hk. rewrite (run_bind _ _ _ _ _ _ (delta_run skb e s)). rewrite (Z.leb_antisym (age e skb) th).
  destruct (age e skb <? th); [done|]. cbn [negb]. rewrite Hk. unfold mbind, M_bind.
  rewrite output_run by done. by destruct (ratelimit_at _ _).
Qed.

Lemma prog_run e h s :
  rl_interval s <> 0 ->
  run (prog h) e s =
    match asks_limiter e h with
    | None => (s, [])
    | Some i =>
        let '(limited, r) := ratelimit_at (ktime e i / NSEC_PER_SEC) s in
        (r, if (limited : bool) then []
            else [(net_recv_lat_event_map, wire_encode (late_event e h))])
    end.
Proof.
  intros Hi. destruct h as [st skb]. unfold asks_limiter, packet_ok, is_ipv4_tcp.
  destruct st; cbn [prog fst snd threshold].
  - unfold netif_receive_skb_prog. rewrite run_asks. change (bpf_ntohs ETH_P_IP) with 8.
    destruct (_ =? 8); cbn [negb andb]; [|done]. rewrite run_asks. unfold IPPROTO_TCP.
    destruct (_ =? 6); cbn [negb andb]; [|done].
    rewrite (late_run e s skb _ _ (fun d => mk_mix (read_iphdr e skb) d 0 TO_NETIF_RCV) Hi) by done.
    change (threshold Netif) with (u64 to_netif). by case_if.
  - unfold tcp_v4_rcv_prog. cbn [andb].
    rewrite (late_run e s skb _ _ (fun d => mk_mix (read_iphdr e skb) d (get_state e skb) TO_TCPV4_RCV) Hi)
      by done.
    change (threshold Tcpv4) with (u64 to_tcpv4). by case_if.
  - unfold skb_copy_datagram_iovec_prog. rewrite run_asks. change (bpf_ntohs ETH_P_IP) with 8.
    destruct (_ =? 8); cbn [negb andb]; [|done]. rewrite run_asks. unfold IPPROTO_TCP.
    destruct (_ =? 6); cbn [negb andb]; [|done].
    rewrite (late_run e s skb _ _ (fun d => mk_mix (read_iphdr e skb) d (get_state e skb) TO_USER_COPY) Hi)
      by done.
    change (threshold UserCopy) with (u64 to_user_copy). by case_if.
Qed.

#[global] Program Instance reporter : LimitedReporter prog self_ptr := {
  lr_inv _ := True;
  lr_asks := asks_limiter;
  lr_record e h := (net_recv_lat_event_map, wire_encode (late_event e h))
}.
Next Obligation.
  intros e h s _ Hi. rewrite prog_run by done. cbn [self_ptr pget].
  destruct (asks_limiter e h); [|done]. by destruct (ratelimit_at _ _).
Qed.

(** The event fits its C structure. *)
Lemma late_event_valid e h : kenv_ok e -> wire_valid (late_event e h).
Proof.
  intros He. destruct h as [st skb].
  unfold late_event, fill_event. cbn [wire_valid event_wire comm latency tgid_pid pkt_len sport dport
    saddr daddr seq ack_seq state where_ lat ip_hdr mix_state mix_where].
  split_and!.
  - case_if; [|done]. by rewrite (ok_comm e He).
  - unfold age. case_if; [unfold is_u; lia | apply u64_range].
  - case_if; [apply (ok_pid_tgid e He) | unfold is_u; lia].
  - apply core_read_u64. lia.
  - by apply (tcphdr_field_range e skb 2).
  - by apply (tcphdr_field_range e skb 2).
  - by apply (iphdr_field_range e skb 4).
  - by apply (iphdr_field_range e skb 4).
  - by apply (tcphdr_field_range e skb 4).
  - by apply (tcphdr_field_range e skb 4).
  - destruct st; [unfold is_u; lia | apply (core_read_range e 1)..].
  - destruct st; unfold is_u; simpl; lia.
Qed.
End Programs.
End Netrecvlat.

(** ** Examples *)

(** A TCP packet from 10.0.0.1:443 to 10.0.0.2:1024, received at [tstamp]. *)
Definition example_packet : list byte :=
  struct_bytes Vmlinux.iphdr
    [(["protocol"%string], le_bytes 1 6); (["saddr"%string], map byte_of_Z [10; 0; 0; 1]);
     (["daddr"%string], map byte_of_Z [10; 0; 0; 2])] ++
  struct_bytes Vmlinux.tcphdr
    [(["source"%string], map byte_of_Z [1; 187]); (["dest"%string], map byte_of_Z [4; 0]);
     (["seq"%string], map byte_of_Z [0; 0; 0; 7])].

Definition example_skb (tstamp : Z) : list byte :=
  struct_bytes Vmlinux.sk_buff
    [(["tstamp"%string], le_bytes 8 tstamp); (["len"%string], le_bytes 4 40);
     (["protocol"%string], map byte_of_Z [8; 0]); (["network_header"%string], le_bytes 2 14);
     (["transport_header"%string], le_bytes 2 34); (["head"%string], le_bytes 8 5000)].

Definition packet_env (now tstamp : Z) : kenv :=
  vmlinux_env (example_env now 0x700000009 3)
    [(1000, example_skb tstamp); (5014, example_packet)].

(** ** Theorems *)

(** C4: netrecvlat.c refines its specification.  For every sequence of packets
    at the three probes, in clock order, the events submitted are, in order,
    those of the packets that are IPv4 TCP where the probe checks it, are at
    least as old as the threshold of the probe, and are granted by the
    100-per-window limiter. *)
Theorem netrecvlat_refines off th1 th2 th3 l :
  clock_ok 1 1 (lr_secs (Netrecvlat.prog off th1 th2 th3) self_ptr l) ->
  snd (lr_exec (Netrecvlat.prog off th1 th2 th3) l Netrecvlat.rate_init) =
    lr_reports (Netrecvlat.prog off th1 th2 th3) self_ptr
      (spec_answers 1 100 (lr_secs (Netrecvlat.prog off th1 th2 th3) self_ptr l)) l.
Proof. intros Hc. apply (lr_exec_spec _ self_ptr 1 100); (done || lia). Qed.

Lemma netrecvlat_refines_witness :
  length (snd (lr_exec (Netrecvlat.prog 0 5000000 10000000 115000000)
    [(packet_env 2006000000 2000000000, (Netrecvlat.Netif, 1000));
     (packet_env 2006000000 2000000000, (Netrecvlat.Tcpv4, 1000));
     (packet_env 2200000000 2000000000, (Netrecvlat.UserCopy, 1000));
     (packet_env 2200000000 0, (Netrecvlat.UserCopy, 1000))] Netrecvlat.rate_init)) = 2%nat.
Proof.
  rewrite netrecvlat_refines; [vm_compute; reflexivity|].
  vm_compute. repeat split; discriminate.
Defined.

(** The limiter bounds the event rate of netrecvlat.c: a trace whose first
    limited packet comes at second [t] and whose last at second [final t ts]
    submits at most 100 events per two seconds of it. *)
Theorem netrecvlat_rate_bound off th1 th2 th3 l t ts :
  clock_ok 1 1 (lr_secs (Netrecvlat.prog off th1 th2 th3) self_ptr l) ->
  lr_secs (Netrecvlat.prog off th1 th2 th3) self_ptr l = t :: ts ->
  Z.of_nat (length (snd (lr_exec (Netrecvlat.prog off th1 th2 th3) l Netrecvlat.rate_init))) <=
    100 * (1 + (final t ts - t) / 2).
Proof.
  intros Hc Ht. apply (lr_exec_bound _ self_ptr 1 100 Netrecvlat.rate_init); (done || lia).
Qed.

Lemma netrecvlat_rate_bound_witness :
  Z.of_nat (length (snd (lr_exec (Netrecvlat.prog 0 5000000 10000000 115000000)
    (repeat (packet_env 2006000000 2000000000, (Netrecvlat.Netif, 1000)) 150)
    Netrecvlat.rate_init))) <= 100 * (1 + (2 - 2) / 2).
Proof.
  apply (netrecvlat_rate_bound 0 5000000 10000000 115000000
    (repeat (packet_env 2006000000 2000000000, (Netrecvlat.Netif, 1000)) 150) 2 (repeat 2 149)).
  - vm_compute. repeat split; discriminate.
  - vm_compute. reflexivity.
Defined.

(** A packet without a receive timestamp is never reported: with positive
    thresholds, a probe on an sk_buff whose [tstamp] is 0 submits nothing and
    does not use up the limiter. *)
Theorem netrecvlat_no_timestamp off th1 th2 th3 e st skb s :
  rl_interval s <> 0 -> 0 < Netrecvlat.threshold th1 th2 th3 st ->
  core_read e 8 skb skb_tstamp = 0 ->
  run (Netrecvlat.prog off th1 th2 th3 (st, skb)) e s = (s, []).
Proof.
  intros Hi Hth Hts. rewrite Netrecvlat.prog_run by done.
  unfold Netrecvlat.asks_limiter, Netrecvlat.age. cbn [fst snd]. rewrite Hts. cbn [Z.eqb].
  rewrite (proj2 (Z.leb_gt _ _)), andb_false_r by lia. done.
Qed.

Lemma netrecvlat_no_timestamp_witness :
  run (Netrecvlat.prog 0 5000000 10000000 115000000 (Netrecvlat.Netif, 1000))
    (packet_env 2006000000 0) Netrecvlat.rate_init = (Netrecvlat.rate_init, []).
Proof.
  apply (netrecvlat_no_timestamp 0 5000000 10000000 115000000 (packet_env 2006000000 0)
    Netrecvlat.Netif 1000 Netrecvlat.rate_init);
    [discriminate | vm_compute; reflexivity | vm_compute; reflexivity].
Defined.

(** A timestamp ahead of the estimated wall clock is reported as an
    enormous latency.  When [tstamp] is [d] ns later than the monotonic clock
    plus [mono_wall_offset], the unsigned difference wraps around: the packet
    passes every threshold up to 2^64 - d and is reported, when the limiter
    grants it, with latency 2^64 - d. *)
Theorem netrecvlat_future_timestamp off th1 th2 th3 e st skb d :
  Netrecvlat.packet_ok e (st, skb) = true ->
  is_u 64 (ktime e 0%nat + off) ->
  core_read e 8 skb skb_tstamp = ktime e 0%nat + off + d -> 0 < d ->
  Netrecvlat.threshold th1 th2 th3 st <= 2 ^ 64 - d ->
  0 < ktime e 1%nat / NSEC_PER_SEC -> ktime e 1%nat / NSEC_PER_SEC + 1 < 2 ^ 64 ->
  snd (run (Netrecvlat.prog off th1 th2 th3 (st, skb)) e Netrecvlat.rate_init) =
    [(Netrecvlat.net_recv_lat_event_map, wire_encode (Netrecvlat.late_event off e (st, skb)))] /\
  Netrecvlat.latency (Netrecvlat.late_event off e (st, skb)) = 2 ^ 64 - d.
Proof.
  intros Hok Hnow Hts Hd Hth Hs0 Hs1.
  assert (Netrecvlat.age off e skb = 2 ^ 64 - d) as Hage.
  { unfold Netrecvlat.age. pose proof (core_read_u64 e 8 skb skb_tstamp ltac:(lia)) as Hr.
    rewrite Hts in *. case_if; [unfold is_u in *; lia|]. rewrite u64_sub_wrap by (done || lia). lia. }
  split; [|done]. rewrite Netrecvlat.prog_run by done.
  unfold Netrecvlat.asks_limiter. rewrite Hok. cbn [fst snd]. rewrite Hage.
  rewrite (proj2 (Z.leb_le _ _) Hth). cbn [andb].
  rewrite (proj2 (Z.eqb_neq _ 0)) by (rewrite Hts; unfold is_u in *; lia).
  destruct (window_from_start 1 100 ltac:(lia) ltac:(lia) ltac:(lia) (ktime e 1%nat / NSEC_PER_SEC)
    Netrecvlat.rate_init) as [E _]; try done.
  destruct (ratelimit_at _ _) as [b r]. cbn [fst] in E. by subst b.
Qed.

Lemma netrecvlat_future_timestamp_witness :
  length (snd (run (Netrecvlat.prog 0 5000000 10000000 115000000 (Netrecvlat.Netif, 1000))
    (packet_env 2006000000 2006001000) Netrecvlat.rate_init)) = 1%nat.
Proof.
  destruct (netrecvlat_future_timestamp 0 5000000 10000000 115000000
    (packet_env 2006000000 2006001000) Netrecvlat.Netif 1000 1000) as [E _];
    [vm_compute; reflexivity | vm_compute; split; [discriminate | reflexivity] | vm_compute; reflexivity
    | lia | vm_compute; discriminate | vm_compute; reflexivity | vm_compute; reflexivity |].
  rewrite E. reflexivity.
Defined.

(** What the collector reads is what the packet carries.  The event of a
    packet decodes into netRcvPerfEvent unchanged, and after the conversions of
    netutil.go its ports, sequence numbers and addresses are the big-endian
    values and the octets of the packet's headers. *)
Theorem netrecvlat_event_decoded off e st skb rest :
  kenv_ok e ->
  exists ev,
    wire_decode (wire_encode (Netrecvlat.late_event off e (st, skb)) ++ rest) = Some ev /\
    ev = Netrecvlat.late_event off e (st, skb) /\
    InetNtohs (Netrecvlat.sport ev) = be_Z (hdr_bytes Vmlinux.tcphdr 2 "source" (read_tcphdr e skb)) /\
    InetNtohs (Netrecvlat.dport ev) = be_Z (hdr_bytes Vmlinux.tcphdr 2 "dest" (read_tcphdr e skb)) /\
    InetNtohl (Netrecvlat.seq ev) = be_Z (hdr_bytes Vmlinux.tcphdr 4 "seq" (read_tcphdr e skb)) /\
    InetNtop (Netrecvlat.saddr ev) =
      map byte_to_Z (hdr_bytes Vmlinux.iphdr 4 "saddr" (read_iphdr e skb)) /\
    InetNtop (Netrecvlat.daddr ev) =
      map byte_to_Z (hdr_bytes Vmlinux.iphdr 4 "daddr" (read_iphdr e skb)).
Proof.
  intros He. exists (Netrecvlat.late_event off e (st, skb)).
  split; [by apply wire_decode_encode, Netrecvlat.late_event_valid|]. split; [done|].
  unfold Netrecvlat.late_event, Netrecvlat.fill_event.
  cbn [Netrecvlat.sport Netrecvlat.dport Netrecvlat.seq Netrecvlat.saddr Netrecvlat.daddr
       Netrecvlat.ip_hdr]. unfold hdr_field.
  split_and!; [apply InetNtohs_le | apply InetNtohs_le | apply InetNtohl_le | apply InetNtop_le..];
    (by apply length_tcphdr_bytes) || (by apply length_iphdr_bytes).
Qed.

Lemma netrecvlat_event_decoded_witness :
  exists ev,
    wire_decode (wire_encode (Netrecvlat.late_event 0 (packet_env 2006000000 2000000000)
                   (Netrecvlat.Netif, 1000)) ++ []) = Some ev /\
    InetNtohs (Netrecvlat.sport ev) = 443 /\ InetNtop (Netrecvlat.daddr ev) = [10; 0; 0; 2].
Proof.
  destruct (netrecvlat_event_decoded 0 (packet_env 2006000000 2000000000) Netrecvlat.Netif 1000 [])
    as (ev & E & -> & Hsp & _ & _ & _ & Hda).
  - apply memory_env_ok, example_env_ok; unfold is_u; lia.
  - eexists. split; [exact E|]. rewrite Hsp, Hda. split; vm_compute; reflexivity.
Defined.

