(* ===== verification/Dropwatch.v ===== *)
(** * bpf/dropwatch.c: dropped TCP packets

    The kfree_skb probe: the filters on the packet and its socket, the socket
    type and protocol read from either kernel layout, the per-CPU event buffer
    and its decoding by core/events/dropwatch.go. *)
From S2P Require Import Prelude Layout Bpf Vmlinux Net Ratelimit Limited.
From stdpp Require Import base gmap list strings.
From Stdlib Require Import ZArith Lia.
From Stdlib.Strings Require Byte.

Open Scope Z_scope.

Module Dropwatch.

Definition TYPE_TCP_COMMON_DROP : Z := 1.
Definition SK_FL_PROTO_SHIFT : Z := 8.
Definition SK_FL_TYPE_SHIFT : Z := 16.
Definition rate_init : bpf_ratelimit := BPF_RATELIMIT 1 100.

Record perf_event_t := mk_event {
  tgid_pid : Z;
  saddr : Z;
  daddr : Z;
  sport : Z;
  dport : Z;
  seq : Z;
  ack_seq : Z;
  queue_mapping : Z;
  pkt_len : Z;
  stack_size : Z;
  stack : list byte;        (** u64 stack[PERF_MAX_STACK_DEPTH] *)
  sk_max_ack_backlog : Z;
  state : Z;
  type_ : Z;
  comm : list byte
}.

Definition event_members : list member_decl :=
  ["tgid_pid" :- c_u64; "saddr" :- c_u32; "daddr" :- c_u32; "sport" :- c_u16; "dport" :- c_u16;
   "seq" :- c_u32; "ack_seq" :- c_u32; "queue_mapping" :- c_u32; "pkt_len" :- c_u64;
   "stack_size" :- c_u64; "stack" :- Array 127 c_u64; "sk_max_ack_backlog" :- c_u32;
   "state" :- c_u8; "type" :- c_u8; "comm" :- Array 16 c_char]%ctype.

(** type perfEventT struct *)
Definition perfEventT (vs : list (list byte)) : option perf_event_t :=
  match vs with
  | [tp; sa; da; sp; dp; sq; ak; qm; pl; sz; stk; mb; st; ty; cm] =>
      Some (mk_event (le_Z tp) (le_Z sa) (le_Z da) (le_Z sp) (le_Z dp) (le_Z sq) (le_Z ak)
              (le_Z qm) (le_Z pl) (s64 (le_Z sz)) stk (le_Z mb) (le_Z st) (le_Z ty) cm)
  | _ => None
  end.

#[global] Program Instance event_wire : Wire perf_event_t := {
  wire_members := event_members;
  wire_sizes := [8; 4; 4; 2; 2; 4; 4; 4; 8; 8; 1016; 4; 1; 1; 16]%nat;
  wire_fields r :=
    [le_bytes 8 (tgid_pid r); le_bytes 4 (saddr r); le_bytes 4 (daddr r); le_bytes 2 (sport r);
     le_bytes 2 (dport r); le_bytes 4 (seq r); le_bytes 4 (ack_seq r); le_bytes 4 (queue_mapping r);
     le_bytes 8 (pkt_len r); le_bytes 8 (stack_size r); stack r; le_bytes 4 (sk_max_ack_backlog r);
     le_bytes 1 (state r); le_bytes 1 (type_ r); comm r];
  wire_valid r := is_u 64 (tgid_pid r) /\ is_u 32 (saddr r) /\ is_u 32 (daddr r) /\
    is_u 16 (sport r) /\ is_u 16 (dport r) /\ is_u 32 (seq r) /\ is_u 32 (ack_seq r) /\
    is_u 32 (queue_mapping r) /\ is_u 64 (pkt_len r) /\ - 2 ^ 63 <= stack_size r < 2 ^ 63 /\
    Z.of_nat (length (stack r)) = 1016 /\ is_u 32 (sk_max_ack_backlog r) /\ is_u 8 (state r) /\
    is_u 8 (type_ r) /\ Z.of_nat (length (comm r)) = 16;
  wire_parse := perfEventT
}.
Next Obligation. wire_sized. Qed.
Next Obligation. wire_parse. Qed.
Next Obligation. reflexivity. Qed.
Next Obligation. reflexivity. Qed.

Definition perf_events : string := "perf_events".

Definition zero_data : perf_event_t :=
  mk_event 0 0 0 0 0 0 0 0 0 0 (zeros 1016) 0 0 0 (zeros 16).
Definition stackmap_key : Z := 0.

Record obj := mk_obj { rate : bpf_ratelimit; stackmap : percpu perf_event_t }.
Definition rate_ptr : ptr obj bpf_ratelimit := mk_ptr rate (fun r s => mk_obj r (stackmap s)).
Definition dropwatch_stackmap : pcref obj perf_event_t :=
  mk_pcref stackmap (fun m s => mk_obj (rate s) m).
Definition init : obj := mk_obj rate_init (fun _ => [zero_data]).

(** Protocol and type of a socket. *)
Definition sk_get_type_and_protocol (e : kenv) (sk : Z) : Z * Z :=
  if kexists e sock___sk_flags_offset then
    let sk_flags := le_Z (probe_read e 4 (sk + koff e sock___sk_flags_offset)) in
    (u16 (Z.shiftr sk_flags SK_FL_PROTO_SHIFT), u16 (Z.shiftr sk_flags SK_FL_TYPE_SHIFT))
  else (core_read e 2 sk sock_sk_protocol, core_read e 2 sk sock_sk_type).

(** The event of a dropped packet: every member of the buffer is assigned. *)
Definition fill_event (e : kenv) (skb : Z) (iphdr : list byte) (st : Z) : perf_event_t :=
  let tcphdr := read_tcphdr e skb in
  let '(stk, sz) := get_stack e 0 (8 * PERF_MAX_STACK_DEPTH) in
  mk_event (cur_pid_tgid e)
    (hdr_field Vmlinux.iphdr 4 "saddr" iphdr) (hdr_field Vmlinux.iphdr 4 "daddr" iphdr)
    (hdr_field Vmlinux.tcphdr 2 "source" tcphdr) (hdr_field Vmlinux.tcphdr 2 "dest" tcphdr)
    (hdr_field Vmlinux.tcphdr 4 "seq" tcphdr) (hdr_field Vmlinux.tcphdr 4 "ack_seq" tcphdr)
    (core_read e 2 skb skb_queue_mapping) (core_read e 4 skb skb_len) (s64 sz) stk 0
    st TYPE_TCP_COMMON_DROP (cur_comm e).

(** The program past its filters. *)
Definition report_drop (skb : Z) (iphdr : list byte) (st : Z) : M obj Z :=
  limited ← bpf_ratelimited (Some rate_ptr);
  if (limited : bool) then mret 0
  else
    data ← percpu_lookup_elem dropwatch_stackmap stackmap_key;
    match data with
    | None => mret 0
    | Some _ =>
        data ← asks (fun e => fill_event e skb iphdr st);
        percpu_store dropwatch_stackmap stackmap_key (fun _ => data);;
        bpf_perf_event_output perf_events (wire_encode data);;
        percpu_update_elem dropwatch_stackmap stackmap_key zero_data COMPAT_BPF_EXIST;;
        mret 0
    end.

(** struct trace_event_raw_kfree_skb *ctx *)
Record kfree_skb_ctx := mk_ctx { skbaddr : Z; protocol : Z }.

Definition bpf_kfree_skb_prog (ctx : kfree_skb_ctx) : M obj Z :=
  let skb := skbaddr ctx in
  if negb (protocol ctx =? ETH_P_IP) then mret 0
  else
    iphdr ← asks (fun e => read_iphdr e skb);
    if negb (hdr_field Vmlinux.iphdr 1 "protocol" iphdr =? IPPROTO_TCP) then mret 0
    else
      sk ← asks (fun e => core_read e 8 skb skb_sk);
      if sk =? 0 then mret 0
      else
        family ← asks (fun e => core_read e 2 sk sock_skc_family);
        if negb (family =? AF_INET) then mret 0
        else
          pt ← asks (fun e => sk_get_type_and_protocol e sk);
          if negb (u8 (fst pt) =? IPPROTO_TCP) || negb (snd pt =? SOCK_STREAM) then mret 0
          else
            st ← asks (fun e => core_read e 1 sk sock_skc_state);
            if (st =? TCP_CLOSE) || (st =? 0) then mret 0
            else report_drop skb iphdr st.

(** ** What is reported *)

(** An IPv4 TCP packet of an open IPv4 TCP stream socket. *)
Definition tracked (e : kenv) (ctx : kfree_skb_ctx) : bool :=
  let skb := skbaddr ctx in
  let sk := core_read e 8 skb skb_sk in
  let st := core_read e 1 sk sock_skc_state in
  (protocol ctx =? ETH_P_IP) &&
  (hdr_field Vmlinux.iphdr 1 "protocol" (read_iphdr e skb) =? IPPROTO_TCP) &&
  negb (sk =? 0) && (core_read e 2 sk sock_skc_family =? AF_INET) &&
  (u8 (fst (sk_get_type_and_protocol e sk)) =? IPPROTO_TCP) &&
  (snd (sk_get_type_and_protocol e sk) =? SOCK_STREAM) &&
  negb (st =? TCP_CLOSE) && negb (st =? 0).

Definition drop_event (e : kenv) (ctx : kfree_skb_ctx) : perf_event_t :=
  fill_event e (skbaddr ctx) (read_iphdr e (skbaddr ctx))
    (core_read e 1 (core_read e 8 (skbaddr ctx) skb_sk) sock_skc_state).

(** The event buffer of every CPU is clear. *)
Definition clean (s : obj) : Prop := forall c, stackmap s c = [zero_data].

(** ** Lemmas *)

Lemma prog_filters e ctx s :
  run (bpf_kfree_skb_prog ctx) e s =
    if tracked e ctx then
      run (report_drop (skbaddr ctx) (read_iphdr e (skbaddr ctx))
             (core_read e 1 (core_read e 8 (skbaddr ctx) skb_sk) sock_skc_state)) e s
    else (s, []).
Proof.
  unfold bpf_kfree_skb_prog, tracked.
  destruct (protocol ctx =? ETH_P_IP); cbn [negb andb]; [|done]. rewrite run_asks.
  destruct (_ =? IPPROTO_TCP); cbn [negb andb]; [|done]. rewrite run_asks.
  destruct (_ =? 0); cbn [negb andb]; [done|]. rewrite run_asks.
  destruct (_ =? AF_INET); cbn [negb andb]; [|done]. rewrite run_asks.
  destruct (_ =? IPPROTO_TCP); cbn [negb andb orb]; [|done].
  destruct (_ =? SOCK_STREAM); cbn [negb andb]; [|done]. rewrite run_asks.
  destruct (_ =? TCP_CLOSE); cbn [negb andb orb]; [done|].
  destruct (_ =? 0); cbn [negb andb]; done.
Qed.

Lemma report_run e s skb iphdr st :
  clean s -> rl_interval (rate s) <> 0 ->
  let '(limited, r) := ratelimit_at (ktime e 0%nat / NSEC_PER_SEC) (rate s) in
  exists m, run (report_drop skb iphdr st) e s =
    (mk_obj r m, if (limited : bool) then []
                 else [(perf_events, wire_encode (fill_event e skb iphdr st))]) /\
    clean (mk_obj r m).
Proof.
  intros Hs Hi. pose proof (ratelimited_run rate_ptr e (W s 0%nat [])) as E.
  cbn [rate_ptr pget pset w_st w_clk w_out] in E. rewrite (proj2 (Z.eqb_neq _ _) Hi) in E.
  destruct (ratelimit_at _ _) as [b r]. unfold report_drop. rewrite (run_bind _ _ _ _ _ _ E).
  destruct b; [by exists (stackmap s)|]. run_simpl.
  cbn [dropwatch_stackmap pc_get pc_set stackmap rate]. rewrite Hs.
  change ([zero_data] !! Z.to_nat stackmap_key) with (Some zero_data).
  cbn [dropwatch_stackmap pc_get pc_set stackmap rate w_st w_clk w_out]. rewrite percpu_set_eq, Hs.
  set (ev := fill_event e skb iphdr st).
  change (alter (fun _ => ev) (Z.to_nat stackmap_key) [zero_data]) with [ev].
  change (array_update (Z.to_nat stackmap_key) zero_data COMPAT_BPF_EXIST [ev]) with (0, [zero_data]).
  cbn [rate stackmap app]. eexists. split; [reflexivity|].
  intros c. simpl. unfold percpu_set. destruct (c =? cur_cpu e); [done|]. apply Hs.
Qed.

#[global] Program Instance reporter : LimitedReporter bpf_kfree_skb_prog rate_ptr := {
  lr_inv := clean;
  lr_asks e ctx := if tracked e ctx then Some 0%nat else None;
  lr_record e ctx := (perf_events, wire_encode (drop_event e ctx))
}.
Next Obligation.
  intros e ctx s Hs Hi. rewrite prog_filters. destruct (tracked e ctx); [|done].
  pose proof (report_run e s (skbaddr ctx) (read_iphdr e (skbaddr ctx))
    (core_read e 1 (core_read e 8 (skbaddr ctx) skb_sk) sock_skc_state) Hs Hi) as H.
  cbn [rate_ptr pget] in *. destruct (ratelimit_at _ _) as [b r].
  by destruct H as (m & -> & Hm).
Qed.

Lemma drop_event_valid e ctx : kenv_ok e -> wire_valid (drop_event e ctx).
Proof.
  intros He. unfold drop_event, fill_event.
  pose proof (ok_stack e He 0 (8 * PERF_MAX_STACK_DEPTH)) as Hst.
  destruct (get_stack e 0 _) as [stk sz]. cbn [fst] in Hst.
  cbn [wire_valid event_wire tgid_pid saddr daddr sport dport seq ack_seq queue_mapping pkt_len
    stack_size stack sk_max_ack_backlog state type_ comm].
  split_and!.
  - apply (ok_pid_tgid e He).
  - by apply (iphdr_field_range _ _ 4).
  - by apply (iphdr_field_range _ _ 4).
  - by apply (tcphdr_field_range _ _ 2).
  - by apply (tcphdr_field_range _ _ 2).
  - by apply (tcphdr_field_range _ _ 4).
  - by apply (tcphdr_field_range _ _ 4).
  - pose proof (core_read_range e 2 (skbaddr ctx) skb_queue_mapping) as [? ?]. unfold is_u.
    change (8 * Z.of_nat 2) with 16 in *. lia.
  - apply core_read_u64. lia.
  - apply s64_range.
  - apply s64_range.
  - rewrite Hst. unfold PERF_MAX_STACK_DEPTH. lia.
  - unfold is_u; lia.
  - apply (core_read_range e 1).
  - unfold is_u, TYPE_TCP_COMMON_DROP; lia.
  - by rewrite (ok_comm e He).
Qed.
End Dropwatch.

(** ** Examples *)

(** The packet of [example_packet] on an established TCP socket of the
    reference kernel; [flags] is the word at __sk_flags_offset. *)
Definition drop_env (now flags : Z) : kenv :=
  vmlinux_env (example_env now 0x700000009 3)
    [(1000, struct_bytes Vmlinux.sk_buff
        [(["sk"%string], le_bytes 8 3000); (["len"%string], le_bytes 4 40);
         (["network_header"%string], le_bytes 2 14); (["transport_header"%string], le_bytes 2 34);
         (["head"%string], le_bytes 8 5000)]);
     (3000, struct_bytes Vmlinux.sock
        [(["__sk_common"%string; "skc_family"%string], le_bytes 2 2);
         (["__sk_common"%string; "skc_state"%string], le_bytes 1 1);
         (["__sk_flags_offset"%string], le_bytes 4 flags)]);
     (5014, struct_bytes Vmlinux.iphdr [(["protocol"%string], le_bytes 1 6)] ++
            struct_bytes Vmlinux.tcphdr [(["source"%string], map byte_of_Z [1; 187])])].

(** ** Theorems *)

(** C5: dropwatch.c refines its specification.  For every sequence of freed
    packets in clock order the events submitted are, in order, those of the IPv4
    TCP packets that belong to an IPv4 TCP stream socket in a state other than
    CLOSE, as far as the 100-per-window limiter grants them. *)
Theorem dropwatch_refines l :
  clock_ok 1 1 (lr_secs Dropwatch.bpf_kfree_skb_prog Dropwatch.rate_ptr l) ->
  snd (lr_exec Dropwatch.bpf_kfree_skb_prog l Dropwatch.init) =
    lr_reports Dropwatch.bpf_kfree_skb_prog Dropwatch.rate_ptr
      (spec_answers 1 100 (lr_secs Dropwatch.bpf_kfree_skb_prog Dropwatch.rate_ptr l)) l.
Proof. intros Hc. apply (lr_exec_spec _ Dropwatch.rate_ptr 1 100); (done || lia). Qed.

Lemma dropwatch_refines_witness :
  length (snd (lr_exec Dropwatch.bpf_kfree_skb_prog
    [(drop_env 3000000000 0x10600, Dropwatch.mk_ctx 1000 0x0800);
     (drop_env 3000000000 0x11100, Dropwatch.mk_ctx 1000 0x0800);
     (drop_env 3000000000 0x10600, Dropwatch.mk_ctx 1000 0x86dd)] Dropwatch.init)) = 1%nat.
Proof.
  rewrite dropwatch_refines; [vm_compute; reflexivity|]. vm_compute. repeat split; discriminate.
Defined.

(** The per-CPU event buffer of dropwatch.c never carries data over: after
    any sequence of freed packets on any CPUs the buffer of every CPU is zero
    again. *)
Theorem dropwatch_buffer_clean l :
  Dropwatch.clean (fst (lr_exec Dropwatch.bpf_kfree_skb_prog l Dropwatch.init)).
Proof.
  change (lr_inv (LimitedReporter := Dropwatch.reporter)
    (fst (lr_exec Dropwatch.bpf_kfree_skb_prog l Dropwatch.init))).
  by apply lr_exec_inv.
Qed.

(** [sk_get_type_and_protocol] reads the two bit-fields of kernels up to
    4.18.  Protocol and type are the bit-fields the layout of struct sock puts
    [SK_FL_PROTO_SHIFT] and [SK_FL_TYPE_SHIFT] bits after [__sk_flags_offset],
    and for every value of the flags word below them the program extracts exactly
    the protocol (after its conversion to u8) and the type. *)
Theorem dropwatch_sk_bitfields e sk lo p t :
  kexists e sock___sk_flags_offset = true ->
  0 <= lo < 2 ^ 8 -> 0 <= p < 2 ^ 8 -> 0 <= t < 2 ^ 16 ->
  le_Z (probe_read e 4 (sk + koff e sock___sk_flags_offset)) = lo + 2 ^ 8 * p + 2 ^ 16 * t ->
  let '(protocol, type) := Dropwatch.sk_get_type_and_protocol e sk in
  u8 protocol = p /\ type = t /\
  member Vmlinux.sock "sk_protocol" =
    Some (8 * vmlinux_koff sock___sk_flags_offset + Dropwatch.SK_FL_PROTO_SHIFT, c_u32) /\
  member Vmlinux.sock "sk_type" =
    Some (8 * vmlinux_koff sock___sk_flags_offset + Dropwatch.SK_FL_TYPE_SHIFT, c_u32).
Proof.
  intros Hex Hlo Hp Ht Hw. unfold Dropwatch.sk_get_type_and_protocol. rewrite Hex, Hw.
  unfold Dropwatch.SK_FL_PROTO_SHIFT, Dropwatch.SK_FL_TYPE_SHIFT.
  rewrite !Z.shiftr_div_pow2 by lia.
  replace ((lo + 2 ^ 8 * p + 2 ^ 16 * t) / 2 ^ 8) with (p + 2 ^ 8 * t)
    by (apply (Z.div_unique _ _ _ lo); lia).
  replace ((lo + 2 ^ 8 * p + 2 ^ 16 * t) / 2 ^ 16) with t
    by (apply (Z.div_unique _ _ _ (lo + 2 ^ 8 * p)); lia).
  split_and!; [| |vm_compute; reflexivity | vm_compute; reflexivity].
  - unfold u8, u16. rewrite Z.mod_mod_divide by (by exists (2 ^ 8)).
    rewrite (Z.mul_comm (2 ^ 8)), Z.mod_add by lia. apply Z.mod_small. lia.
  - apply Z.mod_small. lia.
Qed.

Lemma dropwatch_sk_bitfields_witness :
  u8 (fst (Dropwatch.sk_get_type_and_protocol (drop_env 3000000000 0x106f0) 3000)) = 6.
Proof.
  pose proof (dropwatch_sk_bitfields (drop_env 3000000000 0x106f0) 3000 0xf0 6 1) as H.
  destruct (Dropwatch.sk_get_type_and_protocol _ _) as [p t].
  apply H; [vm_compute; reflexivity | lia | lia | lia | vm_compute; reflexivity].
Defined.

(** What the collector reads of a dropped packet.  In every environment
    the helpers can produce, the event decodes into perfEventT unchanged, the 2
    bytes that pad the structure at its end notwithstanding, and after the
    conversions of netutil.go its ports, sequence numbers and addresses are the
    big-endian values and the octets of the packet's headers. *)
Theorem dropwatch_event_roundtrip e ctx rest :
  kenv_ok e ->
  exists ev,
    wire_decode (wire_encode (Dropwatch.drop_event e ctx) ++ rest) = Some ev /\
    ev = Dropwatch.drop_event e ctx /\
    InetNtohs (Dropwatch.sport ev) =
      be_Z (hdr_bytes Vmlinux.tcphdr 2 "source" (read_tcphdr e (Dropwatch.skbaddr ctx))) /\
    InetNtohs (Dropwatch.dport ev) =
      be_Z (hdr_bytes Vmlinux.tcphdr 2 "dest" (read_tcphdr e (Dropwatch.skbaddr ctx))) /\
    InetNtohl (Dropwatch.seq ev) =
      be_Z (hdr_bytes Vmlinux.tcphdr 4 "seq" (read_tcphdr e (Dropwatch.skbaddr ctx))) /\
    InetNtop (Dropwatch.saddr ev) =
      map byte_to_Z (hdr_bytes Vmlinux.iphdr 4 "saddr" (read_iphdr e (Dropwatch.skbaddr ctx))) /\
    InetNtop (Dropwatch.daddr ev) =
      map byte_to_Z (hdr_bytes Vmlinux.iphdr 4 "daddr" (read_iphdr e (Dropwatch.skbaddr ctx))).
Proof.
  intros He. exists (Dropwatch.drop_event e ctx).
  split; [by apply wire_decode_encode, Dropwatch.drop_event_valid|]. split; [done|].
  unfold Dropwatch.drop_event, Dropwatch.fill_event.
  destruct (get_stack e 0 (8 * PERF_MAX_STACK_DEPTH)) as [stk sz].
  cbn [Dropwatch.sport Dropwatch.dport Dropwatch.seq Dropwatch.saddr Dropwatch.daddr].
  unfold hdr_field.
  split_and!; [apply InetNtohs_le | apply InetNtohs_le | apply InetNtohl_le | apply InetNtop_le..];
    (by apply length_tcphdr_bytes) || (by apply length_iphdr_bytes).
Qed.

Lemma dropwatch_event_roundtrip_witness :
  exists ev,
    wire_decode (wire_encode (Dropwatch.drop_event (drop_env 3000000000 0x10600)
                   (Dropwatch.mk_ctx 1000 0x0800)) ++ []) = Some ev /\
    InetNtohs (Dropwatch.sport ev) =
      be_Z (hdr_bytes Vmlinux.tcphdr 2 "source" (read_tcphdr (drop_env 3000000000 0x10600) 1000)).
Proof.
  destruct (dropwatch_event_roundtrip (drop_env 3000000000 0x10600) (Dropwatch.mk_ctx 1000 0x0800) [])
    as (ev & E & -> & Hsp & _).
  - apply memory_env_ok, example_env_ok; unfold is_u; lia.
  - eexists. split; [exact E | exact Hsp].
Defined.
