(* ===== verification/NetCollect.v ===== *)
(** * core/events/netrecvlat.go and dropwatch.go: what is saved of an event

    The user-space half of the two packet tracers, on the events their BPF
    programs submit (Netrecvlat.v, Dropwatch.v) and with the back traces of
    Symbol.v. The pod service, the name server, the known-issue patterns and
    /proc are parameters. *)
From S2P Require Import Prelude Text Layout Bpf Vmlinux Symbol Net Ratelimit Limited Netrecvlat Dropwatch.
From stdpp Require Import base gmap list strings pretty.
From Stdlib Require Import ZArith Lia Ascii.
From Stdlib.Strings Require Byte.

Open Scope Z_scope.

(** ** Text *)

Definition string_of_bytes (bs : list byte) : string := String.string_of_list_byte bs.

(** strings.TrimRight(s, NUL) on bytes. *)
Fixpoint trim_zeros (bs : list byte) : list byte :=
  match bs with
  | [] => []
  | b :: rest =>
      match trim_zeros rest with
      | [] => if byte_eq_dec b Byte.x00 then [] else [b]
      | rest' => b :: rest'
      end
  end.

(** net.IP.String() of an IPv4 address. *)
Fixpoint dotted (l : list Z) : string :=
  match l with
  | [] => EmptyString
  | [z] => pretty z
  | z :: l' => pretty z +:+ "." +:+ dotted l'
  end.

(** tcpStateMap and tcpstateMap of the two files. *)
Definition tcpStateMap : list string :=
  ["<nil>"; "ESTABLISHED"; "SYN_SENT"; "SYN_RECV"; "FIN_WAIT1"; "FIN_WAIT2"; "TIME_WAIT"; "CLOSE";
   "CLOSE_WAIT"; "LAST_ACK"; "LISTEN"; "CLOSING"; "NEW_SYN_RECV"]%string.

(** ** netrecvlat.go *)
Module NetrecvlatGo.

Definition userCopyCase : Z := 2.
Definition toWhere : list string := ["TO_NETIF_RCV"; "TO_TCPV4_RCV"; "TO_USER_COPY"]%string.

Record NetTracingData := mk_data
  { Comm : string; Pid : Z; Where : string; Latency : Z; State : string; Saddr : string; Daddr : string;
    Sport : Z; Dport : Z; Seq : Z; AckSeq : Z; PktLen : Z }.

(** procfsutil.NetNSInodeByPid: the inode, a missing process, another error. *)
Inductive inode_result := Inode (i : Z) | Enoent | InodeErr.

(** The configuration and the services; a container is its ID and QoS level. *)
Record services := mk_services
  { IgnoreHost : bool; IgnoreContainerLevel : list Z; hostNetNsInode : Z;
    NetNSInodeByPid : Z -> inode_result; GetContainerByNetNamespaceInode : Z -> option (string * Z);
    KnownIssueSearch : string -> string }.

(** The thresholds Start passes to the BPF program, in nanoseconds, from those
    configured in milliseconds; [None] is the error of an unset one. *)
Definition start_args (toNetIf toTCPV4 toUserCopy : Z) : option (Z * Z * Z) :=
  if (toNetIf =? 0) || (toTCPV4 =? 0) || (toUserCopy =? 0) then None
  else Some (u64 (u64 (toNetIf * 1000) * 1000), u64 (u64 (toTCPV4 * 1000) * 1000), u64 (u64 (toUserCopy * 1000) * 1000)).

(** [inr] is the error; else the container's ID and whether to skip. *)
Definition ignore (w : services) (pid : Z) : (string * bool) + unit :=
  match NetNSInodeByPid w pid with
  | Enoent => inl (EmptyString, true)
  | InodeErr => inr tt
  | Inode dstInode =>
      if IgnoreHost w && (dstInode =? hostNetNsInode w) then inl (EmptyString, true)
      else match GetContainerByNetNamespaceInode w dstInode with
           | None => inl (EmptyString, false)
           | Some (cid, level) => inl (cid, bool_decide (level ∈ IgnoreContainerLevel w))
           end
  end.

Definition title (d : NetTracingData) : string :=
  "comm=" +:+ Comm d +:+ ":" +:+ pretty (Pid d) +:+ " to=" +:+ Where d +:+ " lat(ms)=" +:+ pretty (Latency d) +:+
  " state=" +:+ State d +:+ " saddr=" +:+ Saddr d +:+ " sport=" +:+ pretty (Sport d) +:+
  " daddr=" +:+ Daddr d +:+ " dport=" +:+ pretty (Dport d) +:+ " seq=" +:+ pretty (Seq d) +:+
  " ackSeq=" +:+ pretty (AckSeq d) +:+ " pktLen=" +:+ pretty (PktLen d).

Inductive handled :=
| Saved (containerID : string) (d : NetTracingData)
| Skipped
| Failed
| Panicked.

Definition event_comm (pd : Netrecvlat.perf_event_t) : string :=
  if Netrecvlat.tgid_pid pd =? 0 then "<nil>"%string
  else string_of_bytes (trim_zeros (Netrecvlat.comm pd)).
Definition event_pid (pd : Netrecvlat.perf_event_t) : Z :=
  if Netrecvlat.tgid_pid pd =? 0 then 0 else Z.shiftr (Netrecvlat.tgid_pid pd) 32.

(** The part of the loop's body that decides whether to go on, ... *)
Definition verdict (w : services) (pd : Netrecvlat.perf_event_t) : (string * bool) + unit :=
  if negb (Netrecvlat.tgid_pid pd =? 0) && (Netrecvlat.where_ pd =? userCopyCase)
  then ignore w (event_pid pd) else inl (EmptyString, false).

(** ... the part that names, filters and saves, ... *)
Definition save (w : services) (containerID : string) (pd : Netrecvlat.perf_event_t) : handled :=
  match toWhere !! Z.to_nat (Netrecvlat.where_ pd) with
  | None => Panicked
  | Some where_ =>
      match tcpStateMap !! Z.to_nat (Netrecvlat.state pd) with
      | None => Panicked
      | Some state =>
          let d := mk_data (event_comm pd) (event_pid pd) where_ (Netrecvlat.latency pd / 1000 / 1000) state
            (dotted (InetNtop (Netrecvlat.saddr pd))) (dotted (InetNtop (Netrecvlat.daddr pd)))
            (InetNtohs (Netrecvlat.sport pd)) (InetNtohs (Netrecvlat.dport pd))
            (InetNtohl (Netrecvlat.seq pd)) (InetNtohl (Netrecvlat.ack_seq pd)) (Netrecvlat.pkt_len pd) in
          if negb (bool_decide (state = "ESTABLISHED"%string)) && negb (bool_decide (state = "<nil>"%string))
          then Skipped
          else if bool_decide (KnownIssueSearch w (title d) = "netrecvlat"%string) then Skipped
          else Saved containerID d
      end
  end.

(** ... and the two together. *)
Definition handle (w : services) (pd : Netrecvlat.perf_event_t) : handled :=
  match verdict w pd with
  | inr _ => Failed
  | inl (_, true) => Skipped
  | inl (containerID, false) => save w containerID pd
  end.

(** How the loop ends: the context, a read or procfs error, a panic. *)
Inductive exit := Stopped | LoopErr | LoopPanic.

(** The loop of Start over what ReadInto gives, [None] being its error. *)
Fixpoint netRecvLatTracing_loop (w : services) (reads : list (option Netrecvlat.perf_event_t))
    : list (string * NetTracingData) * exit :=
  match reads with
  | [] => ([], Stopped)
  | None :: _ => ([], LoopErr)
  | Some pd :: reads' =>
      match handle w pd with
      | Failed => ([], LoopErr)
      | Panicked => ([], LoopPanic)
      | Skipped => netRecvLatTracing_loop w reads'
      | Saved cid d => let '(saved, e) := netRecvLatTracing_loop w reads' in ((cid, d) :: saved, e)
      end
  end.

(** *** The clocks *)

(** One reading: the wall clock, the monotonic clock, the wall clock again. *)
Record clocks := mk_clocks { t1 : Z; t2 : Z; t3 : Z }.
Definition delta (c : clocks) : Z := s64 (t3 c - t1 c).
Definition estimate (c : clocks) : Z := s64 (Z.quot (s64 (t3 c + t1 c)) 2 - t2 c).

(** The loop after the first reading, with bestDelta and offset. *)
Fixpoint best_of (readings : list clocks) (bestDelta offset : Z) : Z * Z :=
  match readings with
  | [] => (bestDelta, offset)
  | c :: rest =>
      if delta c <? bestDelta then best_of rest (delta c) (estimate c) else best_of rest bestDelta offset
  end.

(** [reading i] is that of round [i], [None] if a clock fails. *)
Definition estMonoWallOffset (reading : nat -> option clocks) : option Z :=
  cs ← mapM reading (seq 0 10);
  match cs with
  | [] => Some 0
  | c :: rest => Some (best_of rest (delta c) (estimate c)).2
  end.

(** ** Lemmas *)

(** A reading in a world in which wall time is monotonic time plus [D], before
    the year 2116. *)
Definition bracketed (D : Z) (c : clocks) : Prop :=
  0 <= t1 c /\ t1 c <= t2 c + D <= t3 c /\ t3 c < 2 ^ 62 /\ 0 <= t2 c < 2 ^ 62.

Lemma estimate_error D c : bracketed D c -> 2 * Z.abs (estimate c - D) <= delta c + 1.
Proof.
  intros (H0 & Hb & H3 & H2). unfold estimate, delta. rewrite (s64_small (t3 c + t1 c)), (s64_small (t3 c - t1 c)) by lia.
  rewrite Z.quot_div_nonneg by lia. pose proof (Z.div_mod (t3 c + t1 c) 2 ltac:(lia)).
  pose proof (Z.mod_pos_bound (t3 c + t1 c) 2 ltac:(lia)). rewrite s64_small by lia. lia.
Qed.

Lemma best_of_error D rest : forall bd off,
  Forall (bracketed D) rest -> 2 * Z.abs (off - D) <= bd + 1 ->
  2 * Z.abs ((best_of rest bd off).2 - D) <= (best_of rest bd off).1 + 1 /\
  (best_of rest bd off).1 <= bd /\ Forall (fun c => (best_of rest bd off).1 <= delta c) rest.
Proof.
  induction rest as [|c rest IH]; intros bd off Hf Ho; cbn [best_of fst snd].
  { split_and!; [done | lia | constructor]. }
  apply Forall_cons in Hf as [Hc Hf]. destruct (Z.ltb_spec (delta c) bd).
  - destruct (IH (delta c) (estimate c) Hf (estimate_error D c Hc)) as (H1 & H2 & H3).
    split_and!; [done | lia | by constructor].
  - destruct (IH bd off Hf Ho) as (H1 & H2 & H3). split_and!; [done | lia | constructor; [lia | done]].
Qed.

Lemma late_event_where off e st skb :
  exists s, toWhere !! Z.to_nat (Netrecvlat.where_ (Netrecvlat.late_event off e (st, skb))) = Some s.
Proof. destruct st; by eexists. Qed.

Lemma late_event_where_of off e st skb :
  Netrecvlat.where_ (Netrecvlat.late_event off e (st, skb)) = Netrecvlat.where_of st.
Proof. unfold Netrecvlat.late_event, Netrecvlat.fill_event. cbn [Netrecvlat.where_ Netrecvlat.mix_where]. reflexivity. Qed.

Lemma late_event_latency off e st skb :
  Netrecvlat.latency (Netrecvlat.late_event off e (st, skb)) = Netrecvlat.age off e skb.
Proof. unfold Netrecvlat.late_event, Netrecvlat.fill_event. cbn [Netrecvlat.latency Netrecvlat.lat]. reflexivity. Qed.

Lemma div_1000_1000 a : a / 1000 / 1000 = a / 1000000.
Proof. by rewrite Z.div_div by lia. Qed.

Lemma save_panics w cid pd :
  is_Some (toWhere !! Z.to_nat (Netrecvlat.where_ pd)) -> 0 <= Netrecvlat.state pd ->
  save w cid pd = Panicked <-> 13 <= Netrecvlat.state pd.
Proof.
  intros [wh Hw] H0. unfold save. rewrite Hw.
  pose proof (lookup_lt_is_Some tcpStateMap (Z.to_nat (Netrecvlat.state pd))) as Hs.
  change (length tcpStateMap) with 13%nat in Hs.
  destruct (tcpStateMap !! Z.to_nat (Netrecvlat.state pd)) as [n|].
  - split; [by repeat case_match|]. assert (Z.to_nat (Netrecvlat.state pd) < 13)%nat by (apply Hs; by eexists). lia.
  - split; [|done]. intros _. destruct (Z.le_gt_cases 13 (Netrecvlat.state pd)); [done|].
    destruct (proj2 Hs ltac:(lia)) as [? [=]].
Qed.

(** What a saved record says. *)
Lemma handle_saved w pd cid d :
  handle w pd = Saved cid d ->
  toWhere !! Z.to_nat (Netrecvlat.where_ pd) = Some (Where d) /\
  Latency d = Netrecvlat.latency pd / 1000 / 1000 /\
  (State d = "ESTABLISHED"%string \/ State d = "<nil>"%string) /\
  Sport d = InetNtohs (Netrecvlat.sport pd) /\ Dport d = InetNtohs (Netrecvlat.dport pd) /\
  Saddr d = dotted (InetNtop (Netrecvlat.saddr pd)) /\ Daddr d = dotted (InetNtop (Netrecvlat.daddr pd)).
Proof.
  unfold handle, save. intros H. destruct (verdict w pd) as [[c [|]]|]; try done.
  destruct (toWhere !! _) as [wh|]; [|done]. destruct (tcpStateMap !! _) as [stn|]; [|done].
  destruct (bool_decide (stn = "ESTABLISHED"%string)) eqn:E1, (bool_decide (stn = "<nil>"%string)) eqn:E2;
    cbn [negb andb] in H; try done; destruct (bool_decide _) in H; try done; injection H as <- <-; cbn;
    split_and!; try done; (left; by apply bool_decide_eq_true in E1) || (right; by apply bool_decide_eq_true in E2).
Qed.

(** The configured threshold of a probe. *)
Definition configured (m1 m2 m3 : Z) (st : Netrecvlat.stage) : Z :=
  match st with Netrecvlat.Netif => m1 | Netrecvlat.Tcpv4 => m2 | Netrecvlat.UserCopy => m3 end.

Definition milliseconds (m : Z) : Prop := 0 <= m < 2 ^ 64 / 1000000.

Lemma to_ns m : milliseconds m -> u64 (u64 (m * 1000) * 1000) = m * 1000000.
Proof.
  intros Hm. unfold milliseconds in Hm. change (2 ^ 64 / 1000000) with 18446744073709 in Hm.
  rewrite (u64_small (m * 1000)) by (unfold is_u; lia). rewrite u64_small by (unfold is_u; lia). lia.
Qed.

Lemma start_args_threshold m1 m2 m3 th1 th2 th3 st :
  start_args m1 m2 m3 = Some (th1, th2, th3) -> milliseconds m1 -> milliseconds m2 -> milliseconds m3 ->
  Netrecvlat.threshold th1 th2 th3 st = configured m1 m2 m3 st * 1000000.
Proof.
  unfold start_args. destruct (_ || _); [discriminate|]. intros [= <- <- <-] H1 H2 H3.
  rewrite !to_ns by done. unfold Netrecvlat.threshold.
  unfold milliseconds in *. change (2 ^ 64 / 1000000) with 18446744073709 in *.
  destruct st; cbn [configured]; apply u64_small; unfold is_u; lia.
Qed.

(** ** Theorems *)

(** C39: the collector survives the events of its program, except for a socket state
    beyond its table: for every packet at every probe, handling the event
    panics iff the filters let it through and the socket state is 13 or more;
    the index of the probe is always in range. *)
Theorem netrecvlat_panics_iff off e st skb w :
  kenv_ok e ->
  let pd := Netrecvlat.late_event off e (st, skb) in
  handle w pd = Panicked <->
  (exists cid, verdict w pd = inl (cid, false)) /\ 13 <= Netrecvlat.state pd.
Proof.
  intros He pd.
  assert (is_u 8 (Netrecvlat.state pd)) as Hst by apply (Netrecvlat.late_event_valid off e (st, skb) He).
  assert (is_Some (toWhere !! Z.to_nat (Netrecvlat.where_ pd))) as Hwh by apply late_event_where.
  clearbody pd. unfold handle. destruct (verdict w pd) as [[cid [|]]|].
  - split; [done|]. intros [[c [=]] _].
  - rewrite save_panics by (done || apply Hst). split; [intros H; split; [by eexists | done] | by intros [_ H]].
  - split; [done|]. intros [[c [=]] _].
Qed.

(** C25: from the packet to the record: if the program of a probe submits an event,
    its bytes decode, and a record saved of it has the probe's name, the age
    of the packet in whole milliseconds, at least the threshold configured for
    the probe, an established or no connection, and the ports and addresses of
    the packet's headers. *)
Theorem netrecvlat_end_to_end off m1 m2 m3 th1 th2 th3 e st skb s w m bytes :
  start_args m1 m2 m3 = Some (th1, th2, th3) -> milliseconds m1 -> milliseconds m2 -> milliseconds m3 ->
  kenv_ok e -> rl_interval s <> 0 ->
  snd (run (Netrecvlat.prog off th1 th2 th3 (st, skb)) e s) = [(m, bytes)] ->
  exists ev, wire_decode bytes = Some ev /\
    forall cid d, handle w ev = Saved cid d ->
      toWhere !! Z.to_nat (Netrecvlat.where_of st) = Some (Where d) /\
      Latency d = Netrecvlat.age off e skb / 1000000 /\
      configured m1 m2 m3 st <= Latency d /\
      (State d = "ESTABLISHED"%string \/ State d = "<nil>"%string) /\
      Sport d = be_Z (hdr_bytes Vmlinux.tcphdr 2 "source" (read_tcphdr e skb)) /\
      Dport d = be_Z (hdr_bytes Vmlinux.tcphdr 2 "dest" (read_tcphdr e skb)) /\
      Saddr d = dotted (map byte_to_Z (hdr_bytes Vmlinux.iphdr 4 "saddr" (read_iphdr e skb))) /\
      Daddr d = dotted (map byte_to_Z (hdr_bytes Vmlinux.iphdr 4 "daddr" (read_iphdr e skb))).
Proof.
  intros Ht Hm1 Hm2 Hm3 He Hi Hrun. rewrite Netrecvlat.prog_run in Hrun by done.
  destruct (Netrecvlat.asks_limiter off th1 th2 th3 e (st, skb)) as [i|] eqn:Ea; [|done].
  destruct (ratelimit_at _ _) as [[|] r]; [done|]. injection Hrun as <- <-.
  exists (Netrecvlat.late_event off e (st, skb)). rewrite <- (app_nil_r (wire_encode _)).
  split; [by apply wire_decode_encode, Netrecvlat.late_event_valid|]. intros cid d Hs.
  apply handle_saved in Hs as (Hw & Hl & Hst & Hsp & Hdp & Hsa & Hda).
  assert (Netrecvlat.threshold th1 th2 th3 st <= Netrecvlat.age off e skb) as Hth.
  { unfold Netrecvlat.asks_limiter in Ea. cbn [fst snd] in Ea.
    remember (Netrecvlat.age off e skb) as a. remember (Netrecvlat.threshold th1 th2 th3 st) as t.
    destruct (Z.leb_spec t a); [assumption|].
    rewrite andb_false_r in Ea. discriminate Ea. }
  rewrite late_event_latency in Hl. rewrite late_event_where_of in Hw. rewrite div_1000_1000 in Hl.
  split; [exact Hw|]. split; [exact Hl|]. split.
  { rewrite (start_args_threshold m1 m2 m3 th1 th2 th3 st Ht Hm1 Hm2 Hm3) in Hth. rewrite Hl.
    apply Z.div_le_lower_bound; [reflexivity|]. rewrite Z.mul_comm. exact Hth. }
  split; [exact Hst|]. rewrite Hsp, Hdp, Hsa, Hda.
  unfold Netrecvlat.late_event, Netrecvlat.fill_event.
  cbn [Netrecvlat.sport Netrecvlat.dport Netrecvlat.saddr Netrecvlat.daddr Netrecvlat.ip_hdr]. unfold hdr_field.
  split_and!; [apply InetNtohs_le, length_tcphdr_bytes | apply InetNtohs_le, length_tcphdr_bytes
    | f_equal; apply InetNtop_le, length_iphdr_bytes | f_equal; apply InetNtop_le, length_iphdr_bytes]; reflexivity.
Qed.

(** The clock offset: if wall time is monotonic time plus D during the
    readings, the estimate is off by at most half the shortest reading,
    rounded up to a nanosecond. *)
Theorem mono_wall_offset_error D (c : nat -> clocks) :
  (forall i, (i < 10)%nat -> bracketed D (c i)) ->
  exists off, estMonoWallOffset (fun i => Some (c i)) = Some off /\
    forall i, (i < 10)%nat -> 2 * Z.abs (off - D) <= delta (c i) + 1.
Proof.
  intros Hc. assert (Forall (bracketed D) (c <$> seq 1 9)) as Hf.
  { apply Forall_fmap, Forall_forall. intros i Hi. apply elem_of_seq in Hi. apply Hc. lia. }
  destruct (best_of_error D (c <$> seq 1 9) (delta (c 0%nat)) (estimate (c 0%nat)) Hf) as (H1 & H2 & H3).
  { apply estimate_error, Hc. lia. }
  exists (best_of (c <$> seq 1 9) (delta (c 0%nat)) (estimate (c 0%nat))).2. split.
  - unfold estMonoWallOffset.
    assert (mapM (fun i => Some (c i)) (seq 0 10) = Some (c <$> seq 0 10)) as -> by reflexivity. reflexivity.
  - intros [|i] Hi; [lia|]. rewrite Forall_forall in H3. specialize (H3 (c (S i))). rewrite H1. apply Z.add_le_mono_r, H3.
    apply list_elem_of_fmap_2, elem_of_seq. lia.
Qed.

(** *** Witnesses *)

Definition services0 : services :=
  mk_services false [] 1 (fun _ => Inode 2) (fun _ => None) (fun _ => EmptyString).

Lemma netrecvlat_panics_iff_witness :
  handle services0 (Netrecvlat.late_event 0 (packet_env 2006000000 2000000000) (Netrecvlat.Netif, 1000)) <> Panicked.
Proof.
  intros H. apply (netrecvlat_panics_iff 0 (packet_env 2006000000 2000000000) Netrecvlat.Netif 1000 services0) in H
    as [_ H].
  - revert H. vm_compute. congruence.
  - apply memory_env_ok, example_env_ok; unfold is_u; lia.
Defined.

Definition output0 : string * list byte :=
  default (EmptyString, []) (head (snd (run (Netrecvlat.prog 0 5000000 10000000 115000000 (Netrecvlat.Netif, 1000))
    (packet_env 2006000000 2000000000) Netrecvlat.rate_init))).

Lemma netrecvlat_end_to_end_witness :
  exists ev, wire_decode output0.2 = Some ev /\
    forall cid d, handle services0 ev = Saved cid d -> 5 <= Latency d.
Proof.
  destruct (netrecvlat_end_to_end 0 5 10 115 5000000 10000000 115000000 (packet_env 2006000000 2000000000)
    Netrecvlat.Netif 1000 Netrecvlat.rate_init services0 output0.1 output0.2) as (ev & E & H).
  - vm_compute. reflexivity.
  - vm_compute. split; discriminate || reflexivity.
  - vm_compute. split; discriminate || reflexivity.
  - vm_compute. split; discriminate || reflexivity.
  - apply memory_env_ok, example_env_ok; unfold is_u; lia.
  - discriminate.
  - vm_compute. reflexivity.
  - exists ev. split; [exact E|]. intros cid d Hs. destruct (H cid d Hs) as (_ & _ & Hl & _). exact Hl.
Defined.

Definition clocks0 (i : nat) : clocks := mk_clocks (1000 + Z.of_nat i) (105 + Z.of_nat i) (1040 - Z.of_nat i).

Lemma mono_wall_offset_error_witness :
  exists off, estMonoWallOffset (fun i => Some (clocks0 i)) = Some off /\ 2 * Z.abs (off - 900) <= delta (clocks0 5) + 1.
Proof.
  destruct (mono_wall_offset_error 900 clocks0) as (off & E & H).
  - intros i Hi. unfold bracketed, clocks0. cbn [t1 t2 t3]. lia.
  - exists off. split; [exact E|]. apply H. lia.
Defined.

End NetrecvlatGo.

(** ** dropwatch.go *)
Module DropwatchGo.
Import Symbol.Symbol.

(** A missing key of typeMap reads as the empty string. *)
Definition typeMap (t : Z) : string :=
  if t =? 1 then "common_drop" else if t =? 2 then "syn_flood"
  else if t =? 3 then "listen_overflow_handshake1" else if t =? 4 then "listen_overflow_handshake3"
  else EmptyString.

Record DropWatchTracingData := mk_data
  { Type_ : string; Comm : string; Pid : Z; Saddr : string; Daddr : string; Sport : Z; Dport : Z;
    SrcHostname : string; DestHostname : string; MaxAckBacklog : Z; Seq : Z; AckSeq : Z;
    QueueMapping : Z; PktLen : Z; State : string; Stack : string }.

Definition newline : ascii := "010".

(** strings.Join(l, newline) and strings.Split(s, newline). *)
Fixpoint Join (l : list string) : string :=
  match l with
  | [] => EmptyString
  | [s] => s
  | s :: l' => s +:+ String newline (Join l')
  end.
Definition Split (s : string) : list string := Text.Split newline s.

Section Format.
(** net.LookupAddr, and the loaded ksymbolCache. *)
Context (LookupAddr : string -> option (list string)) (cache : list symbol).

Definition hostname (addr : string) : string :=
  match LookupAddr addr with
  | Some (h :: _) => h
  | _ => "<nil>"
  end.

(** [None] is the panic of the state table or of the symbol search. *)
Definition formatEvent (event : Dropwatch.perf_event_t) : option DropWatchTracingData :=
  let saddr := dotted (InetNtop (Dropwatch.saddr event)) in
  let daddr := dotted (InetNtop (Dropwatch.daddr event)) in
  bt ← DumpKernelBackTrace cache (words 127 (Dropwatch.stack event)) KsymbolStackMaxDepth;
  state ← tcpStateMap !! Z.to_nat (Dropwatch.state event);
  Some (mk_data (typeMap (Dropwatch.type_ event)) (string_of_bytes (trim_zeros (Dropwatch.comm event)))
    (Z.shiftr (Dropwatch.tgid_pid event) 32) saddr daddr
    (InetNtohs (Dropwatch.sport event)) (InetNtohs (Dropwatch.dport event))
    (hostname saddr) (hostname daddr) (Dropwatch.sk_max_ack_backlog event)
    (InetNtohl (Dropwatch.seq event)) (InetNtohl (Dropwatch.ack_seq event))
    (Dropwatch.queue_mapping event) (Dropwatch.pkt_len event) state (Join bt)).

(** strings.HasPrefix(stack[2], p), with the length test. *)
Definition third_has_prefix (stack : list string) (p : string) : bool :=
  match stack !! 2%nat with
  | Some s => String.prefix p s
  | None => false
  end.

Definition dropWatchTracing_ignore (IgnoreNeighInvalidate : bool) (data : DropWatchTracingData) : bool :=
  let stack := Split (Stack data) in
  bool_decide (State data = "CLOSE_WAIT"%string) && third_has_prefix stack "skb_rbtree_purge/" ||
  IgnoreNeighInvalidate && third_has_prefix stack "neigh_invalidate/" ||
  (third_has_prefix stack "bnxt_tx_int/" || third_has_prefix stack "__bnxt_tx_int/").

(** The loop of Start over what ReadInto gives, [None] being its error: what is
    saved, and whether the loop panicked. *)
Fixpoint dropWatchTracing_loop (IgnoreNeighInvalidate : bool) (reads : list (option Dropwatch.perf_event_t))
    : list DropWatchTracingData * bool :=
  match reads with
  | [] | None :: _ => ([], false)
  | Some event :: reads' =>
      match formatEvent event with
      | None => ([], true)
      | Some data =>
          let '(saved, panic) := dropWatchTracing_loop IgnoreNeighInvalidate reads' in
          (if dropWatchTracing_ignore IgnoreNeighInvalidate data then saved else data :: saved, panic)
      end
  end.
End Format.

(** ** Lemmas *)

Fixpoint has_char (c : ascii) (s : string) : bool :=
  match s with
  | EmptyString => false
  | String d rest => Ascii.eqb d c || has_char c rest
  end.

Lemma has_char_app c s t : has_char c (s +:+ t) = has_char c s || has_char c t.
Proof. 
  induction s as [|d s IH]; [done|]. change (String d s +:+ t) with (String d (s +:+ t)).
  cbn [has_char]. by rewrite IH, orb_assoc.
Qed.

Lemma Split_plain s : has_char newline s = false -> Split s = [s].
Proof.
  unfold Split. induction s as [|c s IH]; [done|]. cbn. intros [Hc Hs]%orb_false_elim. by rewrite Hc, IH.
Qed.

Lemma Split_app s t : has_char newline s = false -> Split (s +:+ String newline t) = s :: Split t.
Proof.
  induction s as [|c s IH]; [done|]. intros [Hc Hs]%orb_false_elim.
  change (String c s +:+ String newline t) with (String c (s +:+ String newline t)).
  unfold Split in *. cbn [Text.Split]. by rewrite Hc, IH.
Qed.

Lemma Split_Join l : l <> [] -> Forall (fun s => has_char newline s = false) l -> Split (Join l) = l.
Proof.
  intros Hne Hf. induction Hf as [|s l Hs Hf IH]; [done|]. destruct l as [|s' l]; [by apply Split_plain|].
  change (Join (s :: s' :: l)) with (s +:+ String newline (Join (s' :: l))).
  rewrite Split_app by done. by rewrite IH.
Qed.

Lemma all_chars_has_char c s :
  Text.all_chars (fun d => negb (d =? c)%char) s = true -> has_char c s = false.
Proof.
  induction s as [|d s IH]; [done|]. cbn. intros [Hd Hs]%andb_true_iff.
  apply negb_true_iff in Hd. by rewrite Hd, IH.
Qed.

Lemma format_x_plain c z : Text.digit 16 c = None -> has_char c (format_x z) = false.
Proof.
  intros Hc. apply all_chars_has_char. apply Text.all_chars_digits; [lia | | done].
  intros d Hd. destruct (Ascii.eqb_spec (Text.digit_char d) c) as [<-|]; [|done].
  by rewrite Text.digit_of_char in Hc.
Qed.

(** The names kallsyms has: no slash in a name, no line break anywhere. *)
Definition plain (s : symbol) : Prop :=
  has_char newline (Name s) = false /\ has_char "/" (Name s) = false /\ has_char newline (Module_ s) = false.

Lemma format_symbol_plain s : plain s -> has_char newline (format_symbol s) = false.
Proof.
  intros (Hn & _ & Hm). unfold format_symbol. rewrite !has_char_app, Hn, Hm, format_x_plain; done.
Qed.

(** A prefix up to the slash is the whole name. *)
Lemma prefix_name p n rest :
  has_char "/" p = false -> has_char "/" n = false ->
  String.prefix (p +:+ "/") (n +:+ "/" +:+ rest) = true <-> n = p.
Proof.
  revert n. induction p as [|c p IH]; intros [|d n] Hp Hn.
  - split; [done|]. intros _. by destruct rest.
  - apply orb_false_elim in Hn as [Hd _]. split; [|done].
    change (EmptyString +:+ "/") with (String "/" EmptyString).
    change (String d n +:+ "/" +:+ rest) with (String d (n +:+ "/" +:+ rest)). cbn [String.prefix].
    destruct (ascii_dec "/" d) as [<-|]; [done | done].
  - apply orb_false_elim in Hp as [Hc _]. split; [|done].
    change (String c p +:+ "/") with (String c (p +:+ "/")).
    change (EmptyString +:+ "/" +:+ rest) with (String "/" rest). cbn [String.prefix].
    destruct (ascii_dec c "/") as [->|]; done.
  - apply orb_false_elim in Hp as [Hc Hp]. apply orb_false_elim in Hn as [Hd Hn].
    change (String c p +:+ "/") with (String c (p +:+ "/")).
    change (String d n +:+ "/" +:+ rest) with (String d (n +:+ "/" +:+ rest)). cbn [String.prefix].
    destruct (ascii_dec c d) as [->|Hne].
    + rewrite IH by done. split; [by intros -> | by intros [= ->]].
    + split; [done|]. intros [= E1 E2]. by subst.
Qed.

(** The symbols of a back trace. *)
Fixpoint back_symbols (cache : list symbol) (addrs : list Z) : option (list symbol) :=
  match addrs with
  | [] => Some []
  | a :: addrs' =>
      s ← ksymbolSearch cache a;
      rest ← back_symbols cache addrs';
      Some (if bool_decide (Name s = EmptyString) then rest else s :: rest)
  end.

Lemma back_trace_symbols cache addrs :
  back_trace cache addrs = (fun l : list symbol => format_symbol <$> l) <$> back_symbols cache addrs.
Proof.
  induction addrs as [|a addrs IH]; [done|]. cbn [back_trace back_symbols].
  destruct (ksymbolSearch cache a) as [s|]; [|done]. cbn. rewrite IH.
  destruct (back_symbols cache addrs); [|done]. cbn. by case_bool_decide.
Qed.

Lemma third_prefix syms p :
  Forall plain syms -> has_char "/" p = false ->
  third_has_prefix (Split (Join (format_symbol <$> syms))) (p +:+ "/") = true <->
  exists s, syms !! 2%nat = Some s /\ Name s = p.
Proof.
  intros Hf Hp. destruct syms as [|s0 syms].
  { cbn. split; [done|]. by intros (s & [=] & _). }
  rewrite Split_Join; [|done|].
  2: { apply Forall_fmap. eapply Forall_impl; [exact Hf|]. intros s. apply format_symbol_plain. }
  unfold third_has_prefix. rewrite list_lookup_fmap. destruct ((s0 :: syms) !! 2%nat) as [s|] eqn:E.
  - cbn [fmap option_fmap option_map]. unfold format_symbol.
    rewrite prefix_name; [|done | apply (Forall_lookup_1 _ _ _ _ Hf E)].
    split; [intros <-; by exists s | by intros (? & [= ->] & ->)].
  - cbn. split; [done|]. by intros (s & [=] & _).
Qed.

(** ** Theorems *)

(** Which drops are ignored: with the symbols of the back trace resolved and
    their names plain, an event is ignored iff the third symbol is
    skb_rbtree_purge for a socket in CLOSE_WAIT, neigh_invalidate where that
    is configured, or one of the two transmit-completion functions of bnxt. *)
Theorem dropwatch_ignore_iff LookupAddr cache neigh event data syms :
  back_symbols cache (stack_addrs (words 127 (Dropwatch.stack event)) KsymbolStackMaxDepth) = Some syms ->
  Forall plain syms -> formatEvent LookupAddr cache event = Some data ->
  dropWatchTracing_ignore neigh data = true <->
  exists s, syms !! 2%nat = Some s /\
    ((State data = "CLOSE_WAIT"%string /\ Name s = "skb_rbtree_purge"%string) \/
     (neigh = true /\ Name s = "neigh_invalidate"%string) \/
     Name s = "bnxt_tx_int"%string \/ Name s = "__bnxt_tx_int"%string).
Proof.
  intros Hs Hf Hd.
  assert (Stack data = Join (format_symbol <$> syms)) as Hst.
  { unfold formatEvent, DumpKernelBackTrace in Hd. rewrite back_trace_symbols in Hd.
    remember (stack_addrs _ _) as addrs eqn:Ea. clear Ea. rewrite Hs in Hd.
    cbn [fmap option_fmap option_map mbind option_bind] in Hd.
    remember (tcpStateMap !! _) as o eqn:Eo. clear Eo. destruct o; [|discriminate Hd].
    cbn [option_bind] in Hd. injection Hd as <-. reflexivity. }
  clear Hs Hd. unfold dropWatchTracing_ignore. rewrite Hst.
  pose proof (third_prefix syms "skb_rbtree_purge" Hf eq_refl) as H1.
  pose proof (third_prefix syms "neigh_invalidate" Hf eq_refl) as H2.
  pose proof (third_prefix syms "bnxt_tx_int" Hf eq_refl) as H3.
  pose proof (third_prefix syms "__bnxt_tx_int" Hf eq_refl) as H4.
  cbn [String.append] in *. rewrite !orb_true_iff, !andb_true_iff, bool_decide_eq_true, H1, H2, H3, H4.
  naive_solver.
Qed.

(** A drop in neigh_invalidate. *)
Definition cache0 : list symbol :=
  [defaultSymbol; mk_symbol 4096 "kfree_skb" "[kernel]"; mk_symbol 8192 "neigh_invalidate" "[kernel]"].
Definition event0 : Dropwatch.perf_event_t :=
  Dropwatch.mk_event 0 0 0 0 0 0 0 0 0 24
    (le_bytes 8 4100 ++ le_bytes 8 4200 ++ le_bytes 8 8200 ++ zeros 992) 0 1 1 (zeros 16).

Lemma dropwatch_ignore_iff_witness :
  exists data, formatEvent (fun _ => None) cache0 event0 = Some data /\ dropWatchTracing_ignore true data = true.
Proof.
  destruct (formatEvent (fun _ => None) cache0 event0) as [data|] eqn:E; [|vm_compute in E; discriminate E].
  exists data. split; [reflexivity|].
  apply (dropwatch_ignore_iff (fun _ => None) cache0 true event0 data
    [mk_symbol 4096 "kfree_skb" "[kernel]"; mk_symbol 4096 "kfree_skb" "[kernel]";
     mk_symbol 8192 "neigh_invalidate" "[kernel]"]).
  - vm_compute. reflexivity.
  - repeat constructor.
  - exact E.
  - eexists. split; [reflexivity|]. right. left. split; reflexivity.
Defined.

End DropwatchGo.
