(* ===== verification/Cgroup.v ===== *)
(** * bpf/cgroup_css_gather.c, bpf/cgroup_css_events.c and the CSS table

    The programs that submit an event for the cgroup of a container (a cgroup
    whose directory name has exactly 64 characters) and the table that
    internal/pod/container_css_default.go keeps from them, from cgroup
    subsystem state (CSS) addresses to containers. *)
From S2P Require Import Prelude Layout Bpf Vmlinux.
From stdpp Require Import base gmap list strings.
From Stdlib Require Import ZArith Lia.
From Stdlib.Strings Require Byte.

Open Scope Z_scope.

Module Cgroup.

Definition CGROUP_KNODE_NAME_MAXLEN : nat := 64.

Record cgroup_perf_event_t := mk_event {
  cgroup : Z;
  ops_type : Z;
  cgroup_root : Z;
  cgroup_level : Z;
  css : list Z;
  knode_name : list byte
}.

Definition event_members : list member_decl :=
  ["cgroup" :- c_u64; "ops_type" :- c_u64; "cgroup_root" :- c_int; "cgroup_level" :- c_int;
   "css" :- Array 13 c_u64; "knode_name" :- Array 66 c_char]%ctype.

(** type containerCssPerfEvent struct *)
Definition containerCssPerfEvent (vs : list (list byte)) : option cgroup_perf_event_t :=
  match vs with
  | [cg; op; rt; lv; cs; kn] =>
      Some (mk_event (le_Z cg) (le_Z op) (s32 (le_Z rt)) (s32 (le_Z lv)) (words CGROUP_SUBSYS_COUNT cs) kn)
  | _ => None
  end.

#[global] Program Instance event_wire : Wire cgroup_perf_event_t := {
  wire_members := event_members;
  wire_sizes := [8; 8; 4; 4; 104; 66]%nat;
  wire_fields r := [le_bytes 8 (cgroup r); le_bytes 8 (ops_type r); le_bytes 4 (cgroup_root r);
                    le_bytes 4 (cgroup_level r); word_bytes (css r); knode_name r];
  wire_valid r := is_u 64 (cgroup r) /\ is_u 64 (ops_type r) /\ - 2 ^ 31 <= cgroup_root r < 2 ^ 31 /\
    - 2 ^ 31 <= cgroup_level r < 2 ^ 31 /\ length (css r) = CGROUP_SUBSYS_COUNT /\
    Forall (is_u 64) (css r) /\ Z.of_nat (length (knode_name r)) = 66;
  wire_parse := containerCssPerfEvent
}.
Next Obligation.
  intros x Hx. destruct x; simpl in Hx |- *; intuition;
    rewrite ?length_le_bytes, ?length_word_bytes; unfold CGROUP_SUBSYS_COUNT in *; simpl; lia.
Qed.
Next Obligation.
  intros [cg op rt lv cs kn]. cbn [cgroup ops_type cgroup_root cgroup_level css knode_name].
  intros (? & ? & ? & ? & Hl & ? & ?). unfold containerCssPerfEvent.
  rewrite !s32_u32, !le_Z_le_bytes_small by assumption. by rewrite <- Hl, words_word_bytes.
Qed.
Next Obligation. reflexivity. Qed.
Next Obligation. reflexivity. Qed.

Definition cgroup_perf_events : string := "cgroup_perf_events".

(** The CSS addresses of a cgroup: BPF_CORE_READ(cgrp, subsys) copies the
    array, the surrounding bpf_probe_read() the copy. *)
Definition read_css (e : kenv) (cgrp : Z) : list Z :=
  words CGROUP_SUBSYS_COUNT (probe_read e (8 * CGROUP_SUBSYS_COUNT) (cgrp + koff e cgroup_subsys)).

(** The event of cgroup [cgrp]. *)
Definition fill_event (e : kenv) (cgrp type : Z) (name : list byte) : cgroup_perf_event_t :=
  mk_event (u64 cgrp) (u64 type)
    (s32 (core_read e 4 (core_read e 8 cgrp cgroup_root_ptr) cgroup_root_hierarchy_id))
    (s32 (core_read e 4 cgrp Bpf.cgroup_level))
    (read_css e cgrp)
    name.

(** bpf_probe_read_str(&data.knode_name, ..., BPF_CORE_READ(cgrp, kn, name)) *)
Definition read_knode_name (e : kenv) (cgrp : Z) : Z * list byte :=
  probe_read_str e (CGROUP_KNODE_NAME_MAXLEN + 2)
    (core_read e 8 (core_read e 8 cgrp cgroup_kn) kernfs_name).

(** cgroup_css_gather.c; neither object has a map or a global of its own. *)
Definition bpf_cgroup_subsys_state_prog (css_arg : Z) : M unit Z :=
  cgrp ← asks (fun e => core_read e 8 css_arg css_cgroup);
  knode ← asks (fun e => read_knode_name e cgrp);
  let '(knode_len, name) := knode in
  if negb (knode_len =? Z.of_nat CGROUP_KNODE_NAME_MAXLEN + 1) then mret 0
  else
    data ← asks (fun e => fill_event e cgrp 0 name);
    bpf_perf_event_output cgroup_perf_events (wire_encode data);;
    mret 0.

(** cgroup_css_events.c *)
Definition bpf_cgroup_event_class_prog (cgrp type : Z) : M unit Z :=
  knode ← asks (fun e => read_knode_name e cgrp);
  let '(knode_len, name) := knode in
  if negb (knode_len =? Z.of_nat CGROUP_KNODE_NAME_MAXLEN + 1) then mret 0
  else
    data ← asks (fun e => fill_event e cgrp type name);
    bpf_perf_event_output cgroup_perf_events (wire_encode data);;
    mret 0.

Definition bpf_cgroup_mkdir_prog (cgrp : Z) : M unit Z := bpf_cgroup_event_class_prog cgrp 0.
Definition bpf_cgroup_rmdir_prog (cgrp : Z) : M unit Z := bpf_cgroup_event_class_prog cgrp 1.

(** ** container_css_default.go *)

(** strings.TrimRight(s, NUL) *)
Fixpoint trim_left_nul (bs : list byte) : list byte :=
  match bs with
  | b :: bs' => if decide (b = Byte.x00) then trim_left_nul bs' else bs
  | [] => []
  end.
Definition trim_right_nul (bs : list byte) : list byte := reverse (trim_left_nul (reverse bs)).

Definition is_alnum (b : byte) : bool :=
  let c := byte_to_Z b in
  ((97 <=? c) && (c <=? 122)) || ((65 <=? c) && (c <=? 90)) || ((48 <=? c) && (c <=? 57)).

(** kubeletContainerIDRegexp does not match. *)
Definition isValidKnodeName (name : list byte) : bool := forallb is_alnum name.

Record containerCssMetaData := mk_meta {
  m_CSS : Z;
  m_SubSys : string;
  m_Cgroup : Z;
  m_CgroupRoot : Z;
  m_CgroupLevel : Z;
  m_ContainerID : list byte
}.

Section Table.
(** cgroupCssID2SubSysNameMap, read from /proc/cgroups at start. *)
Context (sysNames : nat -> option string).

Abbreviation table := (gmap Z containerCssMetaData).

Definition meta_of (d : cgroup_perf_event_t) (name : list byte) (c : Z) (sys : string) :=
  mk_meta c sys (cgroup d) (cgroup_root d) (cgroup_level d) name.

(** The loop over data.CSS from [index] on. *)
Fixpoint store_css (d : cgroup_perf_event_t) (name : list byte) (index : nat) (l : list Z) (t : table)
    : table :=
  match l with
  | [] => t
  | c :: l' =>
      store_css d name (S index) l'
        (if c =? 0 then t
         else match sysNames index with
              | Some sys => <[c := meta_of d name c sys]> t
              | None => t
              end)
  end.

Fixpoint delete_css (index : nat) (l : list Z) (t : table) : table :=
  match l with
  | [] => t
  | c :: l' =>
      delete_css (S index) l'
        (if c =? 0 then t
         else match sysNames index with Some _ => delete c t | None => t end)
  end.

(** [None] is the error "knode name is not containterID". *)
Definition cgroupUpdateOrCreateCssData (d : cgroup_perf_event_t) (t : table) : option table :=
  let name := trim_right_nul (knode_name d) in
  if negb (isValidKnodeName name) then None else Some (store_css d name 0 (css d) t).

Definition cgroupDeleteCssData (d : cgroup_perf_event_t) (t : table) : option table :=
  let name := trim_right_nul (knode_name d) in
  if negb (isValidKnodeName name) then None else Some (delete_css 0 (css d) t).

(** One round of the loop of cgroupCssEventSyncHandler: [None] when reading
    the event fails and the handler returns. *)
Definition cgroupCssEventSyncHandler (record : list byte) (t : table) : option table :=
  match wire_decode record with
  | None => None
  | Some d =>
      Some (if ops_type d =? 0 then default t (cgroupUpdateOrCreateCssData d t)
            else if ops_type d =? 1 then default t (cgroupDeleteCssData d t)
            else t)
  end.

Fixpoint handle_all (records : list (string * list byte)) (t : table) : option table :=
  match records with
  | [] => Some t
  | (_, r) :: rs =>
      match cgroupCssEventSyncHandler r t with
      | Some t' => handle_all rs t'
      | None => None
      end
  end.
End Table.

(** ** Lemmas *)

Lemma fill_event_valid e cgrp type name :
  length name = 66%nat -> wire_valid (fill_event e cgrp type name).
Proof.
  intros Hn. cbn [wire_valid event_wire fill_event cgroup ops_type cgroup_root cgroup_level css
    knode_name]. split_and!; try apply u64_range; try apply s32_range.
  - apply length_words.
  - apply words_range.
  - by rewrite Hn.
Qed.

(** A name of [n] characters passes the test exactly when [n] is 64. *)
Lemma read_name e cgrp name :
  str_at (kmem e) (core_read e 8 (core_read e 8 cgrp cgroup_kn) kernfs_name) name ->
  read_knode_name e cgrp =
    (Z.of_nat (Nat.min 65 (length name)) + 1,
     take 65 name ++ replicate (66 - Nat.min 65 (length name)) Byte.x00).
Proof. intros H. unfold read_knode_name. apply (probe_read_str_at e 65 _ name H). Qed.

Lemma class_run e cgrp type name :
  str_at (kmem e) (core_read e 8 (core_read e 8 cgrp cgroup_kn) kernfs_name) name ->
  snd (run (bpf_cgroup_event_class_prog cgrp type) e tt) =
    if (length name =? 64)%nat then
      [(cgroup_perf_events,
        wire_encode (fill_event e cgrp type (name ++ [Byte.x00; Byte.x00])))]
    else [].
Proof.
  intros Hn. unfold bpf_cgroup_event_class_prog. rewrite run_asks, (read_name e cgrp name Hn).
  destruct (Nat.eqb_spec (length name) 64) as [E|E].
  - rewrite E. change (Z.of_nat (Nat.min 65 64) + 1 =? Z.of_nat CGROUP_KNODE_NAME_MAXLEN + 1) with true.
    cbn [negb]. rewrite run_asks. by rewrite take_ge by lia.
  - destruct (Z.eqb_spec (Z.of_nat (Nat.min 65 (length name)) + 1)
      (Z.of_nat CGROUP_KNODE_NAME_MAXLEN + 1)) as [E'|E']; [|done].
    unfold CGROUP_KNODE_NAME_MAXLEN in E'. lia.
Qed.

Lemma gather_run e css_arg :
  snd (run (bpf_cgroup_subsys_state_prog css_arg) e tt) =
    snd (run (bpf_cgroup_event_class_prog (core_read e 8 css_arg css_cgroup) 0) e tt).
Proof. done. Qed.

Lemma alnum_not_nul b : is_alnum b = true -> b <> Byte.x00.
Proof. by intros H ->. Qed.

Lemma trim_right_name name k :
  isValidKnodeName name = true -> name <> [] ->
  trim_right_nul (name ++ replicate k Byte.x00) = name.
Proof.
  intros Hv Hne. unfold trim_right_nul. rewrite reverse_app, reverse_replicate.
  induction k as [|k IH]; [|cbn [replicate app trim_left_nul]; by rewrite decide_True by done].
  cbn [replicate app]. destruct (reverse name) as [|b r] eqn:E.
  - apply (f_equal reverse) in E. by rewrite reverse_involutive in E.
  - cbn [trim_left_nul]. assert (is_alnum b = true) as Hb.
    { unfold isValidKnodeName in Hv. rewrite List.forallb_forall in Hv. apply Hv.
      apply list_elem_of_In, elem_of_reverse. rewrite E. by left. }
    rewrite decide_False by (by apply alnum_not_nul). rewrite <- E. apply reverse_involutive.
Qed.

Section TableFacts.
Context (sysNames : nat -> option string).
Implicit Types t : gmap Z containerCssMetaData.

(** [c] is the address of a subsystem the collector knows, in the array whose
    first element has number [index]. *)
Fixpoint listed (index : nat) (l : list Z) (c : Z) : bool :=
  match l with
  | [] => false
  | c0 :: l' =>
      (negb (c0 =? 0) && (c0 =? c) && match sysNames index with Some _ => true | None => false end)
      || listed (S index) l' c
  end.

Lemma delete_css_lookup index l t c :
  delete_css sysNames index l t !! c = if listed index l c then None else t !! c.
Proof.
  revert index t. induction l as [|c0 l IH]; intros index t; cbn [delete_css listed]; [done|].
  rewrite IH. destruct (listed (S index) l c); [by rewrite orb_true_r|]. rewrite orb_false_r.
  destruct (c0 =? 0); cbn [negb andb]; [done|].
  destruct (sysNames index); [|by rewrite andb_false_r]. rewrite andb_true_r.
  destruct (Z.eqb_spec c0 c) as [->|]; [apply lookup_delete_eq | by apply lookup_delete_ne].
Qed.

Lemma store_css_lookup d name index l t c :
  if listed index l c
  then exists sys, store_css sysNames d name index l t !! c = Some (meta_of d name c sys)
  else store_css sysNames d name index l t !! c = t !! c.
Proof.
  revert index t. induction l as [|c0 l IH]; intros index t; cbn [store_css listed]; [done|].
  set (t' := if c0 =? 0 then t else _). specialize (IH (S index) t').
  destruct (listed (S index) l c); [by rewrite orb_true_r|]. rewrite orb_false_r, IH.
  unfold t'. destruct (c0 =? 0); cbn [negb andb]; [done|].
  destruct (sysNames index) as [sys|]; [|by rewrite andb_false_r]. rewrite andb_true_r.
  destruct (Z.eqb_spec c0 c) as [->|]; [|by apply lookup_insert_ne].
  exists sys. apply lookup_insert_eq.
Qed.

(** Handling the record of a container's cgroup. *)
Lemma handle_event e cgrp type name t :
  length name = 64%nat -> isValidKnodeName name = true ->
  let d := fill_event e cgrp type (name ++ [Byte.x00; Byte.x00]) in
  cgroupCssEventSyncHandler sysNames (wire_encode d) t =
    Some (if u64 type =? 0 then store_css sysNames d name 0 (read_css e cgrp) t
          else if u64 type =? 1 then delete_css sysNames 0 (read_css e cgrp) t else t).
Proof.
  intros Hl Hv d. unfold cgroupCssEventSyncHandler.
  rewrite <- (app_nil_r (wire_encode d)), wire_decode_encode
    by (apply fill_event_valid; rewrite length_app, Hl; done).
  unfold cgroupUpdateOrCreateCssData, cgroupDeleteCssData.
  change (knode_name d) with (name ++ replicate 2 Byte.x00).
  rewrite trim_right_name by (try done; by intros ->). rewrite Hv. done.
Qed.
End TableFacts.
End Cgroup.

(** ** Examples *)

(** A container cgroup of the reference kernel with one CSS, of subsystem 1. *)
Definition example_name : list byte := replicate 64 (byte_of_Z 97).
Definition cgroup_env : kenv :=
  vmlinux_env (example_env 1000 0 0)
    [(1000, struct_bytes Vmlinux.cgroup
        [(["kn"%string], le_bytes 8 8000); (["subsys"%string], word_bytes [0; 0x7000])]);
     (8000, struct_bytes Vmlinux.kernfs_node [(["name"%string], le_bytes 8 9000)]);
     (9000, example_name ++ [Byte.x00]);
     (10000, struct_bytes Vmlinux.cgroup_subsys_state [(["cgroup"%string], le_bytes 8 1000)])].
Definition example_sys (i : nat) : option string :=
  if (i =? 1)%nat then Some "cpu"%string else None.

(** ** Theorems *)

(** The cgroup programs report exactly the cgroups of containers.  For a
    cgroup whose kernfs name is the string [name], each of the three programs
    submits one event if [name] has 64 characters, with the name NUL-padded to
    the 66-byte buffer and the operation type of the program, and none
    otherwise, be the name shorter or longer. *)
Theorem cgroup_event_iff_container e cgrp css_arg name :
  str_at (kmem e) (core_read e 8 (core_read e 8 cgrp cgroup_kn) kernfs_name) name ->
  core_read e 8 css_arg css_cgroup = cgrp ->
  let events type := if (length name =? 64)%nat
    then [(Cgroup.cgroup_perf_events,
           wire_encode (Cgroup.fill_event e cgrp type (name ++ [Byte.x00; Byte.x00])))]
    else [] in
  snd (run (Cgroup.bpf_cgroup_mkdir_prog cgrp) e tt) = events 0 /\
  snd (run (Cgroup.bpf_cgroup_rmdir_prog cgrp) e tt) = events 1 /\
  snd (run (Cgroup.bpf_cgroup_subsys_state_prog css_arg) e tt) = events 0.
Proof.
  intros Hn <- events. rewrite Cgroup.gather_run.
  split; [exact (Cgroup.class_run _ _ 0 _ Hn)|].
  split; [exact (Cgroup.class_run _ _ 1 _ Hn) | exact (Cgroup.class_run _ _ 0 _ Hn)].
Qed.

Lemma cgroup_event_iff_container_witness :
  length (snd (run (Cgroup.bpf_cgroup_subsys_state_prog 10000) cgroup_env tt)) = 1%nat.
Proof.
  destruct (cgroup_event_iff_container cgroup_env 1000 10000 example_name) as (_ & _ & E);
    [vm_compute; repeat split; discriminate | vm_compute; reflexivity |].
  rewrite E. reflexivity.
Defined.

(** C26: the CSS table follows the life of a container's cgroup.  For a cgroup
    with a 64-character alphanumeric name, handling the record that
    [bpf_cgroup_mkdir_prog] submits maps every CSS address of a known subsystem
    to that container and leaves the other entries alone; handling the record of
    [bpf_cgroup_rmdir_prog] later, when the cgroup still has the same addresses,
    removes exactly those entries. *)
Theorem cgroup_css_lifecycle sysNames e e' cgrp name t :
  str_at (kmem e) (core_read e 8 (core_read e 8 cgrp cgroup_kn) kernfs_name) name ->
  str_at (kmem e') (core_read e' 8 (core_read e' 8 cgrp cgroup_kn) kernfs_name) name ->
  length name = 64%nat -> Cgroup.isValidKnodeName name = true ->
  Cgroup.read_css e' cgrp = Cgroup.read_css e cgrp ->
  let known := Cgroup.listed sysNames 0 (Cgroup.read_css e cgrp) in
  exists t1 t2,
    Cgroup.handle_all sysNames (snd (run (Cgroup.bpf_cgroup_mkdir_prog cgrp) e tt)) t = Some t1 /\
    Cgroup.handle_all sysNames (snd (run (Cgroup.bpf_cgroup_rmdir_prog cgrp) e' tt)) t1 = Some t2 /\
    (forall c, known c = true -> exists m, t1 !! c = Some m /\
       Cgroup.m_CSS m = c /\ Cgroup.m_ContainerID m = name) /\
    (forall c, known c = false -> t1 !! c = t !! c) /\
    (forall c, t2 !! c = if known c then None else t !! c).
Proof.
  intros Hn Hn' Hl Hv Hcss known.
  unfold Cgroup.bpf_cgroup_mkdir_prog, Cgroup.bpf_cgroup_rmdir_prog.
  rewrite (Cgroup.class_run e cgrp 0 name Hn), (Cgroup.class_run e' cgrp 1 name Hn'), Hl.
  cbn [Nat.eqb Cgroup.handle_all]. rewrite !(Cgroup.handle_event sysNames e cgrp 0) by done.
  set (t1 := if _ =? 0 then _ else _). exists t1.
  rewrite (Cgroup.handle_event sysNames e' cgrp 1) by done. eexists.
  split; [done|]. split; [done|].
  assert (forall c, known c = false -> t1 !! c = t !! c) as Hout.
  { intros c Hc. pose proof (Cgroup.store_css_lookup sysNames
      (Cgroup.fill_event e cgrp 0 (name ++ [Byte.x00; Byte.x00])) name 0 (Cgroup.read_css e cgrp) t c) as H.
    unfold known in Hc. by rewrite Hc in H. }
  split_and!; [|done|].
  - intros c Hc. pose proof (Cgroup.store_css_lookup sysNames
      (Cgroup.fill_event e cgrp 0 (name ++ [Byte.x00; Byte.x00])) name 0 (Cgroup.read_css e cgrp) t c) as H.
    unfold known in Hc. rewrite Hc in H. destruct H as [sys H].
    eexists. split; [exact H|]. split; reflexivity.
  - intros c. cbn [Z.eqb u64]. etransitivity; [apply (Cgroup.delete_css_lookup sysNames 0)|].
    rewrite Hcss. fold (known c). destruct (known c) eqn:E; [done|]. by apply Hout.
Qed.

Lemma cgroup_css_lifecycle_witness :
  exists t1 t2,
    Cgroup.handle_all example_sys (snd (run (Cgroup.bpf_cgroup_mkdir_prog 1000) cgroup_env tt)) ∅ = Some t1 /\
    Cgroup.handle_all example_sys (snd (run (Cgroup.bpf_cgroup_rmdir_prog 1000) cgroup_env tt)) t1 = Some t2 /\
    (exists m, t1 !! 0x7000 = Some m /\ Cgroup.m_ContainerID m = example_name) /\ t2 !! 0x7000 = None.
Proof.
  destruct (cgroup_css_lifecycle example_sys cgroup_env cgroup_env 1000 example_name ∅)
    as (t1 & t2 & H1 & H2 & Hin & _ & Hdel).
  - vm_compute. repeat split; discriminate.
  - vm_compute. repeat split; discriminate.
  - reflexivity.
  - vm_compute. reflexivity.
  - reflexivity.
  - exists t1, t2. split; [exact H1|]. split; [exact H2|].
    destruct (Hin 0x7000) as (m & Hm & _ & Hc); [vm_compute; reflexivity|]. split; [exists m; split; [exact Hm | exact Hc]|].
    rewrite Hdel. vm_compute. reflexivity.
Defined.
