(* ===== verification/Pods.v ===== *)
(** * internal/pod: the containers of the node

    [kubeletSyncContainers] brings the table of containers in line with the
    kubelet's list of pods; [getContainers] syncs at most every five seconds and
    filters the table; the lookups by ID, address, network namespace and CSS
    are what the tracers use to name a container.

    The list of pods, the runtime's files, the host name and the clock are
    inputs; the order in which Go walks a map is a parameter. *)
From S2P Require Import Prelude Text Layout Bpf Cgroup CgroupPath.
From stdpp Require Import base gmap list strings.
From Stdlib Require Import ZArith Lia Ascii.
From Stdlib.Strings Require Byte.

Open Scope Z_scope.

Module Pods.

(** ** container_type.go, container_level_default.go *)

Definition ContainerTypeSidecar : Z := 1.
Definition ContainerTypeDaemonSet : Z := 2.
Definition ContainerTypeNormal : Z := 16.
Definition ContainerTypeUnknown : Z := 32.
Definition ContainerTypeAll : Z := 63.

Definition containerQosUnknown : Z := 0.
Definition containerQosGuaranteed : Z := 1.
Definition containerQosBurstable : Z := 2.
Definition containerQosBestEffort : Z := 3.

(** ** Data *)

(** ContainerStatus; [running] is the start time of State.Running. *)
Record ContainerStatus := mk_status { st_name : string; st_id : string; running : option Z }.
(** The members of a Pod the agent reads: the kinds of its owners, and the
    names of the containers of its specification. *)
Record Pod := mk_pod
  { pod_name : string; uid : string; namespace : string; spec_hostname : string; owners : list string;
    spec_containers : list string; phase : string; qos_class : string; pod_ip : string;
    statuses : list ContainerStatus }.

Record Container := mk_container
  { ID : string; Name : string; Hostname : string; Type_ : Z; Qos : Z; IPAddress : string;
    NetNamespaceInode : Z; InitPid : Z; CgroupSuffix : string; CSS : gmap string Z;
    StartedAt : Z; SyncedAt : Z; lifeResouces : list string; HostNamespace : string }.

Inductive provider := Docker | Containerd.

(** The node: whether the runtime's client can be set up, the PID file of a
    container, the network namespace of a PID, the host name, the entries of
    the CSS table in the order Range yields them, the registered life resources
    and the clock. *)
Record world := mk_world
  { provider_ok : provider -> bool; init_pid : provider -> string -> option Z; netns : Z -> option Z;
    os_hostname : option string; css_entries : list Cgroup.containerCssMetaData;
    life_keys : list string; driver : string; now : Z }.

(** ** Parsing *)

(** strings.Contains *)
Fixpoint Contains (s substr : string) : bool :=
  String.prefix substr s || match s with EmptyString => false | String _ rest => Contains rest substr end.

Definition sidecarModules : string := "istio-proxy".
Definition parseContainerType (container : string) (p : Pod) : Z :=
  match owners p with
  | [] => if bool_decide (phase p = "Running")%string then ContainerTypeNormal else ContainerTypeUnknown
  | kind :: _ =>
      if bool_decide (kind = "DaemonSet")%string then ContainerTypeDaemonSet
      else if Contains sidecarModules container then ContainerTypeSidecar
      else ContainerTypeNormal
  end.

Definition parseContainerQos (p : Pod) : Z :=
  if bool_decide (qos_class p = "Burstable")%string then containerQosBurstable
  else if bool_decide (qos_class p = "BestEffort")%string then containerQosBestEffort
  else if bool_decide (qos_class p = "Guaranteed")%string then containerQosGuaranteed
  else containerQosUnknown.

(** [None] is the error of os.Hostname. *)
Definition parseContainerHostname (w : world) (typ : Z) (p : Pod) : option string :=
  if typ =? ContainerTypeDaemonSet then os_hostname w
  else Some (if bool_decide (spec_hostname p = EmptyString) then pod_name p else spec_hostname p).

(** strings.Split(s, "://"): [skip] bytes of a separator are still to pass. *)
Fixpoint split_scheme (s word : string) (skip : nat) : list string :=
  match s with
  | EmptyString => [word]
  | String c rest =>
      match skip with
      | S k => split_scheme rest word k
      | O => if String.prefix "://" s then word :: split_scheme rest EmptyString 2
             else split_scheme rest (word +:+ String c EmptyString) 0
      end
  end.

(** The provider of a scheme, once it could be set up. *)
Definition initContainerProviderEnv (w : world) (containerEnv : string) : option provider :=
  let ok p := if provider_ok w p then Some p else None in
  if bool_decide (containerEnv = "docker")%string then ok Docker
  else if bool_decide (containerEnv = "containerd")%string then ok Containerd
  else None.

(** The provider is set up once; [ParsePanic] is the panic where it fails. *)
Inductive parsed_id := ParseErr | ParsePanic | Parsed (id : string) (env : provider).
Definition parseContainerIDInPodStatus (w : world) (env : option provider) (data : string) : parsed_id :=
  let quote := [ascii_of_nat 34] in
  match split_scheme (Text.Trim data quote) EmptyString 0 with
  | [scheme; id] =>
      match env with
      | Some e => Parsed id e
      | None => match initContainerProviderEnv w scheme with Some e => Parsed id e | None => ParsePanic end
      end
  | _ => ParseErr
  end.

Definition isRuningPod (p : Pod) : bool :=
  bool_decide (phase p = "Running")%string &&
  forallb (fun s => match running s with Some _ => true | None => false end) (statuses p).

(** ** container_css_default.go *)

Definition bytes_of (s : string) : list byte := String.list_byte_of_string s.
Definition parseContainerCSS (w : world) (containerID : string) : gmap string Z :=
  foldl (fun msg m => <[Cgroup.m_SubSys m := Cgroup.m_CSS m]> msg) ∅
    (filter (fun m => Cgroup.m_ContainerID m = bytes_of containerID) (css_entries w)).

(** ** container_sync.go *)

Inductive updated := UpdateErr | UpdatePanic | Updated (c : Container).

(** A status without a running state is a nil pointer. *)
Definition kubeletUpdateContainer (w : world) (env : option provider) (containerID container : string)
    (st : ContainerStatus) (p : Pod) : updated :=
  let containerType := parseContainerType container p in
  let containerQos := parseContainerQos p in
  match parseContainerHostname w containerType p with
  | None => UpdateErr
  | Some hostname =>
      match env ≫= (fun e => init_pid w e containerID) with
      | None => UpdateErr
      | Some initPid =>
          match netns w initPid with
          | None => UpdateErr
          | Some nsInode =>
              match running st with
              | None => UpdatePanic
              | Some startedAt =>
                  Updated (mk_container containerID container hostname containerType containerQos (pod_ip p)
                    nsInode initPid (CgroupPath.containerCgroupSuffix (driver w) (qos_class p) (uid p) containerID)
                    (parseContainerCSS w containerID) startedAt (now w) (life_keys w) (namespace p))
              end
          end
      end
  end.

(** name -> status of the containers of a pod, [None] being the nil. *)
Definition add_spec (m : gmap string (option ContainerStatus)) (n : string) := <[n := None]> m.
Definition add_status (m : gmap string (option ContainerStatus)) (s : ContainerStatus) :=
  match m !! st_name s with Some _ => <[st_name s := Some s]> m | None => m end.
Definition by_name (p : Pod) : gmap string (option ContainerStatus) :=
  foldl add_status (foldl add_spec ∅ (spec_containers p)) (statuses p).

Record containerInfo := mk_info { i_container : string; i_status : ContainerStatus; i_pod : Pod }.
Abbreviation infos := (gmap string containerInfo).

(** An error keeps the provider that was set up before it. *)
Inductive outcome (A : Type) := Ok (a : A) | Err (env : option provider) | Panic.
Arguments Ok {A} a. Arguments Err {A} env. Arguments Panic {A}.
#[global] Instance outcome_bind : MBind outcome := fun A B k o =>
  match o with Ok a => k a | Err env => Err env | Panic => Panic end.

Section Range.
(** The order in which a map is walked. *)
Context (range : forall A, gmap string A -> list (string * A)).

(** The loop over one pod's containers, with the provider set up so far. *)
Fixpoint add_containers (w : world) (p : Pod) (l : list (string * option ContainerStatus))
    (acc : infos * option provider) : outcome (infos * option provider) :=
  match l with
  | [] => Ok acc
  | (_, None) :: _ => Panic
  | (n, Some st) :: l' =>
      match parseContainerIDInPodStatus w acc.2 (st_id st) with
      | ParseErr => Err acc.2
      | ParsePanic => Panic
      | Parsed id env => add_containers w p l' (<[id := mk_info n st p]> acc.1, Some env)
      end
  end.

Fixpoint new_containers (w : world) (pods : list Pod) (acc : infos * option provider)
    : outcome (infos * option provider) :=
  match pods with
  | [] => Ok acc
  | p :: pods' =>
      if isRuningPod p then acc ← add_containers w p (range _ (by_name p)) acc; new_containers w pods' acc
      else new_containers w pods' acc
  end.

(** The loop that makes the new containers; a failing one is skipped. *)
Fixpoint make_containers (w : world) (env : option provider) (l : list (string * containerInfo))
    (cs : gmap string Container) : outcome (gmap string Container) :=
  match l with
  | [] => Ok cs
  | (id, i) :: l' =>
      match kubeletUpdateContainer w env id (i_container i) (i_status i) (i_pod i) with
      | UpdateErr => make_containers w env l' cs
      | UpdatePanic => Panic
      | Updated c => make_containers w env l' (<[id := c]> cs)
      end
  end.

(** [pods] is [None] where the kubelet's list cannot be had. *)
Definition kubeletSyncContainers (w : world) (pods : option (list Pod))
    (s : gmap string Container * option provider) : outcome (gmap string Container * option provider) :=
  match pods with
  | None => Ok s
  | Some pods =>
      '(news, env) ← new_containers w pods (∅, s.2);
      let kept := filter (fun kv => is_Some (news !! kv.1)) s.1 in
      let fresh := filter (fun kv => s.1 !! kv.1 = None) news in
      cs ← make_containers w env (range _ fresh) kept;
      Ok (cs, env)
  end.

(** ** container.go *)

Record manager := mk_manager
  { containers : gmap string Container; env : option provider; lastUpdatedAt : Z }.
Definition updatedStep : Z := 5000000000.

(** The containers of a mask and level. *)
Definition select (typeMask minLevel : Z) (cs : gmap string Container) : gmap string Container :=
  foldl (fun res kv => if (Z.land (Type_ kv.2) typeMask =? 0) || (Qos kv.2 <? minLevel) then res
                       else <[ID kv.2 := kv.2]> res) ∅ (range _ cs).

(** The result, or the error, and the state: an error of the sync leaves the
    containers and the time of the last sync as they were. *)
Definition getContainers (w : world) (pods : option (list Pod)) (typeMask minLevel : Z) (m : manager)
    : outcome (gmap string Container) * manager :=
  if updatedStep <? now w - lastUpdatedAt m then
    match kubeletSyncContainers w pods (containers m, env m) with
    | Panic => (Panic, m)
    | Err e => (Err e, mk_manager (containers m) e (lastUpdatedAt m))
    | Ok (cs, e) => (Ok (select typeMask minLevel cs), mk_manager cs e (now w))
    end
  else (Ok (select typeMask minLevel (containers m)), m).

Definition GetAllContainers (w : world) (pods : option (list Pod)) (m : manager) :=
  getContainers w pods ContainerTypeAll containerQosUnknown m.
Definition GetNormalContainers (w : world) (pods : option (list Pod)) (m : manager) :=
  getContainers w pods ContainerTypeNormal containerQosUnknown m.

(** The first container, in the order of the walk, with a property. *)
Definition find_container (p : Container -> bool) (cs : gmap string Container) : option Container :=
  head (filter (fun c => p c = true) (range _ cs).*2).

Definition GetContainerByID (w : world) (pods : option (list Pod)) (id : string) (m : manager)
    : outcome (option Container) * manager :=
  let (r, m) := GetAllContainers w pods m in (all ← r; Ok (all !! id), m).
Definition GetContainerByNetNamespaceInode (w : world) (pods : option (list Pod)) (inode : Z) (m : manager)
    : outcome (option Container) * manager :=
  let (r, m) := GetNormalContainers w pods m in (all ← r; Ok (find_container (fun c => NetNamespaceInode c =? inode) all), m).
Definition GetContainerByIPAddress (w : world) (pods : option (list Pod)) (ip : string) (m : manager)
    : outcome (option Container) * manager :=
  let (r, m) := GetNormalContainers w pods m in (all ← r; Ok (find_container (fun c => bool_decide (IPAddress c = ip)) all), m).
Definition GetContainerByCSS (w : world) (pods : option (list Pod)) (css : Z) (subsys : string) (m : manager)
    : outcome (option Container) * manager :=
  let (r, m) := GetAllContainers w pods m in (all ← r; Ok (find_container (fun c => bool_decide (CSS c !! subsys = Some css)) all), m).
Definition GetCSSToContainerID (w : world) (pods : option (list Pod)) (subsys : string) (m : manager)
    : outcome (gmap Z string) * manager :=
  let (r, m) := GetAllContainers w pods m in
  (all ← r; Ok (foldl (fun t kv => match CSS kv.2 !! subsys with Some addr => <[addr := ID kv.2]> t | None => t end)
                 ∅ (range _ all)), m).

(** ** Lemmas *)

Hypothesis range_perm : forall A (m : gmap string A), Permutation (range A m) (map_to_list m).

Lemma range_keys A (m : gmap string A) : NoDup (range A m).*1.
Proof. rewrite range_perm. apply NoDup_fst_map_to_list. Qed.
Lemma range_elem A (m : gmap string A) k x : (k, x) ∈ range A m <-> m !! k = Some x.
Proof. rewrite range_perm. apply elem_of_map_to_list. Qed.

(** *** The table of one pod *)

Lemma by_name_status p n st : by_name p !! n = Some (Some st) -> st ∈ statuses p /\ st_name st = n.
Proof.
  revert n st. unfold by_name. apply (foldl_invariant (fun m : gmap string (option ContainerStatus) =>
    forall n st, m !! n = Some (Some st) -> st ∈ statuses p /\ st_name st = n)).
  - apply (foldl_invariant (fun m : gmap string (option ContainerStatus) => forall n st, m !! n = Some (Some st) -> _)).
    + intros n st. by rewrite lookup_empty.
    + intros m x _ Hm n st. unfold add_spec. rewrite lookup_insert_Some. intros [[_ [=]]|[_ H]]. by apply Hm.
  - intros m s Hs Hm n st. unfold add_status. destruct (m !! st_name s); [|by apply Hm].
    rewrite lookup_insert_Some. intros [[<- [= <-]]|[_ H]]; [done | by apply Hm].
Qed.

Lemma by_name_spec p n : n ∈ spec_containers p -> is_Some (by_name p !! n).
Proof.
  intros Hin. unfold by_name. apply (foldl_invariant (fun m : gmap string (option ContainerStatus) => is_Some (m !! n))).
  - revert Hin. generalize (∅ : gmap string (option ContainerStatus)). induction (spec_containers p) as [|x l IH]; intros m Hin; [set_solver|].
    cbn [foldl]. apply elem_of_cons in Hin as [<-|Hin]; [|by apply IH].
    apply (foldl_invariant (fun m : gmap string (option ContainerStatus) => is_Some (m !! n))).
    + unfold add_spec. by rewrite lookup_insert_eq.
    + intros m' y _ H. unfold add_spec. by apply lookup_insert_is_Some'; right.
  - intros m s _ H. unfold add_status. destruct (m !! st_name s); [|done]. by apply lookup_insert_is_Some'; right.
Qed.

(** *** The new containers *)

(** The ID in a status. *)
Definition status_id (st : ContainerStatus) : option string :=
  match split_scheme (Text.Trim (st_id st) [ascii_of_nat 34]) EmptyString 0 with
  | [_; id] => Some id
  | _ => None
  end.

Lemma parse_id w env st : match parseContainerIDInPodStatus w env (st_id st) with
  | Parsed id e => status_id st = Some id | _ => True end.
Proof.
  unfold parseContainerIDInPodStatus, status_id. destruct (split_scheme _ _ _) as [|a [|b [|]]]; try done.
  destruct env; [done|]. by destruct (initContainerProviderEnv w a).
Qed.

(** A container of a running pod: its specification, its status and ID. *)
Definition listed (pods : list Pod) (id : string) (i : containerInfo) : Prop :=
  i_pod i ∈ pods /\ isRuningPod (i_pod i) = true /\
  by_name (i_pod i) !! i_container i = Some (Some (i_status i)) /\ status_id (i_status i) = Some id.

Lemma add_containers_ok w p l : forall acc acc',
  add_containers w p l acc = Ok acc' ->
  (forall id i, acc'.1 !! id = Some i -> acc.1 !! id = Some i \/
     i_pod i = p /\ (i_container i, Some (i_status i)) ∈ l /\ status_id (i_status i) = Some id) /\
  (forall id, is_Some (acc.1 !! id) -> is_Some (acc'.1 !! id)) /\
  (forall n st id, (n, Some st) ∈ l -> status_id st = Some id -> is_Some (acc'.1 !! id)) /\
  (forall n o, (n, o) ∈ l -> is_Some o).
Proof.
  induction l as [|[n [st|]] l IH]; intros acc acc' H; cbn [add_containers] in H; [|..|done].
  { injection H as <-. split; [by left|]. split; [done|]. split; set_solver. }
  pose proof (parse_id w acc.2 st) as Hp.
  destruct (parseContainerIDInPodStatus w acc.2 (st_id st)) as [| |id0 e]; [done..|].
  apply IH in H as (H1 & H2 & H3 & H4). cbn [fst] in *. split; [|split; [|split]].
  - intros id i Hi. apply H1 in Hi as [Hi|(? & ? & ?)]; [|right; set_solver].
    apply lookup_insert_Some in Hi as [[<- <-]|[_ Hi]]; [|by left]. right. cbn. set_solver.
  - intros id Hi. apply H2, lookup_insert_is_Some'. by right.
  - intros n' st' id Hin Hid. apply elem_of_cons in Hin as [[= -> ->]|Hin]; [|by eapply H3].
    rewrite Hp in Hid. injection Hid as <-. apply H2, lookup_insert_is_Some'. by left.
  - intros n' o Hin. apply elem_of_cons in Hin as [[= -> ->]|Hin]; [done | by eapply H4].
Qed.

Lemma new_containers_ok w pods : forall acc acc',
  new_containers w pods acc = Ok acc' ->
  (forall id i, acc'.1 !! id = Some i -> acc.1 !! id = Some i \/ listed pods id i) /\
  (forall id, is_Some (acc.1 !! id) -> is_Some (acc'.1 !! id)) /\
  (forall id i, listed pods id i -> is_Some (acc'.1 !! id)) /\
  (forall p n, p ∈ pods -> isRuningPod p = true -> n ∈ spec_containers p -> exists st, by_name p !! n = Some (Some st)).
Proof.
  induction pods as [|p pods IH]; intros acc acc' H; cbn [new_containers] in H.
  { injection H as <-. split; [by left|]. split; [done|]. unfold listed. split; set_solver. }
  destruct (isRuningPod p) eqn:Ep.
  - destruct (add_containers w p (range _ (by_name p)) acc) as [acc1| |] eqn:E1; [|done..]. cbn [mbind outcome_bind] in H.
    apply add_containers_ok in E1 as (A1 & A2 & A3 & A4). apply IH in H as (B1 & B2 & B3 & B4). split; [|split; [|split]].
    + intros id i Hi. apply B1 in Hi as [Hi|(? & ? & ?)]; [|right; split; [set_solver | done]].
      apply A1 in Hi as [Hi|(Hp & Hr & Hid)]; [by left|]. right. subst p.
      split; [set_solver|]. split; [done|]. split; [by apply range_elem in Hr | done].
    + eauto.
    + intros id i (Hin & Hr & Hb & Hid). apply elem_of_cons in Hin as [E|Hin].
      * apply B2. eapply A3; [|exact Hid]. apply range_elem. by rewrite <- E.
      * eapply B3. by split.
    + intros p' n Hin Hr Hn. apply elem_of_cons in Hin as [->|Hin]; [|by eapply B4].
      destruct (by_name_spec p n Hn) as [o Ho]. destruct (A4 n o) as [st ->]; [by apply range_elem | by exists st].
  - apply IH in H as (B1 & B2 & B3 & B4). split; [|split; [done|split]].
    + intros id i Hi. apply B1 in Hi as [Hi|(? & ? & ?)]; [by left | right; split; [set_solver | done]].
    + intros id i (Hin & Hr & Hb). eapply B3. split; [|by split]. apply elem_of_cons in Hin as [E|]; [|done].
      rewrite E in Hr. congruence.
    + intros p' n Hin Hr. apply elem_of_cons in Hin as [->|Hin]; [congruence | by apply B4].
Qed.

(** *** The containers made *)

Definition made (w : world) (env : option provider) (id : string) (i : containerInfo) : option Container :=
  match kubeletUpdateContainer w env id (i_container i) (i_status i) (i_pod i) with
  | Updated c => Some c
  | _ => None
  end.

Lemma update_no_panic w env id n st p : is_Some (running st) -> kubeletUpdateContainer w env id n st p <> UpdatePanic.
Proof. intros [t Ht]. unfold kubeletUpdateContainer. rewrite Ht. by repeat case_match. Qed.

Lemma make_containers_ok w env l : forall cs,
  NoDup l.*1 -> (forall id i, (id, i) ∈ l -> is_Some (running (i_status i)) /\ cs !! id = None) ->
  exists cs', make_containers w env l cs = Ok cs' /\
    (forall id i, (id, i) ∈ l -> cs' !! id = made w env id i) /\
    (forall id, id ∉ l.*1 -> cs' !! id = cs !! id).
Proof.
  induction l as [|[id i] l IH]; intros cs Hnd Hl; cbn [make_containers].
  { exists cs. split; [done|]. split; [set_solver | done]. }
  cbn [fmap list_fmap fst] in Hnd. apply NoDup_cons in Hnd as [Hni Hnd].
  destruct (Hl id i ltac:(by left)) as [Hrun Hnone].
  pose proof (update_no_panic w env id (i_container i) (i_status i) (i_pod i) Hrun) as Hp.
  assert (forall id' i', (id', i') ∈ l -> id' <> id) as Hne.
  { intros id' i' Hin ->. apply Hni. apply list_elem_of_fmap. by exists (id, i'). }
  destruct (kubeletUpdateContainer w env id _ _ _) as [| |c] eqn:Eu; [|done|].
  - destruct (IH cs Hnd) as (cs' & E & H1 & H2); [intros id' i' Hin; apply Hl; by right|].
    exists cs'. split; [done|]. split.
    + intros id' i' [[= -> ->]|Hin]%elem_of_cons; [|by apply H1]. rewrite H2 by done. unfold made. by rewrite Eu, Hnone.
    + intros id' Hni'. apply H2. set_solver.
  - destruct (IH (<[id := c]> cs) Hnd) as (cs' & E & H1 & H2).
    { intros id' i' Hin. rewrite lookup_insert_ne by (intros ->; by eapply Hne). apply Hl. by right. }
    exists cs'. split; [done|]. split.
    + intros id' i' [[= -> ->]|Hin]%elem_of_cons; [|by apply H1]. rewrite H2, lookup_insert_eq by done. unfold made. by rewrite Eu.
    + intros id' Hni'. cbn in Hni'. rewrite H2 by set_solver. apply lookup_insert_ne. set_solver.
Qed.

Lemma listed_running pods id i : listed pods id i -> is_Some (running (i_status i)).
Proof.
  intros (_ & Hr & Hb & _). apply by_name_status in Hb as [Hin _].
  unfold isRuningPod in Hr. apply andb_true_iff in Hr as [_ Hr]. rewrite forallb_forall in Hr.
  specialize (Hr (i_status i) ltac:(by apply list_elem_of_In)). by destruct (running (i_status i)).
Qed.

(** *** When the sync succeeds *)

(** A status with an ID of a runtime that can be set up. *)
Definition status_ok (w : world) (st : ContainerStatus) : Prop :=
  exists scheme id, split_scheme (Text.Trim (st_id st) [ascii_of_nat 34]) EmptyString 0 = [scheme; id] /\
    is_Some (initContainerProviderEnv w scheme).
(** Every container of the specification of a running pod has such a status. *)
Definition pods_ok (w : world) (pods : list Pod) : Prop :=
  forall p n o, p ∈ pods -> isRuningPod p = true -> by_name p !! n = Some o -> exists st, o = Some st /\ status_ok w st.

Lemma add_containers_total w p l : (forall n o, (n, o) ∈ l -> exists st, o = Some st /\ status_ok w st) ->
  forall acc, exists acc', add_containers w p l acc = Ok acc'.
Proof.
  induction l as [|[n o] l IH]; intros Hl acc; [by eexists|]. cbn [add_containers].
  destruct (Hl n o ltac:(by left)) as (st & -> & scheme & id & Es & [e Ee]).
  assert (exists e', parseContainerIDInPodStatus w acc.2 (st_id st) = Parsed id e') as [e' ->].
  { unfold parseContainerIDInPodStatus. rewrite Es. destruct acc.2 as [e'|]; [by exists e'|]. rewrite Ee. by exists e. }
  apply IH. intros n' o' Hin. apply (Hl n'). by right.
Qed.

Lemma new_containers_total w pods : pods_ok w pods -> forall acc, exists acc', new_containers w pods acc = Ok acc'.
Proof.
  induction pods as [|p pods IH]; intros Hok acc; [by eexists|]. cbn [new_containers].
  assert (pods_ok w pods) as Hok' by (intros p' n o Hin; apply Hok; by right).
  destruct (isRuningPod p) eqn:Ep; [|by apply IH].
  destruct (add_containers_total w p (range _ (by_name p))) with (acc := acc) as [acc1 ->].
  { intros n o Hin%range_elem. apply (Hok p n o); [by left | done | done]. }
  by apply IH.
Qed.

(** The table after a sync, by the new containers. *)
Lemma sync_table w pods cs e : pods_ok w pods ->
  exists (news : infos) (cs' : gmap string Container) e', kubeletSyncContainers w (Some pods) (cs, e) = Ok (cs', e') /\
    (forall id i, news !! id = Some i -> listed pods id i) /\
    (forall id i, listed pods id i -> is_Some (news !! id)) /\
    forall id, cs' !! id = match news !! id with
                           | None => None
                           | Some i => match cs !! id with Some c => Some c | None => made w e' id i end
                           end.
Proof.
  intros Hok. unfold kubeletSyncContainers. destruct (new_containers_total w pods Hok (∅, e)) as [[news e'] En].
  cbn [snd fst]. rewrite En. cbn [mbind outcome_bind].
  apply new_containers_ok in En as (N1 & _ & N3 & _). cbn [fst] in *.
  assert (forall id i, news !! id = Some i -> listed pods id i) as Hlisted.
  { intros id i Hi. apply N1 in Hi as [Hi|]; [by rewrite lookup_empty in Hi | done]. }
  set (kept := filter (fun kv => is_Some (news !! kv.1)) cs). set (fresh := filter (fun kv => cs !! kv.1 = None) news).
  assert (forall id c, kept !! id = Some c <-> cs !! id = Some c /\ is_Some (news !! id)) as Hkept
    by (intros; apply map_lookup_filter_Some).
  assert (forall id i, fresh !! id = Some i <-> news !! id = Some i /\ cs !! id = None) as Hfresh
    by (intros; apply map_lookup_filter_Some).
  destruct (make_containers_ok w e' (range _ fresh) kept) as (cs' & -> & M1 & M2).
  { apply range_keys. }
  { intros id i [Hi Hn]%range_elem%Hfresh. split; [by eapply listed_running, Hlisted|].
    destruct (kept !! id) as [c|] eqn:E; [|done]. apply Hkept in E as [E _]. congruence. }
  cbn [mbind outcome_bind]. exists news, cs', e'. split; [done|]. split; [done|]. split; [done|]. intros id.
  destruct (fresh !! id) as [i|] eqn:Ef.
  { rewrite (M1 id i) by (by apply range_elem). apply Hfresh in Ef as [-> ->]. done. }
  rewrite M2.
  - destruct (kept !! id) as [c|] eqn:Ek; [apply Hkept in Ek as [-> [i ->]]; done|].
    destruct (news !! id) as [i|] eqn:Ei; [|done]. destruct (cs !! id) as [c|] eqn:Ec.
    + assert (kept !! id = Some c) by (apply Hkept; rewrite Ei; done). congruence.
    + assert (fresh !! id = Some i) by (by apply Hfresh). congruence.
  - intros ([k x] & E & Hx%range_elem)%list_elem_of_fmap. cbn in E. subst k. congruence.
Qed.

(** ** Theorems *)

(** C13: the sync is exact: for a list of pods in which every container of a running
    pod has a status with an ID of a known runtime, it succeeds; afterwards the
    table has, under every ID, nothing if no running pod lists it, the old
    container if it was there, and else what the container's specification,
    status and pod make, if that succeeds. *)
Theorem pods_sync_exact w pods cs e : pods_ok w pods ->
  exists cs' e', kubeletSyncContainers w (Some pods) (cs, e) = Ok (cs', e') /\
    forall id,
      ((forall i, ~ listed pods id i) -> cs' !! id = None) /\
      (forall i, listed pods id i ->
         match cs !! id with
         | Some c => cs' !! id = Some c
         | None => exists i', listed pods id i' /\ cs' !! id = made w e' id i'
         end).
Proof.
  intros Hok. destruct (sync_table w pods cs e Hok) as (news & cs' & e' & -> & H1 & H2 & H). exists cs', e'.
  split; [done|]. intros id. specialize (H id). split.
  - intros Hno. rewrite H. destruct (news !! id) as [i|] eqn:E; [|done]. by apply H1, Hno in E.
  - intros i Hi. destruct (H2 id i Hi) as [i' Ei]. rewrite H, Ei. destruct (cs !! id); [done|].
    exists i'. split; [by apply H1 | done].
Qed.

(** A container of a running pod without a status stops the sync: it does not
    return a table (it panics, or fails on another container before). *)
Theorem sync_needs_statuses w pods p n s r :
  p ∈ pods -> isRuningPod p = true -> n ∈ spec_containers p ->
  (forall st, st ∈ statuses p -> st_name st <> n) ->
  kubeletSyncContainers w (Some pods) s <> Ok r.
Proof.
  intros Hp Hr Hn Hno. unfold kubeletSyncContainers.
  destruct (new_containers w pods (∅, s.2)) as [[news e']| |] eqn:En; [|done..].
  apply new_containers_ok in En as (_ & _ & _ & N4). destruct (N4 p n Hp Hr Hn) as [st Hst].
  apply by_name_status in Hst as [Hin Hst]. by apply Hno in Hin.
Qed.

(** *** The table is well formed *)

Definition container_ok (k : string) (c : Container) : Prop :=
  ID c = k /\ Z.land (Type_ c) ContainerTypeAll <> 0 /\ containerQosUnknown <= Qos c.
Definition wf (cs : gmap string Container) : Prop := map_Forall container_ok cs.

Lemma type_in_all container p : Z.land (parseContainerType container p) ContainerTypeAll <> 0.
Proof. unfold parseContainerType. by repeat case_match. Qed.

Lemma made_ok w env id i c : made w env id i = Some c -> container_ok id c.
Proof.
  unfold made, kubeletUpdateContainer. intros H. repeat (case_match; try done). simplify_eq.
  split; [done|]. split; [apply type_in_all|]. cbn. unfold parseContainerQos, containerQosUnknown. by repeat case_match.
Qed.

Lemma make_containers_wf w env l : forall cs cs', wf cs -> make_containers w env l cs = Ok cs' -> wf cs'.
Proof.
  induction l as [|[id i] l IH]; intros cs cs' Hwf H; cbn [make_containers] in H; [by injection H as <-|].
  destruct (kubeletUpdateContainer w env id _ _ _) as [| |c] eqn:Eu; [by eapply IH | done | eapply IH; [|exact H]].
  apply map_Forall_insert_2; [|done]. apply (made_ok w env id i). unfold made. by rewrite Eu.
Qed.

Lemma sync_wf w pods cs e cs' e' : wf cs -> kubeletSyncContainers w pods (cs, e) = Ok (cs', e') -> wf cs'.
Proof.
  intros Hwf. unfold kubeletSyncContainers. destruct pods as [pods|]; [|by intros [= <- <-]]. cbn [fst snd].
  destruct (new_containers w pods (∅, e)) as [[news e1]| |]; [|done..]. cbn [mbind outcome_bind].
  destruct (make_containers _ _ _ _) as [cs1| |] eqn:E; [|done..]. intros [= <- <-].
  eapply make_containers_wf; [|exact E]. intros k c [Hc _]%map_lookup_filter_Some. by apply (map_Forall_lookup_1 _ _ _ _ Hwf Hc).
Qed.

(** *** Selecting *)

Lemma select_all cs : wf cs -> select ContainerTypeAll containerQosUnknown cs = cs.
Proof.
  intros Hwf. unfold select.
  assert (forall l (acc : gmap string Container), (forall k c, (k, c) ∈ l -> container_ok k c) -> NoDup l.*1 ->
    foldl (fun res kv => if (Z.land (Type_ kv.2) ContainerTypeAll =? 0) || (Qos kv.2 <? containerQosUnknown) then res
                         else <[ID kv.2 := kv.2]> res) acc l = list_to_map l ∪ acc) as H.
  { induction l as [|[k c] l IH]; intros acc Hl Hnd; cbn [foldl list_to_map foldr fst snd].
    - by rewrite (left_id_L ∅ (∪)).
    - destruct (Hl k c ltac:(by left)) as (Hid & Ht & Hq). cbn [snd].
      rewrite (proj2 (Z.eqb_neq _ _) Ht), (proj2 (Z.ltb_ge _ _) Hq), Hid. cbn [orb fmap list_fmap fst] in *.
      apply NoDup_cons in Hnd as [Hni Hnd]. rewrite IH; [|intros k' c' Hin; apply Hl; by right | done].
      rewrite <- insert_union_l, insert_union_r; [done|]. by apply not_elem_of_list_to_map_1. }
  rewrite H; [|intros k c Hin%range_elem; by apply (map_Forall_lookup_1 _ _ _ _ Hwf) | apply range_keys].
  rewrite (right_id_L ∅ (∪)). rewrite (list_to_map_proper _ (map_to_list cs)); [apply list_to_map_to_list | apply range_keys | apply range_perm].
Qed.

(** All containers are those of the table, after a sync that is due. *)
Lemma getAll_table w pods m all m' : wf (containers m) -> GetAllContainers w pods m = (Ok all, m') ->
  all = containers m' /\ wf all.
Proof.
  unfold GetAllContainers, getContainers. intros Hwf H. destruct (updatedStep <? _).
  - destruct (kubeletSyncContainers w pods (containers m, env m)) as [[cs e]| |] eqn:E; [|done..].
    apply sync_wf in E; [|done]. rewrite select_all in H by done. by injection H as <- <-.
  - rewrite select_all in H by done. by injection H as <- <-.
Qed.

Lemma find_container_unique p cs k c : cs !! k = Some c -> p c = true ->
  (forall k' c', cs !! k' = Some c' -> p c' = true -> k' = k) -> find_container p cs = Some c.
Proof.
  intros Hc Hp Hu. unfold find_container.
  assert (c ∈ filter (fun c => p c = true) (range _ cs).*2) as Hin.
  { apply list_elem_of_filter. split; [done|]. apply list_elem_of_fmap. exists (k, c). split; [done | by apply range_elem]. }
  destruct (filter _ (range _ cs).*2) as [|c' l] eqn:E; [set_solver|]. cbn.
  assert (c' ∈ filter (fun c => p c = true) (range _ cs).*2) as Hin' by (rewrite E; by left).
  apply list_elem_of_filter in Hin' as [Hp' ([k' c''] & Ec & Hr%range_elem)%list_elem_of_fmap]. cbn in Ec. subst c''.
  rewrite (Hu k' c') in Hr by done. rewrite Hc in Hr. by injection Hr as ->.
Qed.

Lemma made_name w env id i c : made w env id i = Some c -> Name c = i_container i.
Proof. unfold made, kubeletUpdateContainer. intros H. repeat (case_match; try done). by simplify_eq. Qed.
Lemma made_css w env id i c : made w env id i = Some c -> CSS c = parseContainerCSS w id.
Proof. unfold made, kubeletUpdateContainer. intros H. repeat (case_match; try done). by simplify_eq. Qed.

(** A sync that lists a container has set up the runtime. *)
Lemma add_containers_env w p l : forall acc acc', add_containers w p l acc = Ok acc' ->
  (is_Some acc.2 -> is_Some acc'.2) /\ (l <> [] -> is_Some acc'.2).
Proof.
  induction l as [|[n [st|]] l IH]; intros acc acc' H; cbn [add_containers] in H; [|..|done].
  { by injection H as <-. }
  destruct (parseContainerIDInPodStatus w acc.2 (st_id st)) as [| |id0 e]; [done..|].
  apply IH in H as [H _]. cbn [snd] in H. split; intros _; by apply H.
Qed.

Lemma sync_env w pods cs e cs' e' id i : listed pods id i ->
  kubeletSyncContainers w (Some pods) (cs, e) = Ok (cs', e') -> is_Some e'.
Proof.
  intros Hi. unfold kubeletSyncContainers. cbn [fst snd].
  assert (forall pods acc acc', new_containers w pods acc = Ok acc' ->
    (is_Some acc.2 -> is_Some acc'.2) /\ (forall id i, listed pods id i -> is_Some acc'.2)) as H.
  { clear Hi i id. intros l0. induction l0 as [|p l IH]; intros acc acc' H; cbn [new_containers] in H.
    { injection H as <-. split; [done|]. unfold listed. set_solver. }
    destruct (isRuningPod p) eqn:Ep.
    - destruct (add_containers w p _ acc) as [acc1| |] eqn:E1; [|done..]. cbn [mbind outcome_bind] in H.
      apply add_containers_env in E1 as [A1 A2]. apply IH in H as [B1 B2]. split; [auto|].
      intros id i (Hin & Hr & Hb & Hid). apply elem_of_cons in Hin as [Ei|Hin]; [|eapply B2; by split].
      apply B1, A2. intros E. assert ((i_container i, Some (i_status i)) ∈ range _ (by_name p)) as Hx
        by (apply range_elem; by rewrite <- Ei). rewrite E in Hx. set_solver.
    - apply IH in H as [B1 B2]. split; [done|]. intros id i (Hin & Hr & Hb). eapply B2. split; [|by split].
      apply elem_of_cons in Hin as [Ei|]; [|done]. rewrite Ei in Hr. congruence. }
  destruct (new_containers w pods (∅, e)) as [[news e1]| |] eqn:En; [|done..]. cbn [mbind outcome_bind].
  apply H in En as [_ En]. specialize (En id i Hi). destruct (make_containers _ _ _ _); [|done..]. by intros [= _ <-].
Qed.

(** *** The CSS of a container *)

Lemma bytes_of_inj s t : bytes_of s = bytes_of t -> s = t.
Proof.
  intros H. rewrite <- (String.string_of_list_byte_of_string s), <- (String.string_of_list_byte_of_string t).
  unfold bytes_of in H. by rewrite H.
Qed.

(** What a container's table holds comes from an entry of it. *)
Lemma css_from_entry w id sys css : parseContainerCSS w id !! sys = Some css ->
  exists m, m ∈ css_entries w /\ Cgroup.m_ContainerID m = bytes_of id /\ Cgroup.m_SubSys m = sys /\ Cgroup.m_CSS m = css.
Proof.
  revert sys css. unfold parseContainerCSS.
  apply (foldl_invariant (fun t : gmap string Z => forall sys css, t !! sys = Some css -> exists m, m ∈ css_entries w /\
    Cgroup.m_ContainerID m = bytes_of id /\ Cgroup.m_SubSys m = sys /\ Cgroup.m_CSS m = css)).
  - intros sys css. by rewrite lookup_empty.
  - intros t m [Hid Hin]%list_elem_of_filter Ht sys css. rewrite lookup_insert_Some.
    intros [[<- <-]|[_ H]]; [by exists m | by apply Ht].
Qed.

Lemma css_of_entry w id m : m ∈ css_entries w -> Cgroup.m_ContainerID m = bytes_of id ->
  (forall m', m' ∈ css_entries w -> Cgroup.m_ContainerID m' = bytes_of id -> Cgroup.m_SubSys m' = Cgroup.m_SubSys m ->
     Cgroup.m_CSS m' = Cgroup.m_CSS m) ->
  parseContainerCSS w id !! Cgroup.m_SubSys m = Some (Cgroup.m_CSS m).
Proof.
  intros Hin Hid Hu.
  assert (is_Some (parseContainerCSS w id !! Cgroup.m_SubSys m)) as [css Hc].
  { unfold parseContainerCSS.
    assert (m ∈ filter (fun m => Cgroup.m_ContainerID m = bytes_of id) (css_entries w)) as Hm by (by apply list_elem_of_filter).
    revert Hm. generalize (∅ : gmap string Z). induction (filter _ (css_entries w)) as [|m' l IH]; intros t Hm; [set_solver|].
    cbn [foldl]. apply elem_of_cons in Hm as [<-|Hm]; [|by apply IH].
    apply (foldl_invariant (fun t : gmap string Z => is_Some (t !! Cgroup.m_SubSys m))); [by rewrite lookup_insert_eq|].
    intros t' x _ H. apply lookup_insert_is_Some'. by right. }
  rewrite Hc. f_equal. apply css_from_entry in Hc as (m' & H1 & H2 & H3 & <-). by apply Hu.
Qed.

Lemma find_container_none p cs : (forall k c, cs !! k = Some c -> p c = false) -> find_container p cs = None.
Proof.
  intros H. unfold find_container. destruct (filter _ (range _ cs).*2) as [|c l] eqn:E; [done|].
  assert (c ∈ filter (fun c => p c = true) (range _ cs).*2) as Hin by (rewrite E; by left).
  apply list_elem_of_filter in Hin as [Hp ([k c'] & -> & Hk%range_elem)%list_elem_of_fmap]. cbn in Hp.
  by rewrite (H k c' Hk) in Hp.
Qed.

(** C27: the container a CSS address belongs to: at a lookup that syncs, from any
    well-formed table of containers, let the CSS table, which the BPF programs
    keep by address, name a listed container for the address, and let no other
    listed container of the old table have recorded that address. If the
    container is new, the lookup finds what its specification, status and pod
    make, if they make it, under its ID and with the name of its specification;
    if it was in the table, the lookup finds it exactly if it recorded the
    address when it was made. *)
Theorem css_names_container w pods (t : gmap Z Cgroup.containerCssMetaData) id m i mgr :
  Permutation (css_entries w) (map_to_list t).*2 -> (forall a x, t !! a = Some x -> Cgroup.m_CSS x = a) ->
  t !! Cgroup.m_CSS m = Some m -> Cgroup.m_ContainerID m = bytes_of id ->
  (forall a x, t !! a = Some x -> Cgroup.m_ContainerID x = bytes_of id -> Cgroup.m_SubSys x = Cgroup.m_SubSys m -> x = m) ->
  pods_ok w pods -> wf (containers mgr) -> updatedStep < now w - lastUpdatedAt mgr -> listed pods id i ->
  (forall k j c, listed pods k j -> containers mgr !! k = Some c -> CSS c !! Cgroup.m_SubSys m = Some (Cgroup.m_CSS m) -> k = id) ->
  exists r mgr', GetContainerByCSS w (Some pods) (Cgroup.m_CSS m) (Cgroup.m_SubSys m) mgr = (Ok r, mgr') /\
    match containers mgr !! id with
    | Some c => r = if bool_decide (CSS c !! Cgroup.m_SubSys m = Some (Cgroup.m_CSS m)) then Some c else None
    | None => exists e j, is_Some e /\ listed pods id j /\ r = made w e id j /\
                forall c, r = Some c -> ID c = id /\ Name c = i_container j
    end.
Proof.
  intros Ht Hkey Htm Hmid Hmu Hok Hwf0 Hdue Hi Hother.
  assert (forall x, x ∈ css_entries w <-> exists a, t !! a = Some x) as Hent.
  { intros x. rewrite Ht, list_elem_of_fmap. split.
    - intros ([a y] & -> & Hy%elem_of_map_to_list). by exists a.
    - intros [a Ha]. exists (a, x). split; [done | by apply elem_of_map_to_list]. }
  destruct (sync_table w pods (containers mgr) (env mgr) Hok) as (news & cs & e & E & N1 & N2 & H).
  assert (wf cs) as Hwf by (by eapply sync_wf).
  assert (forall k c', cs !! k = Some c' -> CSS c' !! Cgroup.m_SubSys m = Some (Cgroup.m_CSS m) -> k = id) as Huniq.
  { intros k c' Hk Hp. rewrite H in Hk. destruct (news !! k) as [j|] eqn:Ej; [|done].
    destruct (containers mgr !! k) as [c0|] eqn:E0; [injection Hk as ->; by eapply Hother; [apply N1|..]|].
    rewrite (made_css _ _ _ _ _ Hk) in Hp. apply css_from_entry in Hp as (m' & [a Ha]%Hent & Hm' & _ & Ec).
    pose proof (Hkey a m' Ha) as Ea. rewrite <- Ea, Ec, Htm in Ha. injection Ha as <-. rewrite Hmid in Hm'.
    symmetry. by apply bytes_of_inj. }
  unfold GetContainerByCSS, GetAllContainers, getContainers. rewrite (proj2 (Z.ltb_lt _ _) Hdue), E.
  rewrite select_all by done. cbn [mbind outcome_bind]. eexists _, _. split; [done|].
  destruct (N2 id i Hi) as [j Ej]. specialize (H id). rewrite Ej in H.
  assert (forall c, cs !! id = Some c -> find_container (fun c => bool_decide (CSS c !! Cgroup.m_SubSys m = Some (Cgroup.m_CSS m))) cs =
    if bool_decide (CSS c !! Cgroup.m_SubSys m = Some (Cgroup.m_CSS m)) then Some c else None) as Hfind.
  { intros c Hc. case_bool_decide as Hb.
    - apply (find_container_unique _ cs id c); [done | by apply bool_decide_eq_true|].
      intros k c' Hk Hp%bool_decide_eq_true. by eapply Huniq.
    - apply find_container_none. intros k c' Hk. apply bool_decide_eq_false. intros Hp. pose proof (Huniq k c' Hk Hp). subst k.
      congruence. }
  destruct (containers mgr !! id) as [c0|]; [by apply Hfind|].
  exists e, j. split; [by eapply sync_env|]. split; [by apply N1|].
  destruct (made w e id j) as [c|] eqn:Em.
  - rewrite (Hfind c H), bool_decide_eq_true_2.
    + split; [done|]. intros ? [= <-]. split; [by apply made_ok in Em as [? _] | by eapply made_name].
    + rewrite (made_css _ _ _ _ _ Em). apply css_of_entry; [apply Hent; by eexists | done|].
      intros m' [a Ha]%Hent H1 H2. by rewrite (Hmu a m' Ha H1 H2).
  - rewrite find_container_none; [done|]. intros k c' Hk. apply bool_decide_eq_false. intros Hp.
    pose proof (Huniq k c' Hk Hp). subst k. congruence.
Qed.

End Range.

(** ** Example *)

(** A running pod of one container, one that has not started, and the CSS of
    the container's cgroup. *)
Definition range0 (A : Type) (m : gmap string A) : list (string * A) := map_to_list m.
Definition st0 : ContainerStatus := mk_status "web" "containerd://c1" (Some 100).
Definition pod0 : Pod :=
  mk_pod "web-0" "u-1" "prod" "" ["StatefulSet"] ["web"] "Running" "Burstable" "10.0.0.7" [st0]%string.
Definition pod1 : Pod :=
  mk_pod "job" "u-2" "prod" "" ["ReplicaSet"] ["job"] "Pending" "Burstable" "" []%string.
Definition meta0 : Cgroup.containerCssMetaData := Cgroup.mk_meta 0xffff888000001000 "memory" 1 1 4 (bytes_of "c1").
Definition css0 : gmap Z Cgroup.containerCssMetaData := {[ 0xffff888000001000 := meta0 ]}.
Definition node0 : world :=
  mk_world (fun _ => true) (fun _ _ => Some 77) (fun _ => Some 4026531840) (Some "node"%string)
    (map_to_list css0).*2 [] "cgroupfs" 10000000000.
Definition info0 : containerInfo := mk_info "web" st0 pod0.
Definition web : Container :=
  mk_container "c1" "web" "web-0" ContainerTypeNormal containerQosBurstable "10.0.0.7" 4026531840 77
    "/kubepods/burstable/podu-1/c1" {[ "memory"%string := 0xffff888000001000 ]} 100 10000000000 [] "prod".

Lemma by_name_pod0 : by_name pod0 = {[ "web"%string := Some st0 ]}.
Proof. vm_compute. reflexivity. Qed.

Lemma pods0_ok : pods_ok node0 [pod0; pod1].
Proof.
  intros p n o Hin Hr. apply elem_of_cons in Hin as [->|Hin].
  - rewrite by_name_pod0, lookup_singleton_Some. intros [_ <-]. exists st0. split; [done|].
    exists "containerd"%string, "c1"%string. split; [vm_compute; reflexivity | vm_compute; by eexists].
  - apply list_elem_of_singleton in Hin as ->. vm_compute in Hr. discriminate.
Qed.

Lemma listed_only id i : listed [pod0; pod1] id i -> i = info0.
Proof.
  destruct i as [n st p]. intros (Hin & Hr & Hb & _). cbn in *. apply elem_of_cons in Hin as [->|Hin].
  - rewrite by_name_pod0, lookup_singleton_Some in Hb. by destruct Hb as [<- [= <-]].
  - apply list_elem_of_singleton in Hin as ->. vm_compute in Hr. discriminate.
Qed.

Lemma listed0 : listed [pod0; pod1] "c1" info0.
Proof.
  split; [by left|]. split; [vm_compute; reflexivity|]. split; [|vm_compute; reflexivity].
  cbn [i_pod i_container i_status info0]. by rewrite by_name_pod0, lookup_singleton_eq.
Qed.

Lemma pods_sync_exact_witness :
  exists cs' e', kubeletSyncContainers range0 node0 (Some [pod0; pod1]) (∅, None) = Ok (cs', e') /\
    exists i', listed [pod0; pod1] "c1" i' /\ cs' !! "c1"%string = made node0 e' "c1" i'.
Proof.
  destruct (pods_sync_exact range0 ltac:(reflexivity) node0 [pod0; pod1] ∅ None pods0_ok) as (cs' & e' & E & H).
  exists cs', e'. split; [exact E|]. exact (proj2 (H "c1"%string) info0 listed0).
Defined.

(** The table after an earlier sync that did not know the container. *)
Definition mgr2 : manager := mk_manager
  {[ "c0"%string := mk_container "c0" "old" "old-0" ContainerTypeNormal containerQosBurstable "10.0.0.6" 4026531840 66
       "/kubepods/burstable/podu-0/c0" {[ "memory"%string := 0xffff888000002000 ]} 50 0 [] "prod" ]} (Some Containerd) 0.

Lemma css_names_container_witness :
  exists mgr', GetContainerByCSS range0 node0 (Some [pod0; pod1]) 0xffff888000001000 "memory" mgr2 = (Ok (Some web), mgr').
Proof.
  destruct (css_names_container range0 ltac:(reflexivity) node0 [pod0; pod1] css0 "c1" meta0 info0 mgr2) as (r & mgr' & E & Hr).
  - reflexivity.
  - unfold css0. intros a x Hx. apply lookup_singleton_Some in Hx as [<- <-]. reflexivity.
  - apply lookup_singleton_eq.
  - reflexivity.
  - unfold css0. intros a x Hx _ _. apply lookup_singleton_Some in Hx as [_ <-]. reflexivity.
  - exact pods0_ok.
  - apply map_Forall_singleton. vm_compute. split_and!; discriminate || reflexivity.
  - reflexivity.
  - exact listed0.
  - intros k j c _ Hc Hp. unfold mgr2 in Hc. cbn [containers] in Hc. apply lookup_singleton_Some in Hc as [_ <-].
    cbn [CSS] in Hp. apply lookup_singleton_Some in Hp as [_ Hp]. vm_compute in Hp. discriminate.
  - exists mgr'. change (containers mgr2 !! "c1"%string) with (@None Container) in Hr.
    destruct Hr as (e & j & [p ->] & Hj & Er & _). rewrite (listed_only _ _ Hj) in Er.
    assert (r = Some web) as <- by (rewrite Er; destruct p; vm_compute; reflexivity). exact E.
Defined.

(** A container the sync made before its CSS entry was there is not found by
    the address as long as it stays listed. *)
Definition mgr3 : manager := mk_manager
  {[ "c1"%string := mk_container "c1" "web" "web-0" ContainerTypeNormal containerQosBurstable "10.0.0.7" 4026531840 77
       "/kubepods/burstable/podu-1/c1" ∅ 100 0 [] "prod" ]} (Some Containerd) 0.

Example late_css_is_not_found :
  css0 !! 0xffff888000001000 = Some meta0 /\
  (GetContainerByCSS range0 node0 (Some [pod0; pod1]) 0xffff888000001000 "memory" mgr3).1 = Ok None.
Proof. split; vm_compute; reflexivity. Qed.

(** The sidecar test has its arguments the other way round: a container called
    proxy is a sidecar, one called istio-proxy-v2 is not. *)
Example sidecar_by_substring :
  parseContainerType "proxy" pod0 = ContainerTypeSidecar /\ parseContainerType "istio-proxy-v2" pod0 = ContainerTypeNormal.
Proof. split; vm_compute; reflexivity. Qed.

End Pods.
