(* ===== verification/Counters.v ===== *)
(** * bpf/perf.c, bpf/memory_reclaim.c, bpf/netdev_hw.c: counting maps

    The profiler's stack counts, the direct reclaim counts per memory cgroup
    and the software drop counters per network device, with the collectors
    that read the last (core/metrics/netdev_hw.go). *)
From S2P Require Import Prelude Layout Bpf Vmlinux.
From stdpp Require Import base gmap list strings.
From Stdlib Require Import ZArith Lia.
From Stdlib.Strings Require Byte.

Open Scope Z_scope.

(** What the counting programs do with the element of [k]: add one to it, or
    make it with value 1. *)
Definition count_elem {S K} `{Countable K} (r : mapref S K Z) (k : K) : M S Z :=
  valp ← map_lookup_elem r k;
  match valp with
  | None => map_update_elem r k 1 COMPAT_BPF_ANY;; mret 0
  | Some _ => elem_store r k (fun v => u64 (v + 1));; mret 0
  end.

Module Perf.

Definition PERF_STACK_DEPTH : nat := 20.

Record key_t := mk_key {
  ustack : list byte;      (** u64 ustack[PERF_STACK_DEPTH] *)
  kstack : list byte;      (** u64 kstack[PERF_STACK_DEPTH] *)
  ustack_size : Z;
  kstack_size : Z;
  key_pid : Z;
  name : list byte
}.

Definition key_members : list member_decl :=
  ["ustack" :- Array 20 c_u64; "kstack" :- Array 20 c_u64; "ustack_size" :- c_u64;
   "kstack_size" :- c_u64; "pid" :- c_u32; "name" :- Array 16 c_char]%ctype.

(** type eventdata struct of cmd/perf/parsedata.go *)
Definition eventdata (vs : list (list byte)) : option key_t :=
  match vs with
  | [us; ks; usz; ksz; p; nm] =>
      Some (mk_key us ks (s64 (le_Z usz)) (s64 (le_Z ksz)) (le_Z p) nm)
  | _ => None
  end.

#[global] Program Instance key_wire : Wire key_t := {
  wire_members := key_members;
  wire_sizes := [160; 160; 8; 8; 4; 16]%nat;
  wire_fields r := [ustack r; kstack r; le_bytes 8 (ustack_size r); le_bytes 8 (kstack_size r);
                    le_bytes 4 (key_pid r); name r];
  wire_valid r := Z.of_nat (length (ustack r)) = 160 /\ Z.of_nat (length (kstack r)) = 160 /\
    - 2 ^ 63 <= ustack_size r < 2 ^ 63 /\ - 2 ^ 63 <= kstack_size r < 2 ^ 63 /\
    is_u 32 (key_pid r) /\ Z.of_nat (length (name r)) = 16;
  wire_parse := eventdata
}.
Next Obligation. wire_sized. Qed.
Next Obligation. wire_parse. Qed.
Next Obligation. reflexivity. Qed.
Next Obligation. reflexivity. Qed.

(** counts: the kernel hashes and compares the bytes of the key. *)
Abbreviation state := (gmap (list byte) Z).
Definition counts : mapref state (list byte) Z := mk_mapref (fun s => s) (fun m _ => m) 1024.

Section Program.
(** volatile const u64 css, pid: the filters user space sets. *)
Context (css pid : Z).

Definition sample_key (e : kenv) : key_t :=
  let '(us, usz) := get_stack e COMPAT_BPF_F_USER_STACK (8 * PERF_STACK_DEPTH) in
  let '(ks, ksz) := get_stack e 0 (8 * PERF_STACK_DEPTH) in
  mk_key us ks (s64 usz) (s64 ksz) (u32 (Z.shiftr (cur_pid_tgid e) 32)) (cur_comm e).

Definition perf_event_sw_cpu_clock : M state Z :=
  curr ← asks cur_task;
  cpu_css ← asks (fun e => core_read_subsys e curr cpu_cgrp_id);
  if negb (css =? 0) && negb (css =? cpu_css) then mret 0
  else
    tgid ← asks (fun e => Z.shiftr (cur_pid_tgid e) 32);
    if negb (pid =? 0) && negb (pid =? tgid) then mret 0
    else
      key ← asks (fun e => wire_encode (sample_key e));
      count_elem counts key.

Definition exec (l : list kenv) (s : state) : state :=
  fst (run_all (map (fun e => (e, perf_event_sw_cpu_clock)) l) s).

(** ** Reference *)

(** The samples of the selected cgroup and process. *)
Definition selected (e : kenv) : bool :=
  ((css =? 0) || (css =? core_read_subsys e (cur_task e) cpu_cgrp_id)) &&
  ((pid =? 0) || (pid =? Z.shiftr (cur_pid_tgid e) 32)).

Fixpoint samples (k : list byte) (l : list kenv) : Z :=
  match l with
  | [] => 0
  | e :: l' =>
      (if selected e && bool_decide (wire_encode (sample_key e) = k) then 1 else 0) + samples k l'
  end.
End Program.
End Perf.

Module MemoryReclaim.

(** linux/sched.h *)
Definition PF_KSWAPD : Z := 0x00020000.

(** mem_cgroup_map: struct mem_cgroup_metric has the one counter. *)
Abbreviation state := (gmap Z Z).
Definition mem_cgroup_map : mapref state Z Z := mk_mapref (fun s => s) (fun m _ => m) 10240.

Definition tracepoint_vmscan_mm_vmscan_memcg_reclaim_begin : M state Z :=
  task ← asks cur_task;
  flags ← asks (fun e => core_read e 4 task task_flags);
  if negb (Z.land flags PF_KSWAPD =? 0) then mret 0
  else
    mm_subsys ← asks (fun e => core_read_subsys e task memory_cgrp_id);
    count_elem mem_cgroup_map mm_subsys.

Definition kprobe_mem_cgroup_css_released (arg : Z) : M state Z :=
  map_delete_elem mem_cgroup_map (u64 arg);; mret 0.

Inductive hook := ReclaimBegin | Released (css : Z).
Definition prog (h : hook) : M state Z :=
  match h with
  | ReclaimBegin => tracepoint_vmscan_mm_vmscan_memcg_reclaim_begin
  | Released css => kprobe_mem_cgroup_css_released css
  end.
Definition exec (l : list (kenv * hook)) (s : state) : state :=
  fst (run_all (map (fun '(e, h) => (e, prog h)) l) s).

(** ** Reference *)

(** The memory cgroup a direct reclaim of the current task is charged to;
    none for kswapd. *)
Definition stalled (e : kenv) : option Z :=
  if Z.land (core_read e 4 (cur_task e) task_flags) PF_KSWAPD =? 0
  then Some (core_read_subsys e (cur_task e) memory_cgrp_id) else None.

(** Direct reclaims of cgroup [k] since its CSS was last released. *)
Definition observe (k : Z) (n : Z) (i : kenv * hook) : Z :=
  match i with
  | (e, ReclaimBegin) => if decide (stalled e = Some k) then n + 1 else n
  | (_, Released css) => if u64 css =? k then 0 else n
  end.
Definition stalls (k : Z) (l : list (kenv * hook)) : Z := fold_left (observe k) l 0.

(** The cgroups that stalled. *)
Fixpoint seen (l : list (kenv * hook)) : gset Z :=
  match l with
  | [] => ∅
  | (e, ReclaimBegin) :: l' => match stalled e with Some k => {[k]} ∪ seen l' | None => seen l' end
  | _ :: l' => seen l'
  end.
End MemoryReclaim.

Module NetdevHw.

(** rx_sw_dropped_stats *)
Abbreviation state := (gmap Z Z).
Definition rx_sw_dropped_stats : mapref state Z Z := mk_mapref (fun s => s) (fun m _ => m) 64.

(** container_of(dev, struct net_device, dev) *)
Definition netdev_of (e : kenv) (dev : Z) : Z := u64 (dev - koff e netdev_dev).

Definition carrier_down_count_show (dev : Z) : M state Z :=
  netdev ← asks (fun e => netdev_of e dev);
  key ← asks (fun e => core_read e 4 netdev netdev_ifindex);
  value ← asks (fun e => core_read e 8 netdev netdev_rx_dropped_counter);
  map_update_elem rx_sw_dropped_stats key value COMPAT_BPF_ANY;;
  mret 0.

Definition exec (l : list (kenv * Z)) (s : state) : state :=
  fst (run_all (map (fun '(e, dev) => (e, carrier_down_count_show dev)) l) s).

(** The last value shown for an interface. *)
Definition observe (k : Z) (v : option Z) (i : kenv * Z) : option Z :=
  let '(e, dev) := i in
  let netdev := netdev_of e dev in
  if core_read e 4 netdev netdev_ifindex =? k
  then Some (core_read e 8 netdev netdev_rx_dropped_counter) else v.
Definition last_shown (k : Z) (l : list (kenv * Z)) : option Z := fold_left (observe k) l None.

(** ** core/metrics/netdev_hw.go *)
Section Collector.
(** net.InterfaceByIndex and the counters under /sys/class/net; the interfaces
    the collector reports. *)
Context (InterfaceByIndex : Z -> option string).
Context (ifaceList : list string).

(** The loop of updateIfaceSwDropCounter over the dumped items: whether it
    ended without an error of InterfaceByIndex, and the counters it leaves. *)
Fixpoint updateIfaceSwDropCounter (items : list (Z * Z)) (sw : gmap string Z) : bool * gmap string Z :=
  match items with
  | [] => (true, sw)
  | (ifidx, counter) :: items' =>
      match InterfaceByIndex ifidx with
      | None => (false, sw)
      | Some name =>
          updateIfaceSwDropCounter items'
            (match sw !! name with Some _ => <[name := counter]> sw | None => sw end)
      end
  end.

(** The value Update gives the metric of an interface, from the counters
    [readStat] reads. *)
Definition rx_dropped_value (readStat : string -> string -> Z) (sw : gmap string Z) (iface : string) : Z :=
  let count := readStat iface "rx_missed_errors"%string in
  if count =? 0 then
    match sw !! iface with
    | Some n => u64 (readStat iface "rx_dropped"%string - n)
    | None => count
    end
  else count.

(** One Update while the tracer runs: the metrics, or an error, and the
    counters kept. *)
Definition Update (readStat : string -> string -> Z) (items : list (Z * Z)) (sw : gmap string Z)
    : option (list Z) * gmap string Z :=
  let '(ok, sw') := updateIfaceSwDropCounter items sw in
  (if (ok : bool) then Some (map (rx_dropped_value readStat sw') ifaceList) else None, sw').

(** A collector as newNetdevHw makes it, after updates from the given reads. *)
Fixpoint updates (l : list ((string -> string -> Z) * list (Z * Z))) (sw : gmap string Z)
    : list (option (list Z)) :=
  match l with
  | [] => []
  | (rs, items) :: l' => let '(r, sw') := Update rs items sw in r :: updates l' sw'
  end.
End Collector.
End NetdevHw.

(** ** Lemmas *)

(** [count_elem] on the map of an object that has no other state. *)
Definition counted {K} `{Countable K} (max : Z) (k : K) (m : gmap K Z) : gmap K Z :=
  match m !! k with
  | Some v => <[k := u64 (v + 1)]> m
  | None => if Z.of_nat (size m) <? max then <[k := 1]> m else m
  end.

Lemma count_elem_run {K} `{Countable K} max (k : K) e m :
  run (count_elem (mk_mapref (fun s => s) (fun m _ => m) max) k) e m = (counted max k m, []).
Proof.
  unfold count_elem, counted. run_simpl. destruct (m !! k) as [v|] eqn:E.
  - by rewrite (alter_Some _ _ _ _ E).
  - rewrite hash_update_any, E. rewrite bool_decide_eq_false_2 by (by intros []). cbn [orb].
    by destruct (_ <? max).
Qed.

Lemma counted_elem_size {K} `{Countable K} max (k : K) m :
  (size m <= size (counted max k m))%nat /\
  (Z.of_nat (size m) <= max -> Z.of_nat (size (counted max k m)) <= max).
Proof.
  unfold counted. destruct (m !! k) as [v|] eqn:E.
  - by rewrite map_size_insert_Some by eauto.
  - case_if; [|done]. rewrite map_size_insert_None by done. lia.
Qed.

(** The map holds the number [n] of events of each key it has room for. *)
Definition counts_ok {K} `{Countable K} (max : Z) (n : K -> Z) (m : gmap K Z) : Prop :=
  forall k, match m !! k with
            | Some v => v = u64 (n k)
            | None => n k = 0 \/ max <= Z.of_nat (size m)
            end.

Lemma counts_ok_step {K} `{Countable K} max (n : K -> Z) k m :
  counts_ok max n m ->
  counts_ok max (fun k' => n k' + if decide (k = k') then 1 else 0) (counted max k m).
Proof.
  intros Hm k'. pose proof (Hm k) as Hk. pose proof (Hm k') as Hk'.
  pose proof (proj1 (counted_elem_size max k m)) as Hs. unfold counted in *.
  destruct (m !! k) as [v|] eqn:E; [|case_if].
  - rewrite lookup_insert. case_decide; [|destruct (m !! k'); rewrite ?Z.add_0_r; [done|]].
    + subst. by rewrite u64_add_l.
    + destruct Hk'; [by left|right]. lia.
  - rewrite lookup_insert. case_decide; [|destruct (m !! k'); rewrite ?Z.add_0_r; [done|]].
    + subst. destruct Hk as [->|]; [done|lia].
    + destruct Hk'; [by left|right]. lia.
  - destruct (m !! k') eqn:E'; [|by right].
    rewrite decide_False, Z.add_0_r by congruence. done.
Qed.

Lemma perf_run css pid e s :
  fst (run (Perf.perf_event_sw_cpu_clock css pid) e s) =
    if Perf.selected css pid e then counted 1024 (wire_encode (Perf.sample_key e)) s else s.
Proof.
  unfold Perf.perf_event_sw_cpu_clock, Perf.selected. rewrite !run_asks.
  destruct (css =? 0), (css =? core_read_subsys e (cur_task e) cpu_cgrp_id); cbn [negb andb orb];
    try done; rewrite run_asks;
    (destruct (pid =? 0), (pid =? Z.shiftr (cur_pid_tgid e) 32); cbn [negb andb orb]; try done);
    rewrite run_asks; unfold Perf.counts; by rewrite count_elem_run.
Qed.

Lemma perf_exec css pid l n s :
  counts_ok 1024 n s ->
  counts_ok 1024 (fun k => n k + Perf.samples css pid k l) (Perf.exec css pid l s).
Proof.
  unfold Perf.exec. revert n s. induction l as [|e l IH]; intros n s Hs.
  { intros k. cbn [Perf.samples map run_all fst]. rewrite Z.add_0_r. apply Hs. }
  cbn [map]. rewrite run_all_cons_st, perf_run. intros k. cbn [Perf.samples].
  destruct (Perf.selected css pid e); cbn [andb].
  - pose proof (IH _ _ (counts_ok_step 1024 n (wire_encode (Perf.sample_key e)) s Hs) k) as H. cbv beta in H.
    rewrite <- Z.add_assoc in H. case_bool_decide; case_decide; done.
  - specialize (IH n s Hs k). by rewrite Z.add_0_l.
Qed.

(** Every key is that of a selected interrupt. *)
Lemma perf_exec_keys css pid l k :
  is_Some (Perf.exec css pid l ∅ !! k) ->
  exists e, e ∈ l /\ Perf.selected css pid e = true /\ k = wire_encode (Perf.sample_key e).
Proof.
  assert (forall s, is_Some (Perf.exec css pid l s !! k) -> is_Some (s !! k) \/
    exists e, e ∈ l /\ Perf.selected css pid e = true /\ k = wire_encode (Perf.sample_key e)) as H.
  { unfold Perf.exec. induction l as [|e l IH]; intros s; [by left|]. cbn [map]. rewrite run_all_cons_st, perf_run.
    intros [Hs|(e' & Hin & He')]%IH; [|right; exists e'; set_solver].
    destruct (Perf.selected css pid e) eqn:Es; [|by left]. unfold counted in Hs.
    destruct (decide (k = wire_encode (Perf.sample_key e))) as [->|Hne]; [right; exists e; set_solver|]. left.
    destruct (s !! wire_encode _); [by rewrite lookup_insert_ne in Hs|].
    destruct (_ <? _); [by rewrite lookup_insert_ne in Hs | done]. }
  intros [Hs|He]%H; [|done]. rewrite lookup_empty in Hs. by apply is_Some_None in Hs.
Qed.

(** While there is room, each selected interrupt is one more in the sum. *)
Lemma counted_sum {K} `{Countable K} max B (k : K) (m : gmap K Z) :
  (m !! k = None -> Z.of_nat (size m) < max) -> map_Forall (fun _ v => 0 <= v <= B) m -> 0 <= B < 2 ^ 64 - 1 ->
  map_sum (fun v => v) (counted max k m) = map_sum (fun v => v) m + 1 /\
  map_Forall (fun _ v => 0 <= v <= B + 1) (counted max k m).
Proof.
  intros Hroom Hm HB. assert (map_Forall (fun _ v => 0 <= v <= B + 1) m) as Hm'
    by (eapply map_Forall_impl; [exact Hm|]; cbn; lia).
  unfold counted. destruct (m !! k) as [v|] eqn:E.
  - pose proof (map_Forall_lookup_1 _ _ _ _ Hm E) as Hv. cbn in Hv.
    rewrite (map_sum_insert_old _ m k _ v E), u64_small by (unfold is_u; lia).
    split; [lia|]. apply map_Forall_insert_2; [lia | done].
  - destruct (Z.ltb_spec (Z.of_nat (size m)) max); [|specialize (Hroom eq_refl); lia].
    rewrite map_sum_insert_new by done. split; [lia|]. apply map_Forall_insert_2; [lia | done].
Qed.

Lemma perf_exec_grows css pid l : forall s, (size s <= size (Perf.exec css pid l s))%nat.
Proof.
  unfold Perf.exec. induction l as [|e l IH]; intros s; [done|]. cbn [map]. rewrite run_all_cons_st, perf_run.
  destruct (Perf.selected css pid e); [|apply IH].
  pose proof (proj1 (counted_elem_size 1024 (wire_encode (Perf.sample_key e)) s)).
  specialize (IH (counted 1024 (wire_encode (Perf.sample_key e)) s)). lia.
Qed.

(** The selected interrupts. *)
Definition hits (css pid : Z) (l : list kenv) : list kenv := List.filter (Perf.selected css pid) l.

Lemma perf_exec_sum css pid l : forall s B,
  Z.of_nat (size (Perf.exec css pid l s)) < 1024 -> map_Forall (fun _ v => 0 <= v <= B) s -> 0 <= B ->
  B + Z.of_nat (length l) < 2 ^ 64 ->
  map_sum (fun v => v) (Perf.exec css pid l s) = map_sum (fun v => v) s + Z.of_nat (length (hits css pid l)).
Proof.
  induction l as [|e l IH]; intros s B Hsz Hs HB Hlt; [cbn; lia|].
  unfold Perf.exec, hits in *. cbn [map List.filter] in *. rewrite run_all_cons_st, perf_run in *. cbn [length] in Hlt.
  destruct (Perf.selected css pid e); [|apply (IH s B); [done.. | lia]].
  set (k := wire_encode (Perf.sample_key e)) in *.
  assert (Z.of_nat (size s) < 1024) as Hroom.
  { pose proof (proj1 (counted_elem_size 1024 k s)). pose proof (perf_exec_grows css pid l (counted 1024 k s)) as Hg.
    unfold Perf.exec in Hg. lia. }
  destruct (counted_sum 1024 B k s) as [Hsum Hall]; [done | done | lia |].
  rewrite (IH _ (B + 1)), Hsum; [cbn [length]; lia | done | done | lia | lia].
Qed.

Lemma perf_exec_size css pid l s :
  Z.of_nat (size s) <= 1024 -> Z.of_nat (size (Perf.exec css pid l s)) <= 1024.
Proof.
  intros Hs. apply (run_all_inv (fun s => Z.of_nat (size s) <= 1024)); [done|].
  apply Forall_map, Forall_true. intros e s' Hs'. rewrite perf_run.
  destruct (Perf.selected css pid e); [|done]. by apply counted_elem_size.
Qed.

Lemma sample_key_valid e : kenv_ok e -> wire_valid (Perf.sample_key e).
Proof.
  intros He. unfold Perf.sample_key.
  pose proof (ok_stack e He COMPAT_BPF_F_USER_STACK (8 * Perf.PERF_STACK_DEPTH)) as Hu.
  pose proof (ok_stack e He 0 (8 * Perf.PERF_STACK_DEPTH)) as Hk.
  destruct (get_stack e COMPAT_BPF_F_USER_STACK _) as [us usz], (get_stack e 0 _) as [ks ksz].
  cbn [fst] in *.
  cbn [wire_valid Perf.key_wire Perf.ustack Perf.kstack Perf.ustack_size Perf.kstack_size
       Perf.key_pid Perf.name].
  rewrite Hu, Hk, (ok_comm e He). split_and!; try done; (apply s64_range || apply u32_range).
Qed.

(** *** memory_reclaim.c *)

Lemma reclaim_run e s :
  fst (run MemoryReclaim.tracepoint_vmscan_mm_vmscan_memcg_reclaim_begin e s) =
    match MemoryReclaim.stalled e with Some k => counted 10240 k s | None => s end.
Proof.
  unfold MemoryReclaim.tracepoint_vmscan_mm_vmscan_memcg_reclaim_begin, MemoryReclaim.stalled.
  rewrite !run_asks. destruct (_ =? 0); cbn [negb]; [|done].
  rewrite run_asks. unfold MemoryReclaim.mem_cgroup_map. by rewrite count_elem_run.
Qed.

Lemma released_run e s css :
  fst (run (MemoryReclaim.kprobe_mem_cgroup_css_released css) e s) = delete (u64 css) s.
Proof.
  unfold MemoryReclaim.kprobe_mem_cgroup_css_released. run_simpl.
  rewrite <- (hash_delete_eq (u64 css) s). cbn [MemoryReclaim.mem_cgroup_map mget mset].
  by destruct (hash_delete _ _).
Qed.

(** The counts of the cgroups in the map; with room left, those of all. *)
Definition stalls_ok (n : Z -> Z) (s : MemoryReclaim.state) : Prop :=
  forall k, 0 <= n k /\ s !! k = if n k =? 0 then None else Some (u64 (n k)).

Lemma stalls_ok_step n s e h :
  stalls_ok n s ->
  (forall k, h = MemoryReclaim.ReclaimBegin -> MemoryReclaim.stalled e = Some k -> n k = 0 ->
     Z.of_nat (size s) < 10240) ->
  stalls_ok (fun k => MemoryReclaim.observe k (n k) (e, h)) (fst (run (MemoryReclaim.prog h) e s)).
Proof.
  intros Hs Hroom k. destruct (Hs k) as [Hn Hk]. destruct h as [|css]; cbn [MemoryReclaim.prog MemoryReclaim.observe].
  - rewrite reclaim_run. destruct (MemoryReclaim.stalled e) as [k'|]; [|rewrite decide_False by done; done].
    unfold counted. destruct (Hs k') as [Hn' Hk']. rewrite Hk'.
    destruct (Z.eqb_spec (n k') 0) as [E|E].
    + rewrite (proj2 (Z.ltb_lt _ _)) by (by apply (Hroom k')).
      rewrite lookup_insert. case_decide; case_decide; simplify_eq; try done.
      split; [lia|]. by rewrite E.
    + rewrite lookup_insert. case_decide; case_decide; simplify_eq; try done.
      split; [lia|]. rewrite (proj2 (Z.eqb_neq _ _)) by lia. by rewrite u64_add_l.
  - rewrite released_run, lookup_delete. case_decide; case_if; simplify_eq; try done.
Qed.

(** A key outside the map leaves room in a set that has both. *)
Lemma room_left (s : MemoryReclaim.state) (X : gset Z) k :
  dom s ⊆ X -> k ∈ X -> s !! k = None -> (size s < size X)%nat.
Proof.
  intros Hs Hk Hn. rewrite <- size_dom. apply subset_size. split; [done|].
  intros H. apply not_elem_of_dom in Hn. by apply Hn, H.
Qed.

Lemma reclaim_dom e h s (X : gset Z) :
  dom s ⊆ X -> MemoryReclaim.seen [(e, h)] ⊆ X -> dom (fst (run (MemoryReclaim.prog h) e s)) ⊆ X.
Proof.
  intros Hd Hl. destruct h as [|css]; cbn [MemoryReclaim.prog MemoryReclaim.seen] in *.
  - rewrite reclaim_run. destruct (MemoryReclaim.stalled e) as [k|]; [|done]. unfold counted.
    destruct (s !! k); [|case_if; [|done]]; rewrite dom_insert; set_solver.
  - rewrite released_run, dom_delete. set_solver.
Qed.

Lemma seen_cons i l : MemoryReclaim.seen (i :: l) = MemoryReclaim.seen [i] ∪ MemoryReclaim.seen l.
Proof.
  destruct i as [e [|css]]; cbn [MemoryReclaim.seen]; [destruct (MemoryReclaim.stalled e)|]; set_solver.
Qed.

Lemma reclaim_exec l n s (X : gset Z) :
  stalls_ok n s -> dom s ⊆ X -> MemoryReclaim.seen l ⊆ X -> Z.of_nat (size X) <= 10240 ->
  stalls_ok (fun k => fold_left (MemoryReclaim.observe k) l (n k)) (MemoryReclaim.exec l s).
Proof.
  intros Hs Hd Hl HX. unfold MemoryReclaim.exec. revert n s Hs Hd Hl.
  induction l as [|[e h] l IH]; intros n s Hs Hd Hl; [done|].
  rewrite seen_cons in Hl. cbn [map fold_left]. rewrite run_all_cons_st.
  apply (IH (fun k => MemoryReclaim.observe k (n k) (e, h))).
  - apply stalls_ok_step; [done|]. intros k -> Hk Hn.
    assert (k ∈ X) by (apply Hl; cbn [MemoryReclaim.seen]; rewrite Hk; set_solver).
    destruct (Hs k) as [_ Hsk]. rewrite Hn in Hsk. pose proof (room_left s X k Hd H Hsk). lia.
  - apply reclaim_dom; [done|set_solver].
  - set_solver.
Qed.

(** *** netdev_hw.c *)

Lemma carrier_run e dev s :
  fst (run (NetdevHw.carrier_down_count_show dev) e s) =
    (hash_update 64 (core_read e 4 (NetdevHw.netdev_of e dev) netdev_ifindex)
       (core_read e 8 (NetdevHw.netdev_of e dev) netdev_rx_dropped_counter) COMPAT_BPF_ANY s).2.
Proof.
  unfold NetdevHw.carrier_down_count_show. rewrite !run_asks. run_simpl.
  cbn [NetdevHw.rx_sw_dropped_stats mget mset mmax]. by destruct (hash_update _ _ _ _ _).
Qed.

(** The map holds the last value shown for each interface it has room for. *)
Definition shown_ok (v : Z -> option Z) (s : NetdevHw.state) : Prop :=
  Z.of_nat (size s) <= 64 /\
  forall k, s !! k = v k \/ (s !! k = None /\ Z.of_nat (size s) = 64).

Lemma shown_ok_step v s e dev :
  shown_ok v s ->
  shown_ok (fun k => NetdevHw.observe k (v k) (e, dev))
    (fst (run (NetdevHw.carrier_down_count_show dev) e s)).
Proof.
  intros [Hsz Hs]. rewrite carrier_run. split; [by apply hash_update_size|].
  intros k. unfold NetdevHw.observe. set (key := core_read e 4 _ _). set (val := core_read e 8 _ _).
  rewrite hash_update_any. destruct (bool_decide_reflect (is_Some (s !! key))) as [Hk|Hk]; cbn [orb].
  - cbn [snd]. rewrite lookup_insert, map_size_insert_Some by done.
    destruct (Z.eqb_spec key k); case_decide; simplify_eq; auto.
  - case_if; cbn [snd].
    + rewrite lookup_insert. destruct (Z.eqb_spec key k); case_decide; simplify_eq; auto.
      destruct (Hs k) as [->|[-> ?]]; [by left|lia].
    + destruct (Z.eqb_spec key k) as [<-|]; [|apply Hs]. right.
      split; [by apply eq_None_not_Some | lia].
Qed.

Lemma shown_exec l v s :
  shown_ok v s ->
  shown_ok (fun k => fold_left (NetdevHw.observe k) l (v k)) (NetdevHw.exec l s).
Proof.
  unfold NetdevHw.exec. revert v s. induction l as [|[e dev] l IH]; intros v s Hs; [done|].
  cbn [map fold_left]. rewrite run_all_cons_st.
  by apply (IH (fun k => NetdevHw.observe k (v k) (e, dev))), shown_ok_step.
Qed.

(** The collector's counters stay as [make(map[string]uint64)] made them. *)
Lemma update_empty ibi items : NetdevHw.updateIfaceSwDropCounter ibi items ∅ =
  (forallb (fun '(i, _) => bool_decide (is_Some (ibi i))) items, ∅).
Proof.
  induction items as [|[i c] items IH]; cbn [NetdevHw.updateIfaceSwDropCounter forallb]; [done|].
  destruct (ibi i) as [nm|]; [|done]. rewrite lookup_empty, IH. done.
Qed.

(** ** Theorems *)

(** Perf.c counts samples.  After any sequence of clock interrupts the
    element of a stack key is, modulo 2^64, the number of interrupts that hit the
    selected cgroup and process with that key; a key has no element only if it
    was never sampled or the 1024 entries are taken, and they are never
    exceeded. *)
Theorem perf_counts_samples css pid l :
  let s := Perf.exec css pid l ∅ in
  Z.of_nat (size s) <= 1024 /\
  forall k, match s !! k with
            | Some v => v = u64 (Perf.samples css pid k l)
            | None => Perf.samples css pid k l = 0 \/ Z.of_nat (size s) = 1024
            end.
Proof.
  intros s. assert (Z.of_nat (size s) <= 1024) as Hsz.
  { apply perf_exec_size. rewrite map_size_empty. lia. }
  split; [done|]. intros k.
  assert (counts_ok 1024 (fun _ : list byte => 0) (∅ : gmap (list byte) Z)) as H0.
  { intros k'. rewrite lookup_empty. by left. }
  pose proof (perf_exec css pid l _ _ H0 k) as H. cbv beta in H. rewrite Z.add_0_l in H.
  fold s in H. destruct (s !! k); [done|]. destruct H; [by left | right; lia].
Qed.

(** The stack keys decode.  In an environment the helpers can produce, the
    bytes of a key, its 4 bytes of padding included, decode into eventdata of
    cmd/perf with every member unchanged. *)
Theorem perf_key_roundtrip e :
  kenv_ok e -> wire_decode (wire_encode (Perf.sample_key e)) = Some (Perf.sample_key e).
Proof.
  intros He. rewrite <- (app_nil_r (wire_encode _)).
  by apply wire_decode_encode, sample_key_valid.
Qed.

Lemma perf_key_roundtrip_witness :
  wire_decode (wire_encode (Perf.sample_key (example_env 5 0x700000009 1))) =
    Some (Perf.sample_key (example_env 5 0x700000009 1)).
Proof. apply perf_key_roundtrip, example_env_ok; unfold is_u; lia. Defined.

(** Memory_reclaim.c counts the direct reclaims of each memory cgroup since
    its CSS was last released.  As long as at most 10240 cgroups stall, a cgroup
    has an element exactly when that number is not zero, and the element is the
    number modulo 2^64; reclaims by kswapd are not counted. *)
Theorem memory_reclaim_counts l k :
  Z.of_nat (size (MemoryReclaim.seen l)) <= 10240 ->
  MemoryReclaim.exec l ∅ !! k =
    if MemoryReclaim.stalls k l =? 0 then None else Some (u64 (MemoryReclaim.stalls k l)).
Proof.
  intros Hl. assert (stalls_ok (fun _ => 0) ∅) as H0 by (intros k'; by rewrite lookup_empty).
  destruct (reclaim_exec l _ _ (MemoryReclaim.seen l) H0) with k as [_ H]; try done; set_solver.
Qed.

(** A task of cgroup 0x5000 whose flags are [flags]. *)
Definition stall_env (flags : Z) : kenv :=
  vmlinux_env (mk_kenv (fun _ => 0) 0 0 [] 1000 (fun _ => None) (fun _ => 0) (fun _ => false)
                 (fun _ _ => ([], 0)))
    [(1000, struct_bytes Vmlinux.task_struct
        [(["flags"%string], le_bytes 4 flags); (["cgroups"%string], le_bytes 8 20000)]);
     (20000, struct_bytes Vmlinux.css_set [(["subsys"%string], word_bytes [0; 0; 0; 0; 0x5000])])].

Lemma memory_reclaim_counts_witness :
  MemoryReclaim.exec
    [(stall_env 0, MemoryReclaim.ReclaimBegin); (stall_env 0, MemoryReclaim.Released 0x5000);
     (stall_env 0, MemoryReclaim.ReclaimBegin); (stall_env 0x20000, MemoryReclaim.ReclaimBegin);
     (stall_env 0x400, MemoryReclaim.ReclaimBegin)] ∅ !! 0x5000 = Some 2.
Proof.
  rewrite memory_reclaim_counts; [vm_compute; reflexivity | vm_compute; discriminate].
Defined.

(** Netdev_hw.c keeps the latest drop counter of each interface.  After any
    sequence of reads of [carrier_down_count], the element of an interface index
    is the [rx_dropped] value at its last read, unless the map holds 64 other
    interfaces; the map never grows beyond 64. *)
Theorem netdev_last_value l k :
  let s := NetdevHw.exec l ∅ in
  Z.of_nat (size s) <= 64 /\
  (s !! k = NetdevHw.last_shown k l \/ (s !! k = None /\ Z.of_nat (size s) = 64)).
Proof.
  assert (shown_ok (fun _ => None) ∅) as H0.
  { split; [rewrite map_size_empty; lia|]. intros k'. left. apply lookup_empty. }
  destruct (shown_exec l _ _ H0) as [Hsz Hs]. split; [done|apply Hs].
Qed.

(** The software drop counters are never used.  A collector as newNetdevHw
    makes it has an empty [ifaceSwDropCounters], and updateIfaceSwDropCounter
    only overwrites keys that are already there: whatever the BPF map holds,
    every later Update that succeeds reports [rx_missed_errors] alone, also where
    it is 0 and the drops should be [rx_dropped] minus the software drops. *)
Theorem netdev_sw_drops_never_used ibi ifaces l :
  NetdevHw.updates ibi ifaces l ∅ =
    map (fun '(readStat, items) =>
      if forallb (fun '(i, _) => bool_decide (is_Some (ibi i))) items
      then Some (map (fun iface => readStat iface "rx_missed_errors"%string) ifaces)
      else None) l.
Proof.
  induction l as [|[rs items] l IH]; cbn [NetdevHw.updates map]; [done|].
  unfold NetdevHw.Update. rewrite update_empty, IH. f_equal. case_match; [|done].
  f_equal. apply map_ext. intros iface. unfold NetdevHw.rx_dropped_value.
  rewrite lookup_empty. by case_if.
Qed.
