(* ===== verification/PerfData.v ===== *)
(** * cmd/perf/parsedata.go: from the counts of perf.c to the flame graph

    [parsedata] decodes the stack keys and counts of the BPF map, names the
    frames of every stack, kernel addresses with Symbol, user addresses with
    Usym, and hands the samples, as indices into one table of names, to the
    profile library, whose levels become the rows of the flame graph.

    The profile library (pyroscope's merger and flame graph) is a parameter. *)
From S2P Require Import Prelude Text Layout Bpf Counters Symbol NetCollect Flamegraph Usym.
From stdpp Require Import base gmap list strings sorting.
From Stdlib Require Import ZArith Lia Ascii Strings.Byte.

Open Scope Z_scope.

Module PerfData.
Import Symbol.Symbol.

Definition perfStackDepth : nat := 20.

(** ingestv1.StacktraceSample *)
Record sample := mk_sample { FunctionIds : list Z; Value : Z }.
Record FrameData := mk_frame_data { Level : Z; Count : Z; Self : Z; Label : string }.

(** ** Names *)

Fixpoint index_of (strA : string) (b : list string) : option nat :=
  match b with
  | [] => None
  | strB :: b' => if bool_decide (strA = strB) then Some 0%nat else S <$> index_of strA b'
  end.
Definition findOrAdd (strA : string) (b : list string) : nat * list string :=
  match index_of strA b with
  | Some idxB => (idxB, b)
  | None => (length b, b ++ [strA])
  end.

(** The function IDs of frames, added to the table. *)
Fixpoint add_frames (frames names : list string) : list Z * list string :=
  match frames with
  | [] => ([], names)
  | v :: frames' =>
      let (index, names) := findOrAdd v names in
      let (ids, names) := add_frames frames' names in (s32 (Z.of_nat index) :: ids, names)
  end.

(** ** The loop over the stacks *)

Section Parse.
(** ksymbolCache, sort.Slice, and the files of the processes. *)
Context (cache : list symbol) (sort : forall A, (A -> Z) -> list A -> list A) (w : Usym.world).

(** [None] is a panic, here and below. *)
Definition CgDumpTrace (addrs : list Z) : option string :=
  DropwatchGo.Join <$> DumpKernelBackTrace cache addrs perfStackDepth.

Definition kernel_frames (key : Perf.key_t) : option (list string) :=
  if 0 <? Perf.kstack_size key then
    kernelStack ← CgDumpTrace (words perfStackDepth (Perf.kstack key));
    Some ((fun v => v +:+ "_[k]") <$>
            filter (fun v => v <> EmptyString) (DropwatchGo.Split kernelStack))
  else Some [].

Fixpoint resolve_stack (pid : Z) (stack : list Z) (u : Usym.Usym) : option (list string * Usym.Usym) :=
  match stack with
  | [] => Some ([], u)
  | addr :: stack' =>
      if addr =? 0 then Some ([], u)
      else match Usym.ResolveUstack sort w u addr pid with
           | Usym.Panic => None
           | Usym.Done u usym =>
               '(rest, u) ← resolve_stack pid stack' u;
               Some (if bool_decide (usym = EmptyString) then rest else usym :: rest, u)
           end
  end.
Definition user_frames (key : Perf.key_t) (u : Usym.Usym) : option (list string * Usym.Usym) :=
  if 0 <? Perf.ustack_size key then resolve_stack (Perf.key_pid key) (words perfStackDepth (Perf.ustack key)) u
  else Some ([], u).

Definition title (key : Perf.key_t) : string := string_of_bytes (trim_zeros (Perf.name key)).

Fixpoint stacktraces (kvs : list (Perf.key_t * Z)) (u : Usym.Usym) (names : list string)
    : option (list sample * list string) :=
  match kvs with
  | [] => Some ([], names)
  | (key, count) :: kvs' =>
      ks ← kernel_frames key;
      '(us, u) ← user_frames key u;
      let (ids, names) := add_frames (ks ++ us ++ [title key]) names in
      '(rest, names) ← stacktraces kvs' u names;
      Some (mk_sample ids (s64 count) :: rest, names)
  end.

(** An item of the map; [None] is the error of binary.Read. *)
Definition decode_item (item : list byte * list byte) : option (Perf.key_t * Z) :=
  ed ← wire_decode item.1;
  if Nat.ltb (length item.2) 8 then None else Some (ed, le_Z (take 8 item.2)).

(** The samples and their names. *)
Inductive parsed := DecodeError | ParsePanic | Samples (l : list sample) (functionNames : list string).
Definition parse_items (items : list (list byte * list byte)) : parsed :=
  match mapM decode_item items with
  | None => DecodeError
  | Some kvs =>
      match stacktraces (sort _ snd kvs) Usym.NewUsym [] with
      | None => ParsePanic
      | Some (l, names) => Samples l names
      end
  end.

(** ** The flame graph *)

(** The profile library: the levels and names of the samples, or an error. *)
Context (flame : list sample -> list string -> option (list (list Z) * list string)).
(** The order in which the label map is walked. *)
Context (order : gmap string Z -> list (string * Z)).

Inductive outcome := Error | Panicked | Printed (l : list FrameData).

(** The rows of a frame. *)
Definition zip_rows (levels values selfs : list Z) (labels : list string) : list FrameData :=
  zip_with (fun lv sl => mk_frame_data lv.1 lv.2 sl.1 sl.2) (zip levels values) (zip selfs labels).
Definition flame_data (f : Flamegraph.frame) : outcome :=
  let keys := Flamegraph.GetField_text (order (Flamegraph.valuesMap (Flamegraph.labelField f))) in
  match mapM (fun number => keys !! Z.to_nat number) (Flamegraph.field (Flamegraph.labelField f)) with
  | None => Panicked
  | Some labelarr =>
      let DataSize := length (Flamegraph.levelField f) in
      if Nat.eqb (length (Flamegraph.valueField f)) DataSize && Nat.eqb (length (Flamegraph.selfField f)) DataSize &&
         Nat.eqb (length labelarr) DataSize
      then Printed (zip_rows (Flamegraph.levelField f) (Flamegraph.valueField f) (Flamegraph.selfField f) labelarr)
      else Error
  end.

Definition parsedata (items : option (list (list byte * list byte))) : outcome :=
  match items with
  | None => Error
  | Some items =>
      match parse_items items with
      | DecodeError => Error
      | ParsePanic => Panicked
      | Samples l names =>
          match flame l names with
          | None => Error
          | Some (levels, flame_names) =>
              match Flamegraph.LevelsToTree levels flame_names with
              | Flamegraph.Panic => Panicked
              | Flamegraph.Nil => flame_data (Flamegraph.TreeToNestedSetDataFrame None)
              | Flamegraph.Tree t => flame_data (Flamegraph.TreeToNestedSetDataFrame (Some t))
              end
          end
      end
  end.

End Parse.

(** ** Lemmas *)

Lemma index_of_Some s b i : index_of s b = Some i -> b !! i = Some s.
Proof.
  revert i. induction b as [|x b IH]; intros i; cbn; [done|]. case_bool_decide as E.
  - intros [= <-]. by rewrite E.
  - intros [j [Ej ->]]%fmap_Some. by apply IH.
Qed.
Lemma index_of_None s b : index_of s b = None -> s ∉ b.
Proof.
  induction b as [|x b IH]; cbn; [intros _; apply not_elem_of_nil|]. case_bool_decide; [done|].
  intros Hn%fmap_None. apply not_elem_of_cons. auto.
Qed.

(** A name is found at its index, the table only grows, and has no name twice. *)
Lemma findOrAdd_ok s b i b' : findOrAdd s b = (i, b') -> NoDup b ->
  b' !! i = Some s /\ b `prefix_of` b' /\ NoDup b'.
Proof.
  unfold findOrAdd. intros E Hnd. destruct (index_of s b) as [j|] eqn:Ei; injection E as <- <-.
  - split; [by apply index_of_Some | by split].
  - split; [by apply list_lookup_middle|]. split; [by eexists|]. apply NoDup_app. split; [done|].
    split; [|apply NoDup_singleton]. intros x Hx ->%list_elem_of_singleton. by apply (index_of_None s b).
Qed.

(** The ID's frame in a table. *)
Definition frame_of (names : list string) (id : Z) : option string := names !! Z.to_nat id.

Lemma add_frames_ok frames : forall names ids names',
  add_frames frames names = (ids, names') -> NoDup names ->
  names `prefix_of` names' /\ NoDup names' /\
  forall final, names' `prefix_of` final -> Z.of_nat (length final) < 2 ^ 31 ->
    frame_of final <$> ids = Some <$> frames.
Proof.
  induction frames as [|v frames IH]; intros names ids names' E Hnd; cbn [add_frames] in E.
  { injection E as <- <-. done. }
  destruct (findOrAdd v names) as [i names1] eqn:E1. apply findOrAdd_ok in E1 as (Hi & Hp1 & Hnd1); [|done].
  destruct (add_frames frames names1) as [ids2 names2] eqn:E2. apply IH in E2 as (Hp2 & Hnd2 & Hf); [|done].
  injection E as <- <-. split; [by etransitivity|]. split; [done|]. intros final Hp Hlt.
  rewrite !fmap_cons, Hf by done. f_equal.
  assert (final !! i = Some v) as Hv by (apply (prefix_lookup_Some names1); [done | by etransitivity]).
  apply lookup_lt_Some in Hv as Hlen. unfold frame_of.
  assert (s32 (Z.of_nat i) = Z.of_nat i) as -> by (unfold s32; rewrite Z.mod_small by lia; lia).
  by rewrite Nat2Z.id.
Qed.

Definition total (l : list Z) : Z := foldr Z.add 0 l.
Lemma total_perm l l' : Permutation l l' -> total l = total l'.
Proof. unfold total. induction 1; cbn [foldr]; lia. Qed.

Lemma samples_bound css pid k l : 0 <= Perf.samples css pid k l <= Z.of_nat (length l).
Proof. induction l as [|e l IH]; cbn [Perf.samples length]; [lia|]. destruct (_ && _); lia. Qed.

(** What an item of the dumped map decodes to. *)
Definition no_key : Perf.key_t := Perf.mk_key [] [] 0 0 0 [].
Definition key_of (k : list byte) : Perf.key_t := default no_key (wire_decode k).
Definition dump (kv : list byte * Z) : list byte * list byte := (kv.1, le_bytes 8 kv.2).
Definition entry (kv : list byte * Z) : Perf.key_t * Z := (key_of kv.1, kv.2).

Lemma decode_items kvs :
  Forall (fun kv => is_Some (wire_decode (E := Perf.key_t) kv.1) /\ is_u 64 kv.2) kvs ->
  mapM decode_item (dump <$> kvs) = Some (entry <$> kvs).
Proof.
  induction 1 as [|[k v] kvs [[key Hk] Hv] _ IH]; [done|]. rewrite !fmap_cons. cbn [mapM].
  assert (decode_item (dump (k, v)) = Some (entry (k, v))) as ->.
  { unfold decode_item, dump, entry, key_of. cbn [fst snd] in *. rewrite Hk. cbn [mbind option_bind default from_option id].
    rewrite length_le_bytes. cbn [Nat.ltb Nat.leb]. rewrite take_ge by (rewrite length_le_bytes; lia).
    by rewrite le_Z_le_bytes_small by exact Hv. }
  cbn [mbind option_bind]. rewrite IH. done.
Qed.

Section ParseLemmas.
Context (cache : list symbol) (sort : forall A, (A -> Z) -> list A -> list A) (w : Usym.world).
Hypothesis sort_sorted : forall A (key : A -> Z) l, StronglySorted (Usym.by_key key) (sort A key l).
Hypothesis sort_perm : forall A (key : A -> Z) l, Permutation (sort A key l) l.
(** A cache as loadKAllSymbols leaves it, and ranges with a dash in the maps. *)
Hypothesis cache_room : Z.of_nat (length cache) < ksymbolMax.
Hypothesis maps_ok : forall pid, Usym.read_elf sort w pid <> inr false.

(** The reference: the frames of a key, each user address resolved on its own. *)
Fixpoint ref_stack (pid : Z) (stack : list Z) : list string :=
  match stack with
  | [] => []
  | addr :: stack' =>
      if addr =? 0 then []
      else match Usym.ref_resolve sort w addr pid with
           | Some usym => if bool_decide (usym = EmptyString) then ref_stack pid stack' else usym :: ref_stack pid stack'
           | None => []
           end
  end.
Definition ref_frames (key : Perf.key_t) : list string :=
  default [] (kernel_frames cache key) ++
  (if 0 <? Perf.ustack_size key then ref_stack (Perf.key_pid key) (words perfStackDepth (Perf.ustack key)) else []) ++
  [title key].

Lemma back_trace_total addrs : exists l, back_trace cache addrs = Some l.
Proof.
  induction addrs as [|a addrs [l IH]]; [by eexists|]. cbn [back_trace].
  destruct (ksymbolSearch_total cache a cache_room) as [s ->]. cbn [mbind option_bind]. rewrite IH. by eexists.
Qed.

Lemma kernel_frames_total key : exists l, kernel_frames cache key = Some l.
Proof.
  unfold kernel_frames, CgDumpTrace, DumpKernelBackTrace. destruct (0 <? _); [|by eexists].
  destruct (back_trace_total (stack_addrs (words perfStackDepth (Perf.kstack key)) perfStackDepth)) as [l ->]. by eexists.
Qed.

Lemma resolve_stack_ref pid stack : forall u, Usym.cached sort w u ->
  exists u', resolve_stack sort w pid stack u = Some (ref_stack pid stack, u') /\ Usym.cached sort w u'.
Proof.
  induction stack as [|a stack IH]; intros u Hu; cbn [resolve_stack ref_stack]; [by eexists|].
  destruct (a =? 0); [by eexists|].
  pose proof (Usym.ResolveUstack_ref sort sort_sorted w u a pid Hu) as Hr.
  pose proof (Usym.ResolveUstack_total sort w u a pid (maps_ok pid)) as Ht.
  destruct (Usym.ResolveUstack sort w u a pid) as [u1 s|]; [|done]. destruct Hr as [-> Hu1].
  destruct (IH u1 Hu1) as (u2 & -> & Hu2). cbn [mbind option_bind]. exists u2. split; [|done]. by destruct (bool_decide _).
Qed.

Lemma user_frames_ref key u : Usym.cached sort w u ->
  exists u', user_frames sort w key u =
    Some (if 0 <? Perf.ustack_size key then ref_stack (Perf.key_pid key) (words perfStackDepth (Perf.ustack key)) else [], u') /\
    Usym.cached sort w u'.
Proof.
  intros Hu. unfold user_frames. destruct (0 <? _); [by apply resolve_stack_ref | by eexists].
Qed.

(** The loop: one sample per key, whose IDs read back as the key's frames. *)
Lemma stacktraces_ok kvs : forall u names, Usym.cached sort w u -> NoDup names ->
  exists l names', stacktraces cache sort w kvs u names = Some (l, names') /\
    names `prefix_of` names' /\ NoDup names' /\
    Value <$> l = (fun kv => s64 kv.2) <$> kvs /\
    forall final, names' `prefix_of` final -> Z.of_nat (length final) < 2 ^ 31 ->
      (fun s => frame_of final <$> FunctionIds s) <$> l = (fun kv => Some <$> ref_frames kv.1) <$> kvs.
Proof.
  induction kvs as [|[key n] kvs IH]; intros u names Hu Hnd; cbn [stacktraces]; [by eexists _, _|].
  destruct (kernel_frames_total key) as [ks Ek]. destruct (user_frames_ref key u Hu) as (u1 & Eu & Hu1).
  assert (ref_frames key = ks ++ (if 0 <? Perf.ustack_size key
    then ref_stack (Perf.key_pid key) (words perfStackDepth (Perf.ustack key)) else []) ++ [title key]) as Er.
  { unfold ref_frames. by rewrite Ek. }
  rewrite Ek, Eu. cbn [mbind option_bind]. rewrite <- Er.
  destruct (add_frames (ref_frames key) names) as [ids names1] eqn:E1.
  apply add_frames_ok in E1 as (Hp1 & Hnd1 & Hf1); [|done].
  destruct (IH u1 names1 Hu1 Hnd1) as (l & names2 & -> & Hp2 & Hnd2 & Hv & Hf2). cbn [mbind option_bind].
  eexists _, _. split; [reflexivity|]. split; [by etransitivity|]. split; [done|].
  split; [rewrite !fmap_cons, Hv; done|]. intros final Hp Hlt. rewrite !fmap_cons, Hf2 by done.
  cbn [FunctionIds fst]. rewrite Hf1; [done | by etransitivity | done].
Qed.

(** ** Theorems *)

Section Program.
Context (css pid : Z) (l : list kenv).
Let s := Perf.exec css pid l ∅.
Hypothesis envs_ok : Forall kenv_ok l.
Hypothesis room : Z.of_nat (size s) < 1024.
Hypothesis short : Z.of_nat (length l) < 2 ^ 63.

Lemma count_of k v : s !! k = Some v -> v = Perf.samples css pid k l /\ 0 <= v < 2 ^ 63.
Proof.
  intros Hk. assert (counts_ok 1024 (fun _ : list byte => 0) (∅ : gmap (list byte) Z)) as H0.
  { intros k'. rewrite lookup_empty. by left. }
  pose proof (perf_exec css pid l _ _ H0 k) as H. cbv beta in H. rewrite Z.add_0_l in H. fold s in H. rewrite Hk in H.
  pose proof (samples_bound css pid k l). rewrite u64_small in H by (unfold is_u; lia). lia.
Qed.

Lemma sampled e : e ∈ l -> Perf.selected css pid e = true -> is_Some (s !! wire_encode (Perf.sample_key e)).
Proof.
  intros Hin Hsel. assert (counts_ok 1024 (fun _ : list byte => 0) (∅ : gmap (list byte) Z)) as H0.
  { intros k'. rewrite lookup_empty. by left. }
  pose proof (perf_exec css pid l _ _ H0 (wire_encode (Perf.sample_key e))) as H. cbv beta in H.
  rewrite Z.add_0_l in H. fold s in H. destruct (s !! _); [by eexists|].
  destruct H as [H|]; [|lia]. exfalso. clear -Hin Hsel H. induction l as [|e' l' IH]; [set_solver|].
  cbn [Perf.samples] in H. pose proof (samples_bound css pid (wire_encode (Perf.sample_key e)) l').
  apply elem_of_cons in Hin as [<-|Hin].
  - rewrite Hsel, bool_decide_true in H by done. cbn [andb] in H. lia.
  - apply IH; [done|]. destruct (_ && _); lia.
Qed.

Lemma key_of_sample e : e ∈ l -> key_of (wire_encode (Perf.sample_key e)) = Perf.sample_key e.
Proof.
  intros Hin. unfold key_of. rewrite perf_key_roundtrip; [done|]. by eapply Forall_forall in envs_ok.
Qed.

Lemma entries_ok : Forall (fun kv => is_Some (wire_decode (E := Perf.key_t) kv.1) /\ is_u 64 kv.2) (map_to_list s).
Proof.
  apply Forall_forall. intros [k v] Hin%elem_of_map_to_list. cbn [fst snd].
  destruct (perf_exec_keys css pid l k) as (e & He & _ & ->); [by exists v|].
  pose proof (count_of _ _ Hin) as [_ Hv]. split; [|unfold is_u; lia].
  rewrite perf_key_roundtrip; [by eexists|]. by eapply Forall_forall in envs_ok.
Qed.

Lemma values_total : total ((fun kv => s64 kv.2) <$> map_to_list s) = Z.of_nat (length (hits css pid l)).
Proof.
  assert (map_sum (fun v => v) s = Z.of_nat (length (hits css pid l))) as <-.
  { unfold s. rewrite (perf_exec_sum css pid l ∅ 0); [by rewrite map_sum_empty | done | apply map_Forall_empty | lia | lia]. }
  unfold map_sum. rewrite map_fold_foldr. pose proof count_of as Hc.
  assert (forall kv, kv ∈ map_to_list s -> 0 <= kv.2 < 2 ^ 63) as Hv.
  { intros [k v] Hin%elem_of_map_to_list. by apply (Hc k v). }
  induction (map_to_list s) as [|kv kvs IH]; [done|]. rewrite fmap_cons. cbn [total foldr].
  pose proof (Hv kv ltac:(by left)). rewrite s64_small by lia. unfold total in IH.
  rewrite IH by (intros; apply Hv; by right). by destruct kv.
Qed.

(** C9: from the interrupts to the samples: whatever order the map is dumped in,
    with fewer than 1024 different stacks the parser succeeds; the values of
    the samples add up to the number of selected clock interrupts; no name is
    twice in the table; and every selected interrupt has a sample, whose
    function IDs read back as the frames of its stack (kernel, user and
    command names, each user address resolved on its own) and whose value is
    the number of interrupts with that stack. *)
Theorem perf_end_to_end items :
  Permutation items (dump <$> map_to_list s) ->
  exists samples names,
    parse_items cache sort w items = Samples samples names /\ NoDup names /\
    total (Value <$> samples) = Z.of_nat (length (hits css pid l)) /\
    (Z.of_nat (length names) < 2 ^ 31 -> forall e, e ∈ l -> Perf.selected css pid e = true ->
       exists smp, smp ∈ samples /\
         frame_of names <$> FunctionIds smp = Some <$> ref_frames (Perf.sample_key e) /\
         Value smp = Perf.samples css pid (wire_encode (Perf.sample_key e)) l).
Proof.
  intros Hp. destruct (Permutation_map_inv _ _ Hp) as (kvs & -> & Hkvs).
  assert (mapM decode_item (dump <$> kvs) = Some (entry <$> kvs)) as Hd.
  { apply decode_items. rewrite <- Hkvs. apply entries_ok. }
  unfold parse_items. change (map dump kvs) with (dump <$> kvs). rewrite Hd.
  pose proof (sort_perm _ snd (entry <$> kvs)) as Hsort. set (sorted := sort _ snd (entry <$> kvs)) in *.
  destruct (stacktraces_ok sorted Usym.NewUsym []) as (l' & names & -> & _ & Hnd & Hv & Hf).
  { split; intros ? ? H0; cbn in H0; by rewrite lookup_empty in H0. }
  { constructor. }
  eexists _, _. split; [reflexivity|]. split; [done|]. split.
  { rewrite Hv, <- values_total. apply total_perm. rewrite Hsort, <- Hkvs, <- list_fmap_compose. done. }
  intros Hlt e Hin Hsel. destruct (sampled e Hin Hsel) as [v Ev]. destruct (count_of _ _ Ev) as [Ec Hb].
  assert ((Perf.sample_key e, v) ∈ sorted) as [i Hi]%list_elem_of_lookup_1.
  { rewrite Hsort, <- Hkvs. apply list_elem_of_fmap. exists (wire_encode (Perf.sample_key e), v).
    split; [unfold entry; cbn [fst snd]; by rewrite key_of_sample | by apply elem_of_map_to_list]. }
  specialize (Hf names ltac:(done) Hlt).
  assert ((Value <$> l') !! i = Some (s64 v)) as Hvi by (rewrite Hv, list_lookup_fmap, Hi; done).
  rewrite list_lookup_fmap in Hvi. destruct (l' !! i) as [smp|] eqn:Es; [|done]. injection Hvi as Hvi.
  apply (f_equal (fun x => x !! i)) in Hf. rewrite !list_lookup_fmap, Es, Hi in Hf. injection Hf as Hfi.
  exists smp. split; [by eapply list_elem_of_lookup_2|].
  split; [exact Hfi|]. rewrite Hvi, s64_small by lia. done.
Qed.

End Program.

(** The rows of the flame graph: where the profile library gives levels that
    make a tree, of fewer than 65535 names, one row per bar of the tree, depth
    first, with the name of the bar. *)
Theorem perf_flame_rows flame order items samples names levels fnames t :
  (forall m, Permutation (order m) (map_to_list m)) ->
  parse_items cache sort w items = Samples samples names -> flame samples names = Some (levels, fnames) ->
  Flamegraph.LevelsToTree levels fnames = Flamegraph.Tree t ->
  Z.of_nat (size (Flamegraph.valuesMap (Flamegraph.labelField (Flamegraph.TreeToNestedSetDataFrame (Some t))))) < 2 ^ 16 - 1 ->
  parsedata cache sort w flame order (Some items) =
  Printed ((fun b => mk_frame_data (Flamegraph.Level b) (Flamegraph.Value b) (Flamegraph.Self b) (Flamegraph.Name b))
             <$> Flamegraph.preorder t).
Proof.
  intros Ho Hp Hfl Ht Hlt. unfold parsedata. rewrite Hp, Hfl, Ht.
  destruct (Flamegraph.nested_set_rows t _ Hlt (Ho _)) as (Hl & Hv & Hs & Hn). unfold flame_data.
  set (keys := Flamegraph.GetField_text _) in *. set (fld := Flamegraph.field _) in *.
  assert (mapM (fun number => keys !! Z.to_nat number) fld = Some (Flamegraph.Name <$> Flamegraph.preorder t)) as ->.
  { apply mapM_Some_2. clear -Hn. remember (Flamegraph.Name <$> Flamegraph.preorder t) as ns eqn:E. clear E.
    revert ns Hn. induction fld as [|v fld IH]; intros [|n ns] Hn; try done. cbn in Hn. injection Hn as H1 H2.
    constructor; [done | by apply IH]. }
  rewrite Hl, Hv, Hs. rewrite !length_fmap, !Nat.eqb_refl. cbn [andb]. f_equal. unfold zip_rows.
  clear. induction (Flamegraph.preorder t) as [|b bs IH]; [done|]. cbn. f_equal. exact IH.
Qed.

End ParseLemmas.

(** ** Example *)

(** Interrupts of process 42 of Usym's example, with a kernel and two user
    addresses, and one of another process without stacks. *)
Definition stack_of (ws : list Z) (n : nat) : list byte * Z :=
  (take n (word_bytes ws ++ replicate n Byte.x00), 8 * Z.of_nat (length ws)).
Definition env0 : kenv :=
  mk_kenv (fun _ => 0) (42 * 2 ^ 32 + 42) 0 (take 16 ([Byte.x61; Byte.x70; Byte.x70] ++ replicate 16 Byte.x00)) 0
    (fun _ => None) (fun _ => 0) (fun _ => false)
    (fun flags n => if flags =? COMPAT_BPF_F_USER_STACK then stack_of [0x7f0000000205; 0x7f0000000105] n
                    else stack_of [0xffffffff81000005] n).
Definition interrupts0 : list kenv := [env0; example_env 0 7 0; env0].
Definition cache0 : list symbol := [defaultSymbol; mk_symbol 0xffffffff81000000 "entry" "[kernel]"].

Lemma env0_ok : kenv_ok env0.
Proof.
  constructor; [intros; cbn; unfold is_u; lia.. | reflexivity |]. intros flags n. cbn.
  destruct (_ =? _); cbn [stack_of fst]; rewrite length_take, length_app, length_replicate; lia.
Qed.

Lemma maps_ok0 pid : Usym.read_elf Usym.by_start Usym.world0 pid <> inr false.
Proof.
  unfold Usym.read_elf, Usym.getExePath. cbn [Usym.readlink Usym.world0]. case_bool_decide as E; [|done].
  assert (forall f, Usym.proc pid f = Usym.proc 42 f) as Hp.
  { intros f. unfold Usym.proc in *. by injection E as ->. }
  unfold Usym.in_root. rewrite !Hp. vm_compute. discriminate.
Qed.

Definition items0 : list (list byte * list byte) := dump <$> map_to_list (Perf.exec 0 0 interrupts0 ∅).

Lemma perf_end_to_end_witness :
  exists samples names, parse_items cache0 Usym.by_start Usym.world0 items0 = Samples samples names /\
    total (Value <$> samples) = 3 /\
    exists smp, smp ∈ samples /\ Value smp = 2 /\
      frame_of names <$> FunctionIds smp =
        Some <$> ["entry/ffffffff81000000 [kernel]_[k]"; "read"; "open"; "app"]%string.
Proof.
  destruct (perf_end_to_end cache0 Usym.by_start Usym.world0 Usym.by_start_sorted
    ltac:(intros; apply merge_sort_Permutation) ltac:(reflexivity) maps_ok0 0 0 interrupts0
    ltac:(repeat (constructor; [first [exact env0_ok | apply example_env_ok; unfold is_u; lia]|]); constructor)
    ltac:(vm_compute; reflexivity) ltac:(vm_compute; reflexivity) items0 ltac:(reflexivity))
    as (samples & names & E & _ & Ht & Hs).
  exists samples, names. split; [exact E|]. split; [exact Ht|].
  assert (Z.of_nat (length names) < 2 ^ 31) as Hn by (vm_compute in E; injection E as _ <-; reflexivity).
  destruct (Hs Hn env0 ltac:(by left) ltac:(reflexivity)) as (smp & Hin & Hf & Hv).
  exists smp. split; [exact Hin|]. split; [rewrite Hv; vm_compute; reflexivity|].
  rewrite Hf. vm_compute. reflexivity.
Defined.

End PerfData.
