(* ===== verification/Notify.v ===== *)
(** * bpf/oom.c, bpf/softlockup.c, bpf/hungtask.c, bpf/lacp.c: notifications

    The programs that submit one small record per kernel event, two of them
    through the limiter in a map, the decoding of the records and the
    accounting of OOM kills by core/events/oom.go. *)
From S2P Require Import Prelude Backoff Layout Bpf Vmlinux Ratelimit Limited PerfReader Cgroup.
From stdpp Require Import base gmap list strings.
From Stdlib Require Import ZArith Lia.
From Stdlib.Strings Require Byte.

Open Scope Z_scope.

(** BPF_CORE_READ_STR_INTO(&dst, p, f) with a destination of [n] bytes that
    was zero before. *)
Definition core_read_str (e : kenv) (n : nat) (p : Z) (f : field) : list byte :=
  snd (probe_read_str e n (p + koff e f)).

(** BPF_RATELIMIT_IN_MAP(rate, 1, COMPAT_CPU_NUM * 10000, 0) of oom.c and
    softlockup.c. *)
Definition rate_cfg : bpf_ratelimit := BPF_RATELIMIT_IN_MAP 1 (COMPAT_CPU_NUM * 10000) 0.
Definition event_bpf_rlimit_rate : string := "event_bpf_rlimit_rate".
Definition bpf_ratelimited_in_map : M (list bpf_ratelimit) bool :=
  bpf_ratelimited_core_in_map self_ptr event_bpf_rlimit_rate rate_cfg.

(** The budget of one window, as a natural number. *)
Definition rate_burst : nat := Z.to_nat (COMPAT_CPU_NUM * 10000).

Lemma rate_burst_Z : Z.of_nat rate_burst = COMPAT_CPU_NUM * 10000.
Proof. apply Z2Nat.id. unfold COMPAT_CPU_NUM. lia. Qed.
#[global] Opaque rate_burst.

Lemma rate_burst_bounds : (0 < rate_burst)%nat /\ Z.of_nat rate_burst < 2 ^ 64.
Proof. pose proof rate_burst_Z. unfold COMPAT_CPU_NUM in *. lia. Qed.

(** A program that returns when it is limited and else submits [out]. *)
Lemma in_map_then e r (k : bool -> M (list bpf_ratelimit) Z) out :
  (forall w, k true e w = (0, w)) ->
  (forall w, k false e w = (0, W (w_st w) (w_clk w) (w_out w ++ out))) ->
  run (bpf_ratelimited_in_map ≫= k) e [r] =
    let '((b, nb), r') := in_map_at rate_cfg (sec e) r in
    ([r'], (if (nb : bool) then [(event_bpf_rlimit_rate, encode_ratelimit r')] else []) ++
           (if (b : bool) then [] else out)).
Proof.
  intros Ht Hf. unfold run, mbind, M_bind, bpf_ratelimited_in_map. rewrite in_map_eq by done.
  destruct (in_map_at rate_cfg (sec e) r) as [[[] nb] r']; rewrite ?Ht, ?Hf; cbn [snd w_st w_out];
    by rewrite ?app_nil_r.
Qed.

(** The limited trace of a program over the limiter's map, from load time. *)
Lemma rate_events_spec {H} (prog : H -> M (list bpf_ratelimit) Z)
    `{!InMapReporter prog event_bpf_rlimit_rate rate_cfg} l :
  clock_ok 1 1 (asking_secs im_asks l) ->
  im_events prog event_bpf_rlimit_rate l rlimit_map_init =
    mjoin ((fun '(e, h) => im_out e h) <$>
      granted_calls im_asks
        (spec_answers 1 rate_burst (asking_secs im_asks l)) l).
Proof.
  intros Hc. pose proof rate_burst_bounds as [Hb1 Hb2].
  rewrite <- im_reports_granted.
  apply (im_events_spec prog _ rate_cfg); [lia | exact Hb1 | exact Hb2 | reflexivity | | exact Hc].
  rewrite rate_burst_Z. reflexivity.
Qed.

Lemma length_core_read_str e n p f : (0 < n)%nat -> length (core_read_str e n p f) = n.
Proof. intros Hn. unfold core_read_str. by apply length_probe_read_str. Qed.

Module Oom.

Record oom_info := mk_info {
  trigger_comm : list byte;
  victim_comm : list byte;
  trigger_pid : Z;
  victim_pid : Z;
  trigger_memcg_css : Z;
  victim_memcg_css : Z
}.

Definition oom_members : list member_decl :=
  ["trigger_comm" :- Array 16 c_char; "victim_comm" :- Array 16 c_char; "trigger_pid" :- c_u32;
   "victim_pid" :- c_u32; "trigger_memcg_css" :- c_u64; "victim_memcg_css" :- c_u64]%ctype.

(** type perfEventData struct: the collector reads the pids as int32. *)
Definition perfEventData (vs : list (list byte)) : option oom_info :=
  match vs with
  | [tc; vc; tp; vp; tm; vm] =>
      Some (mk_info tc vc (s32 (le_Z tp)) (s32 (le_Z vp)) (le_Z tm) (le_Z vm))
  | _ => None
  end.

#[global] Program Instance info_wire : Wire oom_info := {
  wire_members := oom_members;
  wire_sizes := [16; 16; 4; 4; 8; 8]%nat;
  wire_fields r := [trigger_comm r; victim_comm r; le_bytes 4 (trigger_pid r); le_bytes 4 (victim_pid r);
                    le_bytes 8 (trigger_memcg_css r); le_bytes 8 (victim_memcg_css r)];
  wire_valid r := Z.of_nat (length (trigger_comm r)) = 16 /\ Z.of_nat (length (victim_comm r)) = 16 /\
    - 2 ^ 31 <= trigger_pid r < 2 ^ 31 /\ - 2 ^ 31 <= victim_pid r < 2 ^ 31 /\
    is_u 64 (trigger_memcg_css r) /\ is_u 64 (victim_memcg_css r);
  wire_parse := perfEventData
}.
Next Obligation. wire_sized. Qed.
Next Obligation. wire_parse. Qed.
Next Obligation. reflexivity. Qed.
Next Obligation. reflexivity. Qed.

Definition oom_perf_events : string := "oom_perf_events".

(** The record of an OOM kill. *)
Definition oom_fill (e : kenv) (oc : Z) : oom_info :=
  let trigger_task := cur_task e in
  let victim_task := core_read e 8 oc oom_chosen in
  mk_info (core_read_str e COMPAT_TASK_COMM_LEN trigger_task task_comm)
    (core_read_str e COMPAT_TASK_COMM_LEN victim_task task_comm)
    (core_read e 4 trigger_task task_pid) (core_read e 4 victim_task task_pid)
    (core_read_subsys e trigger_task memory_cgrp_id) (core_read_subsys e victim_task memory_cgrp_id).

(** [oc] is ctx->di. *)
Definition kprobe_oom_kill_process (oc : Z) : M (list bpf_ratelimit) Z :=
  limited ← bpf_ratelimited_in_map;
  if (limited : bool) then mret 0
  else if oc =? 0 then mret 0
  else
    info ← asks (fun e => oom_fill e oc);
    bpf_perf_event_output oom_perf_events (wire_encode info);;
    mret 0.

(** *** core/events/oom.go *)

Record oomMetric := mk_metric { count : Z; victimProcessName : list byte }.

(** hostOOMCounter and containerOOMCounter *)
Record counters := mk_counters { hostOOMCounter : Z; containerOOMCounter : gmap string oomMetric }.
Definition init : counters := mk_counters 0 ∅.

(** The fields of pod.Container that are used. *)
Record container := mk_container { ct_ID : string; ct_Hostname : string }.

(** The addresses are kept as numbers, the collector formats them. *)
Record OOMTracingData := mk_case {
  TriggerMemcgCSS : Z; TriggerContainerID : string; TriggerContainerHostname : string;
  TriggerPid : Z; TriggerProcessName : list byte;
  VictimMemcgCSS : Z; VictimContainerID : string; VictimContainerHostname : string;
  VictimPid : Z; VictimProcessName : list byte
}.

(** [m[k]] of a Go map of strings: the empty string if absent. *)
Definition go_index (m : gmap Z string) (k : Z) : string := default EmptyString (m !! k).
Definition is_empty (s : string) : bool := bool_decide (s = EmptyString).

(** A float64 that holds a whole number, incremented: from 2^53 on the sum
    rounds back to the operand. *)
Definition float_incr (x : Z) : Z := if x <? 2 ^ 53 then x + 1 else x.

Definition or_unknown (h : string) : string := if is_empty h then "unknown" else h.
Definition comma : byte := byte_of_Z 44.

(** The container identifier and host name reported for [id]; [None] is the
    run-time panic of the field of a container [cts] does not have. *)
Definition names (cts : gmap string container) (id : string) : option (string * string) :=
  if is_empty id then Some ("None", "Non-Container Cgroup")%string
  else match cts !! id with
       | Some ct => Some (id, or_unknown (ct_Hostname ct))
       | None => None
       end.

(** The counters after a kill in container [id]. *)
Definition bump (cts : gmap string container) (id : string) (name : list byte) (s : counters)
    : option counters :=
  if is_empty id then Some (mk_counters (float_incr (hostOOMCounter s)) (containerOOMCounter s))
  else match cts !! id with
       | Some ct =>
           Some (mk_counters (hostOOMCounter s)
             (<[ct_ID ct :=
                match containerOOMCounter s !! ct_ID ct with
                | Some val => mk_metric (s64 (count val + 1)) (victimProcessName val ++ comma :: name)
                | None => mk_metric 1 name
                end]> (containerOOMCounter s)))
       | None => None
       end.

(** How the loop body of Start ends: the next turn with the counters and the
    report saved, a return, or the panic. *)
Inductive handled := Continue (s : counters) (saved : list OOMTracingData) | Returns | Panics.

(** The loop body for a decoded event, with the answers of GetCSSToContainerID
    and GetAllContainers, where [None] is an error: the first is skipped over,
    the second is returned. *)
Definition handle (cssToCtMap : option (gmap Z string)) (cts : option (gmap string container))
    (data : oom_info) (s : counters) : handled :=
  match cssToCtMap with
  | None => Continue s []
  | Some m =>
      match cts with
      | None => Returns
      | Some cs =>
          let tid := go_index m (trigger_memcg_css data) in
          let vid := go_index m (victim_memcg_css data) in
          let tname := Cgroup.trim_right_nul (trigger_comm data) in
          let vname := Cgroup.trim_right_nul (victim_comm data) in
          match names cs tid, bump cs vid vname s, names cs vid with
          | Some (tid', thost), Some s', Some (vid', vhost) =>
              Continue s' [mk_case (trigger_memcg_css data) tid' thost (trigger_pid data) tname
                             (victim_memcg_css data) vid' vhost (victim_pid data) vname]
          | _, _, _ => Panics
          end
      end
  end.

(** Update(): the host's counter, and for every container listed its counter
    and the processes; the containers' counters start again. *)
Definition Update (containers : option (list container)) (s : counters)
    : counters * option (Z * list (string * Z * list byte)) :=
  match containers with
  | None => (s, None)
  | Some cs =>
      (mk_counters (hostOOMCounter s) ∅,
       Some (hostOOMCounter s,
             omap (fun c => match containerOOMCounter s !! ct_ID c with
                            | Some val => Some (ct_ID c, count val, victimProcessName val)
                            | None => None
                            end) cs))
  end.

(** One Start: the counters and the reports until it returns, panics ([None]),
    or waits for more events. *)
Record answers := mk_answers { a_css : option (gmap Z string); a_cts : option (gmap string container); a_data : oom_info }.
Fixpoint Start (evs : list answers) (s : counters) (saved : list OOMTracingData) : option (counters * list OOMTracingData) :=
  match evs with
  | [] => Some (s, saved)
  | ev :: evs' =>
      match handle (a_css ev) (a_cts ev) (a_data ev) s with
      | Continue s out => Start evs' s (saved ++ out)
      | Returns => Some (s, saved)
      | Panics => None
      end
  end.

(** The collector's history: the events handled and the scrapes, in the order
    the mutex gives. The counters are global: a Start that returns leaves them,
    and the tracing loop calls it again. *)
Inductive op :=
| Event (m : option (gmap Z string)) (cts : option (gmap string container)) (d : oom_info)
| Scrape (containers : option (list container)).

Definition op_step (o : op) (s : counters) : option counters :=
  match o with
  | Event m cts d => match handle m cts d s with Continue s' _ => Some s' | Returns => Some s | Panics => None end
  | Scrape cs => Some (fst (Update cs s))
  end.

Fixpoint op_run (l : list op) (s : counters) : option counters :=
  match l with
  | [] => Some s
  | o :: l' => s' ← op_step o s; op_run l' s'
  end.

(** *** Specification *)

(** The victim of an event that is accounted: the host, or a container. *)
Inductive victim := Host | Cont (id : string).

Definition victim_of (o : op) : option victim :=
  match o with
  | Event (Some m) (Some cts) d =>
      let id := go_index m (victim_memcg_css d) in
      if is_empty id then Some Host
      else (fun ct => Cont (ct_ID ct)) <$> cts !! id
  | _ => None
  end.

#[global] Instance victim_eq_dec : EqDecision victim.
Proof. solve_decision. Defined.

Definition hits (v : victim) (o : op) : Z := if decide (victim_of o = Some v) then 1 else 0.
Definition scraped (o : op) : bool := match o with Scrape (Some _) => true | _ => false end.

(** The kills of [v] in the history, and those since the last scrape, after
    [n] before it. *)
Fixpoint kills (v : victim) (l : list op) : Z :=
  match l with [] => 0 | o :: l' => hits v o + kills v l' end.
Fixpoint kills_since (v : victim) (n : Z) (l : list op) : Z :=
  match l with
  | [] => n
  | o :: l' => kills_since v (if scraped o then 0 else n + hits v o) l'
  end.

(** Every container the first snapshot names is in the second one. *)
Definition snapshots_agree (o : op) : Prop :=
  match o with
  | Event (Some m) (Some cts) d =>
      forall css id, css = trigger_memcg_css d \/ css = victim_memcg_css d ->
        m !! css = Some id -> id <> EmptyString -> is_Some (cts !! id)
  | _ => True
  end.

Definition cont_count (s : counters) (id : string) : Z :=
  match containerOOMCounter s !! id with Some v => count v | None => 0 end.
End Oom.

Module Softlockup.

(** linux_kernel.h: the taint flags and their numbers. *)
Inductive taint :=
| TAINT_PROPRIETARY_MODULE | TAINT_FORCED_MODULE | TAINT_CPU_OUT_OF_SPEC | TAINT_FORCED_RMMOD
| TAINT_MACHINE_CHECK | TAINT_BAD_PAGE | TAINT_USER | TAINT_DIE | TAINT_OVERRIDDEN_ACPI_TABLE
| TAINT_WARN | TAINT_CRAP | TAINT_FIRMWARE_WORKAROUND | TAINT_OOT_MODULE | TAINT_UNSIGNED_MODULE
| TAINT_SOFTLOCKUP | TAINT_LIVEPATCH | TAINT_AUX | TAINT_RANDSTRUCT | TAINT_18 | TAINT_19
| TAINT_20 | TAINT_21 | TAINT_22 | TAINT_23 | TAINT_24 | TAINT_25 | TAINT_26
| TAINT_SUPPORT_REMOVED | TAINT_28 | TAINT_TECH_PREVIEW | TAINT_UNPRIVILEGED_BPF | TAINT_31.

#[global] Instance taint_eq_dec : EqDecision taint.
Proof. solve_decision. Defined.

Definition taint_number (t : taint) : Z :=
  match t with
  | TAINT_PROPRIETARY_MODULE => 0 | TAINT_FORCED_MODULE => 1
  | TAINT_CPU_OUT_OF_SPEC => 2 | TAINT_FORCED_RMMOD => 3
  | TAINT_MACHINE_CHECK => 4 | TAINT_BAD_PAGE => 5
  | TAINT_USER => 6 | TAINT_DIE => 7
  | TAINT_OVERRIDDEN_ACPI_TABLE => 8 | TAINT_WARN => 9
  | TAINT_CRAP => 10 | TAINT_FIRMWARE_WORKAROUND => 11
  | TAINT_OOT_MODULE => 12 | TAINT_UNSIGNED_MODULE => 13
  | TAINT_SOFTLOCKUP => 14 | TAINT_LIVEPATCH => 15
  | TAINT_AUX => 16 | TAINT_RANDSTRUCT => 17
  | TAINT_18 => 18 | TAINT_19 => 19
  | TAINT_20 => 20 | TAINT_21 => 21
  | TAINT_22 => 22 | TAINT_23 => 23
  | TAINT_24 => 24 | TAINT_25 => 25
  | TAINT_26 => 26 | TAINT_SUPPORT_REMOVED => 27
  | TAINT_28 => 28 | TAINT_TECH_PREVIEW => 29
  | TAINT_UNPRIVILEGED_BPF => 30 | TAINT_31 => 31
  end.
Definition TAINT_FLAGS_COUNT : Z := 32.

Record softlockup_info := mk_info { cpu : Z; pid : Z; comm : list byte }.

Definition softlockup_members : list member_decl :=
  ["cpu" :- c_u32; "pid" :- c_u32; "comm" :- Array 16 c_char]%ctype.

(** type softLockupPerfEventData struct *)
Definition softLockupPerfEventData (vs : list (list byte)) : option softlockup_info :=
  match vs with
  | [c; p; cm] => Some (mk_info (s32 (le_Z c)) (s32 (le_Z p)) cm)
  | _ => None
  end.

#[global] Program Instance info_wire : Wire softlockup_info := {
  wire_members := softlockup_members;
  wire_sizes := [4; 4; 16]%nat;
  wire_fields r := [le_bytes 4 (cpu r); le_bytes 4 (pid r); comm r];
  wire_valid r := - 2 ^ 31 <= cpu r < 2 ^ 31 /\ - 2 ^ 31 <= pid r < 2 ^ 31 /\
    Z.of_nat (length (comm r)) = 16;
  wire_parse := softLockupPerfEventData
}.
Next Obligation. wire_sized. Qed.
Next Obligation. wire_parse. Qed.
Next Obligation. reflexivity. Qed.
Next Obligation. reflexivity. Qed.

Definition softlockup_perf_events : string := "softlockup_perf_events".

Definition softlockup_fill (e : kenv) : softlockup_info :=
  mk_info (cur_cpu e) (u32 (Z.shiftr (cur_pid_tgid e) 32))
    (core_read_str e COMPAT_TASK_COMM_LEN (cur_task e) task_comm).

Definition kprobe_softlockup (flag : Z) : M (list bpf_ratelimit) Z :=
  if negb (flag =? taint_number TAINT_SOFTLOCKUP) then mret 0
  else
    limited ← bpf_ratelimited_in_map;
    if (limited : bool) then mret 0
    else
      info ← asks softlockup_fill;
      bpf_perf_event_output softlockup_perf_events (wire_encode info);;
      mret 0.
End Softlockup.

Module Hungtask.

Record hungtask_info := mk_info { pid : Z; comm : list byte }.

Definition hungtask_members : list member_decl :=
  ["pid" :- c_int; "comm" :- Array 16 c_char]%ctype.

(** type hungTaskPerfEventData struct *)
Definition hungTaskPerfEventData (vs : list (list byte)) : option hungtask_info :=
  match vs with
  | [p; cm] => Some (mk_info (s32 (le_Z p)) cm)
  | _ => None
  end.

#[global] Program Instance info_wire : Wire hungtask_info := {
  wire_members := hungtask_members;
  wire_sizes := [4; 16]%nat;
  wire_fields r := [le_bytes 4 (pid r); comm r];
  wire_valid r := - 2 ^ 31 <= pid r < 2 ^ 31 /\ Z.of_nat (length (comm r)) = 16;
  wire_parse := hungTaskPerfEventData
}.
Next Obligation. wire_sized. Qed.
Next Obligation. wire_parse. Qed.
Next Obligation. reflexivity. Qed.
Next Obligation. reflexivity. Qed.

Definition hungtask_perf_events : string := "hungtask_perf_events".

(** [ctx] is the address of the tracepoint record, [ctx_pid] its pid. *)
Definition tracepoint_sched_process_hang (ctx ctx_pid : Z) : M unit Z :=
  info ← asks (fun e => mk_info (s32 ctx_pid) (core_read_str e COMPAT_TASK_COMM_LEN ctx hang_comm));
  bpf_perf_event_output hungtask_perf_events (wire_encode info);;
  mret 0.

(** core/events/hungtask.go: hungtaskCounter, nextAllowedTime and the backoff.
    Times in nanoseconds. *)
Record tracing := mk_tracing { hungtaskCounter : Z; nextAllowedTime : Z; bo : Backoff.Backoff }.

(** The backoff of newHungTask; [None] would be a panic of the package. *)
Definition new_backoff : option Backoff.Backoff :=
  b ← Backoff.NewWithoutJitter (3 * Backoff.Hour) (10 * Backoff.Minute); Backoff.SetDecay (1 * Backoff.Hour) b.

(** The clock readings of an event: that of Start, and the two of the backoff. *)
Record instants := mk_instants { now : Z; since : Z; set_at : Z }.

(** The wait, where the event is reported. *)
Definition on_event (t : instants) (c : tracing) : tracing * option Z :=
  let n := s64 (hungtaskCounter c + 1) in
  if now t <? nextAllowedTime c then (mk_tracing n (nextAllowedTime c) (bo c), None)
  else let (w, b) := Backoff.Duration id (since t) (set_at t) (bo c) in
       (mk_tracing n (now t + w) b, Some w).

(** The events that are reported, with the waits after them. *)
Fixpoint saves (times : list instants) (c : tracing) : tracing * list (instants * Z) :=
  match times with
  | [] => (c, [])
  | t :: times' =>
      let '(c1, wait) := on_event t c in
      let '(c2, l) := saves times' c1 in
      (c2, match wait with Some w => (t, w) :: l | None => l end)
  end.
End Hungtask.

Module Lacp.

Definition ad_event_map : string := "ad_event_map".

Definition ad_disable : M unit Z :=
  bpf_perf_event_output ad_event_map (le_bytes 8 0);;
  mret 0.

(** core/events/lacp.go: the counter after the records of a perf map; the
    loop of Start ends at a record it cannot read. *)
Fixpoint lacp_count (records : list (string * list byte)) (n : Z) : Z :=
  match records with
  | [] => n
  | (_, r) :: records' =>
      match binary_read [8%nat] r with
      | Some _ => lacp_count records' (u64 (n + 1))
      | None => n
      end
  end.
End Lacp.

(** ** Lemmas *)

Module Oom_facts.
Import Oom.

#[global] Program Instance oom_reporter :
    InMapReporter kprobe_oom_kill_process event_bpf_rlimit_rate rate_cfg := {
  im_asks _ := true;
  im_out e oc := if oc =? 0 then [] else [(Oom.oom_perf_events, wire_encode (oom_fill e oc))]
}.
Next Obligation. intros e oc. cbv beta. case_if; repeat constructor. discriminate. Qed.
Next Obligation.
  intros e oc r. apply in_map_then; [done|]. intros [st n out]. cbn. case_if; [|done].
  by rewrite app_nil_r.
Qed.

Definition pids_ok (i : oom_info) : Prop := trigger_pid i < 2 ^ 31 /\ victim_pid i < 2 ^ 31.

Lemma oom_fill_valid e oc : pids_ok (oom_fill e oc) -> wire_valid (oom_fill e oc).
Proof.
  intros [H1 H2]. cbn [oom_fill trigger_pid victim_pid] in H1, H2. unfold oom_fill.
  cbn [wire_valid info_wire trigger_comm victim_comm trigger_pid victim_pid trigger_memcg_css
       victim_memcg_css].
  pose proof (core_read_range e 4 (cur_task e) task_pid).
  pose proof (core_read_range e 4 (core_read e 8 oc oom_chosen) task_pid).
  unfold is_u in *. rewrite !length_core_read_str by (unfold COMPAT_TASK_COMM_LEN; lia).
  split_and!; try lia; try done; apply core_read_subsys_u64.
Qed.

(** Accounting. *)
Lemma handle_state m cts d s s' out :
  handle (Some m) (Some cts) d s = Continue s' out ->
  bump cts (go_index m (victim_memcg_css d)) (Cgroup.trim_right_nul (victim_comm d)) s = Some s'.
Proof.
  unfold handle. cbv zeta. destruct (names cts (go_index m (trigger_memcg_css d))) as [[]|]; [|done].
  destruct (bump _ _ _ _); [|done]. destruct (names cts (go_index m (victim_memcg_css d))) as [[]|]; [|done].
  by intros [= <- _].
Qed.

(** The counters are small whole numbers. *)
Definition bounded (n : Z) (s : counters) : Prop :=
  0 <= hostOOMCounter s <= n /\ forall id, 0 <= cont_count s id <= n.

Lemma cont_count_insert h c id id' v :
  cont_count (mk_counters h (<[id := v]> c)) id' =
    if decide (id = id') then count v else cont_count (mk_counters h c) id'.
Proof.
  unfold cont_count. cbn [containerOOMCounter]. case_decide; subst.
  - by rewrite lookup_insert_eq.
  - by rewrite lookup_insert_ne.
Qed.

Lemma bump_counts n cts id name s s' :
  bump cts id name s = Some s' -> bounded n s -> n < 2 ^ 53 ->
  let v := if is_empty id then Some Host else (fun ct => Cont (ct_ID ct)) <$> cts !! id in
  hostOOMCounter s' = hostOOMCounter s + (if decide (v = Some Host) then 1 else 0) /\
  forall i, cont_count s' i = cont_count s i + (if decide (v = Some (Cont i)) then 1 else 0).
Proof.
  unfold bump. intros Hs [Hh Hb] Hn. destruct (is_empty id).
  - simplify_eq. cbn [hostOOMCounter]. unfold float_incr. rewrite (proj2 (Z.ltb_lt _ _)) by lia.
    rewrite decide_True by done. split; [lia|]. intros i. rewrite decide_False by done. unfold cont_count. cbn. lia.
  - destruct (cts !! id) as [ct|]; [|done]. simplify_eq. cbn [fmap option_fmap option_map].
    rewrite decide_False by done. split; [cbn; lia|]. intros i.
    rewrite cont_count_insert. specialize (Hb (ct_ID ct)). unfold cont_count in *. cbn in *.
    destruct (decide (ct_ID ct = i)) as [<-|Hne].
    + rewrite decide_True by done. destruct (containerOOMCounter s !! ct_ID ct); cbn in *; [|lia].
      rewrite s64_small by lia. lia.
    + rewrite decide_False by congruence. lia.
Qed.

Lemma op_step_counts n o s s' :
  op_step o s = Some s' -> bounded n s -> n < 2 ^ 53 ->
  hostOOMCounter s' = hostOOMCounter s + hits Host o /\
  forall id, cont_count s' id = if scraped o then 0 else cont_count s id + hits (Cont id) o.
Proof.
  intros Hs Hb Hn. unfold hits. destruct o as [m cts d|[cs|]]; cbn [op_step] in Hs.
  - destruct m as [m|], cts as [cts|];
      try (cbn in Hs; simplify_eq; cbn [victim_of scraped]; split; [|intros];
           rewrite decide_False by done; lia).
    destruct (handle (Some m) (Some cts) d s) as [s1 out| |] eqn:Hr; [|by unfold handle in Hr; cbv zeta in Hr; repeat case_match|done].
    injection Hs as ->.
    apply handle_state in Hr. exact (bump_counts n _ _ _ _ _ Hr Hb Hn).
  - cbn in Hs. simplify_eq. cbn [victim_of scraped hostOOMCounter].
    rewrite decide_False by done. split; [lia|]. intros id. unfold cont_count.
    cbn [containerOOMCounter]. by rewrite lookup_empty.
  - cbn in Hs. simplify_eq. cbn [victim_of scraped].
    split; [|intros]; rewrite decide_False by done; lia.
Qed.

Lemma hits_range v o : 0 <= hits v o <= 1.
Proof. unfold hits. case_decide; lia. Qed.

Lemma op_run_counts l n s s' :
  op_run l s = Some s' -> bounded n s -> n + Z.of_nat (length l) <= 2 ^ 53 ->
  hostOOMCounter s' = hostOOMCounter s + kills Host l /\
  forall id, cont_count s' id = kills_since (Cont id) (cont_count s id) l.
Proof.
  revert n s. induction l as [|o l IH]; intros n s Hr Hb Hn; cbn [op_run kills kills_since] in *.
  { simplify_eq. split; [lia | done]. }
  destruct (op_step o s) as [s1|] eqn:E; [|done]. cbn in Hr.
  destruct (op_step_counts n o s s1 E Hb ltac:(cbn in Hn; lia)) as [Hh Hc].
  pose proof (hits_range Host o). destruct Hb as [Hb1 Hb2].
  destruct (IH (n + 1) s1 Hr) as [IHh IHc].
  - split; [lia|]. intros id. rewrite Hc. pose proof (hits_range (Cont id) o). specialize (Hb2 id).
    destruct (scraped o); lia.
  - cbn [length] in Hn. lia.
  - split; [lia|]. intros id. by rewrite IHc, Hc.
Qed.

(** Panics. *)
Lemma names_Some m cts css :
  is_Some (names cts (go_index m css)) <->
    (forall id, m !! css = Some id -> id <> EmptyString -> is_Some (cts !! id)).
Proof.
  unfold names, is_empty, go_index. destruct (m !! css) as [id|]; cbn [default from_option Datatypes.id].
  - case_bool_decide as He.
    + split; [|by eexists]. intros _ i [= <-] Hi. done.
    + destruct (cts !! id) as [ct|] eqn:E; (split; [intros Hn i [= <-] Hi|intros Ha]).
      * rewrite E. by eexists.
      * by eexists.
      * by destruct Hn.
      * destruct (Ha id eq_refl He) as [? ?]. congruence.
  - rewrite bool_decide_true by done. split; [done | by eexists].
Qed.

Lemma bump_Some cts id name s : is_Some (bump cts id name s) <-> is_Some (names cts id).
Proof.
  unfold bump, names. destruct (is_empty id); [naive_solver|]. destruct (cts !! id); [naive_solver|].
  split; by intros [].
Qed.

Lemma handle_panics m cts d s :
  handle (Some m) (Some cts) d s <> Panics <->
    is_Some (names cts (go_index m (trigger_memcg_css d))) /\
    is_Some (names cts (go_index m (victim_memcg_css d))).
Proof.
  unfold handle. cbv zeta. pose proof (bump_Some cts (go_index m (victim_memcg_css d))
    (Cgroup.trim_right_nul (victim_comm d)) s) as Hb.
  destruct (names cts (go_index m (trigger_memcg_css d))) as [[]|];
    [|split; [done | by intros [[] _]]].
  destruct (bump _ _ _ s); destruct (names cts (go_index m (victim_memcg_css d))) as [[]|]; naive_solver.
Qed.

Lemma op_step_Some o s : is_Some (op_step o s) <-> snapshots_agree o.
Proof.
  destruct o as [[m|] [cts|] d|cs]; try (cbn; naive_solver).
  cbn [op_step snapshots_agree]. transitivity (handle (Some m) (Some cts) d s <> Panics).
  - destruct (handle (Some m) (Some cts) d s); split; try done; by eexists.
  - rewrite handle_panics, !names_Some. naive_solver.
Qed.

Lemma op_run_Some l s : is_Some (op_run l s) <-> Forall snapshots_agree l.
Proof.
  revert s. induction l as [|o l IH]; intros s; cbn [op_run].
  - split; [constructor | by eexists].
  - rewrite Forall_cons, <- (op_step_Some o s). destruct (op_step o s) as [s1|]; cbn.
    + rewrite IH. naive_solver.
    + split; [by intros [] | by intros [[] _]].
Qed.
End Oom_facts.

Module Softlockup_facts.
Import Softlockup.

#[global] Program Instance softlockup_reporter :
    InMapReporter kprobe_softlockup event_bpf_rlimit_rate rate_cfg := {
  im_asks flag := flag =? taint_number TAINT_SOFTLOCKUP;
  im_out e _ := [(Softlockup.softlockup_perf_events, wire_encode (softlockup_fill e))]
}.
Next Obligation. intros e flag. repeat constructor. discriminate. Qed.
Next Obligation.
  intros e flag r. unfold kprobe_softlockup.
  destruct (flag =? taint_number TAINT_SOFTLOCKUP); cbn [negb]; [|done]. by apply in_map_then.
Qed.

Definition cpu_pid_ok (e : kenv) : Prop :=
  0 <= cur_cpu e < 2 ^ 31 /\ u32 (Z.shiftr (cur_pid_tgid e) 32) < 2 ^ 31.

Lemma softlockup_valid e : cpu_pid_ok e -> wire_valid (softlockup_fill e).
Proof.
  intros [H1 H2]. unfold softlockup_fill. cbn [wire_valid info_wire cpu pid comm].
  pose proof (u32_range (Z.shiftr (cur_pid_tgid e) 32)). unfold is_u in *.
  rewrite length_core_read_str by (unfold COMPAT_TASK_COMM_LEN; lia).
  split_and!; [lia.. | done].
Qed.

Lemma taint_asks t :
  (taint_number t =? taint_number TAINT_SOFTLOCKUP) = bool_decide (t = TAINT_SOFTLOCKUP).
Proof. by destruct t. Qed.
End Softlockup_facts.

Module Hungtask_facts.
Import Hungtask.

Definition record_of (e : kenv) (ctx ctx_pid : Z) : hungtask_info :=
  mk_info (s32 ctx_pid) (core_read_str e COMPAT_TASK_COMM_LEN ctx hang_comm).

Lemma hungtask_run e ctx ctx_pid :
  run (tracepoint_sched_process_hang ctx ctx_pid) e tt =
    (tt, [(Hungtask.hungtask_perf_events, wire_encode (record_of e ctx ctx_pid))]).
Proof. done. Qed.

Lemma hungtask_valid e ctx ctx_pid : wire_valid (record_of e ctx ctx_pid).
Proof.
  unfold record_of. cbn [wire_valid info_wire pid comm].
  rewrite length_core_read_str by (unfold COMPAT_TASK_COMM_LEN; lia).
  split; [apply s32_range | done].
Qed.

(** The configuration of the tracer. *)
Definition max_wait : Z := 3 * Backoff.Hour.
Definition first_wait : Z := 10 * Backoff.Minute.
Definition decay_time : Z := 1 * Backoff.Hour.
Definition wait_after (last : option (Z * Z)) (t : instants) : Z :=
  Backoff.next_wait max_wait first_wait decay_time last (since t).

(** [l] are reports, the first not before [next], each with the wait of the
    backoff's schedule and not before the wait of the one before has passed. *)
Fixpoint spaced (last : option (Z * Z)) (next : Z) (l : list (instants * Z)) : Prop :=
  match l with
  | [] => True
  | (t, w) :: l' =>
      next <= now t /\ w = wait_after last t /\ spaced (Some (set_at t, w)) (now t + w) l'
  end.

(** The tracer's backoff, after the last report. *)
Definition backoff_ok (last : option (Z * Z)) (c : tracing) : Prop :=
  Backoff.configured max_wait first_wait decay_time (bo c) /\ Backoff.tried (bo c) last.

Lemma new_backoff_ok n next : exists b, new_backoff = Some b /\ backoff_ok None (mk_tracing n next b).
Proof. eexists. split; [reflexivity|]. split; [by constructor | by split]. Qed.

Lemma saves_spaced times : forall c last, backoff_ok last c ->
  spaced last (nextAllowedTime c) (saves times c).2.
Proof.
  induction times as [|t times IH]; intros c last Hb; cbn [saves]; [done|].
  unfold on_event. destruct (Z.ltb_spec (now t) (nextAllowedTime c)) as [Hlt|Hge].
  - specialize (IH (mk_tracing (s64 (hungtaskCounter c + 1)) (nextAllowedTime c) (bo c)) last Hb).
    by destruct (saves _ _).
  - destruct Hb as [Hc Ht].
    pose proof (Backoff.backoff_schedule _ _ _ _ last id (since t) (set_at t) Hc ltac:(done) ltac:(done) ltac:(done) ltac:(done) Ht) as Hd.
    cbv zeta in Hd. destruct (Backoff.Duration id (since t) (set_at t) (bo c)) as [w b]. destruct Hd as (-> & Hc' & Ht').
    specialize (IH (mk_tracing (s64 (hungtaskCounter c + 1)) (now t + wait_after last t) b) _ (conj Hc' Ht')).
    unfold wait_after in *. destruct (saves _ _) as [c2 l]. cbn [snd nextAllowedTime spaced] in *. done.
Qed.

Lemma saves_counter times : forall c,
  0 <= hungtaskCounter c -> hungtaskCounter c + Z.of_nat (length times) < 2 ^ 63 ->
  hungtaskCounter (saves times c).1 = hungtaskCounter c + Z.of_nat (length times).
Proof.
  induction times as [|t times IH]; intros c H0 H1; cbn [saves length] in *; [cbn; lia|].
  unfold on_event. assert (s64 (hungtaskCounter c + 1) = hungtaskCounter c + 1) as Hs
    by (apply s64_small; lia).
  rewrite Hs. destruct (now t <? nextAllowedTime c); [|destruct (Backoff.Duration _ _ _ _)];
    match goal with |- context [saves _ ?c'] => specialize (IH c'); destruct (saves _ c') end;
    cbn in *; lia.
Qed.

Lemma saves_times t1 times : forall c, Forall (fun t => now t <= t1) times ->
  Forall (fun r => now r.1 <= t1) (saves times c).2.
Proof.
  induction times as [|t times IH]; intros c Hf; cbn [saves]; [constructor|]. apply Forall_cons in Hf as [Ht Hf].
  destruct (on_event t c) as [c1 [w|]]; specialize (IH c1 Hf); destruct (saves times c1); [by constructor | done].
Qed.

(** Waits are between ten minutes and three hours. *)
Lemma wait_bounds last t : (forall x w, last = Some (x, w) -> first_wait <= w) -> first_wait <= wait_after last t <= max_wait.
Proof.
  intros Hl. unfold wait_after, Backoff.next_wait, first_wait, max_wait in *.
  destruct last as [[x w]|]; [|done]. specialize (Hl x w eq_refl).
  change (10 * Backoff.Minute) with 600000000000 in *. change (3 * Backoff.Hour) with 10800000000000.
  destruct (_ <? _); lia.
Qed.

(** Reports are few: one, and one per ten minutes. *)
Lemma spaced_few l : forall last next t0 t1, (forall x w, last = Some (x, w) -> first_wait <= w) ->
  spaced last next l -> t0 <= next -> Forall (fun r => now r.1 <= t1) l ->
  first_wait * Z.of_nat (length l) <= Z.max 0 (t1 - t0) + first_wait.
Proof.
  induction l as [|[t w] l IH]; intros last next t0 t1 Hl Hs H0 Hf.
  - cbn [length]. change first_wait with 600000000000. lia.
  - cbn [spaced] in Hs. destruct Hs as (Hn & -> & Hs). apply Forall_cons in Hf as [Ht Hf]. cbn [fst] in Ht.
    pose proof (wait_bounds last t Hl) as Hw. destruct l as [|r l].
    + cbn [length]. change first_wait with 600000000000 in *. lia.
    + pose proof Hf as [Hr _]%Forall_cons. pose proof Hs as Hs'. destruct r as [t' w']. cbn [spaced fst] in Hs', Hr.
      destruct Hs' as [Hn' _].
      specialize (IH (Some (set_at t, wait_after last t)) (now t + wait_after last t) (now t + wait_after last t) t1
        ltac:(intros ? ? [= _ <-]; lia) Hs ltac:(lia) Hf).
      rewrite length_cons, Nat2Z.inj_succ. change first_wait with 600000000000 in *. lia.
Qed.
End Hungtask_facts.

(** The records of a perf map, decoded. *)
Fixpoint decoded {E} `{Wire E} (out : list (string * list byte)) : list E :=
  match out with
  | [] => []
  | (_, bs) :: out' => match wire_decode bs with Some x => x :: decoded out' | None => decoded out' end
  end.

Lemma decoded_cons {E} `{Wire E} name (x : E) out :
  wire_valid x -> decoded ((name, wire_encode x) :: out) = x :: decoded out.
Proof.
  intros Hx. cbn [decoded]. by rewrite <- (app_nil_r (wire_encode x)), wire_decode_encode.
Qed.

(** Invocations with one record each at most. *)
Lemma decoded_filter {E A} `{Wire E} (P : A -> Prop) `{!forall a, Decision (P a)} name (f : A -> E) l :
  Forall (fun a => wire_valid (f a)) l ->
  decoded (mjoin ((fun a => if decide (P a) then [(name, wire_encode (f a))] else []) <$> l)) =
    f <$> filter P l.
Proof.
  induction 1 as [|a l Ha Hl IH]; [done|]. rewrite fmap_cons, filter_cons. cbn [mjoin list_join].
  case_decide; cbn [app]; [|exact IH].
  etrans; [by apply decoded_cons|]. rewrite fmap_cons. f_equal. exact IH.
Qed.

Lemma Forall_granted {H} (asks : H -> bool) (P : kenv * H -> Prop) bs l :
  Forall P l -> Forall P (granted_calls asks bs l).
Proof.
  rewrite !Forall_forall. intros Hl x Hx.
  apply Hl, (elem_of_submseteq (granted_calls asks bs l)); [done|].
  apply sublist_submseteq, granted_calls_sublist.
Qed.

(** ** Theorems *)

(** C32: OOM reports from the kernel to the collector.  For every sequence of
    calls of oom_kill_process the collector decodes, in order, exactly one
    record per call that the limiter's window specification grants and whose
    oom_control is not NULL, and each holds the names, the pids and the memory
    CSS addresses of the current task and of the chosen victim. *)
Theorem oom_refines l :
  Forall (fun '(e, oc) => Oom_facts.pids_ok (Oom.oom_fill e oc)) l ->
  clock_ok 1 1 (asking_secs (fun _ => true) l) ->
  decoded (im_events Oom.kprobe_oom_kill_process event_bpf_rlimit_rate l rlimit_map_init) =
    (fun '(e, oc) => Oom.oom_fill e oc) <$>
      filter (fun c => c.2 <> 0)
        (granted_calls (fun _ => true) (spec_answers 1 rate_burst (asking_secs (fun _ => true) l)) l).
Proof.
  intros Hl Hc. rewrite (rate_events_spec Oom.kprobe_oom_kill_process) by exact Hc.
  rewrite <- (decoded_filter _ Oom.oom_perf_events).
  - do 2 f_equal. apply list_fmap_ext. intros _ [e oc] _. cbn [im_out Oom_facts.oom_reporter snd].
    destruct (Z.eqb_spec oc 0); case_decide; done.
  - apply Forall_granted. eapply Forall_impl; [exact Hl|]. intros [e oc].
    apply Oom_facts.oom_fill_valid.
Qed.

(** The kernel kills task 77 ("db") in the memory cgroup at 9000. *)
Definition oom_env (t : Z) : kenv :=
  vmlinux_env (example_env t 0x700000009 3)
    [(1000, struct_bytes Vmlinux.oom_control [(["chosen"%string], le_bytes 8 20000)]);
     (20000, struct_bytes Vmlinux.task_struct
       [(["pid"%string], le_bytes 4 77); (["comm"%string], map byte_of_Z [100; 98]);
        (["cgroups"%string], le_bytes 8 50000)]);
     (50000, struct_bytes Vmlinux.css_set [(["subsys"%string], repeat Byte.x00 32 ++ le_bytes 8 9000)])].

Lemma oom_refines_witness :
  map (fun i => (Oom.victim_pid i, Oom.victim_memcg_css i))
    (decoded (im_events Oom.kprobe_oom_kill_process event_bpf_rlimit_rate
       [(oom_env 5000000000, 1000); (oom_env 5000000001, 0)] rlimit_map_init)) = [(77, 9000)].
Proof.
  rewrite oom_refines.
  - cbn -[spec_answers rate_burst sec granted_calls].
    rewrite spec_answers_small; [vm_compute; reflexivity | vm_compute; repeat constructor; discriminate |].
    pose proof rate_burst_Z as Hb. unfold COMPAT_CPU_NUM in Hb. cbn [length]. lia.
  - repeat constructor; vm_compute; reflexivity.
  - vm_compute. repeat split; discriminate.
Defined.

(** OOM accounting.  After any interleaving of events and scrapes of the
    collector (fewer than 2^53 of them, so that the host's float64 counter is
    exact) the host counter is the number of kills of victims in no container,
    ever, and a container's counter is the number of its kills since the last
    successful scrape. *)
Theorem oom_accounting l s :
  Oom.op_run l Oom.init = Some s -> Z.of_nat (length l) <= 2 ^ 53 ->
  Oom.hostOOMCounter s = Oom.kills Oom.Host l /\
  forall id, Oom.cont_count s id = Oom.kills_since (Oom.Cont id) 0 l.
Proof.
  intros Hr Hl. destruct (Oom_facts.op_run_counts l 0 Oom.init s Hr) as [Hh Hc]; [|lia|].
  - split; [cbn; lia|]. intros id. unfold Oom.cont_count. cbn. rewrite lookup_empty. lia.
  - split; [rewrite Hh; cbn; lia|]. intros id. by rewrite Hc.
Qed.

Definition oom_kill (css : Z) : Oom.op :=
  Oom.Event (Some {[9000 := "web"%string]}) (Some {["web"%string := Oom.mk_container "web" "h"]})
    (Oom.mk_info [] [byte_of_Z 100; Byte.x00] 1 77 0 css).

Lemma oom_accounting_witness :
  exists s, Oom.op_run [oom_kill 9000; oom_kill 5; Oom.Scrape (Some []); oom_kill 9000; oom_kill 9000]
      Oom.init = Some s /\ Oom.hostOOMCounter s = 1 /\ Oom.cont_count s "web" = 2.
Proof.
  eexists. split; [vm_compute; reflexivity|].
  match goal with |- Oom.hostOOMCounter ?s = _ /\ _ =>
    destruct (oom_accounting [oom_kill 9000; oom_kill 5; Oom.Scrape (Some []); oom_kill 9000;
      oom_kill 9000] s) as [Hh Hc] end.
  - vm_compute. reflexivity.
  - cbn. lia.
  - rewrite Hh, Hc. split; vm_compute; reflexivity.
Defined.

(** C33: when the OOM collector survives.  The collector handles a history
    without a nil dereference if and only if at every event each container that
    the first query maps the trigger's or the victim's CSS to is still returned
    by the second query; a container removed between the two stops it. *)
Theorem oom_survives_iff_snapshots_agree l s :
  is_Some (Oom.op_run l s) <-> Forall Oom.snapshots_agree l.
Proof. apply Oom_facts.op_run_Some. Qed.

(** Soft lockup reports.  For every sequence of add_taint calls the
    collector decodes one record (CPU, process, name) per call that sets
    TAINT_SOFTLOCKUP and is granted by the limiter's window specification, in
    order, and every other taint is ignored and costs no budget. *)
Theorem softlockup_refines l :
  Forall (fun '(e, _) => Softlockup_facts.cpu_pid_ok e) l ->
  clock_ok 1 1 (asking_secs (fun t => bool_decide (t = Softlockup.TAINT_SOFTLOCKUP)) l) ->
  decoded (im_events Softlockup.kprobe_softlockup event_bpf_rlimit_rate
             (prod_map id Softlockup.taint_number <$> l) rlimit_map_init) =
    (fun '(e, _) => Softlockup.softlockup_fill e) <$>
      granted_calls (fun t => bool_decide (t = Softlockup.TAINT_SOFTLOCKUP))
        (spec_answers 1 rate_burst
           (asking_secs (fun t => bool_decide (t = Softlockup.TAINT_SOFTLOCKUP)) l)) l.
Proof.
  intros Hl Hc. pose proof (fun t => Softlockup_facts.taint_asks t) as Ht.
  rewrite (rate_events_spec Softlockup.kprobe_softlockup) by (cbn [im_asks Softlockup_facts.softlockup_reporter];
    rewrite (asking_secs_fmap _ _ _ Ht); exact Hc).
  cbn [im_asks Softlockup_facts.softlockup_reporter].
  rewrite (asking_secs_fmap _ _ _ Ht), (granted_calls_fmap _ _ _ Ht).
  set (g := granted_calls _ _ l).
  transitivity ((fun c => Softlockup.softlockup_fill c.1) <$> filter (fun _ => True) g).
  - rewrite <- (decoded_filter _ Softlockup.softlockup_perf_events).
    + do 2 f_equal. rewrite <- list_fmap_compose. apply list_fmap_ext. by intros _ [e t] _.
    + apply Forall_granted. eapply Forall_impl; [exact Hl|]. intros [e t].
      apply Softlockup_facts.softlockup_valid.
  - clearbody g. induction g as [|[e t] g IH]; [done|].
    rewrite filter_cons_True, !fmap_cons, IH by done. done.
Qed.

Lemma softlockup_refines_witness :
  map Softlockup.pid (decoded (im_events Softlockup.kprobe_softlockup event_bpf_rlimit_rate
    [(oom_env 5000000000, 9); (oom_env 5000000001, 14)] rlimit_map_init)) = [7].
Proof.
  change [(oom_env 5000000000, 9); (oom_env 5000000001, 14)] with
    (prod_map id Softlockup.taint_number <$>
       [(oom_env 5000000000, Softlockup.TAINT_WARN); (oom_env 5000000001, Softlockup.TAINT_SOFTLOCKUP)]).
  rewrite softlockup_refines.
  - match goal with |- context [asking_secs ?a ?l] => change (asking_secs a l) with [5] end.
    rewrite spec_answers_small; [vm_compute; reflexivity | vm_compute; repeat constructor; discriminate |].
    pose proof rate_burst_Z as Hb. unfold COMPAT_CPU_NUM in Hb. cbn [length]. lia.
  - repeat constructor; vm_compute; (reflexivity || discriminate).
  - vm_compute. repeat split; discriminate.
Defined.

Lemma hungtask_outputs l :
  map snd (snd (run_all (map (fun '(e, ctx, p) => (e, Hungtask.tracepoint_sched_process_hang ctx p)) l) tt)) =
    map wire_encode (map (fun '(e, ctx, p) => Hungtask_facts.record_of e ctx p) l).
Proof.
  induction l as [|[[e ctx] p] l IH]; [done|]. cbn [map]. rewrite run_all_cons_out.
  rewrite Hungtask_facts.hungtask_run. cbn [fst snd app map]. f_equal. exact IH.
Qed.

(** The hangs of a CPU, and the ring their records go to. *)
Definition hangs_on (c : Z) (l : list (kenv * Z * Z)) : list (kenv * Z * Z) := filter (fun h => cur_cpu h.1.1 = c) l.
Definition hang_ring (l : list (kenv * Z * Z)) : PerfReader.rings (list byte) := fun c =>
  map snd (snd (run_all (map (fun '(e, ctx, p) => (e, Hungtask.tracepoint_sched_process_hang ctx p)) (hangs_on c l)) tt)).
Definition hang_records (l : list (kenv * Z * Z)) : PerfReader.rings Hungtask.hungtask_info := fun c =>
  map (fun '(e, ctx, p) => Hungtask_facts.record_of e ctx p) (hangs_on c l).

(** C34: hung task reports, from the kernel to the collector.  Every
    sched_process_hang submits one record to the ring of its CPU. Let the perf
    library deliver the rings in any interleaving, with the records of a full
    ring replaced by notices of their number, and be closed with records [q']
    unread: then ReadInto hands the collector events and ends with the
    cancellation error, and for every CPU the events from it followed by the
    unread ones are its hangs, pid and command, in order, but for exactly as
    many as the notices of that CPU say; without a notice none is missing. *)
Theorem hungtask_end_to_end l ts q' t rest :
  PerfReader.delivers (hang_ring l) ts q' ->
  PerfReader.done t = true \/ PerfReader.read t = PerfReader.ErrClosed ->
  exists ys left, PerfReader.drain (S (length (ts ++ t :: rest))) (ts ++ t :: rest) =
      (ys.*2, Some PerfReader.ErrExitByCancelCtx) /\
    forall c, let got := PerfReader.of_cpu c ys in
      q' c = map wire_encode (left c) /\
      got ++ left c `sublist_of` hang_records l c /\
      Z.of_nat (length (hang_records l c)) = Z.of_nat (length got) + PerfReader.lost_of c ts + Z.of_nat (length (left c)) /\
      (PerfReader.lost_of c ts = 0 -> got ++ left c = hang_records l c).
Proof.
  intros Hd Ht. destruct (PerfReader.perf_reader_delivers (hang_records l) (hang_ring l) ts q' t rest)
    as (ys & xs' & Ed & Hq' & Ha & Hz); [| |exact Hd|exact Ht|].
  - intros c. apply hungtask_outputs.
  - intros c. unfold hang_records. induction (hangs_on c l) as [|[[e ctx] p] l' IH]; constructor;
      [apply Hungtask_facts.hungtask_valid | exact IH].
  - exists ys, xs'. split; [exact Ed|]. intros c got. destruct (Ha c) as [H1 H2]. split; [apply Hq'|].
    split; [exact H1|]. split; [exact H2 | apply Hz].
Qed.

(** Two hangs on CPU 0, of which the first is lost, and one on CPU 3, read
    first. *)
Definition hang_env (cpu : Z) : kenv := example_env 5 0 cpu.
Definition three_hangs : list (kenv * Z * Z) := [(hang_env 0, 4096, 76); (hang_env 0, 4096, 77); (hang_env 3, 4096, 78)].
Definition hang_turns : list PerfReader.turn :=
  [PerfReader.mk_turn false PerfReader.ErrDeadlineExceeded;
   PerfReader.mk_turn false (PerfReader.Record_ 3 0
     (wire_encode (Hungtask_facts.record_of (hang_env 3) 4096 78) ++ [Byte.x00; Byte.x00; Byte.x00; Byte.x00]));
   PerfReader.mk_turn false (PerfReader.Record_ 0 1 []);
   PerfReader.mk_turn false (PerfReader.Record_ 0 0 (wire_encode (Hungtask_facts.record_of (hang_env 0) 4096 77)))].

Lemma hang_delivers : exists q', PerfReader.delivers (hang_ring three_hangs) hang_turns q'.
Proof.
  eexists. apply PerfReader.deliver_idle; [done|].
  eapply (PerfReader.deliver_sample _ 3); [vm_compute; reflexivity | split; [reflexivity | eexists; vm_compute; reflexivity] |].
  eapply (PerfReader.deliver_lost _ 0 [_]); [vm_compute; reflexivity |
    split; [reflexivity|]; split; [cbn; lia | eexists; reflexivity] |].
  eapply (PerfReader.deliver_sample _ 0); [vm_compute; reflexivity |
    split; [reflexivity | exists []; rewrite app_nil_r; vm_compute; reflexivity] |].
  apply PerfReader.deliver_nil.
Qed.

Lemma hungtask_end_to_end_witness :
  exists ys left, PerfReader.drain (S (length (hang_turns ++ [PerfReader.mk_turn true PerfReader.ReadErr])))
      (hang_turns ++ [PerfReader.mk_turn true PerfReader.ReadErr]) = (ys.*2, Some PerfReader.ErrExitByCancelCtx) /\
    Hungtask.pid <$> ys.*2 = [78; 77] /\
    PerfReader.of_cpu 3 ys ++ left 3 = hang_records three_hangs 3.
Proof.
  destruct hang_delivers as [q' Hd].
  destruct (hungtask_end_to_end three_hangs hang_turns q' (PerfReader.mk_turn true PerfReader.ReadErr) [] Hd) as (ys & left & E & H).
  - left. reflexivity.
  - exists ys, left. split; [exact E|]. split; [|apply H; reflexivity].
    apply (f_equal fst) in E. cbn [fst] in E. rewrite <- E. vm_compute. reflexivity.
Defined.

(** C35: the hung task collector counts every event and backs off.  From the start,
    the counter grows by one per event; the reports keep the schedule of the
    backoff: ten minutes after the first, twice the last wait after a later one
    up to three hours, ten minutes again after a quiet hour; and between two
    instants there are at most one report and one more per ten minutes. *)
Theorem hungtask_backoff times n t0 t1 :
  0 <= n -> n + Z.of_nat (length times) < 2 ^ 63 ->
  Forall (fun t => Hungtask.now t <= t1) times ->
  exists b, Hungtask.new_backoff = Some b /\
    let (c, reports) := Hungtask.saves times (Hungtask.mk_tracing n t0 b) in
    Hungtask.hungtaskCounter c = n + Z.of_nat (length times) /\
    Hungtask_facts.spaced None t0 reports /\
    Hungtask_facts.first_wait * Z.of_nat (length reports) <= Z.max 0 (t1 - t0) + Hungtask_facts.first_wait.
Proof.
  intros H0 H1 Hf. destruct (Hungtask_facts.new_backoff_ok n t0) as (b & E & Hb). exists b. split; [done|].
  pose proof (Hungtask_facts.saves_counter times (Hungtask.mk_tracing n t0 b) H0 H1) as Hc.
  pose proof (Hungtask_facts.saves_spaced times _ _ Hb) as Hs.
  pose proof (Hungtask_facts.saves_times t1 times (Hungtask.mk_tracing n t0 b) Hf) as Ht.
  destruct (Hungtask.saves times _) as [c reports]. cbn [fst snd] in *. split; [exact Hc|]. split; [exact Hs|].
  apply (Hungtask_facts.spaced_few reports None t0); [done | exact Hs | cbn; lia | exact Ht].
Qed.

(** Hangs every five minutes, from the first minute on. *)
Definition hangs : list Hungtask.instants :=
  (fun k => let t := Backoff.Minute * (1 + 5 * Z.of_nat k) in Hungtask.mk_instants t t t) <$> seq 0 8.

Lemma hungtask_backoff_witness : exists b, Hungtask.new_backoff = Some b /\
  (fun r => Hungtask.now r.1 / Backoff.Minute) <$> (Hungtask.saves hangs (Hungtask.mk_tracing 0 0 b)).2 = [1; 11; 31] /\
  Hungtask.hungtaskCounter (Hungtask.saves hangs (Hungtask.mk_tracing 0 0 b)).1 = 8.
Proof.
  destruct (hungtask_backoff hangs 0 0 (36 * Backoff.Minute)) as (b & E & H); [lia | reflexivity | |].
  - repeat constructor; vm_compute; discriminate.
  - exists b. split; [done|]. injection E as <-. split; [vm_compute; reflexivity|].
    destruct (Hungtask.saves hangs _) as [c l]. apply H.
Defined.

(** LACP notifications.  The collector's counter is the number of calls of
    ad_disable_collecting_distributing, modulo 2^64. *)
Theorem lacp_counts_calls es :
  Lacp.lacp_count (snd (run_all (map (fun e => (e, Lacp.ad_disable)) es) tt)) 0 =
    u64 (Z.of_nat (length es)).
Proof.
  assert (forall n, Lacp.lacp_count (snd (run_all (map (fun e => (e, Lacp.ad_disable)) es) tt)) (u64 n) =
    u64 (n + Z.of_nat (length es))) as Hn; [|exact (Hn 0)].
  induction es as [|e es IH]; intros n; [cbn; f_equal; lia|].
  cbn [map]. rewrite run_all_cons_out.
  change (run Lacp.ad_disable e tt) with (tt, [(Lacp.ad_event_map, le_bytes 8 0)]).
  cbn [fst snd app Lacp.lacp_count].
  change (binary_read [8%nat] (le_bytes 8 0)) with (Some [le_bytes 8 0]). cbv iota.
  rewrite u64_add_l. etrans; [apply IH|]. f_equal. cbn [length]. lia.
Qed.
