(* ===== verification/FuncTrace.v ===== *)
(** * bpf/include/bpf_func_trace.h and its two users

    [FuncTrace]: the per-task stopwatch kept in [func_trace_map].
    [FreeCompact]: bpf/memory_free_compact.c, which sums the time spent in
    direct reclaim and in compaction.
    [ReclaimEvents]: bpf/memory_reclaim_events.c, which reports the reclaims
    that last longer than a threshold. *)
From S2P Require Import Prelude Bpf.
From stdpp Require Import base gmap list strings.
From Stdlib Require Import ZArith Lia.
From Stdlib.Strings Require Byte.

Open Scope Z_scope.

Module FuncTrace.

Record trace_entry_ctx := mk_tec { te_id : Z; te_start_ns : Z; te_delta_ns : Z }.

Definition zero_tec : trace_entry_ctx := mk_tec 0 0 0.
Definition func_trace_max : Z := 10240.

Section Ops.
Context {S : Type} (func_trace_map : mapref S Z trace_entry_ctx).

Definition func_trace_begain (id : Z) : M S unit :=
  now ← bpf_ktime_get_ns;
  map_update_elem func_trace_map id (mk_tec id now 0) COMPAT_BPF_ANY;; mret tt.

(** The result is the pointer to the element, that is its key. *)
Definition func_trace_end (id : Z) : M S (option Z) :=
  entry ← map_lookup_elem func_trace_map id;
  match entry with
  | None => mret None
  | Some _ =>
      now ← bpf_ktime_get_ns;
      elem_store func_trace_map id
        (fun t => mk_tec (te_id t) (te_start_ns t) (u64 (now - te_start_ns t)));;
      mret (Some id)
  end.

Definition func_trace_destroy (id : Z) : M S unit :=
  map_delete_elem func_trace_map id;; mret tt.

(** entry->field *)
Definition entry_read {A} (f : trace_entry_ctx -> A) (entry : Z) : M S A :=
  gets (fun s => f (default zero_tec (mget func_trace_map s !! entry))).
End Ops.

End FuncTrace.
Import FuncTrace.

Module FreeCompact.

Record mm_free_compact_entry := mk_mfc { compaction_stat : Z; allocstall_stat : Z }.

Record state := mk_state {
  func_trace_map : gmap Z trace_entry_ctx;
  mm_free_compact_map : gmap Z mm_free_compact_entry
}.

Definition init : state := mk_state ∅ ∅.

Definition traces : mapref state Z trace_entry_ctx :=
  mk_mapref func_trace_map (fun m s => mk_state m (mm_free_compact_map s)) func_trace_max.
Definition metrics : mapref state Z mm_free_compact_entry :=
  mk_mapref mm_free_compact_map (fun m s => mk_state (func_trace_map s) m) 10240.

Definition update_metric_map (free_delta_ns compact_delta_ns : Z) : M state unit :=
  let key := 0 in
  valp ← map_lookup_elem metrics key;
  match valp with
  | None =>
      map_update_elem metrics key (mk_mfc compact_delta_ns free_delta_ns) COMPAT_BPF_ANY;;
      mret tt
  | Some _ =>
      (if negb (free_delta_ns =? 0)
       then elem_store metrics key
              (fun v => mk_mfc (compaction_stat v) (u64 (allocstall_stat v + free_delta_ns)))
       else mret tt);;
      (if negb (compact_delta_ns =? 0)
       then elem_store metrics key
              (fun v => mk_mfc (u64 (compaction_stat v + compact_delta_ns)) (allocstall_stat v))
       else mret tt)
  end.

Definition func_trace_end_and_update_metric (free_pages : bool) : M state unit :=
  id ← asks cur_pid_tgid;
  entry ← func_trace_end traces id;
  match entry with
  | None => mret tt
  | Some p =>
      delta ← entry_read traces te_delta_ns p;
      (if free_pages then update_metric_map delta 0 else update_metric_map 0 delta);;
      id ← entry_read traces te_id p;
      func_trace_destroy traces id
  end.

Definition tracepoint_try_to_free_pages_begin : M state Z :=
  id ← asks cur_pid_tgid; func_trace_begain traces id;; mret 0.
Definition tracepoint_try_to_free_pages_end : M state Z :=
  func_trace_end_and_update_metric true;; mret 0.
Definition kprobe_try_to_compact_pages_host : M state Z :=
  id ← asks cur_pid_tgid; func_trace_begain traces id;; mret 0.
Definition kretprobe_try_to_compact_pages_host : M state Z :=
  func_trace_end_and_update_metric false;; mret 0.

(** The hooks of the object file. *)
Inductive hook := ReclaimBegin | ReclaimEnd | CompactBegin | CompactEnd.

Definition prog (h : hook) : M state Z :=
  match h with
  | ReclaimBegin => tracepoint_try_to_free_pages_begin
  | ReclaimEnd => tracepoint_try_to_free_pages_end
  | CompactBegin => kprobe_try_to_compact_pages_host
  | CompactEnd => kretprobe_try_to_compact_pages_host
  end.

Definition exec (l : list (kenv * hook)) (s : state) : state :=
  fst (run_all (map (fun '(e, h) => (e, prog h)) l) s).

(** ** Specification: sections open per task, and the two totals *)
Record spec_state := mk_spec { opened : gmap Z Z; compaction : Z; allocstall : Z }.

Definition spec_init : spec_state := mk_spec ∅ 0 0.

Definition spec_begin (task now : Z) (s : spec_state) : spec_state :=
  if bool_decide (is_Some (opened s !! task)) || (Z.of_nat (size (opened s)) <? func_trace_max)
  then mk_spec (<[task:=now]> (opened s)) (compaction s) (allocstall s) else s.

Definition spec_end (reclaim : bool) (task now : Z) (s : spec_state) : spec_state :=
  match opened s !! task with
  | None => s
  | Some t0 =>
      let d := u64 (now - t0) in
      mk_spec (delete task (opened s))
        (if reclaim then compaction s else compaction s + d)
        (if reclaim then allocstall s + d else allocstall s)
  end.

Definition spec_step (h : hook) (task now : Z) (s : spec_state) : spec_state :=
  match h with
  | ReclaimBegin | CompactBegin => spec_begin task now s
  | ReclaimEnd => spec_end true task now s
  | CompactEnd => spec_end false task now s
  end.

Definition spec_exec (l : list (kenv * hook)) (s : spec_state) : spec_state :=
  fold_left (fun s '(e, h) => spec_step h (cur_pid_tgid e) (ktime e 0%nat) s) l s.

(** What user space reads in mm_free_compact_map: nothing counts as zero. *)
Definition read_metric (s : state) : mm_free_compact_entry :=
  default (mk_mfc 0 0) (mm_free_compact_map s !! 0).

(** The representation relation. *)
Record repr (s : state) (a : spec_state) : Prop := mk_repr {
  repr_opened : te_start_ns <$> func_trace_map s = opened a;
  repr_id : map_Forall (fun k t => te_id t = k) (func_trace_map s);
  repr_metric : read_metric s = mk_mfc (u64 (compaction a)) (u64 (allocstall a));
  repr_fresh : map_Forall (fun k _ => k = 0) (mm_free_compact_map s)
}.

End FreeCompact.

Module ReclaimEvents.

Record reclaim_entry := mk_re { comm : list byte; delta_time : Z; css : Z; pid : Z }.

Definition encode (r : reclaim_entry) : list byte :=
  comm r ++ le_bytes 8 (delta_time r) ++ le_bytes 8 (css r) ++ le_bytes 8 (pid r).

Abbreviation state := (gmap Z trace_entry_ctx).
Definition reclaim_traces : mapref state Z trace_entry_ctx :=
  mk_mapref (fun s => s) (fun m _ => m) func_trace_max.

Definition reclaim_perf_events : string := "reclaim_perf_events".

Section Programs.
(** volatile const unsigned long deltath, set by user space before loading. *)
Context (deltath : Z).

Definition kprobe_try_to_free_pages : M state Z :=
  id ← asks cur_pid_tgid; func_trace_begain reclaim_traces id;; mret 0.

Definition kretprobe_try_to_free_pages : M state Z :=
  id ← asks cur_pid_tgid;
  entry ← func_trace_end reclaim_traces id;
  match entry with
  | None => mret 0
  | Some p =>
      delta_ns ← entry_read reclaim_traces te_delta_ns p;
      (if deltath <? delta_ns then
         task ← asks cur_task;
         entry_id ← entry_read reclaim_traces te_id p;
         cpu_css ← asks (fun e => core_read_subsys e task cpu_cgrp_id);
         current ← asks cur_comm;
         bpf_perf_event_output reclaim_perf_events
           (encode (mk_re current delta_ns cpu_css entry_id))
       else mret tt);;
      entry_id ← entry_read reclaim_traces te_id p;
      func_trace_destroy reclaim_traces entry_id;;
      mret 0
  end.

Inductive hook := Enter | Leave.
Definition prog (h : hook) : M state Z :=
  match h with
  | Enter => kprobe_try_to_free_pages
  | Leave => kretprobe_try_to_free_pages
  end.

Definition exec (l : list (kenv * hook)) (s : state) : state * list (string * list byte) :=
  run_all (map (fun '(e, h) => (e, prog h)) l) s.
End Programs.

End ReclaimEvents.

(** ** Lemmas *)

Lemma alter_tec_lookup (m : gmap Z trace_entry_ctx) k t f :
  m !! k = Some t -> alter f k m !! k = Some (f t).
Proof. intros H. by rewrite (alter_Some _ _ _ _ H), lookup_insert_eq. Qed.

Lemma delete_alter_tec (m : gmap Z trace_entry_ctx) k f : delete k (alter f k m) = delete k m.
Proof.
  apply map_eq. intros i. destruct (decide (i = k)) as [->|Hne].
  - by rewrite !lookup_delete_eq.
  - by rewrite !lookup_delete_ne, lookup_alter_ne by done.
Qed.

Module FreeCompactFacts.
Import FreeCompact.

(** The effect of a closed section on the metric. *)
Definition add_metric (free compact : Z) (m : gmap Z mm_free_compact_entry)
    : gmap Z mm_free_compact_entry :=
  match m !! 0 with
  | None => (hash_update 10240 0 (mk_mfc compact free) COMPAT_BPF_ANY m).2
  | Some v => <[0 := mk_mfc (if compact =? 0 then compaction_stat v
                             else u64 (compaction_stat v + compact))
                            (if free =? 0 then allocstall_stat v
                             else u64 (allocstall_stat v + free))]> m
  end.

Lemma update_metric_run free compact e w :
  update_metric_map free compact e w =
    (tt, W (mk_state (func_trace_map (w_st w)) (add_metric free compact (mm_free_compact_map (w_st w))))
           (w_clk w) (w_out w)).
Proof.
  destruct w as [[tr m] clk out]. unfold update_metric_map, add_metric. run_simpl.
  cbn [mm_free_compact_map func_trace_map metrics].
  destruct (m !! 0) as [v|] eqn:E.
  - destruct (free =? 0), (compact =? 0); cbn [negb]; run_simpl;
      cbn [mm_free_compact_map func_trace_map metrics mget mset]; do 3 f_equal.
    + destruct v. by rewrite insert_id.
    + by rewrite (alter_Some _ _ _ _ E).
    + by rewrite (alter_Some _ _ _ _ E).
    + rewrite (alter_Some _ _ _ _ E), (alter_Some _ _ _ _ (lookup_insert_eq _ _ _)).
      by rewrite insert_insert_eq.
  - destruct (hash_update _ _ _ _ _). done.
Qed.

Lemma run_begin e h s :
  h = ReclaimBegin \/ h = CompactBegin ->
  run (prog h) e s =
    (mk_state (hash_update func_trace_max (cur_pid_tgid e)
                 (mk_tec (cur_pid_tgid e) (ktime e 0%nat) 0) COMPAT_BPF_ANY (func_trace_map s)).2
              (mm_free_compact_map s), []).
Proof.
  intros [-> | ->]; unfold prog, tracepoint_try_to_free_pages_begin,
    kprobe_try_to_compact_pages_host, func_trace_begain; run_simpl; cbn [traces mget mset mmax];
    destruct (hash_update _ _ _ _ _); done.
Qed.

Lemma run_end e (reclaim : bool) s :
  map_Forall (fun k t => te_id t = k) (func_trace_map s) ->
  run (prog (if reclaim then ReclaimEnd else CompactEnd)) e s =
    (match func_trace_map s !! cur_pid_tgid e with
     | None => s
     | Some t =>
         let d := u64 (ktime e 0%nat - te_start_ns t) in
         mk_state (delete (cur_pid_tgid e) (func_trace_map s))
           (if reclaim then add_metric d 0 (mm_free_compact_map s)
            else add_metric 0 d (mm_free_compact_map s))
     end, []).
Proof.
  intros Hid. destruct s as [tr m]. cbn [func_trace_map mm_free_compact_map] in *.
  assert (forall b, run (func_trace_end_and_update_metric b;; mret 0) e (mk_state tr m) =
    (match tr !! cur_pid_tgid e with
     | None => mk_state tr m
     | Some t =>
         let d := u64 (ktime e 0%nat - te_start_ns t) in
         mk_state (delete (cur_pid_tgid e) tr)
           (if b : bool then add_metric d 0 m else add_metric 0 d m)
     end, [])) as H; [|destruct reclaim; apply H].
  intros b. unfold func_trace_end_and_update_metric, func_trace_end, entry_read, func_trace_destroy.
  run_simpl. cbn [traces mget mset func_trace_map mm_free_compact_map].
  destruct (tr !! cur_pid_tgid e) as [t|] eqn:E; [|done].
  cbn [traces mget mset func_trace_map mm_free_compact_map].
  rewrite !(alter_tec_lookup _ _ _ _ E). cbn [default id te_delta_ns].
  destruct b; rewrite update_metric_run; cbn [w_st w_clk w_out func_trace_map mm_free_compact_map];
    rewrite !(alter_tec_lookup _ _ _ _ E); cbn [default id te_id]; rewrite (Hid _ _ E);
    unfold hash_delete; rewrite !(alter_tec_lookup _ _ _ _ E), delete_alter_tec; done.
Qed.

Lemma read_add_metric free compact m :
  map_Forall (fun (k : Z) (_ : mm_free_compact_entry) => k = 0) m ->
  is_u 64 free -> is_u 64 compact ->
  let v := default (mk_mfc 0 0) (m !! 0) in
  is_u 64 (compaction_stat v) -> is_u 64 (allocstall_stat v) ->
  add_metric free compact m !! 0 =
    Some (mk_mfc (u64 (compaction_stat v + compact)) (u64 (allocstall_stat v + free))) /\
  map_Forall (fun (k : Z) (_ : mm_free_compact_entry) => k = 0) (add_metric free compact m).
Proof.
  intros Hk Hf Hc v Hv1 Hv2. unfold add_metric. subst v. destruct (m !! 0) as [v|] eqn:E; simpl in *.
  - rewrite lookup_insert_eq. split.
    + destruct (Z.eqb_spec compact 0) as [->|], (Z.eqb_spec free 0) as [->|];
        rewrite ?Z.add_0_r, ?(u64_small (compaction_stat v)), ?(u64_small (allocstall_stat v))
        by done; done.
    + by apply map_Forall_insert_2.
  - assert (m = ∅) as ->.
    { apply map_empty. intros i. destruct (m !! i) eqn:Ei; [|done].
      pose proof (Hk _ _ Ei). congruence. }
    rewrite hash_update_any, map_size_empty, orb_true_r. cbn [snd].
    rewrite lookup_insert_eq, !u64_small by done. split; [done|].
    by apply map_Forall_insert_2.
Qed.

Lemma metric_repr free compact s a :
  repr s a -> is_u 64 free -> is_u 64 compact ->
  default (mk_mfc 0 0) (add_metric free compact (mm_free_compact_map s) !! 0) =
    mk_mfc (u64 (compaction a + compact)) (u64 (allocstall a + free)) /\
  map_Forall (fun (k : Z) (_ : mm_free_compact_entry) => k = 0)
    (add_metric free compact (mm_free_compact_map s)).
Proof.
  intros [_ _ Hm Hfr] Hf Hc. unfold read_metric in Hm.
  edestruct (read_add_metric free compact (mm_free_compact_map s)) as [-> ?];
    [done | done | done | rewrite Hm; apply u64_range.. |].
  rewrite Hm. simpl. by rewrite !u64_add_l.
Qed.

Lemma step_repr e h s a :
  repr s a -> repr (fst (run (prog h) e s)) (spec_step h (cur_pid_tgid e) (ktime e 0%nat) a).
Proof.
  intros Hr. pose proof Hr as [Ho Hid Hm Hfr].
  assert (forall h, h = ReclaimBegin \/ h = CompactBegin ->
    repr (fst (run (prog h) e s)) (spec_begin (cur_pid_tgid e) (ktime e 0%nat) a)) as Hbeg.
  { intros h' Hh. rewrite run_begin by done. cbn [fst].
    rewrite hash_update_any. unfold spec_begin. rewrite <- Ho.
    assert (bool_decide (is_Some ((te_start_ns <$> func_trace_map s) !! cur_pid_tgid e)) =
            bool_decide (is_Some (func_trace_map s !! cur_pid_tgid e))) as ->.
    { apply bool_decide_ext. rewrite lookup_fmap. by rewrite fmap_is_Some. }
    rewrite map_size_fmap. case_if; cbn [snd]; [|by constructor].
    constructor; cbn [func_trace_map mm_free_compact_map opened compaction allocstall]; try done.
    - by rewrite fmap_insert.
    - by apply map_Forall_insert_2. }
  assert (forall b : bool, repr (fst (run (prog (if b then ReclaimEnd else CompactEnd)) e s))
            (spec_end b (cur_pid_tgid e) (ktime e 0%nat) a)) as Hend.
  { intros b. rewrite run_end by done. cbn [fst]. unfold spec_end. rewrite <- Ho, lookup_fmap.
    destruct (func_trace_map s !! cur_pid_tgid e) as [t|] eqn:E; simpl; [|by constructor].
    pose proof (u64_range (ktime e 0%nat - te_start_ns t)) as Hd.
    assert (is_u 64 0) as H0 by (unfold is_u; lia).
    destruct b.
    - destruct (metric_repr _ _ s a Hr Hd H0) as [E1 E2]. rewrite Z.add_0_r in E1.
      constructor; simpl; [by rewrite fmap_delete | by apply map_Forall_delete | exact E1 | exact E2].
    - destruct (metric_repr _ _ s a Hr H0 Hd) as [E1 E2]. rewrite Z.add_0_r in E1.
      constructor; simpl; [by rewrite fmap_delete | by apply map_Forall_delete | exact E1 | exact E2]. }
  destruct h; [apply Hbeg; by left | apply (Hend true) | apply Hbeg; by right | apply (Hend false)].
Qed.
Lemma exec_repr l : repr (exec l init) (spec_exec l spec_init).
Proof.
  assert (forall s a, repr s a -> repr (exec l s) (spec_exec l a)) as H.
  { unfold exec. induction l as [|[e h] l IH]; intros s a Hr; [done|].
    cbn [map]. rewrite run_all_cons_st. apply IH. by apply step_repr. }
  apply H. constructor; try done; apply map_Forall_empty.
Qed.

End FreeCompactFacts.

Module ReclaimEventsFacts.
Import ReclaimEvents.

Definition wf (s : state) : Prop := map_Forall (fun k t => te_id t = k) s.

Section Facts.
Context (deltath : Z).

Lemma run_enter e s :
  run (prog deltath Enter) e s =
    ((hash_update func_trace_max (cur_pid_tgid e)
        (mk_tec (cur_pid_tgid e) (ktime e 0%nat) 0) COMPAT_BPF_ANY s).2, []).
Proof.
  unfold prog, kprobe_try_to_free_pages, func_trace_begain. run_simpl. cbn [reclaim_traces mget mset mmax].
  destruct (hash_update _ _ _ _ _); done.
Qed.

(** The report of a section of the current task opened at [t0]. *)
Definition report (e : kenv) (t0 : Z) : list (string * list byte) :=
  let d := u64 (ktime e 0%nat - t0) in
  if deltath <? d then
    [(ReclaimEvents.reclaim_perf_events,
      encode (mk_re (cur_comm e) d (core_read_subsys e (cur_task e) cpu_cgrp_id) (cur_pid_tgid e)))]
  else [].

Lemma run_leave e s :
  wf s ->
  run (prog deltath Leave) e s =
    match s !! cur_pid_tgid e with
    | None => (s, [])
    | Some t => (delete (cur_pid_tgid e) s, report e (te_start_ns t))
    end.
Proof.
  intros Hwf. unfold prog, kretprobe_try_to_free_pages, func_trace_end, entry_read, func_trace_destroy.
  run_simpl. cbn [reclaim_traces mget mset]. destruct (s !! cur_pid_tgid e) as [t|] eqn:E; [|done].
  cbn [reclaim_traces mget mset]. rewrite !(alter_tec_lookup _ _ _ _ E). cbn [default id te_delta_ns te_id].
  unfold report.
  destruct (deltath <? _); run_simpl; cbn [reclaim_traces mget mset]; unfold hash_delete;
    rewrite !(alter_tec_lookup _ _ _ _ E); cbn [default id te_delta_ns te_id]; rewrite ?(Hwf _ _ E);
    rewrite ?(alter_tec_lookup _ _ _ _ E); by rewrite delete_alter_tec.
Qed.

Lemma wf_step e h s : wf s -> wf (fst (run (prog deltath h) e s)).
Proof.
  intros Hwf. destruct h.
  - rewrite run_enter, hash_update_any. case_if; [by apply map_Forall_insert_2|done].
  - rewrite run_leave by done. destruct (s !! _); [by apply map_Forall_delete|done].
Qed.

(** The invocations of other tasks leave a task's section alone. *)
Lemma reclaim_frame_step e h s k :
  wf s -> cur_pid_tgid e <> k -> fst (run (prog deltath h) e s) !! k = s !! k.
Proof.
  intros Hwf Hne. destruct h.
  - rewrite run_enter. by apply hash_update_lookup_ne.
  - rewrite run_leave by done. destruct (s !! cur_pid_tgid e); [|done].
    by apply lookup_delete_ne.
Qed.

Lemma reclaim_wf_exec l s : wf s -> wf (fst (exec deltath l s)).
Proof.
  intros Hwf. unfold exec. apply run_all_inv; [done|].
  apply Forall_map, Forall_true. intros [e h] s' Hs'. by apply wf_step.
Qed.

Lemma reclaim_frame_exec l s k :
  wf s -> Forall (fun '(e, _) => cur_pid_tgid e <> k) l -> fst (exec deltath l s) !! k = s !! k.
Proof.
  unfold exec. revert s. induction l as [|[e h] l IH]; intros s Hwf Hl; [done|].
  apply Forall_cons in Hl as [Hne Hl]. cbn [map]. rewrite run_all_cons_st.
  rewrite IH; [by apply reclaim_frame_step | by apply wf_step | done].
Qed.
End Facts.
End ReclaimEventsFacts.

(** ** Theorems *)

(** memory_free_compact.c, one invocation after another.  After any sequence of
    the four hooks by any tasks, each invocation run to its end before the next,
    the entry user space reads holds, modulo 2^64, the totals of the
    specification, which keeps the code's one start time per task.
    FreeCompactSmp.v has the invocations at the same time. *)
Theorem free_compact_refines l :
  let a := FreeCompact.spec_exec l FreeCompact.spec_init in
  FreeCompact.read_metric (FreeCompact.exec l FreeCompact.init) =
    FreeCompact.mk_mfc (u64 (FreeCompact.compaction a)) (u64 (FreeCompact.allocstall a)).
Proof. apply FreeCompactFacts.exec_repr. Qed.

(** C31: the duration reported for a reclaim is that task's own.  When the entry
    of [try_to_free_pages] found room in the map, then whatever other tasks do
    before the task leaves it, the return probe submits one event exactly when
    the elapsed time exceeds [deltath], with that elapsed time, and in every case
    the task's entry is gone afterwards. *)
Theorem reclaim_event_pairing deltath pre mid eb ee :
  let task := cur_pid_tgid eb in
  let s0 := fst (ReclaimEvents.exec deltath pre ∅) in
  cur_pid_tgid ee = task ->
  Forall (fun '(e, _) => cur_pid_tgid e <> task) mid ->
  Z.of_nat (size s0) < func_trace_max ->
  let s1 := fst (ReclaimEvents.exec deltath
                   (pre ++ (eb, ReclaimEvents.Enter) :: mid) ∅) in
  let d := u64 (ktime ee 0%nat - ktime eb 0%nat) in
  run (ReclaimEvents.kretprobe_try_to_free_pages deltath) ee s1 =
    (delete task s1,
     if deltath <? d then
       [(ReclaimEvents.reclaim_perf_events,
         ReclaimEvents.encode (ReclaimEvents.mk_re (cur_comm ee) d
           (core_read_subsys ee (cur_task ee) cpu_cgrp_id) task))]
     else []).
Proof.
  intros task s0 Hee Hmid Hroom s1 d. subst s1 d.
  assert (ReclaimEventsFacts.wf s0) as Hwf0.
  { apply ReclaimEventsFacts.reclaim_wf_exec. apply map_Forall_empty. }
  set (s1 := fst (ReclaimEvents.exec deltath (pre ++ (eb, ReclaimEvents.Enter) :: mid) ∅)).
  assert (s1 = fst (ReclaimEvents.exec deltath mid
            (fst (run (ReclaimEvents.prog deltath ReclaimEvents.Enter) eb s0)))) as Es1.
  { unfold s1, s0, ReclaimEvents.exec. rewrite map_app, run_all_app. cbn [map].
    destruct (run_all _ ∅) as [s o]. cbn [fst]. rewrite <- run_all_cons_st.
    by destruct (run_all _ s). }
  pose proof (ReclaimEventsFacts.wf_step deltath eb ReclaimEvents.Enter s0 Hwf0) as Hwf1.
  assert (s1 !! task = Some (mk_tec task (ktime eb 0%nat) 0)) as Hk.
  { rewrite Es1, ReclaimEventsFacts.reclaim_frame_exec by done.
    rewrite ReclaimEventsFacts.run_enter, hash_update_any.
    rewrite (proj2 (Z.ltb_lt _ _) Hroom), orb_true_r. apply lookup_insert_eq. }
  assert (ReclaimEventsFacts.wf s1) as Hwf.
  { rewrite Es1. by apply ReclaimEventsFacts.reclaim_wf_exec. }
  change (ReclaimEvents.kretprobe_try_to_free_pages deltath)
    with (ReclaimEvents.prog deltath ReclaimEvents.Leave).
  rewrite ReclaimEventsFacts.run_leave by done. rewrite Hee, Hk.
  unfold ReclaimEventsFacts.report. simpl. by rewrite Hee.
Qed.

Lemma reclaim_event_pairing_witness :
  snd (run (ReclaimEvents.kretprobe_try_to_free_pages 100) (example_env 900 7 0)
     (fst (ReclaimEvents.exec 100
        ([(example_env 100 3 0, ReclaimEvents.Enter)] ++
         (example_env 500 7 0, ReclaimEvents.Enter) ::
         [(example_env 600 8 1, ReclaimEvents.Enter); (example_env 650 3 0, ReclaimEvents.Leave)]) ∅))) =
  [(ReclaimEvents.reclaim_perf_events,
    ReclaimEvents.encode (ReclaimEvents.mk_re (replicate 16 Byte.x00) 400 0 7))].
Proof.
  rewrite (reclaim_event_pairing 100 [(example_env 100 3 0, ReclaimEvents.Enter)]
    [(example_env 600 8 1, ReclaimEvents.Enter); (example_env 650 3 0, ReclaimEvents.Leave)]
    (example_env 500 7 0) (example_env 900 7 0));
    [reflexivity | reflexivity | repeat constructor; discriminate | vm_compute; reflexivity].
Defined.

(** [func_trace_map] cannot overflow or go stale: after any interleaving of
    the probes it holds at most 10240 entries, each filed under the task it
    describes, and a task that has just returned from [try_to_free_pages] has no
    entry. *)
Theorem reclaim_map_invariant deltath l e :
  let s := fst (ReclaimEvents.exec deltath l ∅) in
  Z.of_nat (size s) <= func_trace_max /\
  map_Forall (fun k t => te_id t = k) s /\
  fst (run (ReclaimEvents.kretprobe_try_to_free_pages deltath) e s) !! cur_pid_tgid e = None.
Proof.
  intros s. assert (ReclaimEventsFacts.wf s) as Hwf.
  { apply ReclaimEventsFacts.reclaim_wf_exec. apply map_Forall_empty. }
  split; [|split; [done|]].
  - unfold s, ReclaimEvents.exec.
    apply (run_all_inv (fun s => ReclaimEventsFacts.wf s /\ Z.of_nat (size s) <= func_trace_max)).
    { split; [apply map_Forall_empty | rewrite map_size_empty; unfold func_trace_max; lia]. }
    apply Forall_map, Forall_true. intros [e' h] s' [Hw Hs].
    split; [by apply ReclaimEventsFacts.wf_step|]. destruct h.
    + rewrite ReclaimEventsFacts.run_enter. by apply hash_update_size.
    + rewrite ReclaimEventsFacts.run_leave by done. destruct (s' !! _) eqn:E; [|done].
      cbn [fst]. rewrite map_size_delete, E. simpl. lia.
  - change (ReclaimEvents.kretprobe_try_to_free_pages deltath)
      with (ReclaimEvents.prog deltath ReclaimEvents.Leave).
    rewrite ReclaimEventsFacts.run_leave by done.
    destruct (s !! cur_pid_tgid e) eqn:E; [apply lookup_delete_eq | done].
Qed.
