(* ===== verification/FreeCompactSmp.v ===== *)
(** * bpf/memory_free_compact.c at the level of map accesses

    Invocations of the four hooks by different tasks run at the same time on
    different CPUs. Here a step is one access to a map, or to an element through
    the pointer a lookup gave; the steps of the invocations interleave freely.
    The element of key 0 that an insertion replaces stays where it is, so an
    addition through an old pointer reaches an element the map no longer has.

    The specification is a log of the calls alone: a section is a call of a
    begin hook and the next call of the end hook of the same kind by the same
    task. [free_compact_accounts] accounts for every section of the log. *)
From S2P Require Import Prelude Bpf FuncTrace.
From stdpp Require Import base gmap list.
From Stdlib Require Import ZArith Lia.

Open Scope Z_scope.

Module FreeCompactSmp.
Import FuncTrace.FuncTrace FreeCompact.

Inductive kind := Reclaim | Compact.
#[global] Instance kind_eq_dec : EqDecision kind.
Proof. solve_decision. Defined.
Definition hook_kind (h : hook) : kind := match h with ReclaimBegin | ReclaimEnd => Reclaim | _ => Compact end.
Definition is_begin (h : hook) : bool := match h with ReclaimBegin | CompactBegin => true | _ => false end.

Definition stat (k : kind) (v : mm_free_compact_entry) : Z :=
  match k with Reclaim => allocstall_stat v | Compact => compaction_stat v end.

(** ** Invocations *)

(** The next access of an invocation. [now] is what bpf_ktime_get_ns returns in
    it, [valp] the element a lookup found. *)
Inductive pc :=
| BeginUpdate (now : Z)
| EndLookup (free_pages : bool) (now : Z)
| EndStore (free_pages : bool) (now : Z)
| EndRead (free_pages : bool)
| MetricLookup (free_delta_ns compact_delta_ns : Z)
| MetricInsert (free_delta_ns compact_delta_ns : Z)
| MetricAddFree (valp : nat) (free_delta_ns compact_delta_ns : Z)
| MetricAddCompact (valp : nat) (compact_delta_ns : Z)
| EndReadId
| EndDestroy (id : Z).

(** The maps, the elements of mm_free_compact_map by address with the one that
    key 0 has, and the invocations, at most one per task. *)
Record sys := mk_sys
  { traces : gmap Z trace_entry_ctx; elems : gmap nat mm_free_compact_entry; slot : option nat; running : gmap Z pc }.
Definition init : sys := mk_sys ∅ ∅ None ∅.

(** The start of an invocation, up to its first access. *)
Definition entry_pc (e : kenv) (h : hook) : pc :=
  let now := ktime e 0%nat in
  match h with
  | ReclaimBegin | CompactBegin => BeginUpdate now
  | ReclaimEnd => EndLookup true now
  | CompactEnd => EndLookup false now
  end.

Definition set_pc (t : Z) (p : pc) (s : sys) : sys := mk_sys (traces s) (elems s) (slot s) (<[t := p]> (running s)).
Definition set_traces (m : gmap Z trace_entry_ctx) (s : sys) : sys := mk_sys m (elems s) (slot s) (running s).
Definition set_elems (m : gmap nat mm_free_compact_entry) (s : sys) : sys := mk_sys (traces s) m (slot s) (running s).
Definition return_ (t : Z) (s : sys) : sys := mk_sys (traces s) (elems s) (slot s) (delete t (running s)).

Definition add_free (d : Z) (v : mm_free_compact_entry) := mk_mfc (compaction_stat v) (u64 (allocstall_stat v + d)).
Definition add_compact (d : Z) (v : mm_free_compact_entry) := mk_mfc (u64 (compaction_stat v + d)) (allocstall_stat v).

(** The next access of the invocation of task [t]; an insertion takes an element
    [a] that is not the present one. *)
Definition step (t : Z) (a : nat) (s : sys) : option sys :=
  p ← running s !! t;
  match p with
  | BeginUpdate now =>
      Some (return_ t (set_traces (hash_update func_trace_max t (mk_tec t now 0) COMPAT_BPF_ANY (traces s)).2 s))
  | EndLookup b now =>
      match traces s !! t with
      | None => Some (return_ t s)
      | Some _ => Some (set_pc t (EndStore b now) s)
      end
  | EndStore b now =>
      Some (set_pc t (EndRead b) (set_traces
        (alter (fun e => mk_tec (te_id e) (te_start_ns e) (u64 (now - te_start_ns e))) t (traces s)) s))
  | EndRead b =>
      let d := te_delta_ns (default zero_tec (traces s !! t)) in
      Some (set_pc t (if b then MetricLookup d 0 else MetricLookup 0 d) s)
  | MetricLookup f c =>
      Some (set_pc t (match slot s with None => MetricInsert f c | Some valp => MetricAddFree valp f c end) s)
  | MetricInsert f c =>
      if bool_decide (slot s = Some a) then None
      else Some (mk_sys (traces s) (<[a := mk_mfc c f]> (elems s)) (Some a) (<[t := EndReadId]> (running s)))
  | MetricAddFree valp f c =>
      Some (set_pc t (MetricAddCompact valp c) (set_elems (if f =? 0 then elems s else alter (add_free f) valp (elems s)) s))
  | MetricAddCompact valp c =>
      Some (set_pc t EndReadId (set_elems (if c =? 0 then elems s else alter (add_compact c) valp (elems s)) s))
  | EndReadId => Some (set_pc t (EndDestroy (te_id (default zero_tec (traces s !! t)))) s)
  | EndDestroy id => Some (return_ t (set_traces (delete id (traces s)) s))
  end.

(** A task calls a hook when it is in none. *)
Definition call (e : kenv) (h : hook) (s : sys) : option sys :=
  match running s !! cur_pid_tgid e with
  | Some _ => None
  | None => Some (set_pc (cur_pid_tgid e) (entry_pc e h) s)
  end.

Inductive label := Call (e : kenv) (h : hook) | Step (t : Z) (a : nat).
Definition move (l : label) (s : sys) : option sys :=
  match l with Call e h => call e h s | Step t a => step t a s end.
Fixpoint run_steps (ls : list label) (s : sys) : option sys :=
  match ls with [] => Some s | l :: ls' => s' ← move l s; run_steps ls' s' end.

(** ** Specification *)

(** The sections open, by task, and the durations of those closed. *)
Record log := mk_log { opened : gmap Z (kind * Z); closed : list (kind * Z) }.
Definition log_init : log := mk_log ∅ [].

Definition log_call (e : kenv) (h : hook) (g : log) : log :=
  let t := cur_pid_tgid e in
  let now := ktime e 0%nat in
  if is_begin h then mk_log (<[t := (hook_kind h, now)]> (opened g)) (closed g)
  else match opened g !! t with
       | None => g
       | Some (k, t0) => mk_log (delete t (opened g)) (closed g ++ [(k, u64 (now - t0))])
       end.
Definition log_label (g : log) (l : label) : log := match l with Call e h => log_call e h g | Step _ _ => g end.
Definition log_of (ls : list label) : log := foldl log_label log_init ls.

(** Brackets: a task opens a section only out of one, and an end of a kind
    closes a section of that kind (or, of a section begun before the programs
    were attached, none). *)
Definition bracket_ok (g : log) (e : kenv) (h : hook) : Prop :=
  match opened g !! cur_pid_tgid e with
  | None => True
  | Some (k, _) => is_begin h = false /\ hook_kind h = k
  end.
Fixpoint bracketed (ls : list label) (g : log) : Prop :=
  match ls with
  | [] => True
  | l :: ls' => match l with Call e h => bracket_ok g e h | Step _ _ => True end /\ bracketed ls' (log_label g l)
  end.

Definition task_of (l : label) : Z := match l with Call e _ => cur_pid_tgid e | Step t _ => t end.
Definition tasks (ls : list label) : gset Z := list_to_set (task_of <$> ls).

Definition total (k : kind) (l : list (kind * Z)) : Z :=
  foldr (fun x n => (if bool_decide (x.1 = k) then x.2 else 0) + n) 0 l.

(** What user space reads, and what the invocations are still to add. *)
Definition metric (k : kind) (s : sys) : Z :=
  match slot s with None => 0 | Some a => stat k (default (mk_mfc 0 0) (elems s !! a)) end.
Definition part (k : kind) (f c : Z) : Z := match k with Reclaim => f | Compact => c end.
Definition part_of (k : kind) (free_pages : bool) (d : Z) : Z := if free_pages then part k d 0 else part k 0 d.
Definition pends (k : kind) (entry : option trace_entry_ctx) (p : pc) : Z :=
  match p with
  | EndLookup b now | EndStore b now => match entry with None => 0 | Some e => part_of k b (u64 (now - te_start_ns e)) end
  | EndRead b => match entry with None => 0 | Some e => part_of k b (te_delta_ns e) end
  | MetricLookup f c | MetricInsert f c | MetricAddFree _ f c => part k f c
  | MetricAddCompact _ c => part k 0 c
  | _ => 0
  end.
Definition pending (k : kind) (s : sys) : Z :=
  map_fold (fun t p n => pends k (traces s !! t) p + n) 0 (running s).

(** What a step loses: what an element holds that an insertion replaces, and
    what is added to an element that was replaced. *)
Definition loses (k : kind) (l : label) (s : sys) : Z :=
  match l with
  | Call _ _ => 0
  | Step t _ =>
      match running s !! t with
      | Some (MetricInsert _ _) => metric k s
      | Some (MetricAddFree valp f _) => if bool_decide (slot s = Some valp) then 0 else part k f 0
      | Some (MetricAddCompact valp c) => if bool_decide (slot s = Some valp) then 0 else part k 0 c
      | _ => 0
      end
  end.
Fixpoint lost (k : kind) (ls : list label) (s : sys) : Z :=
  match ls with
  | [] => 0
  | l :: ls' => loses k l s + match move l s with Some s' => lost k ls' s' | None => 0 end
  end.

(** The entry of key 0 is there, no invocation is about to insert one, and every
    addition goes to it. *)
Definition settled (s : sys) : Prop :=
  exists a, slot s = Some a /\
    map_Forall (fun _ p => match p with
                           | MetricInsert _ _ => False
                           | MetricAddFree valp _ _ | MetricAddCompact valp _ => valp = a
                           | _ => True
                           end) (running s).

(** ** Sums over the invocations *)

Definition pend_map (k : kind) (s : sys) : gmap Z Z := map_imap (fun t p => Some (pends k (traces s !! t) p)) (running s).
Definition pend_at (k : kind) (t : Z) (s : sys) : Z :=
  match running s !! t with Some p => pends k (traces s !! t) p | None => 0 end.

Lemma pend_map_lookup k s t : pend_map k s !! t = pends k (traces s !! t) <$> running s !! t.
Proof. unfold pend_map. rewrite map_lookup_imap. by destruct (running s !! t). Qed.

Lemma pending_sum k s : pending k s = map_sum id (pend_map k s).
Proof.
  unfold pending, pend_map. generalize (traces s) as tr. induction (running s) as [|t p m Hm Hf IH] using map_first_key_ind; intros tr.
  - rewrite map_imap_empty, map_fold_empty. by rewrite map_sum_empty.
  - rewrite map_fold_insert_L; [|intros; lia | done].
    rewrite map_imap_insert_Some with (y := pends k (tr !! t) p) by done.
    rewrite map_sum_insert_new by (by rewrite map_lookup_imap, Hm). by rewrite <- IH.
Qed.

Lemma map_sum_at (m : gmap Z Z) t : map_sum id m = default 0 (m !! t) + map_sum id (delete t m).
Proof.
  destruct (m !! t) as [x|] eqn:E; cbn [default from_option].
  - by rewrite (map_sum_delete id m t x E).
  - by rewrite delete_id.
Qed.

(** A step of one task changes the sum by what it changes for that task. *)
Lemma pending_change k t s s' :
  (forall t', t' <> t -> running s' !! t' = running s !! t' /\ traces s' !! t' = traces s !! t') ->
  pending k s' - pend_at k t s' = pending k s - pend_at k t s.
Proof.
  intros H. rewrite !pending_sum, !(map_sum_at (pend_map k _) t).
  assert (delete t (pend_map k s') = delete t (pend_map k s)) as ->.
  { apply map_eq. intros t'. destruct (decide (t' = t)) as [->|Hne]; [by rewrite !lookup_delete_eq|].
    rewrite !lookup_delete_ne, !pend_map_lookup by done. destruct (H t' Hne) as [-> ->]. done. }
  rewrite !pend_map_lookup. unfold pend_at. destruct (running s !! t), (running s' !! t); cbn; lia.
Qed.

(** ** The invariant *)

Definition task_inv (t : Z) (p : option pc) (e : option trace_entry_ctx) (o : option (kind * Z)) : Prop :=
  match p with
  | None => match o with Some (_, t0) => exists d, e = Some (mk_tec t t0 d) | None => e = None end
  | Some (BeginUpdate now) => e = None /\ exists k, o = Some (k, now)
  | Some (EndLookup _ _) => o = None /\ (e = None \/ exists t0 d, e = Some (mk_tec t t0 d))
  | Some (EndDestroy id) => id = t /\ o = None /\ exists t0 d, e = Some (mk_tec t t0 d)
  | Some _ => o = None /\ exists t0 d, e = Some (mk_tec t t0 d)
  end.

Record inv (T : gset Z) (s : sys) (g : log) : Prop := mk_inv {
  inv_task : forall t, task_inv t (running s !! t) (traces s !! t) (opened g !! t);
  inv_dom : dom (traces s) ⊆ T;
  inv_slot : forall a, slot s = Some a -> is_Some (elems s !! a)
}.

Lemma inv_init T : inv T init log_init.
Proof. constructor; [intros t; cbn; by rewrite !lookup_empty | cbn; set_solver | done]. Qed.

(** There is room in func_trace_map for every task. *)
Lemma begin_room (T : gset Z) (m : gmap Z trace_entry_ctx) t e :
  dom m ⊆ T -> t ∈ T -> m !! t = None -> Z.of_nat (size T) <= func_trace_max ->
  (hash_update func_trace_max t e COMPAT_BPF_ANY m).2 = <[t := e]> m.
Proof.
  intros Hd Ht Hn Hs. rewrite hash_update_any. assert (size m < size T)%nat as Hlt.
  { rewrite <- size_dom. apply subset_size. split; [done|]. intros Hsub. apply Hsub in Ht.
    apply not_elem_of_dom in Hn. done. }
  rewrite (proj2 (Z.ltb_lt _ _)) by lia. by rewrite orb_true_r.
Qed.

(** The other tasks are not touched by a step. *)
Lemma step_frame T t a s s' g : inv T s g -> step t a s = Some s' ->
  t ∈ T -> Z.of_nat (size T) <= func_trace_max ->
  forall t', t' <> t -> running s' !! t' = running s !! t' /\ traces s' !! t' = traces s !! t'.
Proof.
  intros Hi H Ht Hs t' Hne. unfold step in H. pose proof (inv_task _ _ _ Hi t) as Hp.
  destruct (running s !! t) as [p|]; [|done]. cbn [mbind option_bind] in H.
  destruct p; cbn [task_inv] in Hp; repeat case_match; simplify_eq; cbn [running traces set_pc set_traces set_elems return_];
    rewrite ?lookup_insert_ne, ?lookup_delete_ne, ?lookup_alter_ne by done; try done.
  - split; [done|]. destruct Hp as [Hn _]. rewrite (begin_room T _ t _ (inv_dom _ _ _ Hi) Ht Hn Hs). by apply lookup_insert_ne.
  - split; [done|]. destruct Hp as (-> & _). by apply lookup_delete_ne.
Qed.

Lemma step_task_inv T t a s s' g : inv T s g -> step t a s = Some s' ->
  t ∈ T -> Z.of_nat (size T) <= func_trace_max -> task_inv t (running s' !! t) (traces s' !! t) (opened g !! t).
Proof.
  intros Hi H Ht Hs. unfold step in H. pose proof (inv_task _ _ _ Hi t) as Hp.
  destruct (running s !! t) as [p|]; [|done]. cbn [mbind option_bind] in H.
  destruct p as [now|b now|b now|b|f c|f c|v f c|v c| |id]; cbn [task_inv] in Hp; simplify_eq;
    cbn [running traces set_pc set_traces set_elems return_]; rewrite ?lookup_insert_eq, ?lookup_delete_eq; cbn [task_inv].
  - destruct Hp as [Hn [k ->]]. rewrite (begin_room T _ t _ (inv_dom _ _ _ Hi) Ht Hn Hs). rewrite lookup_insert_eq. by exists 0.
  - destruct Hp as [Ho He]. destruct (traces s !! t) as [e|] eqn:E; simplify_eq; cbn [running traces set_pc return_].
    + rewrite lookup_insert_eq, E. split; [done|]. by destruct He as [[=]|He].
    + by rewrite lookup_delete_eq, E, Ho.
  - destruct Hp as [Ho (t0 & d & E)]. rewrite lookup_alter_eq, E. split; [done|]. by eexists _, _.
  - destruct b; exact Hp.
  - destruct (slot s); exact Hp.
  - case_bool_decide; simplify_eq. cbn [running traces]. rewrite lookup_insert_eq. exact Hp.
  - exact Hp.
  - exact Hp.
  - destruct Hp as [Ho (t0 & d & E)]. rewrite E. cbn. split; [done|]. split; [done|]. by eexists _, _.
  - destruct Hp as (-> & -> & _). by rewrite lookup_delete_eq.
Qed.

Lemma step_inv T t a s s' g : inv T s g -> step t a s = Some s' ->
  t ∈ T -> Z.of_nat (size T) <= func_trace_max -> inv T s' g.
Proof.
  intros Hi H Ht Hs. constructor.
  - intros t'. destruct (decide (t' = t)) as [->|Hne]; [by eapply step_task_inv|].
    destruct (step_frame T t a s s' g Hi H Ht Hs t' Hne) as [-> ->]. apply Hi.
  - assert (dom (traces s') ⊆ {[t]} ∪ dom (traces s)) as Hd.
    { intros t'. rewrite elem_of_union, elem_of_singleton, !elem_of_dom.
      destruct (decide (t' = t)) as [->|Hne]; [by left|].
      destruct (step_frame T t a s s' g Hi H Ht Hs t' Hne) as [_ ->]. by right. }
    pose proof (inv_dom _ _ _ Hi). set_solver.
  - unfold step in H. destruct (running s !! t) as [p|]; [|done]. cbn [mbind option_bind] in H.
    destruct p; repeat case_match; simplify_eq; cbn [slot elems set_pc set_traces set_elems return_]; intros a' Ha;
      first [by apply (inv_slot _ _ _ Hi) | by apply lookup_alter_is_Some, (inv_slot _ _ _ Hi)
            | injection Ha as <-; by rewrite lookup_insert_eq].
Qed.

Lemma call_inv T e h s s' g : inv T s g -> bracket_ok g e h -> call e h s = Some s' -> inv T s' (log_call e h g).
Proof.
  intros Hi Hb H. unfold call in H. set (t := cur_pid_tgid e) in *. pose proof (inv_task _ _ _ Hi t) as Hp.
  destruct (running s !! t) eqn:Er; [done|]. injection H as <-. cbn [task_inv] in Hp.
  unfold bracket_ok in Hb. fold t in Hb. constructor; [|apply Hi|apply Hi].
  intros t'. cbn [running traces set_pc]. destruct (decide (t' = t)) as [->|Hne].
  - rewrite lookup_insert_eq. unfold log_call. fold t. destruct h; cbn [entry_pc is_begin hook_kind task_inv opened] in *;
      destruct (opened g !! t) as [[k t0]|] eqn:Eo; cbn [opened]; rewrite ?lookup_insert_eq, ?lookup_delete_eq, ?Eo;
      try (by destruct Hb); eauto; split; try done; (right; destruct Hp as [d ->]; by eexists _, _) || by left.
  - rewrite lookup_insert_ne by done. pose proof (inv_task _ _ _ Hi t') as Hp'. unfold log_call. fold t.
    destruct (is_begin h); [cbn [opened]; by rewrite lookup_insert_ne by done|].
    destruct (opened g !! t) as [[k t0]|]; [cbn [opened]; by rewrite lookup_delete_ne by done | done].
Qed.

(** ** Accounting *)

Lemma u64_eq_add a b c d : u64 a = u64 b -> c = d -> u64 (a + c) = u64 (b + d).
Proof. intros H ->. by rewrite <- (u64_add_l a), H, u64_add_l. Qed.

Lemma total_app k l1 l2 : total k (l1 ++ l2) = total k l1 + total k l2.
Proof. unfold total. induction l1 as [|x l1 IH]; cbn [app foldr]; [done|]. rewrite IH. lia. Qed.

Lemma total_one k (b : bool) d : total k [(if b then Reclaim else Compact, d)] = part_of k b d.
Proof. unfold total. destruct b, k; cbn [foldr fst snd]; case_bool_decide; cbn; first [lia | done]. Qed.

(** A call owes what it closes. *)
Lemma call_accounts T e h s s' g k : inv T s g -> bracket_ok g e h -> call e h s = Some s' ->
  metric k s' = metric k s /\ pending k s' - pending k s = total k (closed (log_call e h g)) - total k (closed g).
Proof.
  intros Hi Hb H. unfold call in H. set (t := cur_pid_tgid e) in *. pose proof (inv_task _ _ _ Hi t) as Hp.
  destruct (running s !! t) eqn:Er; [done|]. injection H as <-. split; [done|].
  pose proof (pending_change k t s (set_pc t (entry_pc e h) s)) as Hch.
  assert (pend_at k t s = 0) as E0 by (unfold pend_at; by rewrite Er). rewrite E0 in Hch.
  assert (pend_at k t (set_pc t (entry_pc e h) s) = total k (closed (log_call e h g)) - total k (closed g)) as E1.
  { unfold pend_at. cbn [running traces set_pc]. rewrite lookup_insert_eq. unfold bracket_ok, log_call in *. fold t in Hb |- *.
    cbn [task_inv] in Hp. destruct h; cbn [entry_pc is_begin hook_kind pends] in *; try (cbn [closed]; lia);
      destruct (opened g !! t) as [[k0 t0]|]; cbn [closed]; try (rewrite Hp; lia);
      destruct Hp as [d ->]; destruct Hb as [_ <-]; rewrite total_app; cbn [te_start_ns];
      [rewrite (total_one k true) | rewrite (total_one k false)]; lia. }
  rewrite E1 in Hch. lapply Hch; [lia|]. intros t' Hne. cbn [running traces set_pc]. by rewrite lookup_insert_ne by done.
Qed.

(** What an addition does to the metric. *)
Lemma metric_add k s v d f : (forall x, stat k (f x) = u64 (stat k x + d)) \/ d = 0 /\ (forall x, stat k (f x) = stat k x) ->
  (forall a, slot s = Some a -> is_Some (elems s !! a)) ->
  u64 (metric k (set_elems (alter f v (elems s)) s) + (if bool_decide (slot s = Some v) then 0 else d)) = u64 (metric k s + d).
Proof.
  intros Hf Hs. unfold metric. cbn [slot elems set_elems]. destruct (slot s) as [a|]; [|done].
  destruct (Hs a eq_refl) as [x Hx]. case_bool_decide as Hb.
  - injection Hb as <-. rewrite lookup_alter_eq, Hx. cbn [fmap option_fmap option_map default from_option id].
    rewrite Z.add_0_r. destruct Hf as [->|[-> ->]]; [|by rewrite Z.add_0_r].
    apply u64_small, u64_range.
  - by rewrite lookup_alter_ne by congruence.
Qed.

(** What a step does to the metric, to what its task owes and to the loss. *)
Lemma step_metric T t a s s' g k : inv T s g -> step t a s = Some s' -> t ∈ T -> Z.of_nat (size T) <= func_trace_max ->
  u64 (metric k s' + pend_at k t s' + loses k (Step t a) s) = u64 (metric k s + pend_at k t s).
Proof.
  intros Hi H Ht Hs. pose proof (inv_task _ _ _ Hi t) as Hp. unfold step in H. unfold pend_at, loses.
  destruct (running s !! t) as [p|] eqn:Er; [|done]. cbn [mbind option_bind] in H.
  destruct p as [now|b now|b now|b|f c|f c|v f c|v c| |id]; cbn [task_inv] in Hp; cbv beta iota; rewrite ?Z.add_0_r.
  - injection H as <-. cbn [running traces return_ set_traces]. rewrite lookup_delete_eq. unfold metric. cbn [slot elems]. f_equal. cbn. lia.
  - destruct (traces s !! t) as [e|] eqn:E; injection H as <-; cbn [running traces return_ set_pc];
      rewrite ?lookup_delete_eq, ?lookup_insert_eq; unfold metric; cbn [slot elems pends]; by rewrite ?E.
  - injection H as <-. cbn [running traces set_pc set_traces]. rewrite lookup_insert_eq, lookup_alter_eq.
    destruct Hp as [_ (t0 & d & ->)]. unfold metric. cbn. done.
  - injection H as <-. cbn [running traces set_pc]. rewrite lookup_insert_eq.
    destruct Hp as [_ (t0 & d & ->)]. unfold metric. cbn. by destruct b, k.
  - injection H as <-. cbn [running traces set_pc]. rewrite lookup_insert_eq. unfold metric. cbn [slot elems set_pc].
    destruct (slot s); done.
  - case_bool_decide; [done|]. injection H as <-. cbn [running traces]. rewrite lookup_insert_eq. unfold metric at 1. cbn [slot elems].
    rewrite lookup_insert_eq. cbn [default from_option id pends]. f_equal. destruct k; cbn; lia.
  - injection H as <-. cbn [running traces set_pc set_elems]. rewrite lookup_insert_eq. cbn [pends].
    pose proof (metric_add k s v (part k f 0) (add_free f) ltac:(destruct k; [left | right]; done) (inv_slot _ _ _ Hi)) as Hm.
    destruct (Z.eqb_spec f 0) as [->|].
    + unfold metric. cbn [slot elems]. destruct (bool_decide _), k; cbn; f_equal; lia.
    + apply (u64_eq_add _ _ (part k 0 c) (part k 0 c)) in Hm; [|done]. unfold metric in *. cbn [slot elems set_pc set_elems] in *.
      etrans; [|etrans; [exact Hm|]]; f_equal; destruct k; cbn; lia.
  - injection H as <-. cbn [running traces set_pc set_elems]. rewrite lookup_insert_eq. cbn [pends].
    pose proof (metric_add k s v (part k 0 c) (add_compact c) ltac:(destruct k; [right | left]; done) (inv_slot _ _ _ Hi)) as Hm.
    destruct (Z.eqb_spec c 0) as [->|].
    + unfold metric. cbn [slot elems]. destruct (bool_decide _), k; cbn; f_equal; lia.
    + unfold metric in *. cbn [slot elems set_pc set_elems] in *. rewrite Z.add_0_r. exact Hm.
  - injection H as <-. cbn [running traces set_pc]. rewrite lookup_insert_eq. unfold metric. cbn [slot elems set_pc pends]. f_equal; lia.
  - injection H as <-. cbn [running traces return_ set_traces]. rewrite lookup_delete_eq. unfold metric. cbn [slot elems return_ set_traces pends].
    f_equal; lia.
Qed.

(** One move: the metric, what is owed and what is lost grow by the sections
    the move closes. *)
Lemma move_accounts T l s s' g k : inv T s g -> match l with Call e h => bracket_ok g e h | Step _ _ => True end ->
  move l s = Some s' -> task_of l ∈ T -> Z.of_nat (size T) <= func_trace_max ->
  inv T s' (log_label g l) /\
  u64 (metric k s' + pending k s' + loses k l s) =
    u64 (metric k s + pending k s + (total k (closed (log_label g l)) - total k (closed g))).
Proof.
  intros Hi Hb H Ht Hs. destruct l as [e h|t a]; cbn [move log_label task_of loses] in *.
  - split; [by eapply call_inv|]. destruct (call_accounts T e h s s' g k Hi Hb H) as [-> Hp]. f_equal. lia.
  - split; [by eapply step_inv|]. pose proof (step_metric T t a s s' g k Hi H Ht Hs) as Hm.
    pose proof (pending_change k t s s' (step_frame T t a s s' g Hi H Ht Hs)) as Hc.
    apply (u64_eq_add _ _ (pending k s - pend_at k t s) (pending k s - pend_at k t s)) in Hm; [|done].
    cbn [loses] in Hm. etrans; [|etrans; [exact Hm|]]; f_equal; lia.
Qed.

Lemma run_accounts T k ls : forall s s' g L, inv T s g -> bracketed ls g -> run_steps ls s = Some s' ->
  Forall (fun l => task_of l ∈ T) ls -> Z.of_nat (size T) <= func_trace_max ->
  u64 (metric k s + pending k s + L) = u64 (total k (closed g)) ->
  u64 (metric k s' + pending k s' + (L + lost k ls s)) = u64 (total k (closed (foldl log_label g ls))).
Proof.
  induction ls as [|l ls IH]; intros s s' g L Hi Hb Hr Ht Hs HL; cbn [run_steps bracketed lost foldl] in *.
  - injection Hr as <-. by rewrite Z.add_0_r.
  - destruct (move l s) as [s1|] eqn:E; [|done]. cbn [mbind option_bind] in Hr. apply Forall_cons in Ht as [Ht1 Ht].
    destruct Hb as [Hb1 Hb]. destruct (move_accounts T l s s1 g k Hi Hb1 E Ht1 Hs) as [Hi1 Ha].
    replace (L + (loses k l s + lost k ls s1)) with (L + loses k l s + lost k ls s1) by lia.
    apply IH; [done | done | done | done | done|].
    apply (u64_eq_add _ _ L L) in Ha; [|done].
    apply (u64_eq_add _ _ (total k (closed (log_label g l)) - total k (closed g)) (total k (closed (log_label g l)) - total k (closed g))) in HL; [|done].
    etrans; [|etrans; [exact Ha|etrans; [|etrans; [exact HL|]]]]; f_equal; lia.
Qed.

(** ** Once settled *)

Lemma settled_move l s s' : settled s -> move l s = Some s' -> settled s' /\ forall k, loses k l s = 0.
Proof.
  intros (a & Hs & Hp) H. destruct l as [e h|t a']; cbn [move loses] in *.
  - split; [|done]. unfold call in H. destruct (running s !! _); [done|]. injection H as <-. exists a. split; [done|].
    cbn [running set_pc]. apply map_Forall_insert_2; [by destruct h | done].
  - unfold step in H. destruct (running s !! t) as [p|] eqn:Er; [|done]. cbn [mbind option_bind] in H.
    pose proof (map_Forall_lookup_1 _ _ _ _ Hp Er) as Hpt. cbn beta in Hpt. split.
    + exists a. destruct p; try done; repeat case_match; simplify_eq; cbn [slot running set_pc set_elems set_traces return_]; (split; [done|]);
        first [by apply map_Forall_delete | by apply map_Forall_insert_2].
    + intros k. destruct p; try done; subst valp; by rewrite bool_decide_eq_true_2.
Qed.

Lemma settled_lost k ls : forall s, settled s -> lost k ls s = 0.
Proof.
  induction ls as [|l ls IH]; intros s Hs; cbn [lost]; [done|]. destruct (move l s) as [s1|] eqn:E.
  - destruct (settled_move l s s1 Hs E) as [H1 ->]. by rewrite IH.
  - destruct l as [e h|t a]; [done|]. cbn [loses move] in *. destruct Hs as (b & Hb & Hp).
    destruct (running s !! t) as [p|] eqn:Er; [|done]. pose proof (map_Forall_lookup_1 _ _ _ _ Hp Er) as Hpt. cbn beta in Hpt.
    destruct p; try done; subst valp; by rewrite bool_decide_eq_true_2.
Qed.

Lemma lost_app k ls1 ls2 : forall s s1, run_steps ls1 s = Some s1 -> lost k (ls1 ++ ls2) s = lost k ls1 s + lost k ls2 s1.
Proof.
  induction ls1 as [|l ls1 IH]; intros s s1 H; cbn [run_steps app lost] in *; [by injection H as <-|].
  destruct (move l s) as [s2|]; [|done]. cbn [mbind option_bind] in H. rewrite (IH s2 s1 H). lia.
Qed.

(** The first insertion without a race: no two invocations are about to insert. *)
Definition one_inserter (s : sys) : Prop := forall t1 t2 f1 c1 f2 c2,
  running s !! t1 = Some (MetricInsert f1 c1) -> running s !! t2 = Some (MetricInsert f2 c2) -> t1 = t2.

(** Before the first insertion no invocation adds. *)
Definition unraced (s : sys) : Prop :=
  settled s \/
  slot s = None /\ map_Forall (fun _ p => match p with MetricAddFree _ _ _ | MetricAddCompact _ _ => False | _ => True end) (running s).

Lemma unraced_move l s s' : unraced s -> one_inserter s -> move l s = Some s' -> unraced s' /\ forall k, loses k l s = 0.
Proof.
  intros [Hs|[Hn Hp]] H1 H.
  { destruct (settled_move l s s' Hs H) as [? ?]. split; [by left | done]. }
  destruct l as [e h|t a]; cbn [move loses] in *.
  - split; [|done]. unfold call in H. destruct (running s !! _); [done|]. injection H as <-. right. split; [done|].
    cbn [running set_pc]. apply map_Forall_insert_2; [by destruct h | done].
  - unfold step in H. destruct (running s !! t) as [p|] eqn:Er; [|done]. cbn [mbind option_bind] in H.
    pose proof (map_Forall_lookup_1 _ _ _ _ Hp Er) as Hpt. cbn beta in Hpt. rewrite Hn in H. split.
    + destruct p as [now|b now|b now|b|f c|f c|v f c|v c| |id]; try done.
      6: { injection H as <-. left. exists a. split; [done|]. cbn [running]. intros t' p'.
           rewrite lookup_insert_Some. intros [[<- <-]|[Hne Hp']]; [done|].
           pose proof (map_Forall_lookup_1 _ _ _ _ Hp Hp') as Hpt'. cbn beta in Hpt'. destruct p'; try done.
           by rewrite (H1 _ _ _ _ _ _ Er Hp') in Hne. }
      all: right; repeat case_match; simplify_eq; cbn [slot running set_pc set_elems set_traces return_]; (split; [done|]);
        first [by apply map_Forall_delete | by apply map_Forall_insert_2].
    + intros k. destruct p; try done. unfold metric. by rewrite Hn.
Qed.

Lemma unraced_lost k ls : forall s, unraced s ->
  (forall pre post sp, ls = pre ++ post -> run_steps pre s = Some sp -> one_inserter sp) ->
  is_Some (run_steps ls s) -> lost k ls s = 0.
Proof.
  induction ls as [|l ls IH]; intros s Hs Hone [sf Hr]; cbn [lost]; [done|]. cbn [run_steps] in Hr.
  destruct (move l s) as [s1|] eqn:E; [|done]. cbn [mbind option_bind] in Hr.
  destruct (unraced_move l s s1 Hs (Hone [] (l :: ls) s eq_refl eq_refl) E) as [H1 ->]. rewrite IH; [done | done | | by eexists].
  intros pre post sp -> Hpre. apply (Hone (l :: pre) post); [done|]. cbn [run_steps]. by rewrite E.
Qed.

(** ** An invocation by itself is the program *)

(** The maps as the programs of [FreeCompact] see them. *)
Definition view (s : sys) : state :=
  mk_state (traces s) (match slot s ≫= (fun a => elems s !! a) with Some v => {[ 0 := v ]} | None => ∅ end).
Fixpoint finish (n : nat) (t : Z) (a : nat) (s : sys) : option sys :=
  match running s !! t with
  | None => Some s
  | Some _ => match n with O => None | S n' => step t a s ≫= finish n' t a end
  end.

Definition slot_ok (s : sys) : Prop := forall a, slot s = Some a -> is_Some (elems s !! a).

Lemma finish_return n t a s : running s !! t = None -> finish n t a s = Some s.
Proof. intros H. destruct n; cbn [finish]; by rewrite H. Qed.

Lemma finish_step n t a s p s' : running s !! t = Some p -> step t a s = Some s' -> finish (S n) t a s = finish n t a s'.
Proof. intros Hp Hs. cbn [finish]. rewrite Hp, Hs. done. Qed.

(** The steps from the lookup in mm_free_compact_map on. *)
Lemma finish_metric t a tr el sl ru f c e : tr !! t = Some e -> te_id e = t -> sl <> Some a ->
  (forall a', sl = Some a' -> is_Some (el !! a')) ->
  exists el' sl', finish 6 t a (mk_sys tr el sl (<[t := MetricLookup f c]> ru)) = Some (mk_sys (delete t tr) el' sl' (delete t ru)) /\
    slot_ok (mk_sys (delete t tr) el' sl' (delete t ru)) /\
    mm_free_compact_map (view (mk_sys (delete t tr) el' sl' (delete t ru))) =
      FreeCompactFacts.add_metric f c (mm_free_compact_map (view (mk_sys tr el sl ru))).
Proof.
  intros He Hid Ha Hok.
  assert (forall n el sl, finish (S (S n)) t a (mk_sys tr el sl (<[t := EndReadId]> ru)) = Some (mk_sys (delete t tr) el sl (delete t ru))) as Hend.
  { intros n el1 sl1. erewrite finish_step; [|apply lookup_insert_eq | unfold step; cbn [running]; by rewrite lookup_insert_eq].
    unfold set_pc. cbn [traces running elems slot]. rewrite He. cbn [default from_option id]. rewrite Hid, insert_insert_eq.
    erewrite finish_step; [|apply lookup_insert_eq | unfold step; cbn [running]; by rewrite lookup_insert_eq].
    unfold return_, set_traces. cbn [traces elems slot running]. rewrite delete_insert_eq.
    apply finish_return. cbn [running]. by rewrite lookup_delete_eq. }
  erewrite finish_step; [|apply lookup_insert_eq | unfold step; cbn [running]; by rewrite lookup_insert_eq].
  unfold set_pc. cbn [traces elems slot running]. rewrite insert_insert_eq. destruct sl as [v|].
  - destruct (Hok v eq_refl) as [x Hx].
    erewrite finish_step; [|apply lookup_insert_eq | unfold step; cbn [running]; by rewrite lookup_insert_eq].
    unfold set_pc, set_elems. cbn [traces elems slot running]. rewrite insert_insert_eq.
    erewrite finish_step; [|apply lookup_insert_eq | unfold step; cbn [running]; by rewrite lookup_insert_eq].
    unfold set_pc, set_elems. cbn [traces elems slot running]. rewrite insert_insert_eq, Hend. eexists _, _. split; [done|].
    unfold slot_ok, view, FreeCompactFacts.add_metric. cbn [slot elems mm_free_compact_map]. cbn [mbind option_bind]. rewrite Hx, lookup_singleton_eq.
    destruct (Z.eqb_spec f 0), (Z.eqb_spec c 0);
      rewrite ?lookup_alter_eq, ?Hx; cbn [fmap option_fmap option_map]; rewrite insert_singleton_eq;
      (split; [intros ? [= <-]; rewrite ?lookup_alter_eq, Hx; by eexists | by destruct x]).
  - erewrite finish_step; [|apply lookup_insert_eq | unfold step; cbn [running]; rewrite lookup_insert_eq; cbn [mbind option_bind slot];
      by rewrite bool_decide_eq_false_2].
    cbn [traces elems slot running]. rewrite insert_insert_eq, Hend. eexists _, _. split; [done|].
    unfold slot_ok, view, FreeCompactFacts.add_metric. cbn [slot elems mm_free_compact_map]. cbn [mbind option_bind].
    rewrite !lookup_insert_eq. split; [intros ? [= <-]; rewrite lookup_insert_eq; by eexists|].
    cbn [lookup]. rewrite lookup_empty, hash_update_any, map_size_empty, orb_true_r. done.
Qed.

(** The steps of an end hook. *)
Lemma finish_end (b : bool) t a s now : running s !! t = Some (EndLookup b now) -> slot s <> Some a -> slot_ok s ->
  map_Forall (fun k e => te_id e = k) (traces s) ->
  exists s', finish 9 t a s = Some s' /\ slot_ok s' /\ running s' = delete t (running s) /\
    view s' = match traces s !! t with
              | None => view s
              | Some e =>
                  let d := u64 (now - te_start_ns e) in
                  mk_state (delete t (traces s))
                    (if b then FreeCompactFacts.add_metric d 0 (mm_free_compact_map (view s))
                     else FreeCompactFacts.add_metric 0 d (mm_free_compact_map (view s)))
              end.
Proof.
  destruct s as [tr el sl ru]. cbn [running slot traces]. intros Hr Ha Hok Hid. destruct (tr !! t) as [e|] eqn:Ee.
  2: { erewrite finish_step; [|exact Hr | unfold step; cbn [running traces]; rewrite Hr; cbn [mbind option_bind]; by rewrite Ee].
       unfold return_. cbn [traces elems slot running]. rewrite finish_return by apply lookup_delete_eq. by eexists. }
  erewrite finish_step; [|exact Hr | unfold step; cbn [running traces]; rewrite Hr; cbn [mbind option_bind]; by rewrite Ee].
  unfold set_pc. cbn [traces elems slot running].
  erewrite finish_step; [|apply lookup_insert_eq | unfold step; cbn [running]; by rewrite lookup_insert_eq].
  unfold set_pc, set_traces. cbn [traces elems slot running]. rewrite insert_insert_eq.
  erewrite finish_step; [|apply lookup_insert_eq | unfold step; cbn [running]; by rewrite lookup_insert_eq].
  unfold set_pc. cbn [traces elems slot running]. rewrite insert_insert_eq, lookup_alter_eq, Ee.
  cbn [fmap option_fmap option_map default from_option id te_delta_ns].
  set (d := u64 (now - te_start_ns e)). set (tr' := alter _ t tr).
  assert (exists f c, (if b then MetricLookup d 0 else MetricLookup 0 d) = MetricLookup f c /\ f = (if b then d else 0) /\ c = (if b then 0 else d))
    as (f & c & -> & Hf & Hc) by (destruct b; by eexists _, _).
  destruct (finish_metric t a tr' el sl ru f c (mk_tec (te_id e) (te_start_ns e) d)) as (el' & sl' & Efin & Hok' & Hv);
    [subst tr'; by rewrite lookup_alter_eq, Ee | exact (Hid t e Ee) | exact Ha | exact Hok|].
  rewrite Efin. eexists. split; [done|]. split; [exact Hok'|]. split; [done|]. unfold view in *.
  cbn [traces slot elems mm_free_compact_map] in *. rewrite Hv, Hf, Hc. subst tr'. rewrite delete_alter_tec. by destruct b.
Qed.

(** An invocation that is not interrupted does to the maps what the program of
    [FreeCompact] does. *)
Lemma solo_prog e h a s : running s !! cur_pid_tgid e = None -> slot s <> Some a -> slot_ok s ->
  map_Forall (fun k x => te_id x = k) (traces s) ->
  exists s', (call e h s ≫= finish 9 (cur_pid_tgid e) a) = Some s' /\ slot_ok s' /\ running s' = running s /\
    view s' = fst (run (prog h) e (view s)).
Proof.
  set (t := cur_pid_tgid e). intros Hr Ha Hok Hid. unfold call. fold t. rewrite Hr. cbn [mbind option_bind].
  assert (forall now, entry_pc e h = BeginUpdate now -> now = ktime e 0%nat -> h = ReclaimBegin \/ h = CompactBegin ->
    exists s', finish 9 t a (set_pc t (entry_pc e h) s) = Some s' /\ slot_ok s' /\ running s' = running s /\
      view s' = fst (run (prog h) e (view s))) as Hbeg.
  { intros now -> -> Hh. rewrite FreeCompactFacts.run_begin by done. fold t. unfold set_pc.
    erewrite finish_step; [|apply lookup_insert_eq | unfold step; cbn [running]; by rewrite lookup_insert_eq].
    unfold return_, set_traces. cbn [traces elems slot running].
    rewrite delete_insert_id by done. rewrite finish_return by done. by eexists. }
  assert (forall b, entry_pc e h = EndLookup b (ktime e 0%nat) -> h = (if b : bool then ReclaimEnd else CompactEnd) ->
    exists s', finish 9 t a (set_pc t (entry_pc e h) s) = Some s' /\ slot_ok s' /\ running s' = running s /\
      view s' = fst (run (prog h) e (view s))) as Hend.
  { intros b -> ->. rewrite FreeCompactFacts.run_end by done. fold t. cbn [fst].
    destruct (finish_end b t a (set_pc t (EndLookup b (ktime e 0%nat)) s) (ktime e 0%nat)) as (s' & E & H1 & H2 & H3);
      [apply lookup_insert_eq | done | done | done|].
    rewrite E. exists s'. split; [done|]. split; [done|]. cbn [running set_pc] in H2. rewrite delete_insert_id in H2 by done.
    split; [done|]. rewrite H3. cbn [traces set_pc view func_trace_map]. by destruct (traces s !! t), b. }
  destruct h; [apply (Hbeg (ktime e 0%nat)); auto | by apply (Hend true) | apply (Hbeg (ktime e 0%nat)); auto | by apply (Hend false)].
Qed.

(** ** Theorems *)

(** C6: memory_free_compact.c on several CPUs. Take any interleaving, access by
    access, of invocations of the four hooks in which every task begins and ends
    its sections in brackets, with room for the tasks in func_trace_map. Then at
    any point, for each kind, what user space reads, plus what invocations under
    way have still to add, plus what was lost, is the total duration of the
    sections closed, modulo 2^64. A loss is an insertion over an existing entry
    or an addition to an entry that was replaced: nothing is lost any more once
    the entry is there, no invocation is about to insert one and those that add
    hold it; and nothing is ever lost if no two invocations are about to insert
    at the same time. *)
Theorem free_compact_accounts ls s :
  run_steps ls init = Some s -> bracketed ls log_init -> Z.of_nat (size (tasks ls)) <= func_trace_max ->
  (forall k, u64 (metric k s + pending k s + lost k ls init) = u64 (total k (closed (log_of ls)))) /\
  (forall pre post sp k, ls = pre ++ post -> run_steps pre init = Some sp -> settled sp -> lost k ls init = lost k pre init) /\
  ((forall pre post sp, ls = pre ++ post -> run_steps pre init = Some sp -> one_inserter sp) -> forall k, lost k ls init = 0).
Proof.
  intros Hr Hb Hs. split; [|split].
  - intros k. pose proof (run_accounts (tasks ls) k ls init s log_init 0 (inv_init _) Hb Hr) as H.
    rewrite Z.add_0_l in H. apply H; [|done | destruct k; done].
    apply Forall_forall. intros l Hl. unfold tasks. apply elem_of_list_to_set, list_elem_of_fmap. by exists l.
  - intros pre post sp k -> Hp Hset. rewrite (lost_app k pre post init sp Hp), (settled_lost k post sp Hset). lia.
  - intros Hone k. apply unraced_lost; [|done | by eexists]. right. split; [done | apply map_Forall_empty].
Qed.

(** Tasks 1 and 2 both find no entry at the end of their first reclaims, of 5
    and 7 ns: the second insertion overwrites the first, and the 5 are lost.
    The compaction of task 1 afterwards, of 9 ns, is counted. *)
Definition env (t now : Z) : kenv := example_env now t 0.
Definition steps_of (t : Z) (n a : nat) : list label := repeat (Step t a) n.
Definition race : list label :=
  [Call (env 1 100) ReclaimBegin; Call (env 2 100) ReclaimBegin; Step 1 0; Step 2 0;
   Call (env 1 105) ReclaimEnd; Call (env 2 107) ReclaimEnd] ++ steps_of 1 4 0 ++ steps_of 2 4 0 ++ [Step 1 1; Step 2 2].
Definition after_race : list label :=
  steps_of 1 2 0 ++ steps_of 2 2 0 ++ [Call (env 1 200) CompactBegin; Step 1 0; Call (env 1 209) CompactEnd] ++ steps_of 1 8 0.

Lemma free_compact_accounts_witness :
  exists s sp, run_steps (race ++ after_race) init = Some s /\ run_steps race init = Some sp /\
    closed (log_of (race ++ after_race)) = [(Reclaim, 5); (Reclaim, 7); (Compact, 9)] /\
    metric Reclaim s = 7 /\ lost Reclaim (race ++ after_race) init = 5 /\
    metric Compact s = 9 /\ lost Compact (race ++ after_race) init = lost Compact race init.
Proof.
  eexists _, _. split; [vm_compute; reflexivity|]. split; [vm_compute; reflexivity|].
  split; [vm_compute; reflexivity|]. split; [vm_compute; reflexivity|]. split; [vm_compute; reflexivity|].
  split; [vm_compute; reflexivity|].
  edestruct (free_compact_accounts (race ++ after_race)) as (_ & H & _);
    [vm_compute; reflexivity | vm_compute; tauto | vm_compute; discriminate |].
  eapply (H race after_race); [reflexivity | vm_compute; reflexivity|].
  exists 2%nat. split; [reflexivity|]. apply map_Forall_to_list. vm_compute. repeat constructor.
Defined.

End FreeCompactSmp.
