(* ===== verification/Runqlat.v ===== *)
(** * bpf/runqlat_tracing.c: run queue latency and context switches

    The map [latency] holds the time a task was put on a run queue;
    [cpu_tg_metric] the counters of each task group and [cpu_host_metric]
    those of the host.  The file is compiled with TG_ADDR_KEY, so groups are
    keyed by the address of the task_group. *)
From S2P Require Import Prelude Bpf.
From stdpp Require Import base gmap list strings.
From Stdlib Require Import ZArith Lia.

Open Scope Z_scope.

Definition TASK_RUNNING : Z := 0.

Record stat_t := mk_stat {
  nvcsw : Z; nivcsw : Z; nlat_01 : Z; nlat_02 : Z; nlat_03 : Z; nlat_04 : Z
}.

Record g_stat_t := mk_gstat {
  g_nvcsw : Z; g_nivcsw : Z; g_nlat_01 : Z; g_nlat_02 : Z; g_nlat_03 : Z; g_nlat_04 : Z
}.

Definition new_stat : stat_t := mk_stat 0 0 0 0 0 0.
Definition g_new_stat : g_stat_t := mk_gstat 0 0 0 0 0 0.

Record state := mk_state {
  latency : gmap Z Z;
  cpu_tg_metric : gmap Z stat_t;
  cpu_host_metric : list g_stat_t
}.

(** At load time: empty hash maps, one zeroed array element. *)
Definition init : state := mk_state ∅ ∅ [g_new_stat].

Definition latency_map : mapref state Z Z :=
  mk_mapref latency (fun m s => mk_state m (cpu_tg_metric s) (cpu_host_metric s)) 10000.
Definition tg_map : mapref state Z stat_t :=
  mk_mapref cpu_tg_metric (fun m s => mk_state (latency s) m (cpu_host_metric s)) 10000.

Definition host_lookup : M state (option g_stat_t) :=
  gets (fun s => cpu_host_metric s !! 0%nat).
Definition host_update (v : g_stat_t) (flags : Z) : M state Z :=
  a ← gets cpu_host_metric;
  let '(rc, a') := array_update 0 v flags a in
  modify (fun s => mk_state (latency s) (cpu_tg_metric s) a');; mret rc.
Definition host_store (f : g_stat_t -> g_stat_t) : M state unit :=
  modify (fun s => mk_state (latency s) (cpu_tg_metric s) (alter f 0%nat (cpu_host_metric s))).

(** The counters, and __sync_fetch_and_add(&entry->counter, 1). *)
Inductive counter := Nvcsw | Nivcsw | Nlat01 | Nlat02 | Nlat03 | Nlat04.

#[export] Instance counter_eq_dec : EqDecision counter.
Proof. solve_decision. Defined.

Definition add1 (c : counter) (v : stat_t) : stat_t :=
  match c with
  | Nvcsw => mk_stat (u64 (nvcsw v + 1)) (nivcsw v) (nlat_01 v) (nlat_02 v) (nlat_03 v) (nlat_04 v)
  | Nivcsw => mk_stat (nvcsw v) (u64 (nivcsw v + 1)) (nlat_01 v) (nlat_02 v) (nlat_03 v) (nlat_04 v)
  | Nlat01 => mk_stat (nvcsw v) (nivcsw v) (u64 (nlat_01 v + 1)) (nlat_02 v) (nlat_03 v) (nlat_04 v)
  | Nlat02 => mk_stat (nvcsw v) (nivcsw v) (nlat_01 v) (u64 (nlat_02 v + 1)) (nlat_03 v) (nlat_04 v)
  | Nlat03 => mk_stat (nvcsw v) (nivcsw v) (nlat_01 v) (nlat_02 v) (u64 (nlat_03 v + 1)) (nlat_04 v)
  | Nlat04 => mk_stat (nvcsw v) (nivcsw v) (nlat_01 v) (nlat_02 v) (nlat_03 v) (u64 (nlat_04 v + 1))
  end.

Definition g_add1 (c : counter) (v : g_stat_t) : g_stat_t :=
  match c with
  | Nvcsw => mk_gstat (u64 (g_nvcsw v + 1)) (g_nivcsw v) (g_nlat_01 v) (g_nlat_02 v) (g_nlat_03 v) (g_nlat_04 v)
  | Nivcsw => mk_gstat (g_nvcsw v) (u64 (g_nivcsw v + 1)) (g_nlat_01 v) (g_nlat_02 v) (g_nlat_03 v) (g_nlat_04 v)
  | Nlat01 => mk_gstat (g_nvcsw v) (g_nivcsw v) (u64 (g_nlat_01 v + 1)) (g_nlat_02 v) (g_nlat_03 v) (g_nlat_04 v)
  | Nlat02 => mk_gstat (g_nvcsw v) (g_nivcsw v) (g_nlat_01 v) (u64 (g_nlat_02 v + 1)) (g_nlat_03 v) (g_nlat_04 v)
  | Nlat03 => mk_gstat (g_nvcsw v) (g_nivcsw v) (g_nlat_01 v) (g_nlat_02 v) (u64 (g_nlat_03 v + 1)) (g_nlat_04 v)
  | Nlat04 => mk_gstat (g_nvcsw v) (g_nivcsw v) (g_nlat_01 v) (g_nlat_02 v) (g_nlat_03 v) (u64 (g_nlat_04 v + 1))
  end.

(** Both increments of one event. *)
Definition count (key : Z) (c : counter) : M state unit :=
  elem_store tg_map key (add1 c);; host_store (g_add1 c).

Definition trace_enqueue (pid : Z) : M state Z :=
  if pid =? 0 then mret 0
  else
    ts ← bpf_ktime_get_ns;
    map_update_elem latency_map pid ts COMPAT_BPF_ANY;;
    mret 0.

(** [ctx_pid] is the int ctx->pid, converted to the u32 parameter. *)
Definition sched_wakeup_new_entry (ctx_pid : Z) : M state Z := trace_enqueue (u32 ctx_pid).
Definition sched_wakeup_entry (ctx_pid : Z) : M state Z := trace_enqueue (u32 ctx_pid).

Definition get_task_state (e : kenv) (task : Z) : Z :=
  if task =? 0 then -1
  else if kexists e task_state then s64 (core_read e 8 task task_state)
  else core_read e 4 task task___state.

(** entry = lookup(key); if (!entry) { insert zeroes; entry = lookup(key); }:
    whether [entry] is valid. *)
Definition tg_entry (key : Z) : M state bool :=
  entry ← map_lookup_elem tg_map key;
  match entry with
  | Some _ => mret true
  | None =>
      map_update_elem tg_map key new_stat COMPAT_BPF_NOEXIST;;
      entry ← map_lookup_elem tg_map key;
      mret (bool_decide (is_Some entry))
  end.

Definition g_entry : M state bool :=
  g ← host_lookup;
  match g with
  | Some _ => mret true
  | None =>
      host_update g_new_stat COMPAT_BPF_NOEXIST;;
      g ← host_lookup;
      mret (bool_decide (is_Some g))
  end.

(** ivcsw: treat like an enqueue event; the result is [is_voluntary]. *)
Definition switch_out (state prev_pid : Z) : M Runqlat.state bool :=
  if state =? TASK_RUNNING then
    (if negb (prev_pid =? 0) then
       now ← bpf_ktime_get_ns;
       map_update_elem latency_map prev_pid now COMPAT_BPF_ANY;; mret tt
     else mret tt);;
    mret false
  else mret true.

(** The counters of the task that leaves the CPU; [false] is the early return
    when no entry can be made for its group. *)
Definition count_prev (key prev_pid : Z) (is_voluntary : bool) : M state bool :=
  if negb (key =? 0) && negb (prev_pid =? 0) then
    ok ← tg_entry key;
    if negb ok then mret false
    else (if is_voluntary then count key Nvcsw else count key Nivcsw);; mret true
  else mret true.

Definition lat_counter (delta : Z) : counter :=
  if delta <? 10 * NSEC_PER_MSEC then Nlat01
  else if delta <? 20 * NSEC_PER_MSEC then Nlat02
  else if delta <? 50 * NSEC_PER_MSEC then Nlat03
  else Nlat04.

(** The latency of the task that gets the CPU. *)
Definition count_next (next : Z) : M state Z :=
  next_pid ← asks (fun e => core_read e 4 next task_pid);
  if next_pid =? 0 then mret 0
  else
    tsp ← map_lookup_elem latency_map next_pid;
    match tsp with
    | None => mret 0
    | Some ts =>
        if ts =? 0 then mret 0
        else
          now ← bpf_ktime_get_ns;
          let delta := u64 (now - ts) in
          map_delete_elem latency_map next_pid;;
          key ← asks (fun e => core_read e 8 next task_sched_task_group);
          if negb (key =? 0) then
            ok ← tg_entry key;
            if negb ok then mret 0
            else count key (lat_counter delta);; mret 0
          else mret 0
    end.

Definition sched_switch_entry (prev next : Z) : M state Z :=
  key ← asks (fun e => core_read e 8 prev task_sched_task_group);
  state ← asks (fun e => get_task_state e prev);
  prev_pid ← asks (fun e => core_read e 4 prev task_pid);
  is_voluntary ← switch_out state prev_pid;
  g ← g_entry;
  if negb g then mret 0
  else
    go_on ← count_prev key prev_pid is_voluntary;
    if negb go_on then mret 0 else count_next next.

Definition sched_process_exit_entry (p : Z) : M state Z :=
  pid ← asks (fun e => core_read e 4 p task_pid);
  found ← map_lookup_elem latency_map pid;
  (match found with
   | Some _ => map_delete_elem latency_map pid;; mret tt
   | None => mret tt
   end);;
  mret 0.

Definition free_fair_sched_group_entry (tg : Z) : M state Z :=
  entry ← map_lookup_elem tg_map tg;
  (match entry with
   | Some _ => map_delete_elem tg_map tg;; mret tt
   | None => mret tt
   end);;
  mret 0.

Inductive hook :=
| WakeupNew (pid : Z)
| Wakeup (pid : Z)
| Switch (prev next : Z)
| Exit (p : Z)
| FreeGroup (tg : Z).

Definition prog (h : hook) : M state Z :=
  match h with
  | WakeupNew pid => sched_wakeup_new_entry pid
  | Wakeup pid => sched_wakeup_entry pid
  | Switch prev next => sched_switch_entry prev next
  | Exit p => sched_process_exit_entry p
  | FreeGroup tg => free_fair_sched_group_entry tg
  end.

Definition exec (l : list (kenv * hook)) (s : state) : state :=
  fst (run_all (map (fun '(e, h) => (e, prog h)) l) s).

(** ** Reading the counters *)
Definition get (c : counter) (v : stat_t) : Z :=
  match c with
  | Nvcsw => nvcsw v | Nivcsw => nivcsw v
  | Nlat01 => nlat_01 v | Nlat02 => nlat_02 v | Nlat03 => nlat_03 v | Nlat04 => nlat_04 v
  end.

Definition g_get (c : counter) (v : g_stat_t) : Z :=
  match c with
  | Nvcsw => g_nvcsw v | Nivcsw => g_nivcsw v
  | Nlat01 => g_nlat_01 v | Nlat02 => g_nlat_02 v | Nlat03 => g_nlat_03 v | Nlat04 => g_nlat_04 v
  end.

Definition tg_count (c : counter) (key : Z) (s : state) : Z :=
  get c (default new_stat (cpu_tg_metric s !! key)).
Definition host_count (c : counter) (s : state) : Z :=
  g_get c (default g_new_stat (cpu_host_metric s !! 0%nat)).

(** What the deleted groups had counted, along a sequence of hooks. *)
Fixpoint retired (c : counter) (l : list (kenv * hook)) (s : state) : Z :=
  match l with
  | [] => 0
  | (e, h) :: l' =>
      match h with FreeGroup tg => tg_count c tg s | _ => 0 end +
      retired c l' (fst (run (prog h) e s))
  end.

(** ** Lemmas *)

Lemma get_add1 c c' v : get c (add1 c' v) = if decide (c = c') then u64 (get c v + 1) else get c v.
Proof. by destruct c, c'. Qed.

Lemma g_get_add1 c c' v :
  g_get c (g_add1 c' v) = if decide (c = c') then u64 (g_get c v + 1) else g_get c v.
Proof. by destruct c, c'. Qed.

(** The programs as functions of the state. *)
Definition set_latency (m : gmap Z Z) (s : state) : state :=
  mk_state m (cpu_tg_metric s) (cpu_host_metric s).

Definition ensure (key : Z) (m : gmap Z stat_t) : gmap Z stat_t :=
  match m !! key with
  | Some _ => m
  | None => (hash_update 10000 key new_stat COMPAT_BPF_NOEXIST m).2
  end.

Definition counted (key : Z) (c : counter) (s : state) : state :=
  mk_state (latency s) (alter (add1 c) key (cpu_tg_metric s))
    (alter (g_add1 c) 0%nat (cpu_host_metric s)).

Lemma tg_entry_run key e w :
  tg_entry key e w =
    (bool_decide (is_Some (ensure key (cpu_tg_metric (w_st w)) !! key)),
     W (mk_state (latency (w_st w)) (ensure key (cpu_tg_metric (w_st w))) (cpu_host_metric (w_st w)))
       (w_clk w) (w_out w)).
Proof.
  destruct w as [[lat tg host] clk out]. unfold tg_entry, ensure. run_simpl.
  cbn [latency_map tg_map cpu_tg_metric latency cpu_host_metric mget mset mmax].
  destruct (tg !! key) as [v|] eqn:E.
  - rewrite E. by rewrite bool_decide_eq_true_2 by eauto.
  - destruct (hash_update _ _ _ _ _) as [rc m]. done.
Qed.

Lemma count_run key c e w :
  count key c e w = (tt, W (counted key c (w_st w)) (w_clk w) (w_out w)).
Proof. by destruct w as [[lat tg host] clk out]. Qed.

Lemma g_entry_run e w g :
  cpu_host_metric (w_st w) = [g] -> g_entry e w = (true, w).
Proof.
  destruct w as [[lat tg host] clk out]. simpl. intros ->. done.
Qed.

Lemma switch_out_run st pid e w :
  switch_out st pid e w =
    if (st =? TASK_RUNNING) && negb (pid =? 0) then
      (false, W (set_latency (hash_update 10000 pid (ktime e (w_clk w)) COMPAT_BPF_ANY
                               (latency (w_st w))).2 (w_st w)) (S (w_clk w)) (w_out w))
    else (negb (st =? TASK_RUNNING), w).
Proof.
  destruct w as [[lat tg host] clk out]. unfold switch_out, set_latency.
  destruct (st =? TASK_RUNNING); [|done]. destruct (pid =? 0); [done|]. run_simpl.
  cbn [latency_map latency cpu_tg_metric cpu_host_metric mget mset mmax negb andb].
  by destruct (hash_update _ _ _ _ _).
Qed.

(** Making an entry changes no counter. *)
Lemma ensure_get c key k m :
  get c (default new_stat (ensure key m !! k)) = get c (default new_stat (m !! k)).
Proof.
  unfold ensure. destruct (m !! key) as [v|] eqn:E; [done|].
  unfold hash_update. rewrite E. simpl. case_if; [done|]. simpl. rewrite lookup_insert.
  case_decide; [|done]. subst. rewrite E. by destruct c.
Qed.

Lemma ensure_sum c key m : map_sum (get c) (ensure key m) = map_sum (get c) m.
Proof.
  unfold ensure. destruct (m !! key) as [v|] eqn:E; [done|].
  unfold hash_update. rewrite E. simpl. case_if; [done|]. simpl.
  rewrite map_sum_insert_new by done. by destruct c.
Qed.

Lemma ensure_size key m :
  Z.of_nat (size m) <= 10000 -> Z.of_nat (size (ensure key m)) <= 10000.
Proof.
  intros Hs. unfold ensure. destruct (m !! key); [done|]. by apply hash_update_size.
Qed.

Lemma ensure_room key m :
  is_Some (m !! key) \/ Z.of_nat (size m) < 10000 -> is_Some (ensure key m !! key).
Proof.
  intros Hr. unfold ensure. destruct (m !! key) as [v|] eqn:E; [by rewrite E|].
  unfold hash_update. rewrite E. simpl. destruct Hr as [[v Hv]|Hr]; [done|].
  case_if; [lia|]. simpl. rewrite lookup_insert_eq. eauto.
Qed.

(** ** Conservation *)

(** [host = groups + retired], per counter and modulo 2^64. *)
Definition conserved (c : counter) (r : Z) (s : state) : Prop :=
  exists g, cpu_host_metric s = [g] /\
    g_get c g = u64 (map_sum (get c) (cpu_tg_metric s) + r).

Lemma counted_conserved c r key c' s :
  is_Some (cpu_tg_metric s !! key) -> conserved c r s -> conserved c r (counted key c' s).
Proof.
  intros [v Hv] (g & Hg & E). unfold counted, conserved. simpl. rewrite Hg. simpl.
  eexists. split; [reflexivity|]. rewrite (alter_Some _ _ _ _ Hv).
  rewrite (map_sum_insert_old _ _ _ _ _ Hv), get_add1, g_get_add1, E.
  case_decide; [|f_equal; lia].
  rewrite u64_add_l. set (x := get c v). set (n := map_sum _ _).
  replace (u64 (x + 1) - x + n + r) with (u64 (x + 1) + (n + r - x)) by lia.
  rewrite u64_add_l. f_equal. lia.
Qed.

Lemma ensured_conserved c r key s :
  conserved c r s ->
  conserved c r (mk_state (latency s) (ensure key (cpu_tg_metric s)) (cpu_host_metric s)).
Proof. intros (g & Hg & E). exists g. simpl. by rewrite ensure_sum. Qed.

(** An invariant that making an entry and counting on it keep. *)
Section SwitchKeeps.
Context (I : state -> Prop).
Context (I_ensure : forall key s, key <> 0 -> I s ->
  I (mk_state (latency s) (ensure key (cpu_tg_metric s)) (cpu_host_metric s))).
Context (I_count : forall key c s, is_Some (cpu_tg_metric s !! key) -> I s -> I (counted key c s)).
Context (I_host : forall s, I s -> exists g, cpu_host_metric s = [g]).

Lemma keeps_tg_count {A} key c (d d' : A) :
  key <> 0 -> keeps I (ok ← tg_entry key; if negb ok then mret d else (count key c;; mret d')).
Proof.
  intros Hkey e w Hw. unfold mbind, M_bind. rewrite tg_entry_run.
  pose proof (I_ensure key (w_st w) Hkey Hw) as He.
  destruct (bool_decide_reflect (is_Some (ensure key (cpu_tg_metric (w_st w)) !! key)));
    cbn [negb]; [|done].
  rewrite count_run. by apply I_count.
Qed.

Lemma keeps_count_prev key pid vol : keeps I (count_prev key pid vol).
Proof.
  unfold count_prev. case_if; [|apply keeps_ret].
  destruct vol; by apply keeps_tg_count.
Qed.

Lemma keeps_count_next next :
  (forall k s, I s -> I (set_latency (delete k (latency s)) s)) -> keeps I (count_next next).
Proof.
  intros Hdel. unfold count_next.
  repeat first [solve [apply keeps_tg_count; by reflect_bool] | keeps_step].
Qed.

Lemma keeps_g_entry : keeps I g_entry.
Proof.
  intros e w Hw. destruct (I_host _ Hw) as [g Hg]. by rewrite (g_entry_run e w g).
Qed.

Lemma keeps_switch prev next :
  (forall k s, I s -> I (set_latency (delete k (latency s)) s)) ->
  (forall k t s, k <> 0 -> I s ->
     I (set_latency (hash_update 10000 k t COMPAT_BPF_ANY (latency s)).2 s)) ->
  keeps I (sched_switch_entry prev next).
Proof.
  intros Hdel Hupd. unfold sched_switch_entry, switch_out.
  repeat keeps_step; reflect_bool;
    [intros s Hs; by apply Hupd | apply keeps_g_entry | apply keeps_count_prev | by apply keeps_count_next].
Qed.
End SwitchKeeps.

Lemma conserved_step c r e h s :
  conserved c r s ->
  conserved c (r + match h with FreeGroup tg => tg_count c tg s | _ => 0 end)
    (fst (run (prog h) e s)).
Proof.
  intros Hs. destruct h as [pid|pid|prev next|p|tg]; rewrite ?Z.add_0_r.
  - apply keeps_run; [|done]. unfold prog, sched_wakeup_new_entry, trace_enqueue.
    by repeat keeps_step.
  - apply keeps_run; [|done]. unfold prog, sched_wakeup_entry, trace_enqueue.
    by repeat keeps_step.
  - apply keeps_run; [|done]. apply keeps_switch; try done.
    + intros. by apply ensured_conserved.
    + intros. by apply counted_conserved.
    + intros s' (g & Hg & _). by exists g.
  - apply keeps_run; [|done]. unfold prog, sched_process_exit_entry. by repeat keeps_step.
  - destruct s as [lat tgm host]. destruct Hs as (g & Hg & E). simpl in *. subst host.
    unfold prog, free_fair_sched_group_entry, tg_count. run_simpl. cbn [tg_map cpu_tg_metric mget].
    destruct (tgm !! tg) as [v|] eqn:Ev; cbn [default id cpu_tg_metric].
    + cbn [tg_map mget mset cpu_tg_metric]. unfold hash_delete. rewrite Ev. exists g. simpl.
      split; [done|]. rewrite E, (map_sum_delete _ _ _ _ Ev). f_equal. lia.
    + exists g. simpl. split; [done|]. rewrite E. destruct c; f_equal; simpl; lia.
Qed.

Lemma conserved_exec c l r s : conserved c r s -> conserved c (r + retired c l s) (exec l s).
Proof.
  unfold exec. revert r s. induction l as [|[e h] l IH]; intros r s Hs; cbn [map retired].
  - by rewrite Z.add_0_r.
  - rewrite run_all_cons_st, Z.add_assoc. apply IH. by apply conserved_step.
Qed.

(** ** Well-formedness *)
Record wf (s : state) : Prop := mk_wf {
  wf_host : exists g, cpu_host_metric s = [g];
  wf_idle : latency s !! 0 = None;
  wf_latency : Z.of_nat (size (latency s)) <= 10000;
  wf_no_group : cpu_tg_metric s !! 0 = None;
  wf_groups : Z.of_nat (size (cpu_tg_metric s)) <= 10000
}.

Lemma map_size_delete_le {A} k (m : gmap Z A) : (size (delete k m) <= size m)%nat.
Proof. rewrite map_size_delete. destruct (m !! k); simpl; lia. Qed.

Lemma wf_latency_update k t s :
  k <> 0 -> wf s -> wf (set_latency (hash_update 10000 k t COMPAT_BPF_ANY (latency s)).2 s).
Proof.
  intros Hk [Hh Hi Hl Hn Hg]. constructor; simpl; try done.
  - by rewrite hash_update_lookup_ne.
  - by apply hash_update_size.
Qed.

Lemma wf_latency_delete k s : wf s -> wf (set_latency (delete k (latency s)) s).
Proof.
  intros [Hh Hi Hl Hn Hg]. constructor; simpl; try done.
  - by apply lookup_delete_None; right.
  - pose proof (map_size_delete_le k (latency s)). lia.
Qed.

Lemma keeps_wf h : keeps wf (prog h).
Proof.
  pose proof wf_latency_update as Hupd. pose proof wf_latency_delete as Hdel.
  destruct h as [pid|pid|prev next|p|tg].
  - unfold prog, sched_wakeup_new_entry, trace_enqueue. repeat keeps_step.
    reflect_bool. intros s Hs. by apply Hupd.
  - unfold prog, sched_wakeup_entry, trace_enqueue. repeat keeps_step.
    reflect_bool. intros s Hs. by apply Hupd.
  - apply keeps_switch; try done.
    + intros key s Hk [Hh Hi Hl Hn Hg]. constructor; simpl; try done; [|by apply ensure_size].
      unfold ensure. destruct (cpu_tg_metric s !! key); [done|].
      by rewrite hash_update_lookup_ne.
    + intros key c s Hk [[g Hh] Hi Hl Hn Hg]. constructor; simpl; try done.
      * exists (g_add1 c g). by rewrite Hh.
      * rewrite lookup_alter. case_decide; [|done]. subst. by rewrite Hn.
      * destruct Hk as [v Hv]. by rewrite (alter_Some _ _ _ _ Hv), map_size_insert_Some by eauto.
    + by intros s [Hh _ _ _ _].
  - unfold prog, sched_process_exit_entry. repeat keeps_step.
  - unfold prog, free_fair_sched_group_entry. repeat keeps_step.
    intros st [Hh Hi Hl Hn Hg]. constructor; simpl; try done.
    + by apply lookup_delete_None; right.
    + pose proof (map_size_delete_le tg (cpu_tg_metric st)). lia.
Qed.

Lemma wf_init : wf init.
Proof. constructor; simpl; try done. by exists g_new_stat. Qed.

Lemma wf_exec l s : wf s -> wf (exec l s).
Proof.
  apply keeps_run_all. apply Forall_map, Forall_true. intros [e h]. apply keeps_wf.
Qed.

(** ** The latency of one task *)

(** A hook that reads or writes the enqueue time of [pid]. *)
Definition touches (pid : Z) (e : kenv) (h : hook) : Prop :=
  match h with
  | WakeupNew p | Wakeup p => u32 p = pid
  | Switch prev next =>
      core_read e 4 prev task_pid = pid \/ core_read e 4 next task_pid = pid
  | Exit p => core_read e 4 p task_pid = pid
  | FreeGroup _ => False
  end.

Lemma counted_tg c k key c' s :
  is_Some (cpu_tg_metric s !! key) ->
  tg_count c k (counted key c' s) =
    if decide (k = key /\ c = c') then u64 (tg_count c k s + 1) else tg_count c k s.
Proof.
  intros [v Hv]. unfold tg_count, counted. simpl. rewrite lookup_alter.
  destruct (decide (key = k)) as [<-|Hne].
  - rewrite Hv. simpl. rewrite get_add1. repeat case_decide; intuition congruence.
  - rewrite decide_False by intuition congruence. done.
Qed.

Lemma counted_host c key c' s g :
  cpu_host_metric s = [g] ->
  host_count c (counted key c' s) =
    if decide (c = c') then u64 (host_count c s + 1) else host_count c s.
Proof. intros Hg. unfold host_count, counted. simpl. rewrite Hg. simpl. apply g_get_add1. Qed.

Definition ensured (key : Z) (s : state) : state :=
  mk_state (latency s) (ensure key (cpu_tg_metric s)) (cpu_host_metric s).

Lemma count_prev_run key pid vol e w :
  is_Some (cpu_tg_metric (w_st w) !! key) \/ Z.of_nat (size (cpu_tg_metric (w_st w))) < 10000 ->
  count_prev key pid vol e w =
    (true, W (if negb (key =? 0) && negb (pid =? 0)
              then counted key (if vol then Nvcsw else Nivcsw) (ensured key (w_st w))
              else w_st w) (w_clk w) (w_out w)).
Proof.
  intros Hr. apply ensure_room in Hr. unfold count_prev.
  destruct (negb (key =? 0) && negb (pid =? 0)); [|by destruct w].
  unfold mbind, M_bind. rewrite tg_entry_run. rewrite bool_decide_eq_true_2 by done. cbn [negb].
  destruct vol; by rewrite count_run.
Qed.

Lemma count_next_run next e w ts :
  let pid := core_read e 4 next task_pid in
  let key := core_read e 8 next task_sched_task_group in
  pid <> 0 -> latency (w_st w) !! pid = Some ts -> ts <> 0 -> key <> 0 ->
  is_Some (cpu_tg_metric (w_st w) !! key) \/ Z.of_nat (size (cpu_tg_metric (w_st w))) < 10000 ->
  w_st (snd (count_next next e w)) =
    counted key (lat_counter (u64 (ktime e (w_clk w) - ts)))
      (ensured key (set_latency (delete pid (latency (w_st w))) (w_st w))).
Proof.
  intros pid key Hp Hts Hts0 Hk Hr. apply ensure_room in Hr.
  destruct w as [[lat tg host] clk out]. simpl in *. unfold count_next. run_simpl.
  fold pid. rewrite (proj2 (Z.eqb_neq _ _) Hp). cbn [latency_map mget mset latency w_st].
  rewrite Hts, (proj2 (Z.eqb_neq _ _) Hts0). cbn [latency_map mget mset latency w_st].
  unfold hash_delete. rewrite Hts. fold key. rewrite (proj2 (Z.eqb_neq _ _) Hk). cbn [negb].
  rewrite tg_entry_run. cbn [w_st cpu_tg_metric cpu_host_metric latency].
  rewrite bool_decide_eq_true_2 by done. cbn [negb]. by rewrite count_run.
Qed.

Lemma count_prev_latency key pid vol e w :
  latency (w_st (snd (count_prev key pid vol e w))) = latency (w_st w).
Proof. by apply (keeps_count_prev (fun s => latency s = latency (w_st w))). Qed.

Lemma count_prev_host key pid vol e w g :
  cpu_host_metric (w_st w) = [g] ->
  exists g', cpu_host_metric (w_st (snd (count_prev key pid vol e w))) = [g'].
Proof.
  intros Hg. apply (keeps_count_prev (fun s => exists g, cpu_host_metric s = [g])); [done| |eauto].
  intros k c s _ [g' Hg']. exists (g_add1 c g'). simpl. by rewrite Hg'.
Qed.

Lemma count_next_latency next e w k :
  k <> core_read e 4 next task_pid ->
  latency (w_st (snd (count_next next e w))) !! k = latency (w_st w) !! k.
Proof.
  intros Hk. destruct w as [[lat tg host] clk out]. unfold count_next. run_simpl.
  case_if; [done|]. cbn [latency_map mget mset latency].
  destruct (lat !! _) as [ts|] eqn:E; [|done]. case_if; [done|].
  cbn [latency_map mget mset latency w_st]. unfold hash_delete. rewrite E.
  destruct (negb _); [|by apply lookup_delete_ne].
  rewrite tg_entry_run. destruct (negb _); [by apply lookup_delete_ne|].
  rewrite count_run. by apply lookup_delete_ne.
Qed.

Lemma switch_run prev next e s g :
  cpu_host_metric s = [g] ->
  let key := core_read e 8 prev task_sched_task_group in
  let prev_pid := core_read e 4 prev task_pid in
  let '(vol, w1) := switch_out (get_task_state e prev) prev_pid e (W s 0%nat []) in
  let '(go_on, w2) := count_prev key prev_pid vol e w1 in
  fst (run (sched_switch_entry prev next) e s) =
    w_st (if go_on then snd (count_next next e w2) else w2).
Proof.
  intros Hg key prev_pid. unfold run, sched_switch_entry.
  unfold mbind at 1 2 3 4 5 6, M_bind. unfold asks. fold key prev_pid.
  destruct (switch_out _ prev_pid e (W s 0%nat [])) as [vol w1] eqn:E1.
  assert (cpu_host_metric (w_st w1) = [g]) as Hg1.
  { rewrite switch_out_run in E1. case_if_in E1; by simplify_eq. }
  rewrite (g_entry_run _ _ _ Hg1). cbn [negb].
  destruct (count_prev key prev_pid vol e w1) as [go_on w2].
  by destruct go_on.
Qed.

Lemma frame_step pid e h s :
  wf s -> ~ touches pid e h -> latency (fst (run (prog h) e s)) !! pid = latency s !! pid.
Proof.
  intros Hwf Ht. destruct h as [p|p|prev next|p|tg]; simpl in Ht.
  1, 2: destruct s as [lat tg host]; unfold prog, sched_wakeup_entry, sched_wakeup_new_entry, trace_enqueue;
    run_simpl; case_if; [done|]; run_simpl; cbn [latency_map mget mset latency];
    (pose proof (hash_update_lookup_ne 10000 (u32 p) pid (ktime e 0%nat) COMPAT_BPF_ANY lat Ht) as H;
     destruct (hash_update _ _ _ _ _); exact H).
  - destruct (wf_host s Hwf) as [g Hg]. unfold prog.
    pose proof (switch_run prev next e s g Hg) as E. cbv zeta in E.
    rewrite switch_out_run in E. cbn [w_st w_clk w_out] in E.
    set (w1 := (if _ && _ then _ else _) : bool * world state) in E.
    assert (latency (w_st (snd w1)) !! pid = latency s !! pid) as Hw1.
    { unfold w1. case_if; [|done]. simpl. apply hash_update_lookup_ne. intuition. }
    destruct w1 as [vol w1]. cbn [snd] in Hw1.
    pose proof (count_prev_latency (core_read e 8 prev task_sched_task_group)
      (core_read e 4 prev task_pid) vol e w1) as Hl.
    destruct (count_prev _ _ _ _ _) as [go_on w2]. cbn [snd] in Hl. rewrite E.
    destruct go_on; [rewrite count_next_latency by intuition|]; by rewrite Hl.
  - destruct s as [lat tg host]. unfold prog, sched_process_exit_entry. run_simpl.
    cbn [latency_map mget mset latency]. destruct (lat !! _) eqn:E; [|done].
    cbn [latency_map mget mset latency]. unfold hash_delete. rewrite E.
    by apply lookup_delete_ne.
  - destruct s as [lat tg' host]. unfold prog, free_fair_sched_group_entry. run_simpl.
    cbn [tg_map mget mset cpu_tg_metric]. destruct (tg' !! _) eqn:E; [|done].
    cbn [tg_map mget mset cpu_tg_metric]. unfold hash_delete. by rewrite E.
Qed.

Lemma exec_app l1 l2 s : exec (l1 ++ l2) s = exec l2 (exec l1 s).
Proof.
  unfold exec. rewrite map_app, run_all_app. destruct (run_all (map _ l1) s) as [s1 o1]. cbn [fst].
  by destruct (run_all _ s1).
Qed.

Lemma frame_exec pid l s :
  wf s -> Forall (fun '(e, h) => ~ touches pid e h) l -> latency (exec l s) !! pid = latency s !! pid.
Proof.
  unfold exec. revert s. induction l as [|[e h] l IH]; intros s Hwf Hl; [done|].
  apply Forall_cons in Hl as [Ht Hl]. cbn [map]. rewrite run_all_cons_st.
  rewrite IH; [by apply frame_step | apply keeps_run; [apply keeps_wf|done] | done].
Qed.

Lemma ensure_size_S key m : (size (ensure key m) <= S (size m))%nat.
Proof.
  unfold ensure. destruct (m !! key) eqn:E; [lia|]. unfold hash_update. rewrite E. simpl.
  case_if; simpl; [lia|]. rewrite map_size_insert_None by done. lia.
Qed.

Lemma counted_size key c s :
  is_Some (cpu_tg_metric s !! key) ->
  size (cpu_tg_metric (counted key c s)) = size (cpu_tg_metric s).
Proof.
  intros [v Hv]. simpl. by rewrite (alter_Some _ _ _ _ Hv), map_size_insert_Some by eauto.
Qed.

Lemma ensured_counts c k key s :
  tg_count c k (ensured key s) = tg_count c k s /\ host_count c (ensured key s) = host_count c s.
Proof. split; [apply ensure_get|done]. Qed.

(** What counting the outgoing task leaves unchanged. *)
Lemma prev_counted_frame (key pid : Z) (vol : bool) s g :
  cpu_host_metric s = [g] -> Z.of_nat (size (cpu_tg_metric s)) < 9999 ->
  let s' := if negb (key =? 0) && negb (pid =? 0)
            then counted key (if vol then Nvcsw else Nivcsw) (ensured key s) else s in
  latency s' = latency s /\ Z.of_nat (size (cpu_tg_metric s')) < 10000 /\
  (exists g', cpu_host_metric s' = [g']) /\
  forall c k, c <> Nvcsw -> c <> Nivcsw ->
    tg_count c k s' = tg_count c k s /\ host_count c s' = host_count c s.
Proof.
  intros Hg Hsz s'. unfold s'. case_if; [|split_and!; eauto; lia].
  assert (is_Some (cpu_tg_metric (ensured key s) !! key)) as Hk.
  { apply ensure_room. right. lia. }
  split_and!.
  - done.
  - rewrite counted_size by done. pose proof (ensure_size_S key (cpu_tg_metric s)). simpl. lia.
  - simpl. rewrite Hg. simpl. eauto.
  - intros c k H1 H2. rewrite counted_tg by done. rewrite (counted_host _ _ _ _ g) by done.
    rewrite !decide_False by (destruct vol; intuition). apply ensured_counts.
Qed.

(** The latency range a counter is documented for, in nanoseconds. *)
Definition lat_range (c : counter) (d : Z) : bool :=
  match c with
  | Nlat01 => d <? 10000000
  | Nlat02 => (10000000 <=? d) && (d <? 20000000)
  | Nlat03 => (20000000 <=? d) && (d <? 50000000)
  | Nlat04 => 50000000 <=? d
  | _ => false
  end.

Lemma lat_counter_range d c : c = lat_counter d <-> lat_range c d = true.
Proof.
  unfold lat_counter, NSEC_PER_MSEC.
  destruct (Z.ltb_spec d (10 * 1000000)), (Z.ltb_spec d (20 * 1000000)),
    (Z.ltb_spec d (50 * 1000000)); try lia;
    destruct c; cbn [lat_range]; (split; [try discriminate; intros _ | try discriminate; try done]);
    rewrite ?andb_true_iff, ?Z.leb_le, ?Z.ltb_lt; lia.
Qed.

(** The switch to a task with an enqueue time. *)
Lemma switch_in prev next e s ts :
  let pid := core_read e 4 next task_pid in
  let key := core_read e 8 next task_sched_task_group in
  let prev_pid := core_read e 4 prev task_pid in
  let t2 := ktime e (if (get_task_state e prev =? TASK_RUNNING) && negb (prev_pid =? 0)
                     then 1%nat else 0%nat) in
  let c' := lat_counter (u64 (t2 - ts)) in
  let s' := fst (run (sched_switch_entry prev next) e s) in
  wf s -> pid <> 0 -> prev_pid <> pid -> latency s !! pid = Some ts -> ts <> 0 -> key <> 0 ->
  Z.of_nat (size (cpu_tg_metric s)) < 9999 ->
  latency s' !! pid = None /\
  forall c k, c <> Nvcsw -> c <> Nivcsw ->
    tg_count c k s' = (if decide (k = key /\ c = c') then u64 (tg_count c k s + 1)
                       else tg_count c k s) /\
    host_count c s' = (if decide (c = c') then u64 (host_count c s + 1) else host_count c s).
Proof.
  intros pid key prev_pid t2 c' s' Hwf Hpid Hne Hts Hts0 Hkey Hsz.
  destruct (wf_host s Hwf) as [g Hg].
  pose proof (switch_run prev next e s g Hg) as E. cbv zeta in E. fold prev_pid s' in E.
  rewrite switch_out_run in E. cbn [w_st w_clk w_out] in E.
  set (w1 := (if _ && _ then _ else _) : bool * world state) in E.
  assert (latency (w_st (snd w1)) !! pid = Some ts /\
          cpu_tg_metric (w_st (snd w1)) = cpu_tg_metric s /\
          cpu_host_metric (w_st (snd w1)) = [g] /\
          ktime e (w_clk (snd w1)) = t2) as (Hl1 & Htg1 & Hh1 & Hc1).
  { unfold w1, t2. case_if; simpl; [|done]. by rewrite hash_update_lookup_ne. }
  destruct w1 as [vol w1]. cbn [snd] in *.
  assert (forall c k, tg_count c k (w_st w1) = tg_count c k s) as Hc1k
    by (intros; unfold tg_count; by rewrite Htg1).
  assert (forall c, host_count c (w_st w1) = host_count c s) as Hc1h
    by (intros; unfold host_count; by rewrite Hh1, Hg).
  rewrite count_prev_run in E by (right; rewrite Htg1; lia).
  destruct (prev_counted_frame (core_read e 8 prev task_sched_task_group) prev_pid vol (w_st w1) g)
    as (Hl2 & Hr2 & [g' Hh2] & Hcs); [done | rewrite Htg1; lia |].
  set (st := (if _ && _ then _ else _) : state) in E, Hl2, Hr2, Hh2, Hcs.
  rewrite (count_next_run next e (W st (w_clk w1) (w_out w1)) ts) in E;
    [|done | simpl; by rewrite Hl2 | done | done | by right].
  cbn [w_st w_clk] in E. rewrite Hc1 in E. fold key pid c' in E. rewrite E. clear E.
  set (st' := set_latency _ st).
  assert (is_Some (cpu_tg_metric (ensured key st') !! key)) as Hk by (apply ensure_room; by right).
  split; [simpl; apply lookup_delete_eq|].
  intros c k H1 H2. rewrite counted_tg by done. rewrite (counted_host _ _ _ _ g') by done.
  destruct (ensured_counts c k key st') as [-> ->].
  change (tg_count c k st') with (tg_count c k st). change (host_count c st') with (host_count c st).
  destruct (Hcs c k H1 H2) as [-> ->]. by rewrite Hc1k, Hc1h.
Qed.

(** A wake-up that found room is still there after hooks that do not concern
    the task. *)
Lemma enqueue_kept pre mid ew wpid :
  let pid := u32 wpid in
  pid <> 0 -> Forall (fun '(e, h) => ~ touches pid e h) mid ->
  Z.of_nat (size (latency (exec pre init))) < 10000 ->
  latency (exec (pre ++ (ew, Wakeup wpid) :: mid) init) !! pid = Some (ktime ew 0%nat).
Proof.
  intros pid Hpid Hmid Hroom. assert (wf (exec pre init)) as Hwf0 by (apply wf_exec, wf_init).
  rewrite exec_app. change (exec ((ew, Wakeup wpid) :: mid)) with
    (fun s => fst (run_all ((ew, prog (Wakeup wpid)) :: map (fun '(e, h) => (e, prog h)) mid) s)).
  cbv beta. rewrite run_all_cons_st. fold (exec mid (fst (run (prog (Wakeup wpid)) ew (exec pre init)))).
  rewrite frame_exec; [|apply keeps_run; [apply keeps_wf|done]|done].
  unfold prog, sched_wakeup_entry, trace_enqueue. fold pid.
  rewrite (proj2 (Z.eqb_neq _ _) Hpid). run_simpl. cbn [latency_map mget mset mmax].
  rewrite hash_update_any, (proj2 (Z.ltb_lt _ _) Hroom), orb_true_r. simpl.
  apply lookup_insert_eq.
Qed.

(** ** Theorems *)

(** C2: conservation.  After any sequence of the five hooks, each host counter
    equals, modulo 2^64, the sum of that counter over the live task groups plus
    what the deleted groups had counted: no switch or latency is counted for a
    group and not for the host, or twice. *)
Theorem runqlat_conservation c l :
  host_count c (exec l init) =
    u64 (map_sum (get c) (cpu_tg_metric (exec l init)) + retired c l init).
Proof.
  destruct (conserved_exec c l 0 init) as (g & Hg & E).
  { exists g_new_stat. split; [done|]. simpl. rewrite map_sum_empty. by destruct c. }
  unfold host_count. rewrite Hg. exact E.
Qed.

(** Map invariants.  In every reachable state the idle task has no enqueue
    time and the null group no counters, both hash maps respect their
    max_entries, and the host element exists, so the [!g_entry] return of
    [sched_switch_entry] is never taken. *)
Theorem runqlat_wf l : wf (exec l init).
Proof. apply wf_exec, wf_init. Qed.

(** C23: the scheduling latency counted is that of the wake-up.  If a wake-up of
    [pid] found room, then whatever hooks that do not concern [pid] run before
    the switch to it, the switch removes the enqueue time and adds one to exactly
    one latency counter of the group of [pid] and of the host: the one whose
    documented range holds the time from the wake-up to the switch. *)
Theorem runqlat_latency pre mid ew es wpid prev next :
  let pid := u32 wpid in
  let key := core_read es 8 next task_sched_task_group in
  let s0 := exec pre init in
  let s1 := exec (pre ++ (ew, Wakeup wpid) :: mid) init in
  let prev_pid := core_read es 4 prev task_pid in
  let t2 := ktime es (if (get_task_state es prev =? TASK_RUNNING) && negb (prev_pid =? 0)
                      then 1%nat else 0%nat) in
  let d := u64 (t2 - ktime ew 0%nat) in
  let s2 := fst (run (sched_switch_entry prev next) es s1) in
  pid <> 0 -> ktime ew 0%nat <> 0 -> key <> 0 ->
  core_read es 4 next task_pid = pid -> prev_pid <> pid ->
  Forall (fun '(e, h) => ~ touches pid e h) mid ->
  Z.of_nat (size (latency s0)) < 10000 -> Z.of_nat (size (cpu_tg_metric s1)) < 9999 ->
  latency s2 !! pid = None /\
  (forall c k, c <> Nvcsw -> c <> Nivcsw ->
     tg_count c k s2 =
       (if (k =? key) && lat_range c d then u64 (tg_count c k s1 + 1) else tg_count c k s1) /\
     host_count c s2 =
       (if lat_range c d then u64 (host_count c s1 + 1) else host_count c s1)).
Proof.
  intros pid key s0 s1 prev_pid t2 d s2 Hpid Ht1 Hkey Hnext Hne Hmid Hroom Hroomg.
  pose proof (switch_in prev next es s1 (ktime ew 0%nat)) as H. cbv zeta in H.
  rewrite Hnext in H. destruct H as [Hl Hc]; try done; [apply wf_exec, wf_init | by apply enqueue_kept |].
  split; [exact Hl|]. intros c k Hv Hi. destruct (Hc c k Hv Hi) as [Ht Hh].
  pose proof (lat_counter_range d c) as Hr.
  split; [etrans; [exact Ht|] | etrans; [exact Hh|]]; clear Ht Hh; fold prev_pid t2 d key.
  - destruct (Z.eqb_spec k key), (lat_range c d); cbn [andb]; case_decide; intuition congruence.
  - destruct (lat_range c d); case_decide; intuition congruence.
Qed.

(** Tasks 7 (group 4096) and 9 (group 8192), running. *)
Definition example_off (f : field) : Z :=
  match f with task_state => 0 | task_sched_task_group => 8 | task_pid => 16 | _ => 64 end.
Definition example_task (state tg pid : Z) : list byte :=
  le_bytes 8 state ++ le_bytes 8 tg ++ le_bytes 4 pid.
Definition example_sched (now : Z) : kenv :=
  memory_env (example_env now 0 0) example_off (fun _ => true)
    [(1000, example_task 0 4096 7); (2000, example_task 0 8192 9)].

Lemma runqlat_latency_witness :
  let s1 := exec ([] ++ (example_sched 5000000, Wakeup 7) :: [(example_sched 6000000, Wakeup 9)]) init in
  let s2 := fst (run (sched_switch_entry 2000 1000) (example_sched 20000000) s1) in
  latency s2 !! 7 = None /\ tg_count Nlat02 4096 s2 = 1.
Proof.
  destruct (runqlat_latency [] [(example_sched 6000000, Wakeup 9)] (example_sched 5000000)
    (example_sched 20000000) 7 2000 1000) as [H1 H2].
  1-3, 5: vm_compute; discriminate.
  1, 3-4: vm_compute; reflexivity.
  - constructor; [vm_compute; discriminate | constructor].
  - split; [exact H1|]. destruct (H2 Nlat02 4096) as [E _]; [discriminate | discriminate |].
    etransitivity; [exact E|]. vm_compute. reflexivity.
Defined.
