(* ===== verification/Softirq.v ===== *)
(** * bpf/softirq.c: softirq latency per CPU and vector

    [probe_softirq_raise] stores the time a vector is raised,
    [probe_softirq_entry] classifies the delay until its handler runs.  The
    reference definition keeps, per CPU and vector, the time of the last raise
    and the times of the entries since: the map holds exactly their
    classification, so counts of earlier raises are lost. *)
From S2P Require Import Prelude Bpf.
From stdpp Require Import base gmap list strings.
From Stdlib Require Import ZArith Lia.

Open Scope Z_scope.

Module Softirq.

(** enum { HI_SOFTIRQ, ..., NR_SOFTIRQS } of vmlinux.h *)
Definition NR_SOFTIRQS : Z := 10.

Inductive lat_zone := LAT_ZONE0 | LAT_ZONE1 | LAT_ZONE2 | LAT_ZONE3.
Definition LAT_ZONE_MAX : nat := 4.
Definition zone_index (z : lat_zone) : nat :=
  match z with LAT_ZONE0 => 0 | LAT_ZONE1 => 1 | LAT_ZONE2 => 2 | LAT_ZONE3 => 3 end.

Record softirq_lat := mk_lat { timestamp : Z; total_latency : list Z }.
Definition zero_lat : softirq_lat := mk_lat 0 (replicate LAT_ZONE_MAX 0).

(** softirq_percpu_lats: the state of the object. *)
Abbreviation state := (percpu softirq_lat).
Definition softirq_percpu_lats : pcref state softirq_lat := mk_pcref (fun s => s) (fun m _ => m).
Definition init : state := fun _ => replicate NR_SOFTIRQS_MAX zero_lat.

Definition probe_softirq_raise (ctx_vec : Z) : M state Z :=
  now ← bpf_ktime_get_ns;
  let lat := mk_lat now (replicate LAT_ZONE_MAX 0) in
  let vec := u32 ctx_vec in
  if NR_SOFTIRQS <=? vec then mret 0
  else percpu_update_elem softirq_percpu_lats vec lat COMPAT_BPF_ANY;; mret 0.

(** The zone the chain of comparisons selects. *)
Definition zone_of (latency : Z) : lat_zone :=
  if latency <? 10 * NSEC_PER_USEC then LAT_ZONE0
  else if latency <? 100 * NSEC_PER_USEC then LAT_ZONE1
  else if latency <? 1 * NSEC_PER_MSEC then LAT_ZONE2
  else LAT_ZONE3.

(** __sync_fetch_and_add(&lat->total_latency[z], 1) *)
Definition add_zone (z : lat_zone) (l : softirq_lat) : softirq_lat :=
  mk_lat (timestamp l) (alter (fun n => u64 (n + 1)) (zone_index z) (total_latency l)).

Definition probe_softirq_entry (ctx_vec : Z) : M state Z :=
  let vec := u32 ctx_vec in
  if NR_SOFTIRQS <=? vec then mret 0
  else
    lat ← percpu_lookup_elem softirq_percpu_lats vec;
    match lat with
    | None => mret 0
    | Some l =>
        now ← bpf_ktime_get_ns;
        let latency := u64 (now - timestamp l) in
        percpu_store softirq_percpu_lats vec (add_zone (zone_of latency));;
        mret 0
    end.

Inductive hook := Raise (vec : Z) | Entry (vec : Z).
Definition prog (h : hook) : M state Z :=
  match h with
  | Raise vec => probe_softirq_raise vec
  | Entry vec => probe_softirq_entry vec
  end.
Definition exec (l : list (kenv * hook)) (s : state) : state :=
  fst (run_all (map (fun '(e, h) => (e, prog h)) l) s).

(** ** Reference definition *)

(** The last raise of a vector on a CPU and the entries after it. *)
Record history := mk_history { raised : Z; entries : list Z }.

Definition observe (cpu vec : Z) (a : history) (i : kenv * hook) : history :=
  let '(e, h) := i in
  let mine v := (cur_cpu e =? cpu) && (u32 v =? vec) && (u32 v <? NR_SOFTIRQS) in
  match h with
  | Raise v => if mine v then mk_history (ktime e 0%nat) [] else a
  | Entry v => if mine v then mk_history (raised a) (entries a ++ [ktime e 0%nat]) else a
  end.

Definition since_raise (cpu vec : Z) (l : list (kenv * hook)) : history :=
  fold_left (observe cpu vec) l (mk_history 0 []).

Definition zone_eqb (a b : lat_zone) : bool := (zone_index a =? zone_index b)%nat.

(** The range a zone is documented for, in nanoseconds. *)
Definition zone_range (z : lat_zone) (d : Z) : bool :=
  match z with
  | LAT_ZONE0 => d <? 10000
  | LAT_ZONE1 => (10000 <=? d) && (d <? 100000)
  | LAT_ZONE2 => (100000 <=? d) && (d <? 1000000)
  | LAT_ZONE3 => 1000000 <=? d
  end.

Definition in_zone (a : history) (z : lat_zone) : Z :=
  Z.of_nat (length (filter (fun t => zone_range z (u64 (t - raised a)) = true) (entries a))).

(** What the map element of a history holds. *)
Definition lat_of (a : history) : softirq_lat :=
  mk_lat (raised a) (map (fun z => u64 (in_zone a z)) [LAT_ZONE0; LAT_ZONE1; LAT_ZONE2; LAT_ZONE3]).

(** Every entry of the vector on the CPU follows a raise of its own: the
    number of entries allowed next is 1 after a raise and 0 after an entry. *)
Fixpoint alternates (cpu vec : Z) (armed : bool) (l : list (kenv * hook)) : bool :=
  match l with
  | [] => true
  | (e, h) :: l' =>
      let mine v := (cur_cpu e =? cpu) && (u32 v =? vec) in
      match h with
      | Raise v => alternates cpu vec (mine v || armed) l'
      | Entry v => if mine v then armed && alternates cpu vec false l'
                   else alternates cpu vec armed l'
      end
  end.

(** Entries of the vector on the CPU. *)
Fixpoint entry_count (cpu vec : Z) (l : list (kenv * hook)) : nat :=
  match l with
  | [] => 0
  | (e, Entry v) :: l' =>
      (if (cur_cpu e =? cpu) && (u32 v =? vec) then 1 else 0) + entry_count cpu vec l'
  | (_, Raise _) :: l' => entry_count cpu vec l'
  end.

(** The counters user space reads for a vector on a CPU, summed. *)
Definition counted (cpu vec : Z) (s : state) : Z :=
  match s cpu !! Z.to_nat vec with
  | Some l => fold_right Z.add 0 (total_latency l)
  | None => 0
  end.

(** ** Lemmas *)

Definition lengths (s : state) : Prop := forall cpu, length (s cpu) = NR_SOFTIRQS_MAX.

Lemma zone_range_of z d : zone_range z d = zone_eqb (zone_of d) z.
Proof.
  unfold zone_of, NSEC_PER_USEC, NSEC_PER_MSEC.
  destruct (Z.ltb_spec d (10 * 1000)), (Z.ltb_spec d (100 * 1000)), (Z.ltb_spec d (1 * 1000000));
    try lia; destruct z; cbn;
    rewrite ?andb_true_iff, ?andb_false_iff, ?Z.leb_le, ?Z.leb_gt, ?Z.ltb_lt, ?Z.ltb_ge; lia.
Qed.

Lemma in_zone_snoc t ents now z :
  in_zone (mk_history t (ents ++ [now])) z =
    in_zone (mk_history t ents) z + (if zone_eqb (zone_of (u64 (now - t))) z then 1 else 0).
Proof.
  unfold in_zone. simpl. rewrite filter_app, length_app. cbn [filter list_filter].
  rewrite <- zone_range_of.
  destruct (zone_range z _) eqn:E; [rewrite decide_True by done | rewrite decide_False by done];
    simpl; lia.
Qed.

(** An entry counts in the element as it does in the history. *)
Lemma add_zone_lat a now :
  add_zone (zone_of (u64 (now - raised a))) (lat_of a) =
    lat_of (mk_history (raised a) (entries a ++ [now])).
Proof.
  destruct a as [t ents]. unfold add_zone, lat_of. cbn [timestamp total_latency raised entries].
  f_equal. cbn [map]. rewrite !in_zone_snoc. set (z := zone_of _).
  by destruct z; simpl; rewrite u64_add_l, ?Z.add_0_r.
Qed.

Lemma vec_index v : u32 v < NR_SOFTIRQS -> (Z.to_nat (u32 v) < NR_SOFTIRQS_MAX)%nat.
Proof.
  intros. pose proof (Z.mod_pos_bound v (2 ^ 32) ltac:(lia)).
  unfold NR_SOFTIRQS, NR_SOFTIRQS_MAX, u32 in *. lia.
Qed.

Lemma run_raise e v s :
  lengths s ->
  fst (run (prog (Raise v)) e s) =
    if NR_SOFTIRQS <=? u32 v then s
    else percpu_set (cur_cpu e)
           (<[Z.to_nat (u32 v) := lat_of (mk_history (ktime e 0%nat) [])]> (s (cur_cpu e))) s.
Proof.
  intros Hlen. unfold prog, probe_softirq_raise. run_simpl. case_if; [done|].
  cbn [softirq_percpu_lats pc_get pc_set]. rewrite array_update_any; [done|].
  rewrite Hlen. by apply vec_index.
Qed.

Lemma run_entry e v s :
  lengths s ->
  fst (run (prog (Entry v)) e s) =
    if NR_SOFTIRQS <=? u32 v then s
    else percpu_set (cur_cpu e)
           (alter (fun l => add_zone (zone_of (u64 (ktime e 0%nat - timestamp l))) l)
              (Z.to_nat (u32 v)) (s (cur_cpu e))) s.
Proof.
  intros Hlen. unfold prog, probe_softirq_entry. run_simpl. case_if; [done|].
  cbn [softirq_percpu_lats pc_get pc_set].
  destruct (s (cur_cpu e) !! Z.to_nat (u32 v)) as [l|] eqn:E.
  - cbn [fst snd w_st softirq_percpu_lats pc_get pc_set]. f_equal.
    apply list_alter_ext; [|done]. intros l' Hl'. rewrite E in Hl'. by injection Hl' as ->.
  - apply lookup_ge_None in E. rewrite Hlen in E. pose proof (vec_index v). lia.
Qed.

Lemma lengths_step e h s : lengths s -> lengths (fst (run (prog h) e s)).
Proof.
  intros Hs cpu. destruct h as [v|v]; [rewrite run_raise by done|rewrite run_entry by done];
    (case_if; [apply Hs|]); unfold percpu_set; (case_if; [|apply Hs]).
  - by rewrite length_insert.
  - by rewrite length_alter.
Qed.

(** One invocation changes the element of [vec] on [cpu] as it changes the
    history. *)
Lemma step_observe cpu vec e h s a :
  lengths s -> s cpu !! Z.to_nat vec = Some (lat_of a) -> 0 <= vec ->
  fst (run (prog h) e s) cpu !! Z.to_nat vec = Some (lat_of (observe cpu vec a (e, h))).
Proof.
  intros Hlen Hs Hvec.
  assert (forall v, u32 v <> vec -> Z.to_nat (u32 v) <> Z.to_nat vec) as Hne.
  { intros v Hv. pose proof (Z.mod_pos_bound v (2 ^ 32) ltac:(lia)). unfold u32 in *. lia. }
  destruct h as [v|v]; [rewrite run_raise by done|rewrite run_entry by done]; cbn [observe];
    rewrite Z.ltb_antisym; (destruct (NR_SOFTIRQS <=? u32 v) eqn:Ev;
      cbn [negb]; rewrite ?andb_false_r, ?andb_true_r; [done|]);
    (destruct (Z.eqb_spec (cur_cpu e) cpu) as [<-|Hc]; cbn [andb];
      [rewrite percpu_set_eq | by rewrite percpu_set_ne by congruence]);
    destruct (Z.eqb_spec (u32 v) vec) as [<-|Hv].
  - apply list_lookup_insert_eq. rewrite Hlen. apply vec_index. by reflect_bool.
  - by rewrite list_lookup_insert_ne by auto.
  - rewrite list_lookup_alter_eq, Hs. simpl. f_equal. apply add_zone_lat.
  - by rewrite list_lookup_alter_ne by auto.
Qed.

Lemma exec_observe cpu vec l s a :
  lengths s -> s cpu !! Z.to_nat vec = Some (lat_of a) -> 0 <= vec ->
  exec l s cpu !! Z.to_nat vec = Some (lat_of (fold_left (observe cpu vec) l a)).
Proof.
  unfold exec. revert s a. induction l as [|[e h] l IH]; intros s a Hlen Hs Hvec; [done|].
  cbn [map fold_left]. rewrite run_all_cons_st.
  apply IH; [by apply lengths_step | by apply step_observe | done].
Qed.

Lemma exec_init cpu vec l :
  0 <= vec < 16 -> exec l init cpu !! Z.to_nat vec = Some (lat_of (since_raise cpu vec l)).
Proof.
  intros Hvec. apply exec_observe; [done| |lia]. unfold init.
  rewrite lookup_replicate_2; [done|]. unfold NR_SOFTIRQS_MAX. lia.
Qed.

(** With one entry per raise at most one entry follows the last raise. *)
Lemma alternates_entries cpu vec l a armed :
  vec < NR_SOFTIRQS -> alternates cpu vec armed l = true ->
  (length (entries a) <= if armed then 0 else 1)%nat ->
  (length (entries (fold_left (observe cpu vec) l a)) <= 1)%nat.
Proof.
  intros Hvec. revert a armed. induction l as [|[e h] l IH]; intros a armed Hl Ha; cbn [fold_left].
  { destruct armed; lia. }
  assert (forall v, (cur_cpu e =? cpu) && (u32 v =? vec) && (u32 v <? NR_SOFTIRQS) =
                    (cur_cpu e =? cpu) && (u32 v =? vec)) as Emine.
  { intros v. destruct (Z.eqb_spec (u32 v) vec) as [->|]; [|by rewrite !andb_false_r].
    by rewrite (proj2 (Z.ltb_lt _ _) Hvec), andb_true_r. }
  destruct h as [v|v]; cbn [alternates observe] in *; rewrite Emine;
    destruct ((cur_cpu e =? cpu) && (u32 v =? vec)); cbn [orb] in *.
  - apply (IH _ true); [done|]. simpl. lia.
  - by apply (IH _ armed).
  - apply andb_prop in Hl as [-> Hl]. apply (IH _ false); [done|].
    simpl. rewrite length_app. simpl. lia.
  - by apply (IH _ armed).
Qed.

(** The counters of a short history add up to its entries. *)
Lemma lat_of_short a :
  (length (entries a) <= 1)%nat ->
  fold_right Z.add 0 (total_latency (lat_of a)) = Z.of_nat (length (entries a)).
Proof.
  destruct a as [t [|x [|y ents]]]; [done| |simpl; lia]. intros _.
  unfold lat_of. cbn [map total_latency]. rewrite !(in_zone_snoc t [] x).
  by destruct (zone_of _).
Qed.

End Softirq.

(** ** Theorems *)

(** C22: functional refinement of softirq.c.  After any interleaving of raises
    and entries on any CPUs, the element of each of the 16 vectors on each CPU
    holds the time of that vector's last raise on that CPU and, modulo 2^64, the
    number of entries since that raise in each latency zone; vectors from
    NR_SOFTIRQS on are never written. *)
Theorem softirq_refines cpu vec l :
  0 <= vec < 16 ->
  Softirq.exec l Softirq.init cpu !! Z.to_nat vec =
    Some (Softirq.lat_of (Softirq.since_raise cpu vec l)).
Proof. apply Softirq.exec_init. Qed.

Lemma softirq_refines_witness :
  Softirq.exec [(example_env 5000 0 1, Softirq.Raise 3); (example_env 900 0 0, Softirq.Raise 3);
                (example_env 9000 0 1, Softirq.Entry 3); (example_env 70000 0 1, Softirq.Entry 3)]
    Softirq.init 1 !! Z.to_nat 3 = Some (Softirq.mk_lat 5000 [1; 1; 0; 0]).
Proof.
  apply (softirq_refines 1 3 [(example_env 5000 0 1, Softirq.Raise 3);
    (example_env 900 0 0, Softirq.Raise 3); (example_env 9000 0 1, Softirq.Entry 3);
    (example_env 70000 0 1, Softirq.Entry 3)]). lia.
Defined.

(** [probe_softirq_raise] discards what was counted.  Right after a raise
    the four counters of the vector on that CPU are zero; so when each handler
    entry follows a raise of its own, the counters user space reads add up to 1
    at most, however many entries there were. *)
Theorem softirq_raise_discards_counts cpu vec l :
  0 <= vec < Softirq.NR_SOFTIRQS ->
  (forall e v, cur_cpu e = cpu -> u32 v = vec ->
     Softirq.counted cpu vec (Softirq.exec (l ++ [(e, Softirq.Raise v)]) Softirq.init) = 0) /\
  (Softirq.alternates cpu vec false l = true ->
     Softirq.counted cpu vec (Softirq.exec l Softirq.init) <= 1).
Proof.
  intros Hvec. unfold Softirq.counted.
  split; [intros e v <- <- | intros Hl]; rewrite Softirq.exec_init
    by (unfold Softirq.NR_SOFTIRQS in *; lia).
  - unfold Softirq.since_raise. rewrite fold_left_app. cbn [fold_left Softirq.observe].
    by rewrite !Z.eqb_refl, (proj2 (Z.ltb_lt _ _)) by lia.
  - assert (length (Softirq.entries (Softirq.since_raise cpu vec l)) <= 1)%nat as H.
    { apply (Softirq.alternates_entries cpu vec l _ false); [lia | done | simpl; lia]. }
    rewrite Softirq.lat_of_short by done. lia.
Qed.

Lemma softirq_raise_discards_counts_witness :
  let l := [(example_env 100 0 0, Softirq.Raise 2); (example_env 200 0 0, Softirq.Entry 2);
            (example_env 300 0 0, Softirq.Raise 2); (example_env 400 0 0, Softirq.Entry 2)] in
  Softirq.entry_count 0 2 l = 2%nat /\ Softirq.counted 0 2 (Softirq.exec l Softirq.init) <= 1.
Proof.
  intros l. split; [reflexivity|].
  apply (softirq_raise_discards_counts 0 2 l); [|reflexivity].
  unfold Softirq.NR_SOFTIRQS. lia.
Defined.
