(* ===== verification/Collectors.v ===== *)
(** * core/metrics: collectors on the BPF maps

    The Update functions of softirq.go and memory_reclaim.go and the polling of
    runqlat_tracing.go with the Update of runqlat.go, on the bytes the maps of
    Softirq.v, Counters.v and Runqlat.v dump to. A gauge's float64 value is the
    integer it is converted from. *)
From S2P Require Import Prelude Layout Bpf Vmlinux Counters Runqlat Softirq.
From stdpp Require Import base gmap list strings.
From Stdlib Require Import ZArith Lia.
From Stdlib.Strings Require Byte.

Open Scope Z_scope.

(** An item of DumpMapByName: the bytes of a key and of its value. *)
Definition item : Type := list byte * list byte.

(** binary.Read of [n] little-endian uint64s; [None] if the input is short. *)
Fixpoint read_u64s (n : nat) (bs : list byte) : option (list Z * list byte) :=
  match n with
  | O => Some ([], bs)
  | S n' =>
      if Nat.ltb (length bs) 8 then None
      else '(vs, rest) ← read_u64s n' (drop 8 bs); Some (le_Z (take 8 bs) :: vs, rest)
  end.

Definition u64_bytes (vs : list Z) : list byte := concat (le_bytes 8 <$> vs).

Lemma read_u64s_bytes vs rest :
  Forall (is_u 64) vs -> read_u64s (length vs) (u64_bytes vs ++ rest) = Some (vs, rest).
Proof.
  induction 1 as [|v vs Hv Hvs IH]; [done|]. cbn [length read_u64s u64_bytes fmap list_fmap concat].
  rewrite <- app_assoc. assert (length (le_bytes 8 v) = 8%nat) as Hl by apply length_le_bytes.
  rewrite (proj2 (Nat.ltb_ge _ _)) by (rewrite length_app; lia).
  rewrite drop_app_length', take_app_length' by done. unfold u64_bytes in IH. rewrite IH. cbn.
  by rewrite le_Z_le_bytes_small.
Qed.

(** ** softirq.go *)
Module SoftirqGo.

Record softirqLatencyData := mk_data { Timestamp : Z; TotalLatency : list Z }.

Definition irqTypeName (id : Z) : string :=
  match id with
  | 0 => "HI" | 1 => "TIMER" | 2 => "NET_TX" | 3 => "NET_RX" | 4 => "BLOCK" | 5 => "IRQ_POLL"
  | 6 => "TASKLET" | 7 => "SCHED" | 8 => "HRTIMER" | 9 => "RCU" | _ => "ERR_TYPE"
  end.

Definition irqAllowed (id : Z) : bool := (id =? 2) || (id =? 3).

(** A gauge: its labels type, cpuid and zone, and its value. *)
Record gauge := mk_gauge { type_ : string; cpuid : nat; zone : nat; value : Z }.

(** binary.Read into [n] structures. *)
Fixpoint read_latencies (n : nat) (bs : list byte) : option (list softirqLatencyData) :=
  match n with
  | O => Some []
  | S n' =>
      '(ts, bs) ← read_u64s 1 bs;
      '(lats, bs) ← read_u64s 4 bs;
      rest ← read_latencies n' bs;
      Some (mk_data (default 0 (head ts)) lats :: rest)
  end.

(** The gauges of one item's CPUs, from CPU [cpu] on. *)
Fixpoint cpu_gauges (name : string) (cpuOnline cpu : nat) (data : list softirqLatencyData) : list gauge :=
  match data with
  | [] => []
  | lat :: data' =>
      if Nat.leb cpuOnline cpu then []
      else imap (fun z v => mk_gauge name cpu z v) (TotalLatency lat) ++
           cpu_gauges name cpuOnline (S cpu) data'
  end.

Fixpoint update_items (cpuPossible cpuOnline : nat) (items : list item) : option (list gauge) :=
  match items with
  | [] => Some []
  | (key, val) :: items' =>
      if Nat.ltb (length key) 4 then None
      else
        let irqVector := le_Z (take 4 key) in
        if negb (irqAllowed irqVector) then update_items cpuPossible cpuOnline items'
        else
          data ← read_latencies cpuPossible val;
          rest ← update_items cpuPossible cpuOnline items';
          Some (cpu_gauges (irqTypeName irqVector) cpuOnline 0 data ++ rest)
  end.

(** [None] is an error, of the dump or of a decoding. *)
Definition softirqLatency_Update (isRunning : bool) (cpuPossible cpuOnline : nat) (dump : option (list item))
    : option (list gauge) :=
  if negb isRunning then Some [] else items ← dump; update_items cpuPossible cpuOnline items.

(** *** The dump of the per-CPU array *)

Definition lat_bytes (l : Softirq.softirq_lat) : list byte :=
  u64_bytes [Softirq.timestamp l] ++ u64_bytes (Softirq.total_latency l).
Definition vec_item (cpuPossible : nat) (s : Softirq.state) (vec : nat) : item :=
  (le_bytes 4 (Z.of_nat vec),
   concat ((fun cpu => lat_bytes (nth vec (s (Z.of_nat cpu)) Softirq.zero_lat)) <$> seq 0 cpuPossible)).
Definition dump (cpuPossible : nat) (s : Softirq.state) : list item :=
  vec_item cpuPossible s <$> seq 0 NR_SOFTIRQS_MAX.

(** ** Lemmas *)

Definition lat_ok (l : Softirq.softirq_lat) : Prop :=
  is_u 64 (Softirq.timestamp l) /\ Forall (is_u 64) (Softirq.total_latency l) /\
  length (Softirq.total_latency l) = 4%nat.

Definition data_of (l : Softirq.softirq_lat) : softirqLatencyData :=
  mk_data (Softirq.timestamp l) (Softirq.total_latency l).

Lemma read_latencies_bytes ls rest :
  Forall lat_ok ls -> read_latencies (length ls) (concat (lat_bytes <$> ls) ++ rest) = Some (data_of <$> ls).
Proof.
  induction 1 as [|l ls (Ht & Hl & Hn) Hls IH]; [done|].
  cbn [length read_latencies fmap list_fmap concat]. unfold lat_bytes at 1. rewrite <- !app_assoc.
  rewrite (read_u64s_bytes [Softirq.timestamp l]) by by apply Forall_singleton. cbn [mbind option_bind].
  rewrite <- Hn, read_u64s_bytes by done. cbn [mbind option_bind]. rewrite IH. done.
Qed.

(** The gauges a vector should have. *)
Definition vec_gauges (cpus : nat) (s : Softirq.state) (vec : nat) : list gauge :=
  concat ((fun cpu => imap (fun z v => mk_gauge (irqTypeName (Z.of_nat vec)) cpu z v)
     (Softirq.total_latency (nth vec (s (Z.of_nat cpu)) Softirq.zero_lat))) <$> seq 0 cpus).

Lemma cpu_gauges_take name online ls : forall cpu,
  cpu_gauges name online cpu (data_of <$> ls) =
  concat (imap (fun i l => imap (fun z v => mk_gauge name (cpu + i) z v) (Softirq.total_latency l))
            (take (online - cpu) ls)).
Proof.
  induction ls as [|l ls IH]; intros cpu; [by rewrite take_nil|]. cbn [fmap list_fmap cpu_gauges].
  destruct (Nat.leb_spec online cpu); [by replace (online - cpu)%nat with 0%nat by lia|].
  replace (online - cpu)%nat with (S (online - S cpu)) by lia. cbn [take imap concat].
  rewrite IH, Nat.add_0_r. f_equal. f_equal. apply imap_ext. intros i x _.
  cbn. by rewrite <- plus_n_Sm.
Qed.

Lemma imap_seq_diag {A} (f : nat -> nat -> A) n : imap f (seq 0 n) = (fun i => f i i) <$> seq 0 n.
Proof.
  apply list_eq. intros i. rewrite list_lookup_imap, list_lookup_fmap.
  destruct (seq 0 n !! i) eqn:E; [|done]. by apply lookup_seq in E as [-> _].
Qed.

Lemma update_items_vecs possible online s vecs :
  Forall (fun vec => (vec < 2 ^ 32)%Z) (Z.of_nat <$> vecs) ->
  (forall vec cpu, vec ∈ vecs -> (cpu < possible)%nat -> lat_ok (nth vec (s (Z.of_nat cpu)) Softirq.zero_lat)) ->
  update_items possible online (vec_item possible s <$> vecs) =
  Some (concat (vec_gauges (min online possible) s <$> filter (fun v => irqAllowed (Z.of_nat v) = true) vecs)).
Proof.
  induction vecs as [|vec vecs IH]; intros Hv Hok; [done|]. cbn [fmap list_fmap] in Hv |- *.
  apply Forall_cons in Hv as [Hv Hvs]. cbn [update_items vec_item]. rewrite length_le_bytes. cbn [Nat.ltb Nat.leb].
  rewrite (take_ge (le_bytes 4 _)) by by rewrite length_le_bytes.
  rewrite le_Z_le_bytes_small by (unfold is_u; change (8 * Z.of_nat 4) with 32; lia).
  rewrite filter_cons. specialize (IH Hvs (fun v cpu H => Hok v cpu (list_elem_of_further _ _ _ H))).
  destruct (irqAllowed (Z.of_nat vec)) eqn:Ea; cbn [negb];
    [rewrite decide_True by done | rewrite decide_False by done; exact IH].
  set (ls := (fun cpu => nth vec (s (Z.of_nat cpu)) Softirq.zero_lat) <$> seq 0 possible).
  assert (length ls = possible) as Hlen by (unfold ls; by rewrite length_fmap, length_seq).
  assert (read_latencies possible (concat ((fun cpu => lat_bytes (nth vec (s (Z.of_nat cpu)) Softirq.zero_lat)) <$> seq 0 possible))
          = Some (data_of <$> ls)) as ->.
  { rewrite <- (app_nil_r (concat _)). rewrite <- Hlen at 1. unfold ls. rewrite <- (read_latencies_bytes _ []).
    - by rewrite <- list_fmap_compose.
    - apply Forall_fmap, Forall_forall. intros cpu Hc. apply elem_of_seq in Hc. apply Hok; [by left | lia]. }
  cbn [mbind option_bind]. rewrite IH. cbn [mbind option_bind fmap list_fmap concat]. f_equal. f_equal.
  rewrite cpu_gauges_take, Nat.sub_0_r. unfold vec_gauges, ls.
  rewrite <- fmap_take, take_seq, imap_fmap. f_equal. apply (imap_seq_diag (fun i cpu => imap _ (Softirq.total_latency (nth vec (s (Z.of_nat cpu)) Softirq.zero_lat)))).
Qed.

Lemma since_raise_ok cpu vec l :
  Forall (fun i => is_u 64 (ktime i.1 0%nat)) l -> lat_ok (Softirq.lat_of (Softirq.since_raise cpu vec l)).
Proof.
  intros Hl. assert (is_u 64 (Softirq.raised (Softirq.since_raise cpu vec l))) as Hr.
  { unfold Softirq.since_raise. assert (is_u 64 (Softirq.raised (Softirq.mk_history 0 []))) as H0 by (unfold is_u; cbn; lia).
    revert H0. generalize (Softirq.mk_history 0 []). induction Hl as [|[e h] l He Hl IH]; intros a Ha; [done|].
    apply IH. cbn [Softirq.observe]. destruct h; case_match; done. }
  split; [exact Hr|]. cbn [Softirq.lat_of Softirq.total_latency map]. split; [|done].
  repeat (apply Forall_cons; split; [apply u64_range|]). constructor.
Qed.

Lemma exec_nth l cpu vec :
  (vec < 16)%nat ->
  nth vec (Softirq.exec l Softirq.init cpu) Softirq.zero_lat = Softirq.lat_of (Softirq.since_raise cpu (Z.of_nat vec) l).
Proof.
  intros Hv. rewrite nth_lookup. pose proof (Softirq.exec_init cpu (Z.of_nat vec) l ltac:(lia)) as E.
  rewrite Nat2Z.id in E. by rewrite E.
Qed.

(** ** Theorems *)

(** From the probes to the gauges: after any interleaving of raises and entries,
    softirq.go reports, for NET_TX and then NET_RX and each of the first
    min(online, possible) CPUs, four gauges: the numbers of entries in each
    latency zone since the vector's last raise on that CPU. *)
Theorem softirq_gauges l possible online :
  Forall (fun i => is_u 64 (ktime i.1 0%nat)) l ->
  softirqLatency_Update true possible online (Some (dump possible (Softirq.exec l Softirq.init))) =
  Some (concat ((fun vec : nat => concat ((fun cpu : nat =>
      imap (fun z v => mk_gauge (irqTypeName (Z.of_nat vec)) cpu z v)
        (Softirq.total_latency (Softirq.lat_of (Softirq.since_raise (Z.of_nat cpu) (Z.of_nat vec) l))))
      <$> seq 0 (min online possible))) <$> [2; 3]%nat)).
Proof.
  intros Hl. unfold softirqLatency_Update. cbn [negb mbind option_bind]. unfold dump. rewrite update_items_vecs.
  - change (filter (fun v => irqAllowed (Z.of_nat v) = true) (seq 0 NR_SOFTIRQS_MAX)) with [2; 3]%nat.
    f_equal. cbn [fmap list_fmap concat]. unfold vec_gauges. f_equal; [|f_equal]; f_equal;
      apply list_fmap_ext; intros i cpu _; by rewrite exec_nth by lia.
  - apply Forall_fmap, Forall_forall. intros v Hv. apply elem_of_seq in Hv. unfold NR_SOFTIRQS_MAX in Hv. cbn. lia.
  - intros vec cpu Hv _. apply elem_of_seq in Hv. unfold NR_SOFTIRQS_MAX in Hv.
    rewrite exec_nth by lia. by apply since_raise_ok.
Qed.

(** CPUs are cut off by their number: no gauge has a cpuid of cpuOnline or
    more, so with a CPU offline below it, the last online CPU is missing and
    the offline one reported. *)
Theorem softirq_gauges_by_number isRunning possible online items gs g :
  softirqLatency_Update isRunning possible online items = Some gs -> g ∈ gs -> (cpuid g < online)%nat.
Proof.
  assert (forall name data cpu, g ∈ cpu_gauges name online cpu data -> (cpuid g < online)%nat) as Hc.
  { intros name data. induction data as [|lat data IH]; intros cpu; cbn [cpu_gauges]; [set_solver|].
    destruct (Nat.leb_spec online cpu); [set_solver|].
    intros [Hg|Hg]%elem_of_app; [|by apply (IH (S cpu))].
    apply elem_of_lookup_imap in Hg as (z & v & -> & _). cbn. lia. }
  unfold softirqLatency_Update. destruct (negb isRunning); [intros [= <-]; set_solver|].
  destruct items as [items|]; [|done]. cbn [mbind option_bind]. revert gs.
  induction items as [|[key val] items IH]; intros gs; cbn [update_items]; [intros [= <-]; set_solver|].
  destruct (Nat.ltb (length key) 4); [done|]. destruct (negb _); [apply IH|].
  destruct (read_latencies possible val) as [data|]; [|done]. cbn [mbind option_bind].
  destruct (update_items possible online items) as [rest|]; [|done]. intros [= <-].
  intros [Hg|Hg]%elem_of_app; [by apply Hc in Hg | by apply (IH rest)].
Qed.

Lemma softirq_gauges_witness :
  softirqLatency_Update true 2 1 (Some (dump 2 (Softirq.exec [(example_env 5000 0 0, Softirq.Raise 3);
    (example_env 9000 0 0, Softirq.Entry 3)] Softirq.init))) =
  Some [mk_gauge "NET_TX" 0 0 0; mk_gauge "NET_TX" 0 1 0; mk_gauge "NET_TX" 0 2 0; mk_gauge "NET_TX" 0 3 0;
        mk_gauge "NET_RX" 0 0 1; mk_gauge "NET_RX" 0 1 0; mk_gauge "NET_RX" 0 2 0; mk_gauge "NET_RX" 0 3 0].
Proof.
  rewrite (softirq_gauges [(example_env 5000 0 0, Softirq.Raise 3); (example_env 9000 0 0, Softirq.Entry 3)] 2 1).
  - vm_compute. reflexivity.
  - repeat (apply Forall_cons; split; [unfold is_u; cbn; lia|]). constructor.
Defined.

Lemma softirq_gauges_by_number_witness :
  (cpuid (mk_gauge "NET_RX" 0 1 7) < 1)%nat.
Proof.
  apply (softirq_gauges_by_number true 1 1 (Some [(le_bytes 4 3, u64_bytes [5; 0; 7; 0; 0])])
    [mk_gauge "NET_RX" 0 0 0; mk_gauge "NET_RX" 0 1 7; mk_gauge "NET_RX" 0 2 0; mk_gauge "NET_RX" 0 3 0]).
  - vm_compute. reflexivity.
  - right. left.
Defined.

End SoftirqGo.

(** ** memory_reclaim.go *)
Module ReclaimGo.

(** A container's ID and its container.CSS["memory"]. *)
Record Container := mk_container { cid : string; css : Z }.

(** A gauge "directstall": the container and the value. *)
Definition reclaim_gauge : Type := Container * Z.

Definition add (m : gmap Z Container) (c : Container) : gmap Z Container := <[css c := c]> m.
Definition containersMap (containers : list Container) : gmap Z Container := foldl add ∅ containers.

Fixpoint item_gauges (cm : gmap Z Container) (items : list item) : option (list reclaim_gauge) :=
  match items with
  | [] => Some []
  | (key, val) :: items' =>
      '(k, _) ← read_u64s 1 key;
      '(v, _) ← read_u64s 1 val;
      rest ← item_gauges cm items';
      Some (match cm !! default 0 (head k) with
            | Some c => (c, default 0 (head v)) :: rest
            | None => rest
            end)
  end.

(** [range_order] is the order in which Go walks the map of containers. *)
Definition memoryCgroup_Update (isRuning : bool) (containers : option (list Container)) (dump : option (list item))
    (range_order : list Container -> list Container) : option (list reclaim_gauge) :=
  if negb isRuning then Some []
  else
    cs ← containers;
    items ← dump;
    gs ← item_gauges (containersMap cs) items;
    Some (gs ++ (if decide (items = [])
                 then (fun c => (c, 0)) <$> range_order ((map_to_list (containersMap cs)).*2) else [])).

(** The dump of mem_cgroup_map in the order of [kvs]. *)
Definition dump_items (kvs : list (Z * Z)) : list item := (fun kv => (le_bytes 8 kv.1, le_bytes 8 kv.2)) <$> kvs.

(** ** Lemmas *)

Lemma adds_other cs k : forall m, k ∉ css <$> cs -> foldl add m cs !! k = m !! k.
Proof.
  induction cs as [|c cs IH]; intros m Hn; [done|]. cbn [foldl fmap list_fmap] in *.
  rewrite IH by set_solver. apply lookup_insert_ne. set_solver.
Qed.

Lemma adds_in cs c : forall m, NoDup (css <$> cs) -> c ∈ cs -> foldl add m cs !! css c = Some c.
Proof.
  induction cs as [|c' cs IH]; intros m Hnd Hin; [set_solver|]. cbn [foldl fmap list_fmap] in *.
  apply NoDup_cons in Hnd as [Hni Hnd]. apply elem_of_cons in Hin as [<-|Hin]; [|by apply IH].
  rewrite adds_other by done. apply lookup_insert_eq.
Qed.

Lemma adds_inv cs k c : forall m, foldl add m cs !! k = Some c -> m !! k = Some c \/ (c ∈ cs /\ k = css c).
Proof.
  induction cs as [|c' cs IH]; intros m Hl; [by left|]. cbn [foldl] in Hl.
  destruct (IH _ Hl) as [Hm|[Hin ->]]; [|right; split; [by right | done]].
  unfold add in Hm. destruct (decide (css c' = k)) as [<-|Hne].
  - rewrite lookup_insert_eq in Hm. injection Hm as ->. right. split; [by left | done].
  - rewrite lookup_insert_ne in Hm by done. by left.
Qed.

Lemma containersMap_spec cs k c :
  NoDup (css <$> cs) -> containersMap cs !! k = Some c <-> c ∈ cs /\ k = css c.
Proof.
  intros Hnd. split.
  - intros H. by apply adds_inv in H as [H|H]; [rewrite lookup_empty in H|].
  - intros [Hin ->]. by apply adds_in.
Qed.

Lemma read_u64 v : is_u 64 v -> read_u64s 1 (le_bytes 8 v) = Some ([v], []).
Proof.
  intros Hv. pose proof (read_u64s_bytes [v] [] ltac:(by apply Forall_singleton)) as E.
  unfold u64_bytes in E. cbn [fmap list_fmap concat length] in E. by rewrite !app_nil_r in E.
Qed.

Lemma item_gauges_dump cm kvs :
  Forall (fun kv => is_u 64 kv.1 /\ is_u 64 kv.2) kvs ->
  item_gauges cm (dump_items kvs) = Some (omap (fun kv => (fun c => (c, kv.2)) <$> cm !! kv.1) kvs).
Proof.
  induction 1 as [|[k v] kvs [Hk Hv] Hf IH]; [done|]. cbn [fst snd] in *.
  cbn [dump_items fmap list_fmap item_gauges fst snd]. rewrite !read_u64 by done.
  cbn [mbind option_bind]. unfold dump_items in IH. rewrite IH. cbn. by destruct (cm !! k).
Qed.

(** Keys and counters of the map are 64-bit. *)
Definition in_range (s : MemoryReclaim.state) : Prop := map_Forall (fun k v => is_u 64 k /\ is_u 64 v) s.

Lemma exec_in_range l : forall s, in_range s -> in_range (MemoryReclaim.exec l s).
Proof.
  unfold MemoryReclaim.exec. induction l as [|[e h] l IH]; intros s Hs; [done|].
  cbn [map]. rewrite run_all_cons_st. apply IH. destruct h as [|c]; cbn [MemoryReclaim.prog].
  - rewrite reclaim_run. unfold MemoryReclaim.stalled. destruct (_ =? 0); [|done]. unfold Counters.counted.
    set (k := core_read_subsys e (cur_task e) memory_cgrp_id).
    assert (is_u 64 k) as Hk by apply core_read_subsys_u64. clearbody k.
    destruct (s !! k); [|case_match; [|done]]; apply map_Forall_insert_2; try done; (split; [done|]).
    apply u64_range.
  - rewrite released_run. by apply map_Forall_delete.
Qed.

(** ** Theorems *)

(** From the probes to the gauges of memory_reclaim.go: the containers having
    different memory cgroups, at most 10240 of which stalled, container c gets
    a gauge of value v iff v is the number of its direct reclaims, modulo
    2^64, and there was one, or if v is 0 and no cgroup at all has any. Once a
    cgroup stalls, the containers that have not are left out. *)
Theorem reclaim_gauges l cs kvs ord gs c v :
  Z.of_nat (size (MemoryReclaim.seen l)) <= 10240 -> NoDup (css <$> cs) -> c ∈ cs ->
  Permutation kvs (map_to_list (MemoryReclaim.exec l ∅)) -> (forall x, Permutation (ord x) x) ->
  memoryCgroup_Update true (Some cs) (Some (dump_items kvs)) ord = Some gs ->
  (c, v) ∈ gs <->
  (MemoryReclaim.stalls (css c) l <> 0 /\ v = u64 (MemoryReclaim.stalls (css c) l)) \/
  (v = 0 /\ forall k, MemoryReclaim.stalls k l = 0).
Proof.
  intros Hl Hnd Hc Hp Ho Hu. set (s := MemoryReclaim.exec l ∅) in *.
  assert (stalls_ok (fun k => MemoryReclaim.stalls k l) s) as Hs.
  { apply (reclaim_exec l (fun _ => 0) ∅ (MemoryReclaim.seen l)); [intros k'; by rewrite lookup_empty | set_solver | done | done]. }
  assert (in_range s) as Hr by (apply exec_in_range, map_Forall_empty).
  unfold memoryCgroup_Update in Hu. cbn [negb mbind option_bind] in Hu. rewrite item_gauges_dump in Hu.
  2: { rewrite Hp. apply map_Forall_to_list in Hr. eapply Forall_impl; [exact Hr|]. by intros [k x]. }
  cbn [mbind option_bind] in Hu. injection Hu as <-. rewrite elem_of_app, list_elem_of_omap.
  assert (dump_items kvs = [] <-> s = ∅) as He.
  { unfold dump_items. rewrite <- map_to_list_empty_iff. split.
    - intros E%fmap_nil_inv. subst kvs. by apply Permutation_nil_l in Hp.
    - intros E. rewrite E in Hp. by apply Permutation_nil_r in Hp as ->. }
  assert (s = ∅ <-> forall k, MemoryReclaim.stalls k l = 0) as Hz.
  { split.
    - intros Es k. destruct (Hs k) as [_ Hk]. rewrite Es, lookup_empty in Hk. by destruct (Z.eqb_spec (MemoryReclaim.stalls k l) 0).
    - intros H0. apply map_empty. intros k. destruct (Hs k) as [_ ->]. by rewrite H0. }
  assert ((exists kv, kv ∈ kvs /\ (fun c0 => (c0, kv.2)) <$> containersMap cs !! kv.1 = Some (c, v)) <-> s !! css c = Some v) as H1.
  { split.
    - intros ([k x] & Hin & Hm). rewrite Hp, elem_of_map_to_list in Hin. cbn [fst snd] in *.
      destruct (containersMap cs !! k) as [c0|] eqn:Ec; [|done]. injection Hm as -> ->.
      by apply containersMap_spec in Ec as [_ ->].
    - intros Hsk. exists (css c, v). rewrite Hp, elem_of_map_to_list. split; [done|]. cbn [fst snd].
      by rewrite (proj2 (containersMap_spec cs (css c) c Hnd)). }
  assert ((c, v) ∈ (if decide (dump_items kvs = []) then (fun c0 => (c0, 0)) <$> ord (map_to_list (containersMap cs)).*2 else [])
          <-> v = 0 /\ s = ∅) as H2.
  { case_decide as Ed; rewrite He in Ed; [|split; [set_solver | by intros [_ ?]]].
    split; [by intros (? & [= _ ->] & _)%list_elem_of_fmap|]. intros [-> _]. apply list_elem_of_fmap. exists c.
    split; [done|]. rewrite Ho. apply list_elem_of_fmap. exists (css c, c). split; [done|].
    apply elem_of_map_to_list. by apply containersMap_spec. }
  rewrite H1, H2, Hz. destruct (Hs (css c)) as [_ ->].
  destruct (Z.eqb_spec (MemoryReclaim.stalls (css c) l) 0) as [E|E].
  - split; [intros [[=]|H]; by right | intros [[H _]|H]; [contradiction | by right]].
  - split; [intros [[= <-]|H]; [by left | by right] | intros [[_ ->]|H]; [by left | by right]].
Qed.

(** Two containers, one of which stalled. *)
Lemma reclaim_gauges_witness :
  let l := [(stall_env 0, MemoryReclaim.ReclaimBegin)] in
  let c := mk_container "c" 0x5000 in
  exists gs, memoryCgroup_Update true (Some [c; mk_container "d" 0x6000]) (Some (dump_items [(0x5000, 1)])) (fun x => x) = Some gs /\
    (c, 1) ∈ gs /\ MemoryReclaim.stalls (css c) l = 1.
Proof.
  intros l c. exists [(c, 1)].
  assert (Z.of_nat (size (MemoryReclaim.seen l)) <= 10240) as H1 by (vm_compute; discriminate).
  assert (map_to_list (MemoryReclaim.exec l ∅) = [(0x5000, 1)]) as H2 by (vm_compute; reflexivity).
  assert (MemoryReclaim.stalls (css c) l = 1) as H3 by (vm_compute; reflexivity).
  clearbody l. split; [vm_compute; reflexivity|]. split; [|exact H3].
  apply (reclaim_gauges l [c; mk_container "d" 0x6000] [(0x5000, 1)] (fun x => x) [(c, 1)] c 1 H1).
  - apply (bool_decide_unpack _). vm_compute. exact I.
  - by left.
  - by rewrite H2.
  - done.
  - vm_compute. reflexivity.
  - left. rewrite H3. split; [discriminate | reflexivity].
Defined.

End ReclaimGo.

(** ** runqlat_tracing.go and runqlat.go *)
Module RunqlatGo.

Record latencyBpfData := mk_data
  { NumVoluntarySwitch : Z; NumInVoluntarySwitch : Z; NumLatency01 : Z; NumLatency02 : Z;
    NumLatency03 : Z; NumLatency04 : Z }.
Definition zero_data : latencyBpfData := mk_data 0 0 0 0 0 0.

(** globalRunqlat, and the "runqlat" life resource of each container by ID. *)
Record store := mk_store { globalRunqlat : latencyBpfData; resources : gmap string latencyBpfData }.

Definition read_data (bs : list byte) : option latencyBpfData :=
  '(vs, _) ← read_u64s 6 bs;
  match vs with
  | [a; b; c; d; e; f] => Some (mk_data a b c d e f)
  | _ => None
  end.

Section Poll.
(** pod.GetContainerByCSS(css, "cpu"): a container's ID. *)
Context (GetContainerByCSS : Z -> option string).

(** The loop over the items of cpu_tg_metric; [None] is a decoding error. *)
Fixpoint poll_items (items : list item) (st : store) : option store :=
  match items with
  | [] => Some st
  | (key, val) :: items' =>
      '(k, _) ← read_u64s 1 key;
      match GetContainerByCSS (default 0 (head k)) with
      | None => poll_items items' st
      | Some id =>
          d ← read_data val;
          poll_items items' (mk_store (globalRunqlat st) (<[id := d]> (resources st)))
      end
  end.

(** One round of startRunqlatTracerWork on the dump of cpu_tg_metric and the
    element of cpu_host_metric. *)
Definition poll (dump : option (list item)) (host : option (list byte)) (st : store) : option store :=
  items ← dump;
  st ← poll_items items st;
  bs ← host;
  d ← read_data bs;
  Some (mk_store d (resources st)).
End Poll.

(** The end of Start: the containers' resources are cleared. *)
Definition reset (containers : list string) (st : store) : store :=
  mk_store (globalRunqlat st) (foldl (fun m id => <[id := zero_data]> m) (resources st) containers).

(** A gauge: the container, [None] for the host, the name and the value. *)
Definition runqlat_gauge : Type := option string * string * Z.

Definition container_gauges (st : store) (id : string) : list runqlat_gauge :=
  let m := default zero_data (resources st !! id) in
  [(Some id, "nlat_01"%string, NumLatency01 m); (Some id, "nlat_02"%string, NumLatency02 m);
   (Some id, "nlat_03"%string, NumLatency03 m); (Some id, "nlat_04"%string, NumLatency04 m)].

Definition runqlatCollector_Update (runqlatRunning : bool) (containers : option (list string)) (st : store) : option (list runqlat_gauge) :=
  if negb runqlatRunning then Some []
  else
    ids ← containers;
    Some (concat (container_gauges st <$> ids) ++
      [(None, "g_nlat_01"%string, NumLatency01 (globalRunqlat st));
       (None, "g_nlat_02"%string, NumLatency02 (globalRunqlat st));
       (None, "g_nlat_03"%string, NumLatency03 (globalRunqlat st));
       (None, "g_nlat_04"%string, NumLatency04 (globalRunqlat st))]).

(** *** The dump of the maps *)

Definition stat_fields (v : stat_t) : list Z := [nvcsw v; nivcsw v; nlat_01 v; nlat_02 v; nlat_03 v; nlat_04 v].
Definition g_stat_fields (v : g_stat_t) : list Z :=
  [g_nvcsw v; g_nivcsw v; g_nlat_01 v; g_nlat_02 v; g_nlat_03 v; g_nlat_04 v].
Definition tg_item (kv : Z * stat_t) : item := (le_bytes 8 kv.1, u64_bytes (stat_fields kv.2)).
Definition data_of (v : stat_t) : latencyBpfData :=
  mk_data (nvcsw v) (nivcsw v) (nlat_01 v) (nlat_02 v) (nlat_03 v) (nlat_04 v).
Definition g_data_of (v : g_stat_t) : latencyBpfData :=
  mk_data (g_nvcsw v) (g_nivcsw v) (g_nlat_01 v) (g_nlat_02 v) (g_nlat_03 v) (g_nlat_04 v).

(** ** Lemmas *)

Lemma read_data_stat v : Forall (is_u 64) (stat_fields v) -> read_data (u64_bytes (stat_fields v)) = Some (data_of v).
Proof.
  intros H. unfold read_data. rewrite <- (app_nil_r (u64_bytes _)).
  change 6%nat with (length (stat_fields v)). by rewrite read_u64s_bytes.
Qed.

Lemma read_data_g_stat v :
  Forall (is_u 64) (g_stat_fields v) -> read_data (u64_bytes (g_stat_fields v)) = Some (g_data_of v).
Proof.
  intros H. unfold read_data. rewrite <- (app_nil_r (u64_bytes _)).
  change 6%nat with (length (g_stat_fields v)). by rewrite read_u64s_bytes.
Qed.

(** A container has one CSS. *)
Definition one_css (by_css : Z -> option string) : Prop :=
  forall k1 k2 id, by_css k1 = Some id -> by_css k2 = Some id -> k1 = k2.

Lemma poll_items_dump by_css kvs : one_css by_css -> forall st,
  Forall (fun kv => is_u 64 kv.1 /\ Forall (is_u 64) (stat_fields kv.2)) kvs -> NoDup kvs.*1 ->
  exists st', poll_items by_css (tg_item <$> kvs) st = Some st' /\ globalRunqlat st' = globalRunqlat st /\
    forall k id, by_css k = Some id ->
      resources st' !! id = match list_to_map (M := gmap Z stat_t) kvs !! k with
                            | Some v => Some (data_of v)
                            | None => resources st !! id
                            end.
Proof.
  intros Hone. induction kvs as [|[k v] kvs IH]; intros st Hf Hnd.
  { exists st. split; [done|]. split; [done|]. intros k id _. by rewrite list_to_map_nil, lookup_empty. }
  apply Forall_cons in Hf as [[Hk Hv] Hf]. cbn [fmap list_fmap fst] in Hnd. apply NoDup_cons in Hnd as [Hni Hnd].
  cbn [fmap list_fmap poll_items tg_item fst snd] in *. rewrite ReclaimGo.read_u64 by done.
  cbn [mbind option_bind default head from_option Datatypes.id]. setoid_rewrite list_to_map_cons.
  assert (list_to_map (M := gmap Z stat_t) kvs !! k = None) as Hnone by by apply not_elem_of_list_to_map.
  destruct (by_css k) as [id0|] eqn:Eb.
  - rewrite read_data_stat by done. cbn [mbind option_bind].
    destruct (IH (mk_store (globalRunqlat st) (<[id0 := data_of v]> (resources st))) Hf Hnd) as (st' & E & Hg & Hr).
    exists st'. split; [exact E|]. split; [exact Hg|]. intros k' id Hb. rewrite (Hr k' id Hb). cbn [resources].
    destruct (decide (k = k')) as [<-|Hne].
    + rewrite Hnone, (lookup_insert_eq (list_to_map kvs)). rewrite Eb in Hb. injection Hb as ->. apply lookup_insert_eq.
    + rewrite (lookup_insert_ne (list_to_map kvs)) by done.
      destruct (list_to_map kvs !! k'); [done|]. rewrite lookup_insert_ne; [done|].
      intros ->. apply Hne. by apply (Hone k k' id).
  - destruct (IH st Hf Hnd) as (st' & E & Hg & Hr). exists st'. split; [exact E|]. split; [exact Hg|].
    intros k' id Hb. rewrite (Hr k' id Hb). rewrite (lookup_insert_ne (list_to_map kvs)); [done|]. congruence.
Qed.

(** ** Theorems *)

(** C24: from the maps of runqlat_tracing.c to the gauges: after one poll of a state
    with 64-bit keys and counters, a container with one CPU cgroup gets the
    four latency counters of that cgroup's element, or the values it had if
    there is none, and the host those of the host element. *)
Theorem runqlat_gauges by_css s host kvs st k id ids :
  one_css by_css -> Permutation kvs (map_to_list (cpu_tg_metric s)) ->
  map_Forall (fun k v => is_u 64 k /\ Forall (is_u 64) (stat_fields v)) (cpu_tg_metric s) ->
  cpu_host_metric s = [host] -> Forall (is_u 64) (g_stat_fields host) -> by_css k = Some id ->
  exists st', poll by_css (Some (tg_item <$> kvs)) (Some (u64_bytes (g_stat_fields host))) st = Some st' /\
    container_gauges st' id =
      match cpu_tg_metric s !! k with
      | Some v => [(Some id, "nlat_01", nlat_01 v); (Some id, "nlat_02", nlat_02 v);
                   (Some id, "nlat_03", nlat_03 v); (Some id, "nlat_04", nlat_04 v)]%string
      | None => container_gauges st id
      end /\
    runqlatCollector_Update true (Some ids) st' = Some (concat (container_gauges st' <$> ids) ++
      [(None, "g_nlat_01", host_count Nlat01 s); (None, "g_nlat_02", host_count Nlat02 s);
       (None, "g_nlat_03", host_count Nlat03 s); (None, "g_nlat_04", host_count Nlat04 s)]%string).
Proof.
  intros Hone Hp Hr Hh Hhr Hb.
  destruct (poll_items_dump by_css kvs Hone st) as (st1 & E & _ & Hres).
  { rewrite Hp. apply map_Forall_to_list in Hr. eapply Forall_impl; [exact Hr|]. by intros [k' v']. }
  { rewrite Hp. apply NoDup_fst_map_to_list. }
  eexists. split.
  { unfold poll. cbn [mbind option_bind]. rewrite E. cbn [mbind option_bind].
    rewrite read_data_g_stat by done. reflexivity. }
  assert (list_to_map (M := gmap Z stat_t) kvs = cpu_tg_metric s) as Hm.
  { rewrite <- (list_to_map_to_list (cpu_tg_metric s)). apply list_to_map_proper; [|done].
    rewrite Hp. apply NoDup_fst_map_to_list. }
  specialize (Hres k id Hb). rewrite Hm in Hres. split.
  - unfold container_gauges. cbn [resources]. rewrite Hres. by destruct (cpu_tg_metric s !! k).
  - unfold runqlatCollector_Update, host_count. rewrite Hh. reflexivity.
Qed.

Definition state0 : Runqlat.state :=
  mk_state ∅ {[0x5000 := mk_stat 3 1 4 0 0 2]} [mk_gstat 9 9 7 1 0 2].

Lemma runqlat_gauges_witness :
  exists st', poll (fun k => if k =? 0x5000 then Some "c"%string else None) (Some [tg_item (0x5000, mk_stat 3 1 4 0 0 2)])
      (Some (u64_bytes (g_stat_fields (mk_gstat 9 9 7 1 0 2)))) (mk_store zero_data ∅) = Some st' /\
    container_gauges st' "c" = [(Some "c", "nlat_01", 4); (Some "c", "nlat_02", 0);
                                (Some "c", "nlat_03", 0); (Some "c", "nlat_04", 2)]%string.
Proof.
  destruct (runqlat_gauges (fun k => if k =? 0x5000 then Some "c"%string else None) state0
    (mk_gstat 9 9 7 1 0 2) [(0x5000, mk_stat 3 1 4 0 0 2)] (mk_store zero_data ∅) 0x5000 "c" ["c"%string])
    as (st' & E & Hc & _).
  - intros k1 k2 id. destruct (Z.eqb_spec k1 0x5000), (Z.eqb_spec k2 0x5000); congruence.
  - reflexivity.
  - apply map_Forall_singleton. split; [unfold is_u; lia|].
    repeat (apply Forall_cons; split; [unfold is_u; cbn; lia|]). constructor.
  - reflexivity.
  - repeat (apply Forall_cons; split; [unfold is_u; cbn; lia|]). constructor.
  - reflexivity.
  - exists st'. split; [exact E | rewrite Hc; reflexivity].
Defined.

End RunqlatGo.
