(* ===== verification/MemMetrics.v ===== *)
(** * core/metrics: the memory collectors

    memory_stat.go and memory_events.go, which export the counters of the
    memory files of every normal container through the filter of filter.go, over
    any cgroup manager and the table of containers of Pods.v, memory_others.go,
    and the Update of
    memory_free_compact.go on the dump of the map of FuncTrace.v. *)
From S2P Require Import Prelude Layout Bpf Parseutil CgroupFs CgroupV1 CgroupV2 Cgroups Gauge Filter Pods FuncTrace Collectors.
From stdpp Require Import base gmap list strings.
From Stdlib Require Import ZArith Lia QArith.

Open Scope Z_scope.

Module MemMetrics.

Section Collect.
Context (range : forall A, gmap string A -> list (string * A)).
Context `{Cgroup C}.

(** The gauges of one container. *)
Definition raw_gauges (filter : fieldFilter) (container : Pods.Container) (raw : gmap string Z) : list Data :=
  (fun kv => mk_data (Some (Pods.ID container)) kv.1 (Num (inject_Z kv.2))) <$>
    base.filter (fun kv => ignored filter kv.1 = false) (range _ raw).

(** ** memory_stat.go: a container that cannot be read is skipped *)

Fixpoint stat_containers (c : C) (f : fs) (filter : fieldFilter) (cts : list Pods.Container) : list Data :=
  match cts with
  | [] => []
  | container :: cts' =>
      match MemoryStatRaw c f (Pods.CgroupSuffix container) with
      | Err _ => stat_containers c f filter cts'
      | Ok raw => raw_gauges filter container raw ++ stat_containers c f filter cts'
      end
  end.

(** [filter] is [None] where newFieldFilter panics. *)
Definition memStatCollector_Update (c : C) (f : fs) (filter : option fieldFilter) (w : Pods.world)
    (pods : option (list Pods.Pod)) (m : Pods.manager) : outcome * Pods.manager :=
  match filter with
  | None => (Panicked, m)
  | Some filter =>
      match Pods.GetNormalContainers range w pods m with
      | (Pods.Ok containers, m) => (Metrics (stat_containers c f filter (range _ containers).*2), m)
      | (Pods.Err _, m) => (Failed, m)
      | (Pods.Panic, m) => (Panicked, m)
      end
  end.

(** ** memory_events.go: a container that cannot be read ends the collection *)

(** [c] is [None] where NewCgroupManager failed, which the code ignores. *)
Fixpoint events_containers (c : option C) (f : fs) (filter : fieldFilter) (cts : list Pods.Container) : outcome :=
  match cts with
  | [] => Metrics []
  | container :: cts' =>
      match c with
      | None => Panicked
      | Some c' =>
          match MemoryEventRaw c' f (Pods.CgroupSuffix container) with
          | Err _ => Failed
          | Ok raw =>
              match events_containers c f filter cts' with
              | Metrics ms => Metrics (raw_gauges filter container raw ++ ms)
              | o => o
              end
          end
      end
  end.

Definition memEventsCollector_Update (c : option C) (f : fs) (filter : option fieldFilter) (w : Pods.world)
    (pods : option (list Pods.Pod)) (m : Pods.manager) : outcome * Pods.manager :=
  match filter with
  | None => (Panicked, m)
  | Some filter =>
      match Pods.GetNormalContainers range w pods m with
      | (Pods.Ok containers, m) => (events_containers c f filter (range _ containers).*2, m)
      | (Pods.Err _, m) => (Failed, m)
      | (Pods.Panic, m) => (Panicked, m)
      end
  end.

(** ** memory_others.go: files only some kernels have *)

Definition parseValueWithKey (f : fs) (cgroupPath cgroupFile key : string) : result Z :=
  let filePath := Path ["memory"; cgroupPath; cgroupFile] in
  if bool_decide (key = EmptyString) then ReadUint f filePath
  else raw ← RawKV f filePath; Ok (index raw key).

(** path, key and name of the metrics *)
Definition others : list (string * string * string) :=
  [("memory.directstall_stat", "directstall_time", "directstall_time");
   ("memory.asynreclaim_stat", "asyncreclaim_time", "asyncreclaim_time");
   ("memory.local_direct_reclaim_time", EmptyString, "local_direct_reclaim_time")]%string.

Definition other_gauges (f : fs) (container : Pods.Container) : list Data :=
  omap (fun '(path, key, name) =>
          match parseValueWithKey f (Pods.CgroupSuffix container) path key with
          | Ok value => Some (mk_data (Some (Pods.ID container)) name (Num (inject_Z value)))
          | Err _ => None
          end) others.

Definition memOthersCollector_Update (f : fs) (w : Pods.world) (pods : option (list Pods.Pod)) (m : Pods.manager)
    : outcome * Pods.manager :=
  match Pods.GetNormalContainers range w pods m with
  | (Pods.Ok containers, m) => (Metrics (mjoin (other_gauges f <$> (range _ containers).*2)), m)
  | (Pods.Err _, m) => (Failed, m)
  | (Pods.Panic, m) => (Panicked, m)
  end.

End Collect.

(** ** memory_free_compact.go *)

(** type memoryHostMetric struct *)
Record memoryHostMetric := mk_host { CompactionStat : Z; AllocstallStat : Z }.
Definition read_host (bs : list byte) : option memoryHostMetric :=
  '(vs, _) ← read_u64s 2 bs;
  match vs with [c; a] => Some (mk_host c a) | _ => None end.

(** float64(ns) / 1000 / 1000 *)
Definition millis (ns : Z) : Q := inject_Z ns / 1000 / 1000.

(** The gauges compaction and allocstall; [dump] is [None] where the map cannot
    be dumped. *)
Definition memoryHost_Update (isRuning : bool) (dump : option (list item)) : outcome :=
  let gauges c a := Metrics [mk_data None "compaction" (Num c); mk_data None "allocstall" (Num a)] in
  if negb isRuning then Metrics []
  else match dump with
       | None => Failed
       | Some [] => gauges 0%Q 0%Q
       | Some ((_, val) :: _) =>
           match read_host val with
           | Some m => gauges (millis (CompactionStat m)) (millis (AllocstallStat m))
           | None => Failed
           end
       end.

(** The dump of mm_free_compact_map. *)
Definition dump_host (s : FreeCompact.state) : list item :=
  (fun kv => (le_bytes 4 kv.1, u64_bytes [FreeCompact.compaction_stat kv.2; FreeCompact.allocstall_stat kv.2])) <$>
    map_to_list (FreeCompact.mm_free_compact_map s).

(** ** Lemmas *)

Section Lemmas.
Context (range : forall A, gmap string A -> list (string * A)).
Hypothesis range_perm : forall A (m : gmap string A), Permutation (range A m) (map_to_list m).
Context `{Cgroup C}.

Lemma raw_gauges_elem filter container raw d :
  d ∈ raw_gauges range filter container raw <->
  exists key v, raw !! key = Some v /\ ignored filter key = false /\
    d = mk_data (Some (Pods.ID container)) key (Num (inject_Z v)).
Proof.
  unfold raw_gauges. rewrite list_elem_of_fmap. split.
  - intros ([key v] & -> & [Hi Hin]%list_elem_of_filter). rewrite range_perm, elem_of_map_to_list in Hin. by exists key, v.
  - intros (key & v & Hr & Hi & ->). exists (key, v). split; [done|]. apply list_elem_of_filter.
    by rewrite range_perm, elem_of_map_to_list.
Qed.

Lemma stat_containers_elem c f filter cts d :
  d ∈ stat_containers range c f filter cts <->
  exists ct raw, ct ∈ cts /\ MemoryStatRaw c f (Pods.CgroupSuffix ct) = Ok raw /\ d ∈ raw_gauges range filter ct raw.
Proof.
  induction cts as [|ct cts IH]; cbn [stat_containers]; [split; [by intros ?%elem_of_nil | intros (? & ? & ?%elem_of_nil & _); done]|].
  setoid_rewrite elem_of_cons.
  destruct (MemoryStatRaw c f (Pods.CgroupSuffix ct)) as [raw|] eqn:E; [rewrite elem_of_app|]; rewrite IH;
    naive_solver congruence.
Qed.

Lemma events_containers_spec c f filter cts :
  match events_containers range (Some c) f filter cts with
  | Metrics ms =>
      (forall ct, ct ∈ cts -> exists raw, MemoryEventRaw c f (Pods.CgroupSuffix ct) = Ok raw) /\
      forall d, d ∈ ms <-> exists ct raw, ct ∈ cts /\ MemoryEventRaw c f (Pods.CgroupSuffix ct) = Ok raw /\
        d ∈ raw_gauges range filter ct raw
  | Failed => exists ct e, ct ∈ cts /\ MemoryEventRaw c f (Pods.CgroupSuffix ct) = Err e
  | Panicked => False
  end.
Proof.
  induction cts as [|ct cts IH]; cbn [events_containers].
  { split; [by intros ? ?%elem_of_nil|]. intros d. split; [by intros ?%elem_of_nil | intros (? & ? & ?%elem_of_nil & _); done]. }
  destruct (MemoryEventRaw c f (Pods.CgroupSuffix ct)) as [raw|e] eqn:E.
  - destruct (events_containers range (Some c) f filter cts) as [ms| |]; [|naive_solver set_solver|done].
    destruct IH as [IH1 IH2]. setoid_rewrite elem_of_cons. split; [naive_solver|].
    intros d. rewrite elem_of_app, IH2. naive_solver congruence.
  - exists ct, e. split; [by left | done].
Qed.

Lemma values_elem (m : gmap string Pods.Container) ct : ct ∈ (range _ m).*2 <-> exists k, m !! k = Some ct.
Proof.
  rewrite list_elem_of_fmap. split.
  - intros ([k x] & -> & Hk). rewrite range_perm, elem_of_map_to_list in Hk. by exists k.
  - intros [k Hk]. exists (k, ct). split; [done|]. by rewrite range_perm, elem_of_map_to_list.
Qed.

(** ** Theorems *)

(** memory_stat, for any manager and any answer of the pod service: a gauge is
    exported iff it is a counter of the memory.stat of a normal container, with
    its value and the container's ID, that the filter lets through; a container
    whose file cannot be read has none and does not disturb the others. *)
Theorem mem_stat_exact c f filter w pods m all m' :
  Pods.GetNormalContainers range w pods m = (Pods.Ok all, m') ->
  exists ms, memStatCollector_Update range c f (Some filter) w pods m = (Metrics ms, m') /\
    forall d, d ∈ ms <-> exists k ct raw key v, all !! k = Some ct /\
      MemoryStatRaw c f (Pods.CgroupSuffix ct) = Ok raw /\ raw !! key = Some v /\
      ignored filter key = false /\ d = mk_data (Some (Pods.ID ct)) key (Num (inject_Z v)).
Proof.
  intros E. unfold memStatCollector_Update. rewrite E. eexists. split; [done|]. intros d.
  rewrite stat_containers_elem. setoid_rewrite values_elem. setoid_rewrite raw_gauges_elem. naive_solver.
Qed.

(** memory_events: with a manager, the collection succeeds exactly if the events
    of every normal container can be read, and then its gauges are those of
    memory_stat's rule. *)
Theorem mem_events_all_or_nothing c f filter w pods m all m' :
  Pods.GetNormalContainers range w pods m = (Pods.Ok all, m') ->
  match memEventsCollector_Update range (Some c) f (Some filter) w pods m with
  | (Metrics ms, m'') => m'' = m' /\
      (forall k ct, all !! k = Some ct -> exists raw, MemoryEventRaw c f (Pods.CgroupSuffix ct) = Ok raw) /\
      forall d, d ∈ ms <-> exists k ct raw key v, all !! k = Some ct /\
        MemoryEventRaw c f (Pods.CgroupSuffix ct) = Ok raw /\ raw !! key = Some v /\
        ignored filter key = false /\ d = mk_data (Some (Pods.ID ct)) key (Num (inject_Z v))
  | (Failed, m'') => m'' = m' /\ exists k ct e, all !! k = Some ct /\ MemoryEventRaw c f (Pods.CgroupSuffix ct) = Err e
  | (Panicked, _) => False
  end.
Proof.
  intros E. unfold memEventsCollector_Update. rewrite E.
  pose proof (events_containers_spec c f filter (range _ all).*2) as Hs.
  destruct (events_containers range (Some c) f filter _) as [ms| |]; [|split; [done|] |done].
  - split; [done|]. destruct Hs as [Hs1 Hs2]. setoid_rewrite values_elem in Hs1. split; [naive_solver|].
    intros d. rewrite Hs2. setoid_rewrite values_elem. setoid_rewrite raw_gauges_elem. naive_solver.
  - setoid_rewrite values_elem in Hs. naive_solver.
Qed.

(** Without a manager, which newMemEvents does not notice, the first container
    makes the collector panic. *)
Theorem mem_events_without_manager f filter w pods m all m' k ct :
  Pods.GetNormalContainers range w pods m = (Pods.Ok all, m') -> all !! k = Some ct ->
  (memEventsCollector_Update range (None : option C) f (Some filter) w pods m).1 = Panicked.
Proof.
  intros E Hk. unfold memEventsCollector_Update. rewrite E. cbn [fst].
  assert (ct ∈ (range _ all).*2) as Hct by (apply values_elem; by exists k).
  destruct (range _ all).*2; [by apply elem_of_nil in Hct | done].
Qed.

(** memory_others: a gauge is exported iff the file of the metric can be read
    for the container; a key the file does not have counts as zero. *)
Theorem mem_others_exact f w pods m all m' :
  Pods.GetNormalContainers range w pods m = (Pods.Ok all, m') ->
  exists ms, memOthersCollector_Update range f w pods m = (Metrics ms, m') /\
    forall d, d ∈ ms <-> exists k ct path key name v, all !! k = Some ct /\ (path, key, name) ∈ others /\
      parseValueWithKey f (Pods.CgroupSuffix ct) path key = Ok v /\
      d = mk_data (Some (Pods.ID ct)) name (Num (inject_Z v)).
Proof.
  intros E. unfold memOthersCollector_Update. rewrite E. eexists. split; [done|]. intros d.
  rewrite list_elem_of_join. setoid_rewrite list_elem_of_fmap. split.
  - intros (l & Hd & ct & -> & [k Hk]%values_elem). apply list_elem_of_omap in Hd as ([[path key] name] & Hin & Hd).
    destruct (parseValueWithKey f _ path key) as [v|] eqn:Ev; [|done]. injection Hd as <-. by exists k, ct, path, key, name, v.
  - intros (k & ct & path & key & name & v & Hk & Hin & Ev & ->). exists (other_gauges f ct). split.
    + apply list_elem_of_omap. exists (path, key, name). by rewrite Ev.
    + exists ct. split; [done|]. apply values_elem. by exists k.
Qed.

End Lemmas.

(** memory_free_compact, from the hooks to the gauges: after any sequence of
    invocations of the four hooks by any tasks, each run to its end, the exported
    gauges are the total times spent in compaction and in reclaim, modulo 2^64
    nanoseconds, in milliseconds. *)
Theorem memory_host_end_to_end l :
  let a := FreeCompact.spec_exec l FreeCompact.spec_init in
  exists c r, memoryHost_Update true (Some (dump_host (FreeCompact.exec l FreeCompact.init))) =
    Metrics [mk_data None "compaction" (Num c); mk_data None "allocstall" (Num r)] /\
    (c == inject_Z (u64 (FreeCompact.compaction a)) / 1000000)%Q /\
    (r == inject_Z (u64 (FreeCompact.allocstall a)) / 1000000)%Q.
Proof.
  intros a. pose proof (FreeCompactFacts.exec_repr l) as [_ _ Hm Hf]. fold a in Hm.
  set (s := FreeCompact.exec l FreeCompact.init) in *. unfold FreeCompact.read_metric in Hm.
  assert (forall x, (millis x == inject_Z x / 1000000)%Q) as Hq by (intros x; unfold millis; field).
  unfold dump_host. destruct (FreeCompact.mm_free_compact_map s !! 0) as [v|] eqn:E0.
  - assert (FreeCompact.mm_free_compact_map s = {[0 := v]}) as ->.
    { apply map_eq. intros k. destruct (decide (k = 0)) as [->|Hk]; [by rewrite lookup_singleton_eq|].
      rewrite lookup_singleton_ne by done. destruct (FreeCompact.mm_free_compact_map s !! k) eqn:Ek; [|done].
      by apply (map_Forall_lookup_1 _ _ _ _ Hf) in Ek. }
    cbn [from_option id default] in Hm. rewrite map_to_list_singleton, Hm. cbn [fmap list_fmap fst snd].
    unfold memoryHost_Update, read_host. cbn [negb FreeCompact.compaction_stat FreeCompact.allocstall_stat].
    rewrite <- (app_nil_r (u64_bytes _)).
    rewrite (read_u64s_bytes [u64 (FreeCompact.compaction a); u64 (FreeCompact.allocstall a)])
      by (repeat constructor; apply u64_range).
    eexists _, _. split; [reflexivity|]. cbn. split; apply Hq.
  - assert (FreeCompact.mm_free_compact_map s = ∅) as ->.
    { apply map_empty. intros k. destruct (FreeCompact.mm_free_compact_map s !! k) eqn:Ek; [|done].
      pose proof (map_Forall_lookup_1 _ _ _ _ Hf Ek) as ->. congruence. }
    cbn [from_option id default] in Hm. injection Hm as <- <-. eexists _, _. split; [reflexivity|]. by split.
Qed.

End MemMetrics.
