(* ===== verification/ProcMetrics.v ===== *)
(** * core/metrics: netstat.go and vmstat.go

    The collectors that parse procfs themselves: the TCP counters of every
    normal container and of the host, and the counters of /proc/vmstat. A
    float64 is exact: strconv.ParseFloat is a parameter, of which only the
    integers it represents exactly are used. *)
From S2P Require Import Prelude Text Parseutil Gauge Filter Pods.
From stdpp Require Import base gmap list strings.
From Stdlib Require Import ZArith Lia QArith Ascii.

Open Scope Z_scope.

(** A result, an error or a panic. *)
Inductive parsed (A : Type) := Parsed (a : A) | Error | Panic.
Arguments Parsed {A} a. Arguments Error {A}. Arguments Panic {A}.
#[global] Instance parsed_bind : MBind parsed := fun A B k o =>
  match o with Parsed a => k a | Error => Error | Panic => Panic end.

Definition to_outcome (o : parsed (list Data)) : outcome :=
  match o with Parsed ms => Metrics ms | Error => Failed | Panic => Panicked end.

(** ** netstat.go *)
Module Netstat.

Abbreviation stats := (gmap string (gmap string string)).

(** s[:len(s)-1]; [None] is the panic on an empty string. *)
Definition drop_last (s : string) : option string :=
  match s with EmptyString => None | _ => Some (String.substring 0 (String.length s - 1) s) end.

Fixpoint fill (names values : list string) (m : gmap string string) : gmap string string :=
  match names, values with
  | n :: names', v :: values' => fill names' values' (<[n := v]> m)
  | _, _ => m
  end.

(** A line of names and a line of values. *)
Definition scan_pair (names values : string) (netStats : stats) : parsed stats :=
  let nameParts := Text.Split " " names in
  let valueParts := Text.Split " " values in
  match drop_last (default EmptyString (head nameParts)) with
  | None => Panic
  | Some protocol =>
      if bool_decide (protocol <> "Tcp" /\ protocol <> "TcpExt")%string then Parsed netStats
      else if negb (Nat.eqb (length nameParts) (length valueParts)) then Error
      else Parsed (<[protocol := fill (tail nameParts) (tail valueParts) ∅]> netStats)
  end.

(** Where the second Scan fails, Text is empty. *)
Fixpoint scan_pairs (lines : list string) (netStats : stats) : parsed stats :=
  match lines with
  | [] => Parsed netStats
  | [names] => scan_pair names EmptyString netStats
  | names :: values :: lines' => netStats ← scan_pair names values netStats; scan_pairs lines' netStats
  end.

Definition procNetstats (f : fs) (fileName : list string) : parsed stats :=
  match Open (f fileName) with
  | Err _ => Error
  | Ok s =>
      let (lines, complete) := Text.Scan s in
      netStats ← scan_pairs lines ∅;
      if complete then Parsed netStats else Error
  end.

Section Collect.
Context (range : forall A, gmap string A -> list (string * A)) (ParseFloat : string -> option float).

Fixpoint value_gauges (id : option string) (filter : fieldFilter) (protocol : string) (l : list (string * string))
    : parsed (list Data) :=
  match l with
  | [] => Parsed []
  | (name, value) :: l' =>
      let key := protocol +:+ String "_" name in
      match ParseFloat value with
      | None => Error
      | Some v =>
          ms ← value_gauges id filter protocol l';
          Parsed (if ignored filter key then ms else mk_data id key v :: ms)
      end
  end.

Fixpoint protocol_gauges (id : option string) (filter : fieldFilter) (l : list (string * gmap string string))
    : parsed (list Data) :=
  match l with
  | [] => Parsed []
  | (protocol, protocolStats) :: l' =>
      ms ← value_gauges id filter protocol (range _ protocolStats);
      ms' ← protocol_gauges id filter l';
      Parsed (ms ++ ms')
  end.

(** The init process of the container, 1 for the host. *)
Definition pid_of (container : option Pods.Container) : Z :=
  match container with Some c => Pods.InitPid c | None => 1 end.
Definition net_file (container : option Pods.Container) (name : string) : list string :=
  ["proc"; Text.FormatInt (pid_of container); "net"; name]%string.

Definition getStatMetrics (f : fs) (container : option Pods.Container) (filter : fieldFilter) : parsed (list Data) :=
  netStats ← procNetstats f (net_file container "netstat");
  snmpStats ← procNetstats f (net_file container "snmp");
  protocol_gauges (Pods.ID <$> container) filter (range _ (snmpStats ∪ netStats)).

Fixpoint collect (f : fs) (filter : fieldFilter) (containers : list (option Pods.Container)) : parsed (list Data) :=
  match containers with
  | [] => Parsed []
  | container :: containers' =>
      m ← getStatMetrics f container filter;
      ms ← collect f filter containers';
      Parsed (m ++ ms)
  end.

(** The containers, with nil for the host under the empty ID. *)
Definition with_host (all : gmap string Pods.Container) : gmap string (option Pods.Container) :=
  <[EmptyString := None]> (Some <$> all).

Definition netstatCollector_Update (f : fs) (filter : option fieldFilter) (w : Pods.world)
    (pods : option (list Pods.Pod)) (m : Pods.manager) : outcome * Pods.manager :=
  match filter with
  | None => (Panicked, m)
  | Some filter =>
      match Pods.GetNormalContainers range w pods m with
      | (Pods.Ok containers, m) => (to_outcome (collect f filter (range _ (with_host containers)).*2), m)
      | (Pods.Err _, m) => (Failed, m)
      | (Pods.Panic, m) => (Panicked, m)
      end
  end.

End Collect.

(** *** What the kernel prints *)

(** A table: a protocol with its counters. *)
Abbreviation table := (string * list (string * Z))%type.

Fixpoint spaced (ws : list string) : string :=
  match ws with [] => EmptyString | w :: ws' => String " " (w +:+ spaced ws') end.
Definition header (p : string) : string := p +:+ ":".
Definition print_table (t : table) : list string :=
  [header t.1 +:+ spaced t.2.*1; header t.1 +:+ spaced ((fun kv => Text.FormatInt kv.2) <$> t.2)].
Definition print_tables (ts : list table) : string := print_lines (concat (print_table <$> ts)).

Definition wanted (p : string) : Prop := (p = "Tcp" \/ p = "TcpExt")%string.
#[global] Instance wanted_dec p : Decision (wanted p) := ltac:(unfold wanted; apply _).

(** Names without white space, lines that fit the scanner's buffer, integers a
    float64 represents, and no counter or protocol twice. *)
Definition exact (z : Z) : Prop := - 2 ^ 53 <= z <= 2 ^ 53.
Definition table_ok (t : table) : Prop :=
  Text.is_word t.1 /\ Forall (fun kv => Text.is_word kv.1 /\ exact kv.2) t.2 /\ NoDup t.2.*1 /\
  Forall (fun l => Text.fits l = true) (print_table t).

(** The counters of a file: the text of each. *)
Definition texts (kvs : list (string * Z)) : gmap string string :=
  list_to_map (prod_map id Text.FormatInt <$> kvs).
Definition shown (ts : list table) : stats :=
  list_to_map (prod_map id texts <$> filter (fun t => wanted t.1) ts).

(** ** Lemmas *)

Lemma Split_word sep w s :
  Text.all_chars (fun c => negb (c =? sep)%char) w = true ->
  Text.Split sep (w +:+ String sep s) = w :: Text.Split sep s.
Proof.
  induction w as [|c w IH]; intros Hw.
  { change (Text.Split sep (String sep s) = EmptyString :: Text.Split sep s). cbn [Text.Split]. by rewrite Ascii.eqb_refl. }
  rewrite Text.append_cons. cbn [Text.all_chars Text.Split] in Hw |- *. apply andb_true_iff in Hw as [Hc Hw]. apply negb_true_iff in Hc.
  by rewrite Hc, IH.
Qed.

Lemma Split_last sep w :
  Text.all_chars (fun c => negb (c =? sep)%char) w = true -> Text.Split sep w = [w].
Proof.
  induction w as [|c w IH]; intros Hw; [done|]. cbn [Text.all_chars Text.Split] in Hw |- *. apply andb_true_iff in Hw as [Hc Hw].
  apply negb_true_iff in Hc. by rewrite Hc, IH.
Qed.

Definition no_space (w : string) : Prop := Text.all_chars (fun c => negb (c =? " ")%char) w = true.

Lemma word_no_space w : Text.is_word w -> no_space w.
Proof.
  intros [_ H]. refine (Text.all_chars_impl _ _ w _ H). intros c. destruct (Ascii.eqb_spec c " ") as [->|]; done.
Qed.

Lemma Split_spaced w ws : no_space w -> Forall no_space ws -> Text.Split " " (w +:+ spaced ws) = w :: ws.
Proof.
  intros Hw Hws. revert w Hw. induction Hws as [|w' ws Hw' _ IH]; intros w Hw; cbn [spaced].
  - rewrite Text.append_nil_r. by apply Split_last.
  - rewrite Split_word by done. by rewrite IH.
Qed.

Lemma header_no_space p : Text.is_word p -> no_space (header p).
Proof. intros H. unfold header, no_space. rewrite Text.all_chars_app. by rewrite word_no_space. Qed.

Lemma substring_prefix s t : String.substring 0 (String.length s) (s +:+ t) = s.
Proof. induction s as [|c s IH]; [by destruct t|]. rewrite Text.append_cons. cbn. by rewrite IH. Qed.

Lemma drop_last_header p : drop_last (header p) = Some p.
Proof.
  unfold drop_last, header. assert (String.length (p +:+ ":") - 1 = String.length p)%nat as E
    by (rewrite Text.length_append; cbn; lia).
  destruct (p +:+ ":") eqn:Ep; [by destruct p|]. rewrite <- Ep in *. by rewrite E, substring_prefix.
Qed.

Lemma fill_fresh kvs : forall m, NoDup kvs.*1 ->
  fill kvs.*1 ((fun kv => Text.FormatInt kv.2) <$> kvs) m = texts kvs ∪ m.
Proof.
  induction kvs as [|[n z] kvs IH]; intros m Hnd; [cbn; by rewrite (left_id_L ∅ (∪))|].
  rewrite !fmap_cons in *. cbn [fill fst snd] in *. apply NoDup_cons in Hnd as [Hn Hnd]. rewrite IH by done.
  unfold texts. rewrite fmap_cons. cbn [list_to_map foldr prod_map fst snd id]. rewrite <- insert_union_l.
  rewrite <- insert_union_r; [done|]. apply not_elem_of_list_to_map_1. by rewrite <- list_fmap_compose.
Qed.

Lemma scan_pair_printed t st : table_ok t ->
  scan_pair (header t.1 +:+ spaced t.2.*1) (header t.1 +:+ spaced ((fun kv => Text.FormatInt kv.2) <$> t.2)) st =
  Parsed (if decide (wanted t.1) then <[t.1 := texts t.2]> st else st).
Proof.
  intros (Hp & Hkvs & Hnd & _). unfold scan_pair. pose proof (header_no_space _ Hp) as Hh.
  rewrite !Split_spaced; try done.
  - cbn [head default from_option id tail]. rewrite drop_last_header, !length_cons, !length_fmap, Nat.eqb_refl.
    cbn [negb]. unfold wanted. case_bool_decide; case_decide; try (exfalso; tauto); [done|].
    rewrite fill_fresh by done. by rewrite (right_id_L ∅ (∪)).
  - apply Forall_fmap, Forall_true. intros kv. apply word_no_space, Text.FormatInt_word.
  - apply Forall_fmap. eapply Forall_impl; [exact Hkvs|]. intros kv [H _]. by apply word_no_space.
Qed.

Lemma scan_pairs_printed ts : forall st, Forall table_ok ts -> NoDup ts.*1 ->
  scan_pairs (concat (print_table <$> ts)) st = Parsed (shown ts ∪ st).
Proof.
  induction ts as [|t ts IH]; intros st Hts Hnd; [cbn; by rewrite (left_id_L ∅ (∪))|].
  apply Forall_cons in Hts as [Ht Hts]. rewrite fmap_cons in *. apply NoDup_cons in Hnd as [Hn Hnd].
  cbn [concat print_table app scan_pairs]. rewrite scan_pair_printed by done. cbn [mbind parsed_bind].
  rewrite IH by done. f_equal. unfold shown. rewrite filter_cons. case_decide; [|done].
  rewrite fmap_cons. cbn [list_to_map foldr prod_map fst snd id]. rewrite <- insert_union_l, <- insert_union_r; [done|].
  apply not_elem_of_list_to_map_1. rewrite <- list_fmap_compose.
  intros (t' & Et & [_ Hin]%list_elem_of_filter)%list_elem_of_fmap. apply Hn. apply list_elem_of_fmap. exists t'. done.
Qed.

Lemma word_in_line w : Text.is_word w -> Text.all_chars in_line w = true.
Proof.
  intros [_ H]. refine (Text.all_chars_impl _ _ w _ H). intros c Hc. unfold in_line in *. by rewrite Hc.
Qed.

Lemma spaced_in_line ws : Forall Text.is_word ws -> Text.all_chars in_line (spaced ws) = true.
Proof.
  induction 1 as [|w ws Hw _ IH]; [done|]. cbn [spaced Text.all_chars]. rewrite Text.all_chars_app, IH.
  by rewrite word_in_line.
Qed.

Lemma print_table_in_line t : table_ok t -> Forall (fun l => Text.all_chars in_line l = true) (print_table t).
Proof.
  intros (Hp & Hkvs & _). assert (Text.all_chars in_line (header t.1) = true) as Hh
    by (unfold header; rewrite Text.all_chars_app; by rewrite word_in_line).
  repeat constructor; rewrite Text.all_chars_app, Hh, spaced_in_line; try done; apply Forall_fmap.
  - eapply Forall_impl; [exact Hkvs|]. by intros kv [H _].
  - apply Forall_true. intros kv. apply Text.FormatInt_word.
Qed.

Lemma shown_lookup ts p m : NoDup ts.*1 ->
  shown ts !! p = Some m <-> exists kvs, (p, kvs) ∈ ts /\ wanted p /\ m = texts kvs.
Proof.
  intros Hnd. unfold shown. rewrite <- elem_of_list_to_map.
  - rewrite list_elem_of_fmap. setoid_rewrite list_elem_of_filter. split.
    + intros ([p' kvs] & [= -> ->] & Hw & Hin). by exists kvs.
    + intros (kvs & Hin & Hw & ->). by exists (p, kvs).
  - rewrite <- list_fmap_compose. refine (sublist_NoDup _ ts.*1 _ _); [done|]. apply fmap_sublist, sublist_filter.
Qed.

Lemma texts_lookup kvs n v : NoDup kvs.*1 -> texts kvs !! n = Some v <-> exists z, (n, z) ∈ kvs /\ v = Text.FormatInt z.
Proof.
  intros Hnd. unfold texts. rewrite <- elem_of_list_to_map by (by rewrite <- list_fmap_compose).
  rewrite list_elem_of_fmap. split.
  - intros ([n' z] & [= -> ->] & Hin). by exists z.
  - intros (z & Hin & ->). by exists (n, z).
Qed.

(** ** Theorems *)

(** Round trip: from what the kernel prints, the TCP tables and nothing else are
    read back. *)
Theorem procNetstats_roundtrip f path ts :
  f path = Content (print_tables ts) -> Forall table_ok ts -> NoDup ts.*1 ->
  procNetstats f path = Parsed (shown ts).
Proof.
  intros Hf Hts Hnd. unfold procNetstats. rewrite Hf. cbn [Open]. unfold print_tables. rewrite Scan_printed.
  - rewrite scan_pairs_printed by done. cbn [mbind parsed_bind]. by rewrite (right_id_L ∅ (∪)).
  - apply Forall_concat, Forall_fmap. eapply Forall_impl; [exact Hts|]. apply print_table_in_line.
  - apply Forall_concat, Forall_fmap. eapply Forall_impl; [exact Hts|]. by intros t (_ & _ & _ & H).
Qed.

(** An empty line makes the collector panic. *)
Theorem empty_line_panics f path rest :
  f path = Content (String Text.newline rest) -> procNetstats f path = Panic.
Proof.
  intros Hf. unfold procNetstats. rewrite Hf. cbn [Open]. unfold Text.Scan. cbn [Text.split_lines].
  change (Text.newline =? Text.newline)%char with true. cbn [Text.take_fitting].
  change (Text.fits EmptyString) with true. cbn [fmap list_fmap Text.dropCR].
  by destruct (Text.take_fitting _).
Qed.

(** *** From the files to the gauges *)

Section Gauges.
Context (range : forall A, gmap string A -> list (string * A)) (ParseFloat : string -> option float).
Hypothesis range_perm : forall A (m : gmap string A), Permutation (range A m) (map_to_list m).
(** Integers of up to 53 bits are float64 values. *)
Hypothesis parse_exact : forall z, exact z -> ParseFloat (Text.FormatInt z) = Some (Num (inject_Z z)).

Lemma range_lookup {A} (m : gmap string A) k x : (k, x) ∈ range A m <-> m !! k = Some x.
Proof. by rewrite range_perm, elem_of_map_to_list. Qed.

(** The gauge of a counter. *)
Definition gauge (id : option string) (p name : string) (z : Z) : Data :=
  mk_data id (p +:+ String "_" name) (Num (inject_Z z)).
Definition accepted (filter : fieldFilter) (p name : string) : Prop := ignored filter (p +:+ String "_" name) = false.

Lemma value_gauges_printed id filter p l :
  (forall n v, (n, v) ∈ l -> exists z, exact z /\ v = Text.FormatInt z) ->
  exists ms, value_gauges ParseFloat id filter p l = Parsed ms /\
    forall d, d ∈ ms <-> exists n z, (n, Text.FormatInt z) ∈ l /\ exact z /\ accepted filter p n /\ d = gauge id p n z.
Proof.
  induction l as [|[n v] l IH]; intros Hl.
  { exists []. split; [done|]. intros d. split; [by intros ?%elem_of_nil | intros (? & ? & ?%elem_of_nil & _); done]. }
  destruct IH as (ms & E & H); [by intros ? ? ?; eapply Hl; right|].
  destruct (Hl n v ltac:(by left)) as (z & Hz & ->). cbn [value_gauges]. rewrite parse_exact, E by done.
  cbn [mbind parsed_bind]. eexists. split; [done|]. intros d.
  assert (d ∈ (if ignored filter (p +:+ String "_" n) then ms else gauge id p n z :: ms) <->
          accepted filter p n /\ d = gauge id p n z \/ d ∈ ms) as -> by
    (unfold accepted; destruct (ignored _ _); rewrite ?elem_of_cons; naive_solver).
  rewrite H. setoid_rewrite elem_of_cons. split.
  - intros [[Ha ->]|(n' & z' & H')]; [exists n, z; by split; [left|] | exists n', z'; naive_solver].
  - intros (n' & z' & [[= -> Ez]|Hin] & Hz' & Ha & ->); [left | right; by exists n', z'].
    assert (Some z' = Some z) as [= ->]; [|done].
    rewrite <- (Text.ParseInt_Format z'), <- (Text.ParseInt_Format z) by (unfold exact in *; lia). by rewrite Ez.
Qed.

(** Tables whose counters are integers in decimal. *)
Lemma protocol_gauges_printed id filter l :
  (forall p m n v, (p, m) ∈ l -> m !! n = Some v -> exists z, exact z /\ v = Text.FormatInt z) ->
  exists ms, protocol_gauges range ParseFloat id filter l = Parsed ms /\
    forall d, d ∈ ms <-> exists p m n z, (p, m) ∈ l /\ m !! n = Some (Text.FormatInt z) /\ exact z /\
      accepted filter p n /\ d = gauge id p n z.
Proof.
  induction l as [|[p m] l IH]; intros Hl.
  { exists []. split; [done|]. intros d. split; [by intros ?%elem_of_nil | intros (? & ? & ? & ? & ?%elem_of_nil & _); done]. }
  destruct IH as (ms' & E' & H'); [intros; eapply Hl; [by right | done]|].
  destruct (value_gauges_printed id filter p (range _ m)) as (ms & E & H).
  { intros n v Hin%range_lookup. eapply Hl; [by left | done]. }
  cbn [protocol_gauges]. rewrite E. cbn [mbind parsed_bind]. unfold mbind in E'. rewrite E'. eexists. split; [done|]. intros d.
  rewrite elem_of_app, H, H'. setoid_rewrite elem_of_cons. setoid_rewrite range_lookup. naive_solver.
Qed.

(** What the two files of a container, or of the host, print. *)
Definition prints (f : fs) (tables : option Pods.Container -> list table * list table) (ct : option Pods.Container) : Prop :=
  let (ns, ss) := tables ct in
  f (net_file ct "netstat") = Content (print_tables ns) /\ f (net_file ct "snmp") = Content (print_tables ss) /\
  Forall table_ok (ns ++ ss) /\ NoDup (ns ++ ss).*1.

(** [d] is the gauge of a TCP counter of the files of [ct]. *)
Definition exported (tables : option Pods.Container -> list table * list table) (filter : fieldFilter)
    (ct : option Pods.Container) (d : Data) : Prop :=
  exists p kvs n z, (p, kvs) ∈ (tables ct).1 ++ (tables ct).2 /\ wanted p /\ (n, z) ∈ kvs /\
    accepted filter p n /\ d = gauge (Pods.ID <$> ct) p n z.

Lemma merged_lookup ns ss p m : NoDup (ns ++ ss).*1 ->
  (shown ss ∪ shown ns) !! p = Some m <-> exists kvs, (p, kvs) ∈ ns ++ ss /\ wanted p /\ m = texts kvs.
Proof.
  rewrite fmap_app, NoDup_app. intros (Hns & Hdis & Hss). rewrite lookup_union_Some.
  - rewrite !shown_lookup by done. setoid_rewrite elem_of_app. naive_solver.
  - apply map_disjoint_spec. intros p' m1 m2 (k1 & H1 & _)%shown_lookup (k2 & H2 & _)%shown_lookup; [|done..].
    refine (Hdis p' _ _); apply list_elem_of_fmap; [by exists (p', k2) | by exists (p', k1)].
Qed.

Lemma getStatMetrics_printed f tables filter ct : prints f tables ct ->
  exists ms, getStatMetrics range ParseFloat f ct filter = Parsed ms /\ forall d, d ∈ ms <-> exported tables filter ct d.
Proof.
  unfold prints, exported. destruct (tables ct) as [ns ss]. cbn [fst snd]. intros (Hn & Hs & Hok & Hnd).
  pose proof Hok as [Hokn Hoks]%Forall_app. pose proof Hnd as Hnd'. rewrite fmap_app, NoDup_app in Hnd'.
  destruct Hnd' as (Hndn & _ & Hnds). unfold getStatMetrics.
  rewrite (procNetstats_roundtrip f _ ns Hn Hokn Hndn), (procNetstats_roundtrip f _ ss Hs Hoks Hnds). cbn [mbind parsed_bind].
  assert (forall p kvs, (p, kvs) ∈ ns ++ ss -> NoDup kvs.*1 /\ forall n z, (n, z) ∈ kvs -> exact z) as Hkvs.
  { intros p kvs Hin. apply (proj1 (Forall_forall _ _) Hok) in Hin as (_ & Hk & Hd & _). split; [done|].
    intros n z Hz. by apply (proj1 (Forall_forall _ _) Hk) in Hz as [_ Hz]. }
  destruct (protocol_gauges_printed (Pods.ID <$> ct) filter (range _ (shown ss ∪ shown ns))) as (ms & E & H).
  { intros p m n v Hm%range_lookup Hv. apply merged_lookup in Hm as (kvs & Hin & _ & ->); [|done].
    destruct (Hkvs _ _ Hin) as [Hd He]. apply texts_lookup in Hv as (z & Hz & ->); [|done]. exists z. naive_solver. }
  exists ms. split; [done|]. intros d. rewrite H. split.
  - intros (p & m & n & z & Hm%range_lookup & Hv & Hz & Ha & ->). apply merged_lookup in Hm as (kvs & Hin & Hw & ->); [|done].
    destruct (Hkvs _ _ Hin) as [Hd He]. apply texts_lookup in Hv as (z' & Hz' & Ez); [|done].
    assert (Some z = Some z') as [= ->]; [|by exists p, kvs, n, z'].
    rewrite <- (Text.ParseInt_Format z), <- (Text.ParseInt_Format z') by (apply He in Hz'; unfold exact in *; lia). by rewrite Ez.
  - intros (p & kvs & n & z & Hin & Hw & Hz & Ha & ->). destruct (Hkvs _ _ Hin) as [Hd He].
    exists p, (texts kvs), n, z. split; [apply range_lookup, merged_lookup; [done | by exists kvs]|].
    split; [apply texts_lookup; [done | by exists z]|]. split; [by eapply He | done].
Qed.

Lemma collect_printed f tables filter cts : Forall (prints f tables) cts ->
  exists ms, collect range ParseFloat f filter cts = Parsed ms /\
    forall d, d ∈ ms <-> exists ct, ct ∈ cts /\ exported tables filter ct d.
Proof.
  induction 1 as [|ct cts Hct _ (ms & E & H)].
  { exists []. split; [done|]. intros d. split; [by intros ?%elem_of_nil | intros (? & ?%elem_of_nil & _); done]. }
  destruct (getStatMetrics_printed f tables filter ct Hct) as (ms1 & E1 & H1). cbn [collect]. rewrite E1.
  cbn [mbind parsed_bind]. unfold mbind in E. rewrite E. eexists. split; [done|]. intros d. rewrite elem_of_app, H1, H.
  setoid_rewrite elem_of_cons. naive_solver.
Qed.

(** From the files to the gauges: if the kernel prints the two files of every
    normal container and of the host, the collection succeeds, and a gauge is
    exported iff it is a counter of a TCP table of one of them that the filter
    accepts, with its value and the ID of the container. *)
Theorem netstat_end_to_end f filter w pods m all m' tables :
  Pods.GetNormalContainers range w pods m = (Pods.Ok all, m') ->
  (forall k ct, with_host all !! k = Some ct -> prints f tables ct) ->
  exists ms, netstatCollector_Update range ParseFloat f (Some filter) w pods m = (Metrics ms, m') /\
    forall d, d ∈ ms <-> exists k ct, with_host all !! k = Some ct /\ exported tables filter ct d.
Proof.
  intros E Hp. unfold netstatCollector_Update. rewrite E.
  assert (forall ct, ct ∈ (range _ (with_host all)).*2 <-> exists k, with_host all !! k = Some ct) as Hin.
  { intros ct. rewrite list_elem_of_fmap. split.
    - intros ([k x] & -> & Hx%range_lookup). by exists k.
    - intros [k Hk]. exists (k, ct). split; [done | by apply range_lookup]. }
  destruct (collect_printed f tables filter (range _ (with_host all)).*2) as (ms & -> & H).
  { apply Forall_forall. intros ct [k Hk]%Hin. by eapply Hp. }
  exists ms. split; [done|]. intros d. rewrite H. setoid_rewrite Hin. naive_solver.
Qed.

End Gauges.

End Netstat.

(** ** vmstat.go *)
Module Vmstat.

Section Collect.
Context (ParseFloat : string -> option float).

(** A line without a first or second field is a panic; the error of the
    scanner is not looked at. *)
Fixpoint scan_lines (filter : fieldFilter) (lines : list string) : parsed (list Data) :=
  match lines with
  | [] => Parsed []
  | line :: lines' =>
      match Text.Fields line with
      | [] => Panic
      | name :: parts =>
          if ignored filter name then scan_lines filter lines'
          else match parts with
               | [] => Panic
               | text :: _ =>
                   match ParseFloat text with
                   | None => Error
                   | Some value => ms ← scan_lines filter lines'; Parsed (mk_data None name value :: ms)
                   end
               end
      end
  end.

Definition vmStatCollector_Update (f : fs) (filter : option fieldFilter) : outcome :=
  match filter with
  | None => Panicked
  | Some filter =>
      match Open (f ["proc"; "vmstat"]%string) with
      | Err _ => Failed
      | Ok s => to_outcome (scan_lines filter (Text.Scan s).1)
      end
  end.

(** ** Theorems *)

Hypothesis parse_exact : forall z, Netstat.exact z -> ParseFloat (Text.FormatInt z) = Some (Num (inject_Z z)).

(** From the file to the gauges: the counters the filter accepts, in the order
    of the file. *)
Theorem vmstat_exact f filter kvs :
  f ["proc"; "vmstat"]%string = Content (print_kvs kvs) -> Forall kv_ok kvs -> Forall (fun kv => Netstat.exact kv.2) kvs ->
  vmStatCollector_Update f (Some filter) =
  Metrics ((fun kv => mk_data None kv.1 (Num (inject_Z kv.2))) <$> base.filter (fun kv => ignored filter kv.1 = false) kvs).
Proof.
  intros Hf Hok Hex. unfold vmStatCollector_Update. rewrite Hf. cbn [Open]. unfold print_kvs. rewrite Scan_printed.
  - cbn [fst]. clear Hf. enough (scan_lines filter (print_kv <$> kvs) = Parsed ((fun kv => mk_data None kv.1 (Num (inject_Z kv.2)))
      <$> base.filter (fun kv => ignored filter kv.1 = false) kvs)) as -> by done.
    induction Hok as [|[k v] kvs (Hk & _ & Hv) _ IH]; [done|]. apply Forall_cons in Hex as [Hx Hex].
    rewrite fmap_cons, filter_cons. cbn [scan_lines]. unfold print_kv at 1. cbn [fst snd] in *.
    rewrite Text.Fields_two by (done || apply Text.FormatUint_word).
    destruct (ignored filter k); case_decide; try done; [by apply IH|].
    assert (Text.FormatUint 10 v = Text.FormatInt v) as ->
      by (unfold Text.FormatInt; destruct (Z.ltb_spec v 0); unfold is_u in Hv; [lia | done]).
    rewrite parse_exact, IH by done. by rewrite fmap_cons.
  - apply Forall_fmap. eapply Forall_impl; [exact Hok|]. intros kv (Hk & _). by apply print_kv_in_line.
  - apply Forall_fmap. eapply Forall_impl; [exact Hok|]. intros kv (_ & Hk & _). by apply print_kv_fits.
Qed.

End Collect.
End Vmstat.
