(* ===== verification/Metric.v ===== *)
(** * pkg/metric: from collected data to Prometheus metrics

    data.go, which attaches the labels and converts the data of a collector,
    through a cache of metric descriptions that all collectors share, and
    collector.go, which runs the collectors in goroutines of their own. A
    goroutine's accesses to the cache, one Load and one Store per metric, are
    its steps, and an execution is any interleaving of them.

    Of the Prometheus library, BuildFQName, NewDesc and NewConstMetric are
    modelled with their errors; the syntax of names and values is a parameter. *)
From S2P Require Import Prelude Gauge Pods Tracing.
From stdpp Require Import base gmap list strings sorting.
From Stdlib Require Import ZArith Lia QArith.

Open Scope Z_scope.

Module Metric.

(** ** data.go *)

Definition MetricTypeGauge : Z := 0.
Definition MetricTypeCounter : Z := 1.
Definition LabelHost : string := "host".
Definition LabelRegion : string := "region".
Definition LabelContainerName : string := "container_name".
Definition LabelContainerHost : string := "container_host".
Definition LabelContainerType : string := "container_type".
Definition LabelContainerLevel : string := "container_level".
Definition LabelContainerHostNamespace : string := "container_hostnamespace".

Record Data := mk_data
  { metricName : string; metricType : Z; Value : float; help : string;
    labelKey : list string; labelValue : list string }.

(** sort.Strings: the order of Go's strings is that of their bytes. *)
Definition sort_Strings (l : list string) : list string := merge_sort String.le l.

(** container_type.go and container_level_default.go *)
Definition type_String (t : Z) : string :=
  match t with
  | 1 => "Sidecar" | 2 => "DaemonSet" | 4 => "Node" | 8 => "Static" | 16 => "Normal" | 32 => "Unknown" | _ => EmptyString
  end%string.
Definition qos_String (q : Z) : string :=
  if q =? Pods.containerQosBurstable then "Burstable"
  else if q =? Pods.containerQosBestEffort then "BestEffort"
  else if q =? Pods.containerQosGuaranteed then "Guaranteed"
  else "Unknown".

Section NewData.
Context (range : forall A, gmap string A -> list (string * A)) (defaultRegion defaultHostname : string).

Definition with_labels (label : gmap string string) (keys values : list string) : list string * list string :=
  let selfLabelKeys := sort_Strings (range _ label).*1 in
  (keys ++ selfLabelKeys, values ++ ((fun k => default EmptyString (label !! k)) <$> selfLabelKeys)).

Definition NewGaugeData (name : string) (value : float) (help : string) (label : gmap string string) : Data :=
  let (keys, values) := with_labels label [LabelRegion; LabelHost] [defaultRegion; defaultHostname] in
  mk_data name MetricTypeGauge value help keys values.

Definition container_keys : list string :=
  [LabelRegion; LabelContainerHost; LabelContainerName; LabelContainerType; LabelContainerLevel;
   LabelContainerHostNamespace; LabelHost].
Definition NewContainerGaugeData (container : Pods.Container) (name : string) (value : float) (help : string)
    (label : gmap string string) : Data :=
  let (keys, values) := with_labels label container_keys
    [defaultRegion; Pods.Hostname container; Pods.Name container; type_String (Pods.Type_ container);
     qos_String (Pods.Qos container); Pods.HostNamespace container; defaultHostname] in
  mk_data ("container_" +:+ name) MetricTypeGauge value help keys values.

End NewData.

(** ** The Prometheus library *)

Definition promNamespace : string := "huatuo_bamai".

Definition BuildFQName (namespace subsystem name : string) : string :=
  if bool_decide (name = EmptyString) then EmptyString
  else (if bool_decide (namespace = EmptyString) then EmptyString else namespace +:+ "_") +:+
       (if bool_decide (subsystem = EmptyString) then EmptyString else subsystem +:+ "_") +:+ name.

Record Desc := mk_desc { fqName : string; desc_help : string; variableLabels : list string }.
(** A metric: its description, type, value and label pairs. *)
Record prometheus_Metric := mk_metric
  { m_desc : Desc; m_type : Z; m_value : float; m_labels : list (string * string) }.

Section Library.
(** model.IsValidMetricName, checkLabelName and utf8.ValidString. *)
Context (validName validLabel validValue : string -> bool).

(** The error NewDesc records in the description. *)
Definition desc_err (d : Desc) : bool :=
  negb (validName (fqName d) && forallb validLabel (variableLabels d) && bool_decide (NoDup (variableLabels d))).

(** [None] is the panic. *)
Definition MustNewConstMetric (d : Desc) (typ : Z) (value : float) (labelValues : list string) : option prometheus_Metric :=
  if desc_err d then None
  else if negb (Nat.eqb (length labelValues) (length (variableLabels d))) then None
  else if negb (forallb validValue labelValues) then None
  else Some (mk_metric d typ value (zip (variableLabels d) labelValues)).

(** ** Data.prometheusMetric, with the description that is used *)

Definition fq (collector : string) (d : Data) : string := BuildFQName promNamespace collector (metricName d).
Definition new_desc (collector : string) (d : Data) : Desc := mk_desc (fq collector d) (help d) (labelKey d).

(** What is sent: a metric, or nil for an unknown type; or the panic. *)
Inductive sent := Sent (m : option prometheus_Metric) | Panicked.
Definition convert (d : Data) (desc : Desc) : sent :=
  match MustNewConstMetric desc (metricType d) (Value d) (labelValue d) with
  | Some m => Sent (Some m)
  | None => Panicked
  end.
Definition known_type (d : Data) : bool := (metricType d =? MetricTypeGauge) || (metricType d =? MetricTypeCounter).

(** ** collector.go *)

(** The collectors are the registered tracers with the metric flag. *)
Definition NewCollectorManager (tracings : gmap string Z) : gmap string Z :=
  filter (fun kv => Z.land kv.2 Tracing.Manager.FlagMetric <> 0) tracings.

(** The goroutine of a collector: the data still to convert, the data for which
    the cache was looked up with the answer, and what was sent. The mutex of the
    collector is held by Update only. *)
Record goroutine := mk_go { todo : list Data; loaded : option (Data * option Desc); out : list sent }.

(** doCollect after Update: its data, or nothing after an error. *)
Definition start (update : option (list Data)) : goroutine := mk_go (default [] update) None [].

Abbreviation cache := (gmap string Desc).
Definition go_step (collector : string) (g : goroutine) (c : cache) : goroutine * cache :=
  match loaded g with
  | None =>
      match todo g with
      | [] => (g, c)
      | d :: ds =>
          if known_type d then (mk_go ds (Some (d, c !! fq collector d)) (out g), c)
          else (mk_go ds None (out g ++ [Sent None]), c)
      end
  | Some (d, Some desc) => (mk_go (todo g) None (out g ++ [convert d desc]), c)
  | Some (d, None) =>
      let desc := new_desc collector d in
      (mk_go (todo g) None (out g ++ [convert d desc]), <[fq collector d := desc]> c)
  end.

(** A step of the goroutine of a collector; a panic in any of them ends the
    process. *)
Record state := mk_state { gos : gmap string goroutine; descs : cache }.
Definition is_panic (o : sent) : bool := match o with Panicked => true | Sent _ => false end.
Definition crashed (s : state) : bool := existsb (fun kv => existsb is_panic (out kv.2)) (map_to_list (gos s)).
Definition step (s : state) (collector : string) : state :=
  if crashed s then s
  else match gos s !! collector with
       | None => s
       | Some g => let (g, c) := go_step collector g (descs s) in mk_state (<[collector := g]> (gos s)) c
       end.
Definition exec (schedule : list string) (s : state) : state := foldl step s schedule.

Definition start_all (updates : gmap string (option (list Data))) (c : cache) : state := mk_state (start <$> updates) c.

(** ** Specification *)

(** What is sent for a datum with a description of its own. *)
Definition own (collector : string) (d : Data) : sent :=
  if known_type d then convert d (new_desc collector d) else Sent None.

(** Data of one metric, whichever collector it is from, agree on the labels and
    the help text; the descriptions cached before are of such data. *)
Record consistent (updates : gmap string (option (list Data))) (c : cache) (schema : string -> Desc) : Prop := mk_consistent {
  data_agree collector ds d : updates !! collector = Some (Some ds) -> d ∈ ds -> new_desc collector d = schema (fq collector d);
  cache_agrees name desc : c !! name = Some desc -> desc = schema name
}.

(** ** Lemmas *)

(** What is still to be sent by a goroutine. *)
Definition pending (collector : string) (g : goroutine) : list sent :=
  match loaded g with Some (d, _) => [own collector d] | None => [] end ++ (own collector <$> todo g).

Definition go_ok (schema : string -> Desc) (collector : string) (all : list sent) (g : goroutine) : Prop :=
  out g ++ pending collector g = all /\
  (forall d, d ∈ todo g -> new_desc collector d = schema (fq collector d)) /\
  (forall d o, loaded g = Some (d, o) -> known_type d = true /\ new_desc collector d = schema (fq collector d) /\
     forall desc, o = Some desc -> desc = schema (fq collector d)).

Definition cache_ok (schema : string -> Desc) (c : cache) : Prop := forall name desc, c !! name = Some desc -> desc = schema name.

Lemma go_step_ok schema collector all g c : go_ok schema collector all g -> cache_ok schema c ->
  let (g', c') := go_step collector g c in go_ok schema collector all g' /\ cache_ok schema c'.
Proof.
  intros (Hall & Htodo & Hload) Hc. unfold go_step, pending in *. destruct (loaded g) as [[d o]|] eqn:El.
  - destruct (Hload d o eq_refl) as (Hk & Hn & Ho).
    assert (own collector d = convert d (new_desc collector d)) as Hown by (unfold own; by rewrite Hk).
    rewrite Hown in Hall. destruct o as [desc|].
    + rewrite (Ho desc eq_refl), <- Hn. split; [|done]. split_and!; cbn; [by rewrite <- app_assoc | done | done].
    + split; [split_and!; cbn; [by rewrite <- app_assoc | done | done]|].
      intros name desc [[<- <-]|[_ H]]%lookup_insert_Some; [done | by apply Hc].
  - destruct (todo g) as [|d ds] eqn:Et; [split; [|done]; unfold go_ok, pending; rewrite El, Et; done|].
    rewrite fmap_cons in Hall. unfold own at 1 in Hall. destruct (known_type d) eqn:Hk.
    + split; [|done]. split_and!; cbn.
      * unfold pending. cbn. unfold own at 1. by rewrite Hk.
      * intros d' Hd'. apply Htodo. by right.
      * intros d' o [= <- <-]. split_and!; [done | apply Htodo; by left|]. intros desc Hd. by apply Hc.
    + split; [|done]. split_and!; cbn; [by rewrite <- app_assoc | | done]. intros d' Hd'. apply Htodo. by right.
Qed.

Lemma step_ok schema expected s collector :
  map_Forall (fun n g => go_ok schema n (expected n) g) (gos s) -> cache_ok schema (descs s) ->
  map_Forall (fun n g => go_ok schema n (expected n) g) (gos (step s collector)) /\ cache_ok schema (descs (step s collector)).
Proof.
  intros Hg Hc. unfold step. destruct (crashed s); [done|]. destruct (gos s !! collector) as [g|] eqn:E; [|done].
  pose proof (go_step_ok schema collector (expected collector) g (descs s) (map_Forall_lookup_1 _ _ _ _ Hg E) Hc) as H.
  destruct (go_step collector g (descs s)) as [g' c']. destruct H as [Hg' Hc']. split; [|done]. by apply map_Forall_insert_2.
Qed.

(** All of a scrape: what was sent and is still to be sent are the data with
    descriptions of their own, and the cache keeps to the schema. *)
Lemma exec_ok updates c schema schedule : consistent updates c schema ->
  (forall collector ds g, updates !! collector = Some (Some ds) ->
     gos (exec schedule (start_all updates c)) !! collector = Some g -> out g ++ pending collector g = own collector <$> ds) /\
  cache_ok schema (descs (exec schedule (start_all updates c))).
Proof.
  intros [Hd Hc]. set (expected n := match updates !! n with Some (Some ds) => own n <$> ds | _ => [] end).
  assert (map_Forall (fun n g => go_ok schema n (expected n) g) (gos (exec schedule (start_all updates c))) /\
          cache_ok schema (descs (exec schedule (start_all updates c)))) as [Hall Hcache].
  { unfold exec. apply (foldl_invariant (fun s => map_Forall (fun n g => go_ok schema n (expected n) g) (gos s) /\ cache_ok schema (descs s))).
    - split; [|exact Hc]. intros n g0. cbn. rewrite lookup_fmap. destruct (updates !! n) as [o|] eqn:En; [|done].
      intros [= <-]. unfold expected, go_ok, pending, start. rewrite En. cbn. split_and!; [destruct o; cbn; done | | done].
      destruct o as [l|]; cbn; [|by intros ? ?%elem_of_nil]. intros d Hin. by eapply Hd.
    - intros s n _ [H1 H2]. by apply step_ok. }
  split; [|exact Hcache]. intros collector ds g Hu Hg.
  destruct (map_Forall_lookup_1 _ _ _ _ Hall Hg) as (Ho & _). unfold expected in Ho. by rewrite Hu in Ho.
Qed.

(** ** Labels *)

Section Labels.
Context (range : forall A, gmap string A -> list (string * A)).
Hypothesis range_perm : forall A (m : gmap string A), Permutation (range A m) (map_to_list m).

Lemma sorted_keys_dom (l1 l2 : gmap string string) range' :
  (forall A (m : gmap string A), Permutation (range' A m) (map_to_list m)) -> dom l1 = dom l2 ->
  sort_Strings (range _ l1).*1 = sort_Strings (range' _ l2).*1.
Proof.
  intros Hp Hd. unfold sort_Strings. apply (Sorted_unique String.le); [apply Sorted_merge_sort, _.. |].
  rewrite !merge_sort_Permutation, range_perm, Hp. apply NoDup_Permutation; [apply NoDup_fst_map_to_list..|].
  assert (forall (l : gmap string string) k, k ∈ (map_to_list l).*1 <-> k ∈ dom l) as Hk.
  { intros l k. rewrite elem_of_dom, list_elem_of_fmap. split.
    - intros ([k' v] & -> & Hin%elem_of_map_to_list). by eexists.
    - intros [v Hv]. exists (k, v). by rewrite elem_of_map_to_list. }
  intros k. by rewrite !Hk, Hd.
Qed.

(** Sorting makes the labels of a metric independent of the order in which Go
    walks the map: two data with the same label names have the same keys, and
    so share a description. *)
Theorem labels_by_name region host name v1 v2 h l1 l2 range' :
  (forall A (m : gmap string A), Permutation (range' A m) (map_to_list m)) -> dom l1 = dom l2 ->
  new_desc name (NewGaugeData range region host name v1 h l1) = new_desc name (NewGaugeData range' region host name v2 h l2).
Proof.
  intros Hp Hd. unfold new_desc, fq, NewGaugeData, with_labels. cbn. by rewrite (sorted_keys_dom l1 l2 range' Hp Hd).
Qed.

(** Every label has its value: the pairs of a gauge are the region, the host and
    the labels given. *)
Theorem labels_aligned region host name v h label k x :
  let d := NewGaugeData range region host name v h label in
  length (labelKey d) = length (labelValue d) /\
  ((k, x) ∈ zip (labelKey d) (labelValue d) <->
   (k, x) = (LabelRegion, region) \/ (k, x) = (LabelHost, host) \/ label !! k = Some x).
Proof.
  cbn. split; [by rewrite length_fmap|]. rewrite !elem_of_cons. do 2 apply or_iff_compat_l.
  assert (forall l, (k, x) ∈ zip l ((fun k => default EmptyString (label !! k)) <$> l) <-> k ∈ l /\ x = default EmptyString (label !! k)) as ->.
  { induction l as [|k' l IH]; cbn; [by rewrite !elem_of_nil; naive_solver|]. rewrite !elem_of_cons, IH. naive_solver. }
  unfold sort_Strings. rewrite merge_sort_Permutation, range_perm, list_elem_of_fmap. split.
  - intros [([k' v'] & -> & Hin%elem_of_map_to_list) ->]. cbn. by rewrite Hin.
  - intros Hk. split; [|by rewrite Hk]. exists (k, x). by rewrite elem_of_map_to_list.
Qed.

End Labels.

End Library.

End Metric.
