(* ===== verification/Schema.v ===== *)
(** * core/metrics and core/events: the metrics of the repository

    What every collector passes to NewGaugeData and NewContainerGaugeData: for
    each name it uses, on the host or for a container, the help text and the
    names of the labels. A collector's data are made by these calls.

    The table makes the metrics of different calls differ in their full names,
    so that the cache of descriptions that all collectors share in pkg/metric
    cannot be observed. *)
From S2P Require Import Prelude Text Gauge Pods NetdevEvents Metric.
From stdpp Require Import base gmap list strings sorting.
From Stdlib Require Import ZArith Lia Ascii QArith.

Open Scope Z_scope.

Module Schema.
Import Metric.Metric.
Open Scope string_scope.

(** What a collector passes with a name: the help text and the label names. *)
Abbreviation names := (bool -> string -> option (string * list string)).

(** Fixed names, with one set of labels. *)
Definition fixed (keys : list string) (l : list (string * string)) (n : string) : option (string * list string) :=
  (fun h => (h, keys)) <$> (list_to_map l : gmap string string) !! n.
Definition none (_ : string) : option (string * list string) := None.

(** ** The calls, by collector: the flag is set for a container *)

Definition arp : names := fun ctr =>
  if ctr then fixed [] [("entries", "arp for container and host")]
  else fixed [] [("entries", "host init namespace"); ("total", "arp_cache entries")].
Definition netdev_dcb : names := fun ctr =>
  if ctr then none
  else fixed ["device"; "prio"] [("pfc_send_total", "count of the sent pfc frames"); ("pfc_received_total", "count of the received pfc frames")].
Definition runtime : names := fun ctr =>
  if ctr then none
  else fixed [] [("cpu_user", "user cpu"); ("cpu_sys", "sys cpu"); ("cpu_total", "total cpu");
                 ("memory_vss", "memory vss"); ("memory_rss", "memory rss")].
Definition memory_stat : names := fun ctr n => if ctr then Some ("memory stat " +:+ n, []) else None.
Definition memory_reclaim : names := fun ctr =>
  if ctr then fixed [] [("directstall", "counting of cgroup try_charge reclaim")] else none.
Definition softirq : names := fun ctr =>
  if ctr then none else fixed ["cpuid"; "type"; "zone"] [("latency", "softirq latency")].

(** The keys of netlinkStats and procStats. *)
Definition netdev_stats : list string :=
  ["receive_packets"; "transmit_packets"; "receive_bytes"; "transmit_bytes"; "receive_errors"; "transmit_errors";
   "receive_dropped"; "transmit_dropped"; "multicast"; "collisions"; "receive_length_errors"; "receive_over_errors";
   "receive_crc_errors"; "receive_frame_errors"; "receive_fifo_errors"; "receive_missed_errors";
   "transmit_aborted_errors"; "transmit_carrier_errors"; "transmit_fifo_errors"; "transmit_heartbeat_errors";
   "transmit_window_errors"; "receive_compressed"; "transmit_compressed"; "receive_nohandler";
   "receive_fifo"; "receive_frame"; "receive_multicast"; "transmit_fifo"; "transmit_colls"; "transmit_carrier"].
Definition netdev : names := fun _ =>
  fixed ["device"] ((fun key => (key +:+ "_total", "Network device statistic " +:+ key +:+ ".")) <$> netdev_stats).
Definition rdma_link : names := fun ctr n =>
  if ctr || bool_decide (n = "") then None
  else Some ("rdma device statistic " +:+ n +:+ ".", ["device"; "index"; "nodeguid"; "num_ports"]).
Definition runqlat : names := fun ctr =>
  if ctr then fixed [] [("nlat_01", "nlat_01"); ("nlat_02", "nlat_02"); ("nlat_03", "nlat_03"); ("nlat_04", "nlat_04")]
  else fixed [] [("g_nlat_01", "nlat_01 of host"); ("g_nlat_02", "nlat_02 of host"); ("g_nlat_03", "nlat_03 of host");
                 ("g_nlat_04", "nlat_04 of host")].
Definition tcp_mem : names := fun ctr =>
  if ctr then none
  else fixed [] [("usage_pages", "tcp mem usage(pages)"); ("usage_bytes", "tcp mem usage(bytes)");
                 ("limit_pages", "tcp mem limit(pages)"); ("usage_percent", "tcp mem usage percent")].
Definition mountpoint_perm : names := fun ctr =>
  if ctr then none else fixed ["mountpoint"] [("ro", "whether mountpoint is readonly or not")].
Definition memory_others : names := fun ctr =>
  if ctr then fixed [] ((fun n => (n, "memory cgroup " +:+ n)) <$>
                          ["directstall_time"; "asyncreclaim_time"; "local_direct_reclaim_time"])
  else none.
Definition loadavg : names := fun ctr =>
  if ctr then fixed [] [("nr_running", "nr_running of container"); ("nr_uninterruptible", "nr_uninterruptible of container")]
  else fixed [] [("load1", "1m load average"); ("load5", "5m load average"); ("load15", "15m load average")].
Definition qdisc : names := fun ctr =>
  if ctr then none
  else fixed ["device"; "kind"]
         [("bytes_total", "Number of bytes sent."); ("packets_total", "Number of packets sent.");
          ("drops_total", "Number of packet drops.");
          ("requeues_total", "Number of packets dequeued, not transmitted, and requeued.");
          ("overlimits_total", "Number of packet overlimits.");
          ("current_queue_length", "Number of packets currently in queue to be sent.");
          ("backlog", "Number of bytes currently in queue to be sent.")].
Definition memory_free : names := fun ctr =>
  if ctr then none
  else fixed [] [("compaction", "time elapsed in memory compaction"); ("allocstall", "time elapsed in memory allocstall")].
Definition cpu_util : names := fun ctr =>
  fixed [] ([("usr", "usr for container and host"); ("sys", "sys for container and host"); ("total", "total for container and host")] ++
            (if ctr then [("count", "cpu count for containers")] else [])).
Definition buddyinfo : names := fun ctr =>
  if ctr then none else fixed ["node"; "size"; "zone"] [("blocks", "buddy info")].

(** A name of the form protocol_rest, cut at its first underscore: the protocols
    of /proc/net have none. *)
Fixpoint cut (s word : string) : option (string * string) :=
  match s with
  | EmptyString => None
  | String c rest => if Ascii.eqb c "_" then Some (word, rest) else cut rest (word +:+ String c "")
  end.
Definition protocol_name (ctr : bool) (n : string) : option (string * string) :=
  p ← cut n ""; if negb ctr && bool_decide (p.1 = "container") then None else Some p.

Definition netstat : names := fun ctr n =>
  (fun '(protocol, name) => ("Statistic " +:+ protocol +:+ name +:+ ".", [])) <$> protocol_name ctr n.
Definition sock_states (ctr : bool) : list string :=
  ["inuse"; "orphan"; "tw"; "alloc"; "memory"] ++ (if ctr then [] else ["mem"; "mem_bytes"]).
Definition sockstat : names := fun ctr n =>
  if bool_decide (n = "sockets_used") then Some ("Number of IPv4 sockets in use.", [])
  else '(protocol, state) ← protocol_name ctr n;
       if bool_decide (state ∈ sock_states ctr)
       then Some ("Number of " +:+ protocol +:+ " sockets in state " +:+ state +:+ ".", []) else None.

Definition netdev_hw : names := fun ctr =>
  if ctr then none else fixed ["device"; "driver"] [("rx_dropped", "count of packets dropped at hardware level")].

Definition vmStatMetricDesc : gmap string string := list_to_map
  [("allocstall_normal", "host direct reclaim count on normal zone");
   ("allocstall_movable", "host direct reclaim count on movable zone");
   ("compact_stall", "memory compaction count");
   ("nr_active_anon", "anonymous pages on active lru"); ("nr_active_file", "file pages on active lru");
   ("nr_boost_pages", "kswapd boost pages"); ("nr_dirty", "dirty pages");
   ("nr_free_pages", "free pages in buddy system");
   ("nr_inactive_anon", "anonymous pages on inactive lru"); ("nr_inactive_file", "file pages on inactive lru");
   ("nr_kswapd_boost", "kswapd boosting count"); ("nr_mlock", "mlocked pages"); ("nr_shmem", "shared memory pages");
   ("nr_slab_reclaimable", "reclaimable slab pages"); ("nr_slab_unreclaimable", "unreclaimable slab pages");
   ("nr_unevictable", "unevictable pages"); ("nr_writeback", "writing-back pages");
   ("numa_pages_migrated", "numa migrated pages");
   ("pgdeactivate", "pages deactivated from active lru to inactive lru"); ("pgrefill", "pages scanned on active lru");
   ("pgscan_direct", "scanned pages in host direct reclaim"); ("pgscan_kswapd", "scanned pages in host kswapd reclaim");
   ("pgsteal_direct", "reclaimed pages in host direct reclaim"); ("pgsteal_kswapd", "reclaimed pages in host kswapd reclaim")].
Definition vmstat : names := fun ctr n =>
  if ctr || bool_decide (n = "") then None else Some (default "" (vmStatMetricDesc !! n), []).

Definition memory_events : names := fun ctr n => if ctr then Some ("memory events " +:+ n, []) else None.
Definition cpu_stat : names := fun ctr =>
  if ctr then fixed []
    [("wait_rate", "wait rate for containers"); ("inner_wait_rate", "inner wait rate for container");
     ("exter_wait_rate", "exter wait rate for container"); ("throttle_wait_rate", "throttle wait rate for container");
     ("nr_throttled", "throttle nr for container"); ("nr_bursts", "burst nr for container");
     ("burst_time", "burst time for container")]
  else none.

Definition oom : names := fun ctr =>
  if ctr then fixed ["process"] [("counter", "containers oom counter")]
  else fixed [] [("host_counter", "host oom counter")].
Definition hungtask : names := fun ctr => if ctr then none else fixed [] [("counter", "hungtask counter")].
Definition softlockup : names := fun ctr => if ctr then none else fixed [] [("counter", "softlockup counter")].
Definition lacp : names := fun ctr => if ctr then none else fixed [] [("lacp", "lacp disabled count")].
(** The name and the help text are the String of the status. *)
Definition netdev_events : names := fun ctr =>
  if ctr then none
  else fixed ["device"] (omap (fun l => (fun s => (s, s)) <$> NetdevEvents.status_String l)
         [NetdevEvents.linkStatusUnknown; NetdevEvents.linkStatusAdminUp; NetdevEvents.linkStatusAdminDown;
          NetdevEvents.linkStatusCarrierUp; NetdevEvents.linkStatusCarrierDown]).

(** The registered collectors with metrics. *)
Definition registered : list (string * names) :=
  [("arp", arp); ("netdev_dcb", netdev_dcb); ("runtime", runtime); ("memory_stat", memory_stat);
   ("memory_reclaim", memory_reclaim); ("softirq", softirq); ("rdma_link", rdma_link); ("runqlat", runqlat);
   ("tcp_mem", tcp_mem); ("mountpoint_perm", mountpoint_perm); ("memory_others", memory_others); ("loadavg", loadavg);
   ("qdisc", qdisc); ("memory_free", memory_free); ("cpu_util", cpu_util); ("buddyinfo", buddyinfo); ("netstat", netstat);
   ("sockstat", sockstat); ("netdev_hw", netdev_hw); ("vmstat", vmstat); ("memory_events", memory_events);
   ("cpu_stat", cpu_stat); ("oom", oom); ("hungtask", hungtask); ("lacp", lacp); ("softlockup", softlockup);
   ("netdev_events", netdev_events); ("netdev", netdev)].

(** ** The data of the calls *)

Definition schema (c : string) : names := fun ctr n => f ← (list_to_map registered : gmap string names) !! c; f ctr n.

Section Calls.
Context (range : forall A, gmap string A -> list (string * A)) (defaultRegion defaultHostname : string).

(** One call: the container, the name, the value and the labels. *)
Record call := mk_call { on : option Pods.Container; name : string; value : float; label : gmap string string }.

Definition datum (c : string) (x : call) : option Data :=
  '(help, keys) ← schema c (bool_decide (is_Some (on x))) (name x);
  if bool_decide (dom (label x) = list_to_set keys) then
    Some match on x with
         | Some container => NewContainerGaugeData range defaultRegion defaultHostname container (name x) (value x) help (label x)
         | None => NewGaugeData range defaultRegion defaultHostname (name x) (value x) help (label x)
         end
  else None.

Definition made (c : string) (d : Data) : Prop := exists x, datum c x = Some d.

(** ** A full name tells the call *)

(** The rest after a prefix. *)
Fixpoint strip (p s : string) : option string :=
  match p, s with
  | EmptyString, _ => Some s
  | String a p', String b s' => if Ascii.eqb a b then strip p' s' else None
  | String _ _, EmptyString => None
  end.
Fixpoint split_collector (l : list string) (s : string) : option (string * string) :=
  match l with
  | [] => None
  | c :: l' => match strip (c +:+ "_") s with Some m => Some (c, m) | None => split_collector l' s end
  end.
Definition has_containers (c : string) : bool := bool_decide (c ∈
  ["arp"; "memory_stat"; "memory_reclaim"; "netdev"; "runqlat"; "memory_others"; "loadavg"; "cpu_util"; "netstat"; "sockstat";
   "memory_events"; "cpu_stat"; "oom"]).
Definition recover (s : string) : option (string * bool * string) :=
  '(c, m) ← split_collector registered.*1 s;
  Some match (if has_containers c then strip "container_" m else None) with
       | Some n => (c, true, n)
       | None => (c, false, m)
       end.
Definition describe (full : string) : Desc :=
  match strip (promNamespace +:+ "_") full ≫= recover with
  | Some (c, ctr, n) =>
      match schema c ctr n with
      | Some (h, keys) => mk_desc full h ((if ctr then container_keys else [LabelRegion; LabelHost]) ++
                                          sort_Strings (elements (list_to_set keys : gset string)))
      | None => mk_desc full "" []
      end
  | None => mk_desc full "" []
  end.

(** ** Lemmas *)

Lemma strip_Some p : forall s r, strip p s = Some r -> s = p +:+ r.
Proof.
  induction p as [|a p IH]; intros s r H; cbn [strip] in H; [by injection H as ->|].
  destruct s as [|b s]; [done|]. destruct (Ascii.eqb_spec a b) as [->|]; [|done]. apply IH in H as ->. done.
Qed.

Lemma fixed_elem keys l n x : fixed keys l n = Some x -> List.In n (map fst l).
Proof.
  unfold fixed. intros H. apply fmap_Some in H as (h & H & _). apply elem_of_list_to_map_2, list_elem_of_In in H.
  apply in_map_iff. by exists (n, h).
Qed.

Lemma registered_elem c ctr n x : schema c ctr n = Some x -> exists f, (c, f) ∈ registered /\ f ctr n = Some x.
Proof.
  unfold schema. intros H. apply bind_Some in H as (f & H & Hf). apply elem_of_list_to_map_2 in H. by exists f.
Qed.

(** The part of a full name after the collector. *)
Definition suffix (ctr : bool) (n : string) : string := if ctr then "container_" +:+ n else n.

(** A name of a protocol is not that of a container. *)
Lemma protocol_host n p : protocol_name false n = Some p -> strip "container_" n = None.
Proof.
  intros H. destruct (strip "container_" n) as [r|] eqn:E; [|done]. apply strip_Some in E as ->. by vm_compute in H.
Qed.

Lemma sockstat_host n x : sockstat false n = Some x -> strip "container_" n = None.
Proof.
  unfold sockstat. case_bool_decide as E; [intros _; by rewrite E|].
  destruct (protocol_name false n) as [p|] eqn:Ep; [|done]. intros _. by eapply protocol_host.
Qed.

(** What makes a full name tell its call. *)
Definition tells (c : string) (ctr : bool) (n : string) : Prop :=
  (ctr = true -> has_containers c = true) /\ (ctr = false -> has_containers c = true -> strip "container_" n = None) /\
  suffix ctr n <> "" /\ split_collector registered.*1 (c +:+ "_" +:+ suffix ctr n) = Some (c, suffix ctr n).

(** The cases of the fixed names. *)
Ltac tells_now := split_and!; [intros; first [discriminate | vm_compute; reflexivity].. | discriminate | vm_compute; reflexivity].
Ltac by_names H :=
  apply fixed_elem in H; cbn in H; repeat (destruct H as [<-|H]; [tells_now|]); destruct H.
Ltac by_collector H := intros H; cbn in H; first [discriminate H | by_names H].

Lemma tells_open c n : (c = "memory_stat" \/ c = "memory_events") -> tells c true n.
Proof. intros [-> | ->]; split_and!; [reflexivity | discriminate | discriminate | reflexivity | reflexivity | discriminate | discriminate | reflexivity]. Qed.

Lemma tells_host c n : (c = "rdma_link" \/ c = "vmstat") -> n <> "" -> tells c false n.
Proof. intros [-> | ->] Hn; split_and!; try done; discriminate. Qed.

Lemma tells_protocol c ctr n : (c = "netstat" \/ c = "sockstat") -> n <> "" -> (ctr = false -> strip "container_" n = None) -> tells c ctr n.
Proof. intros [-> | ->] Hn Hs; split_and!; try done; try (by intros; apply Hs); by destruct ctr. Qed.

Lemma tells_registered c f ctr n x : (c, f) ∈ registered -> f ctr n = Some x -> tells c ctr n.
Proof.
  intros Hin. apply list_elem_of_In in Hin. cbn in Hin. revert Hin.
  repeat (intros [[= <- <-]|Hin]; [|revert Hin]); [.. | intros []].
  all: try (destruct ctr; by_collector H; fail).
  all: intros H.
  - destruct ctr; [apply tells_open; by left | done].
  - destruct ctr; [done|]. apply tells_host; [by left|]. by intros ->.
  - apply tells_protocol; [by left | by intros ->; destruct ctr|]. intros ->. unfold netstat in H.
    apply fmap_Some in H as (p & H & _). by eapply protocol_host.
  - apply tells_protocol; [by right | by intros ->; destruct ctr|]. intros ->. by eapply sockstat_host.
  - destruct ctr; [done|]. apply tells_host; [by right|]. by intros ->.
  - destruct ctr; [apply tells_open; by right | done].
Qed.

Lemma recover_call c ctr n x : schema c ctr n = Some x -> recover (c +:+ "_" +:+ suffix ctr n) = Some (c, ctr, n) /\ suffix ctr n <> "" /\ c <> "".
Proof.
  intros (f & Hin & Hf)%registered_elem. destruct (tells_registered c f ctr n x Hin Hf) as (H1 & H2 & H3 & H4).
  split; [|split; [done|]].
  - unfold recover. rewrite H4. cbn [mbind option_bind]. destruct ctr; cbn [suffix].
    + by rewrite H1.
    + destruct (has_containers c); [by rewrite H2 | done].
  - intros ->. by vm_compute in H4.
Qed.

Hypothesis range_perm : forall A (m : gmap string A), Permutation (range A m) (map_to_list m).

Lemma sorted_labels (l : gmap string string) keys : dom l = list_to_set keys ->
  sort_Strings (range _ l).*1 = sort_Strings (elements (list_to_set keys : gset string)).
Proof.
  intros Hd. unfold sort_Strings. apply (Sorted_unique String.le); [apply Sorted_merge_sort, _.. |].
  rewrite !merge_sort_Permutation, range_perm. apply NoDup_Permutation; [apply NoDup_fst_map_to_list | apply NoDup_elements|].
  intros k. rewrite elem_of_elements, <- Hd, elem_of_dom, list_elem_of_fmap. split.
  - intros ([k' v] & -> & Hin%elem_of_map_to_list). by eexists.
  - intros [v Hv]. exists (k, v). by rewrite elem_of_map_to_list.
Qed.

Lemma strip_app p r : strip p (p +:+ r) = Some r.
Proof.
  induction p as [|a p IH]; [done|]. change (strip (String a p) (String a (p +:+ r)) = Some r). cbn [strip].
  by rewrite Ascii.eqb_refl.
Qed.

Lemma made_describe c d : made c d -> new_desc c d = describe (fq c d).
Proof.
  intros [x Hx]. unfold datum in Hx. destruct (schema c (bool_decide (is_Some (on x))) (name x)) as [[h keys]|] eqn:Es; [|done].
  cbn [mbind option_bind] in Hx. case_bool_decide as Hk; [|done]. apply (f_equal (from_option id d)) in Hx. cbn in Hx.
  destruct (recover_call _ _ _ _ Es) as (Hr & Hn & Hc).
  assert (metricName d = suffix (bool_decide (is_Some (on x))) (name x) /\ help d = h /\
    labelKey d = ((if bool_decide (is_Some (on x)) then container_keys else [LabelRegion; LabelHost]) ++ sort_Strings (range _ (label x)).*1)%list)
    as (Em & Eh & El) by (subst d; by destruct (on x)).
  unfold new_desc, describe. rewrite Eh, El. unfold fq, BuildFQName. rewrite Em.
  rewrite !bool_decide_eq_false_2 by done. rewrite <- (Text.append_assoc c). rewrite strip_app.
  cbn [mbind option_bind]. rewrite Hr, Es. by rewrite (sorted_labels (label x) keys Hk).
Qed.

(** ** Scrapes *)

(** The answers of the collectors' Update, and the schedule of the goroutines. *)
Abbreviation scrape := (gmap string (option (list Data)) * list string)%type.
Definition all_made (s : scrape) : Prop := forall c ds d, s.1 !! c = Some (Some ds) -> d ∈ ds -> made c d.

Section Cache.
Context (validName validLabel validValue : string -> bool).

(** The cache after scrapes, from the start of the agent. *)
Definition cache_after (earlier : list scrape) : gmap string Desc :=
  foldl (fun c s => descs (exec validName validLabel validValue s.2 (start_all s.1 c))) ∅ earlier.

Lemma made_consistent s c : all_made s -> cache_ok describe c -> consistent s.1 c describe.
Proof. intros Hm Hc. constructor; [|exact Hc]. intros collector ds d Hu Hd. by eapply made_describe, Hm. Qed.

Lemma cache_after_ok earlier : Forall all_made earlier -> cache_ok describe (cache_after earlier).
Proof.
  intros Hf. unfold cache_after. apply (foldl_invariant (fun c => cache_ok describe c)); [by intros ? ? ?%lookup_empty_Some|].
  intros c s Hs Hc. rewrite Forall_forall in Hf. apply exec_ok. apply made_consistent; [by apply Hf | done].
Qed.

End Cache.

End Calls.

(** Two collectors of the agent, in two scrapes: in the second, cpu_util finds
    the descriptions of the first, and netdev looks up its own before storing
    it. *)
Definition range0 (A : Type) (m : gmap string A) : list (string * A) := map_to_list m.
Definition valid0 (_ : string) : bool := true.
Definition host_call (n : string) (q : Q) (l : gmap string string) : call := mk_call None n (Num q) l.
Definition calls_cpu : list call := [host_call "usr" 1 ∅; mk_call (Some Pods.web) "usr" (Num 2) ∅].
Definition calls_net : list call := [host_call "receive_bytes_total" 3 {[ "device" := "eth0" ]}].
Definition update_of (c : string) (l : list call) : option (list Data) := Some (omap (datum range0 "dev" "node1" c) l).
Definition updates0 : gmap string (option (list Data)) :=
  {[ "cpu_util" := update_of "cpu_util" calls_cpu; "netdev" := update_of "netdev" calls_net; "arp" := None ]}.
Definition schedule0 : list string := ["cpu_util"; "netdev"; "cpu_util"; "netdev"; "cpu_util"; "cpu_util"].

Lemma Some_omap_elem {A B} (f : A -> option B) (l : list A) (ds : list B) d : Some (omap f l) = Some ds -> d ∈ ds -> exists x, f x = Some d.
Proof. intros [= <-] (x & _ & Hx)%list_elem_of_omap. by exists x. Qed.

Lemma updates0_made sch : all_made range0 "dev" "node1" (updates0, sch).
Proof.
  intros c ds d H Hd. cbn [fst] in H. unfold updates0 in H.
  apply lookup_insert_Some in H as [[<- H]|[_ H]]; [exact (Some_omap_elem _ _ _ _ H Hd)|].
  apply lookup_insert_Some in H as [[<- H]|[_ H]]; [exact (Some_omap_elem _ _ _ _ H Hd)|].
  apply lookup_singleton_Some in H as [_ H]. discriminate H.
Qed.


End Schema.
