(* ===== verification/SoftirqTracing.v ===== *)
(** * bpf/softirq_tracing.c: ticks that come late

    The per-CPU state machine of the tick probes, the report submitted when
    two consecutive ticks are [softirq_thresh] apart, and its decoding by
    core/events/softirq_tracing.go.  The specification is an automaton with
    three phases per CPU, driven by the answers of the rate limiter. *)
From S2P Require Import Prelude Layout Bpf Ratelimit.
From stdpp Require Import base gmap list strings.
From Stdlib Require Import ZArith Lia.
From Stdlib.Strings Require Byte.

Open Scope Z_scope.

Module SoftirqTracing.

Definition TICK_DEP_MASK_NONE : Z := 0.
Definition SOFTIRQ_THRESH : Z := 5000000.
Definition TICK : Z := 1000.
Definition rate_init : bpf_ratelimit := BPF_RATELIMIT 1 (COMPAT_CPU_NUM * TICK * 1000).

Record timer_softirq_run_ts := mk_ts { start_trace : Z; restarting_tick : Z; soft_ts : Z }.

Record report_event := mk_report {
  stack : list byte;        (** u64 stack[PERF_MAX_STACK_DEPTH] *)
  stack_size : Z;
  now : Z;
  stall_time : Z;
  comm : list byte;
  pid : Z;
  cpu : Z
}.

Definition report_members : list member_decl :=
  ["stack" :- Array 127 c_u64; "stack_size" :- c_u64; "now" :- c_u64; "stall_time" :- c_u64;
   "comm" :- Array 16 c_char; "pid" :- c_u32; "cpu" :- c_u32]%ctype.

(** type softirqPerfEvent struct *)
Definition softirqPerfEvent (vs : list (list byte)) : option report_event :=
  match vs with
  | [st; sz; nw; stall; cm; p; c] =>
      Some (mk_report st (s64 (le_Z sz)) (le_Z nw) (le_Z stall) cm (le_Z p) (le_Z c))
  | _ => None
  end.

#[global] Program Instance report_wire : Wire report_event := {
  wire_members := report_members;
  wire_sizes := [1016; 8; 8; 8; 16; 4; 4]%nat;
  wire_fields r := [stack r; le_bytes 8 (stack_size r); le_bytes 8 (now r); le_bytes 8 (stall_time r);
                    comm r; le_bytes 4 (pid r); le_bytes 4 (cpu r)];
  wire_valid r := Z.of_nat (length (stack r)) = 1016 /\ - 2 ^ 63 <= stack_size r < 2 ^ 63 /\
    is_u 64 (now r) /\ is_u 64 (stall_time r) /\ Z.of_nat (length (comm r)) = 16 /\
    is_u 32 (pid r) /\ is_u 32 (cpu r);
  wire_parse := softirqPerfEvent
}.
Next Obligation. wire_sized. Qed.
Next Obligation. wire_parse. Qed.
Next Obligation. reflexivity. Qed.
Next Obligation. reflexivity. Qed.

Record state := mk_state {
  rate : bpf_ratelimit;
  timerts : percpu timer_softirq_run_ts;
  report : percpu report_event
}.
Definition rate_ptr : ptr state bpf_ratelimit :=
  mk_ptr rate (fun r s => mk_state r (timerts s) (report s)).
Definition timerts_map : pcref state timer_softirq_run_ts :=
  mk_pcref timerts (fun m s => mk_state (rate s) m (report s)).
Definition report_map : pcref state report_event :=
  mk_pcref report (fun m s => mk_state (rate s) (timerts s) m).

Definition irqoff_event_map : string := "irqoff_event_map".

Definition zero_report : report_event :=
  mk_report (zeros 1016) 0 0 0 (zeros 16) 0 0.
Definition init : state :=
  mk_state rate_init (fun _ => [mk_ts 0 0 0]) (fun _ => [zero_report]).

Definition set_soft_ts (t : Z) (s : timer_softirq_run_ts) :=
  mk_ts (start_trace s) (restarting_tick s) t.
Definition set_restarting (b : Z) (s : timer_softirq_run_ts) :=
  mk_ts (start_trace s) b (soft_ts s).

Section Programs.
(** volatile const u64 softirq_thresh, set by user space before loading. *)
Context (softirq_thresh : Z).

(** The report of a stall of [delta] seen at [now]: every member of the
    per-CPU buffer is assigned. *)
Definition fill_report (e : kenv) (now delta : Z) : report_event :=
  let '(st, sz) := get_stack e 0 (8 * PERF_MAX_STACK_DEPTH) in
  mk_report st (s64 sz) now delta (cur_comm e) (u32 (cur_pid_tgid e)) (cur_cpu e).

(** The tick past the limiter. *)
Definition traced_tick : M state unit :=
  ts ← percpu_lookup_elem timerts_map 0;
  match ts with
  | None => mret tt
  | Some ts =>
      if start_trace ts =? 0 then mret tt
      else if soft_ts ts =? 0 then
        t ← bpf_ktime_get_ns; percpu_store timerts_map 0 (set_soft_ts t)
      else
        event ← percpu_lookup_elem report_map 0;
        match event with
        | None => mret tt
        | Some _ =>
            if negb (restarting_tick ts =? 0) then
              percpu_store timerts_map 0 (set_restarting 0);;
              t ← bpf_ktime_get_ns;
              percpu_store timerts_map 0 (set_soft_ts t)
            else
              now ← bpf_ktime_get_ns;
              let delta := u64 (now - soft_ts ts) in
              (if softirq_thresh <=? delta then
                 ev ← asks (fun e => fill_report e now delta);
                 percpu_store report_map 0 (fun _ => ev);;
                 bpf_perf_event_output irqoff_event_map (wire_encode ev)
               else mret tt);;
              percpu_store timerts_map 0 (set_soft_ts now)
        end
  end.

Definition probe_account_process_tick : M state unit :=
  limited ← bpf_ratelimited (Some rate_ptr);
  if (limited : bool) then mret tt else traced_tick.

Definition probe_tick_stop (success dependency : Z) : M state unit :=
  ts ← percpu_lookup_elem timerts_map 0;
  match ts with
  | None => mret tt
  | Some _ =>
      if (success =? 1) && (dependency =? TICK_DEP_MASK_NONE) then
        percpu_store timerts_map 0 (fun ts => mk_ts 0 (restarting_tick ts) (soft_ts ts))
      else mret tt
  end.

Definition probe_tick_nohz_restart_sched_tick : M state unit :=
  ts ← percpu_lookup_elem timerts_map 0;
  match ts with
  | None => mret tt
  | Some _ =>
      t ← bpf_ktime_get_ns;
      percpu_store timerts_map 0 (set_soft_ts t);;
      percpu_store timerts_map 0 (fun ts => mk_ts 1 (restarting_tick ts) (soft_ts ts));;
      percpu_store timerts_map 0 (set_restarting 1)
  end.

Inductive hook := Tick | Stop (success dependency : Z) | Restart.
Definition prog (h : hook) : M state unit :=
  match h with
  | Tick => probe_account_process_tick
  | Stop s d => probe_tick_stop s d
  | Restart => probe_tick_nohz_restart_sched_tick
  end.
Definition exec (l : list (kenv * hook)) (s : state) : state * list (string * list byte) :=
  run_all (map (fun '(e, h) => (e, prog h)) l) s.

(** ** Specification

    A CPU is not traced, traced with its tick just restarted, or traced with
    its last tick at [t]. *)
Inductive phase := Idle | Restarted | Tracking (t : Z).

(** A tick the limiter let through, at the second clock reading. *)
Definition tick_phase (e : kenv) (p : phase) : phase * list (string * list byte) :=
  let t := ktime e 1%nat in
  match p with
  | Idle => (Idle, [])
  | Restarted => (Tracking t, [])
  | Tracking t0 =>
      let d := u64 (t - t0) in
      (Tracking t, if softirq_thresh <=? d
                   then [(irqoff_event_map, wire_encode (fill_report e t d))] else [])
  end.

Definition set_phase (c : Z) (p : phase) (ph : Z -> phase) : Z -> phase :=
  fun c' => if c' =? c then p else ph c'.

Fixpoint spec_run (ph : Z -> phase) (refused : list bool) (l : list (kenv * hook))
    : list (string * list byte) :=
  match l with
  | [] => []
  | (e, Tick) :: l' =>
      match refused with
      | [] => []
      | true :: bs => spec_run ph bs l'
      | false :: bs =>
          let '(p, out) := tick_phase e (ph (cur_cpu e)) in
          out ++ spec_run (set_phase (cur_cpu e) p ph) bs l'
      end
  | (e, Stop s d) :: l' =>
      spec_run (if (s =? 1) && (d =? 0) then set_phase (cur_cpu e) Idle ph else ph) refused l'
  | (e, Restart) :: l' => spec_run (set_phase (cur_cpu e) Restarted ph) refused l'
  end.

(** The burst of [rate]. *)
Definition tick_burst : nat := Z.to_nat (COMPAT_CPU_NUM * TICK * 1000).

(** The seconds at which the ticks consult the limiter. *)
Fixpoint tick_secs (l : list (kenv * hook)) : list Z :=
  match l with
  | [] => []
  | (e, Tick) :: l' => sec e :: tick_secs l'
  | _ :: l' => tick_secs l'
  end.
End Programs.

(** ** Lemmas *)

(** The map element of a CPU in a phase. *)
Definition phase_of (ts : timer_softirq_run_ts) (p : phase) : Prop :=
  match p with
  | Idle => start_trace ts = 0
  | Restarted => start_trace ts <> 0 /\ restarting_tick ts <> 0 /\ soft_ts ts <> 0
  | Tracking t => start_trace ts <> 0 /\ restarting_tick ts = 0 /\ soft_ts ts = t /\ t <> 0
  end.

Record repr (s : state) (ph : Z -> phase) : Prop := mk_repr {
  repr_interval : rl_interval (rate s) = 1;
  repr_ts : forall c, exists ts, timerts s c = [ts] /\ phase_of ts (ph c);
  repr_buf : forall c, exists b, report s c = [b]
}.

Lemma repr_set r tsm ts rep s ph c p :
  repr s ph -> rl_interval r = 1 -> tsm c = [ts] -> phase_of ts p ->
  (forall c', c' <> c -> tsm c' = timerts s c') -> (forall c, exists b, rep c = [b]) ->
  repr (mk_state r tsm rep) (set_phase c p ph).
Proof.
  intros Hr Hi Hts Hp Hne Hrep. constructor; simpl; [done| |done].
  intros c'. unfold set_phase. destruct (Z.eqb_spec c' c) as [->|]; [by exists ts|].
  rewrite Hne by done. apply Hr.
Qed.

Lemma repr_rate r s ph : repr s ph -> rl_interval r = 1 -> repr (mk_state r (timerts s) (report s)) ph.
Proof. intros Hr Hi. constructor; simpl; [done|apply Hr..]. Qed.

Lemma set_report c (b : report_event) (rep : percpu report_event) :
  (forall c, exists b, rep c = [b]) -> forall c', exists b', percpu_set c [b] rep c' = [b'].
Proof. intros Hr c'. unfold percpu_set. destruct (c' =? c); eauto. Qed.

Lemma repr_ext s ph ph' : repr s ph -> (forall c, ph' c = ph c) -> repr s ph'.
Proof. intros [Hi Hts Hb] E. constructor; try done. intros c. rewrite E. apply Hts. Qed.

Lemma set_phase_same c p ph : ph c = p -> forall c', set_phase c p ph c' = ph c'.
Proof. intros Hp c'. unfold set_phase. destruct (Z.eqb_spec c' c); congruence. Qed.

(** The element of the CPU after the stores of a handler, and the others. *)
Ltac step_repr s :=
  eapply (repr_set _ _ _ _ s);
    [ done | done
    | rewrite ?percpu_set_eq; simpl; match goal with E : timerts _ _ = _ |- _ => rewrite ?E end; reflexivity
    | simpl | intros; by rewrite ?percpu_set_ne by done | try done ].

Section Steps.
Context (thr : Z).

(** [traced_tick] after the limiter has read the clock. *)
Lemma step_traced_tick e s ph :
  repr s ph -> ktime e 1%nat <> 0 ->
  let '(p, out) := tick_phase thr e (ph (cur_cpu e)) in
  let w := snd (traced_tick thr e (W s 1%nat [])) in
  w_out w = out /\ rate (w_st w) = rate s /\ repr (w_st w) (set_phase (cur_cpu e) p ph).
Proof.
  intros Hr Ht. pose proof Hr as [Hi Hts Hb].
  destruct (Hts (cur_cpu e)) as (ts & Ets & Hp). destruct (Hb (cur_cpu e)) as [b Eb].
  destruct (tick_phase thr e (ph (cur_cpu e))) as [p out] eqn:Ep.
  unfold traced_tick. run_simpl. cbn [timerts_map report_map pc_get pc_set timerts report rate].
  rewrite Ets. simpl.
  destruct (ph (cur_cpu e)) as [| |t0] eqn:Eph; simpl in Hp, Ep; simplify_eq.
  - rewrite Hp. simpl. split_and!; [done..|]. by eapply repr_ext; [done|apply set_phase_same].
  - destruct Hp as (Hst & Hre & Hso).
    rewrite (proj2 (Z.eqb_neq _ _) Hst), (proj2 (Z.eqb_neq _ _) Hso), Eb. simpl.
    rewrite (proj2 (Z.eqb_neq _ _) Hre). simpl. split_and!; [done..|]. by step_repr s.
  - destruct Hp as (Hst & Hre & -> & Hso).
    rewrite (proj2 (Z.eqb_neq _ _) Hst), (proj2 (Z.eqb_neq _ _) Hso), Eb, Hre. simpl.
    case_if; simpl; split_and!; try done; step_repr s; try done.
    rewrite Eb. intros c. by apply set_report.
Qed.

Lemma step_stop e s ph su de :
  repr s ph ->
  exists s', run (prog thr (Stop su de)) e s = (s', []) /\ rate s' = rate s /\
    repr s' (if (su =? 1) && (de =? 0) then set_phase (cur_cpu e) Idle ph else ph).
Proof.
  intros Hr. pose proof Hr as [Hi Hts Hb]. destruct (Hts (cur_cpu e)) as (ts & Ets & Hp).
  unfold prog, probe_tick_stop, TICK_DEP_MASK_NONE. run_simpl.
  cbn [timerts_map pc_get pc_set timerts report rate]. rewrite Ets. simpl.
  destruct ((su =? 1) && (de =? 0)); simpl; eexists; split_and!; try done. by step_repr s.
Qed.

Lemma step_restart e s ph :
  repr s ph -> ktime e 0%nat <> 0 ->
  exists s', run (prog thr Restart) e s = (s', []) /\ rate s' = rate s /\
    repr s' (set_phase (cur_cpu e) Restarted ph).
Proof.
  intros Hr Ht. pose proof Hr as [Hi Hts Hb]. destruct (Hts (cur_cpu e)) as (ts & Ets & Hp).
  unfold prog, probe_tick_nohz_restart_sched_tick. run_simpl.
  cbn [timerts_map pc_get pc_set timerts report rate]. rewrite Ets. simpl.
  eexists; split_and!; [done..|]. by step_repr s.
Qed.

(** A whole trace, driven by the limiter's answers. *)
Lemma exec_spec l s ph :
  repr s ph -> Forall (fun '(e, _) => forall n, ktime e n <> 0) l ->
  snd (exec thr l s) = spec_run thr ph (fst (ratelimit_calls (tick_secs l) (rate s))) l.
Proof.
  unfold exec. revert s ph. induction l as [|[e h] l IH]; intros s ph Hr Hl; [done|].
  apply Forall_cons in Hl as [Ht Hl]. cbn [map]. rewrite run_all_cons_out.
  destruct h as [|su de|]; cbn [tick_secs spec_run].
  - cbn [ratelimit_calls]. pose proof (ratelimit_at_interval (sec e) (rate s)) as Hi.
    pose proof (ratelimited_run rate_ptr e (W s 0%nat [])) as Hrl.
    cbn [rate_ptr pget pset w_st w_clk w_out] in Hrl. rewrite (repr_interval _ _ Hr) in Hrl.
    cbn [Z.eqb] in Hrl. fold (sec e) in Hrl.
    destruct (ratelimit_at (sec e) (rate s)) as [lim r]. cbn [snd] in Hi.
    change (prog thr Tick) with (limited ← bpf_ratelimited (Some rate_ptr);
      if (limited : bool) then mret tt else traced_tick thr).
    rewrite (run_bind _ _ _ _ _ _ Hrl).
    rewrite (repr_interval _ _ Hr) in Hi. pose proof (repr_rate r s ph Hr Hi) as Hr'.
    pose proof (step_traced_tick e _ ph Hr' (Ht 1%nat)) as Hs.
    destruct (ratelimit_calls (tick_secs l) r) as [bs r2] eqn:Ec.
    destruct lim; cbn [fst snd w_st w_out mret M_ret].
    + rewrite (IH _ ph Hr' Hl). simpl. by rewrite Ec.
    + destruct (tick_phase thr e (ph (cur_cpu e))) as [p out].
      destruct Hs as (<- & Hrate & Hr2). rewrite (IH _ _ Hr2 Hl), Hrate. simpl. by rewrite Ec.
  - destruct (step_stop e s ph su de Hr) as (s' & -> & <- & Hr'). cbn [fst snd app]. by apply IH.
  - destruct (step_restart e s ph Hr (Ht 0%nat)) as (s' & -> & <- & Hr').
    cbn [fst snd app]. by apply IH.
Qed.
End Steps.

(** The limiter touches neither map and submits nothing. *)
Lemma limiter_frame e w :
  let w' := snd (bpf_ratelimited (Some rate_ptr) e w) in
  timerts (w_st w') = timerts (w_st w) /\ w_out w' = w_out w.
Proof.
  rewrite ratelimited_run. case_if; [done|]. by destruct (ratelimit_at _ _).
Qed.

Lemma tick_cases thr e s :
  exists w, timerts (w_st w) = timerts s /\ w_out w = [] /\
    run (probe_account_process_tick thr) e s =
      (if fst (bpf_ratelimited (Some rate_ptr) e (W s 0%nat [])) then (w_st w, [])
       else let w' := snd (traced_tick thr e w) in (w_st w', w_out w')).
Proof.
  pose proof (limiter_frame e (W s 0%nat [])) as [Ht Ho].
  destruct (bpf_ratelimited (Some rate_ptr) e (W s 0%nat [])) as [lim w] eqn:E.
  exists w. split_and!; [done..|]. unfold probe_account_process_tick.
  rewrite (run_bind _ _ _ _ _ _ E). simpl in *. destruct lim; simpl; by rewrite ?Ho.
Qed.

Ltac frame_cases :=
  run_simpl; cbn [timerts_map report_map pc_get pc_set];
  repeat (case_match; simplify_eq/=); rewrite ?percpu_set_ne by congruence; try done.

(** A hook on one CPU leaves the timestamps of the others alone. *)
Lemma frame_hook thr e h s c :
  cur_cpu e <> c -> timerts (fst (run (prog thr h) e s)) c = timerts s c.
Proof.
  intros Hc. destruct h as [|su de|]; cbn [prog].
  - destruct (tick_cases thr e s) as ([s' clk out] & <- & _ & ->). case_match; [done|].
    unfold traced_tick. frame_cases.
  - unfold probe_tick_stop. frame_cases.
  - unfold probe_tick_nohz_restart_sched_tick. frame_cases.
Qed.

Lemma tracing_frame_exec thr l s c :
  Forall (fun '(e, _) => cur_cpu e <> c) l -> timerts (fst (exec thr l s)) c = timerts s c.
Proof.
  unfold exec. revert s. induction l as [|[e h] l IH]; intros s Hl; [done|].
  apply Forall_cons in Hl as [Hc Hl]. cbn [map]. rewrite run_all_cons_st, IH by done.
  by apply frame_hook.
Qed.

(** Each CPU keeps its one element. *)
Definition singles (s : state) : Prop := forall c, length (timerts s c) = 1%nat.

Lemma keeps_singles thr h : keeps singles (prog thr h).
Proof.
  assert (forall f, keeps singles (percpu_store timerts_map 0 f)) as Hst.
  { intros f. apply keeps_percpu_store. intros c s Hs c'. simpl. unfold percpu_set.
    case_if; [|apply Hs]. rewrite length_alter. apply Hs. }
  assert (forall f, keeps singles (percpu_store report_map 0 f)) as Hrp
    by (intros f; by apply keeps_percpu_store).
  destruct h as [|su de|]; cbn [prog];
    unfold probe_account_process_tick, traced_tick, probe_tick_stop,
      probe_tick_nohz_restart_sched_tick;
    repeat match goal with
    | |- keeps _ (bpf_ratelimited _) => by apply keeps_ratelimited
    | |- keeps _ (percpu_store timerts_map _ _) => apply Hst
    | |- keeps _ (percpu_store report_map _ _) => apply Hrp
    | _ => keeps_step
    end.
Qed.

Lemma restart_singles thr e s :
  singles s -> exists ts, timerts (fst (run (prog thr Restart) e s)) (cur_cpu e) = [ts] /\
    restarting_tick ts <> 0.
Proof.
  intros Hs. specialize (Hs (cur_cpu e)).
  destruct (timerts s (cur_cpu e)) as [|ts [|? ?]] eqn:E; try done.
  unfold prog, probe_tick_nohz_restart_sched_tick. run_simpl. cbn [timerts_map pc_get pc_set].
  rewrite E. simpl. rewrite !percpu_set_eq, E. simpl. eexists. split; [reflexivity|]. simpl. lia.
Qed.

(** A restarting CPU is silent at its next tick. *)
Lemma tick_silent thr e s ts :
  timerts s (cur_cpu e) = [ts] -> restarting_tick ts <> 0 ->
  snd (run (probe_account_process_tick thr) e s) = [].
Proof.
  intros Hts Hre. destruct (tick_cases thr e s) as ([s' clk out] & Hw & Ho & ->). simpl in Hw, Ho.
  case_match; [done|].
  unfold traced_tick. run_simpl. cbn [timerts_map report_map pc_get pc_set]. rewrite Hw, Hts.
  simpl. rewrite (proj2 (Z.eqb_neq _ _) Hre). repeat (case_match; simplify_eq/=); done.
Qed.

Lemma tick_burst_Z : Z.of_nat tick_burst = COMPAT_CPU_NUM * TICK * 1000.
Proof. apply Z2Nat.id. unfold COMPAT_CPU_NUM, TICK. lia. Qed.
#[global] Opaque tick_burst.

Lemma repr_init : repr init (fun _ => Idle).
Proof. constructor; simpl; [done | intros c; by eexists; split | intros c; by eexists]. Qed.

End SoftirqTracing.

(** ** Theorems *)

(** C3: softirq_tracing.c refines its specification.  For every sequence of
    ticks, tick stops and tick restarts on any CPUs, the records submitted are
    those of the three-phase automaton per CPU run on the ticks the rate limiter
    grants: a tick reports exactly when its CPU is traced, its previous granted
    tick came at least [softirq_thresh] ns before, and no restart came between. *)
Theorem softirq_tracing_refines thr l :
  Forall (fun '(e, _) => forall n, ktime e n <> 0) l ->
  clock_ok 1 1 (SoftirqTracing.tick_secs l) ->
  snd (SoftirqTracing.exec thr l SoftirqTracing.init) =
    SoftirqTracing.spec_run thr (fun _ => SoftirqTracing.Idle)
      (spec_answers 1 SoftirqTracing.tick_burst (SoftirqTracing.tick_secs l)) l.
Proof.
  intros Hl Hc.
  rewrite (SoftirqTracing.exec_spec thr l _ _ SoftirqTracing.repr_init Hl). f_equal.
  pose proof SoftirqTracing.tick_burst_Z as Hb. unfold COMPAT_CPU_NUM, SoftirqTracing.TICK in Hb.
  apply calls_refine_spec; [lia | lia | lia | reflexivity | | reflexivity | reflexivity | exact Hc].
  rewrite Hb. reflexivity.
Qed.

(** Tick [n] seconds after boot plus [ns], on CPU 2. *)
Definition tick_env (t : Z) : kenv := example_env t 0x500000007 2.

Lemma softirq_tracing_refines_witness :
  length (snd (SoftirqTracing.exec 5000000
    [(tick_env 2000000000, SoftirqTracing.Restart); (tick_env 2030000000, SoftirqTracing.Tick);
     (tick_env 2034000000, SoftirqTracing.Tick); (tick_env 2044000000, SoftirqTracing.Tick);
     (tick_env 2045000000, SoftirqTracing.Stop 1 0); (tick_env 2095000000, SoftirqTracing.Tick)]
    SoftirqTracing.init)) = 1%nat.
Proof.
  rewrite softirq_tracing_refines.
  - cbn [SoftirqTracing.tick_secs]. rewrite spec_answers_small.
    + vm_compute. reflexivity.
    + vm_compute. repeat constructor; discriminate.
    + pose proof SoftirqTracing.tick_burst_Z as Hb.
      unfold COMPAT_CPU_NUM, SoftirqTracing.TICK in Hb. cbn [length]. lia.
  - repeat constructor; discriminate.
  - vm_compute. repeat split; discriminate.
Defined.

(** The first tick after a restart never reports.  Whatever happened before
    and whatever other CPUs do in between, the tick that follows
    [tick_nohz_restart_sched_tick] on a CPU submits nothing, so the idle time
    before the restart is never reported as a stall. *)
Theorem softirq_tracing_restart_silent thr pre mid er et :
  Forall (fun '(e, _) => cur_cpu e <> cur_cpu er) mid -> cur_cpu et = cur_cpu er ->
  snd (run (SoftirqTracing.probe_account_process_tick thr) et
         (fst (SoftirqTracing.exec thr (pre ++ (er, SoftirqTracing.Restart) :: mid)
                 SoftirqTracing.init))) = [].
Proof.
  intros Hmid Het. unfold SoftirqTracing.exec. rewrite map_app, run_all_app. cbn [map].
  destruct (run_all _ SoftirqTracing.init) as [s0 o0] eqn:E0.
  pose proof (run_all_cons_st er (SoftirqTracing.prog thr SoftirqTracing.Restart)
    (map (fun '(e, h) => (e, SoftirqTracing.prog thr h)) mid) s0) as E1.
  destruct (run_all _ s0) as [s1 o1]. cbn [fst] in E1 |- *. subst s1.
  assert (exists ts, SoftirqTracing.timerts (fst (run (SoftirqTracing.prog thr SoftirqTracing.Restart) er s0))
            (cur_cpu er) = [ts] /\ SoftirqTracing.restarting_tick ts <> 0) as (ts & Hts & Hre).
  { apply SoftirqTracing.restart_singles. change s0 with (fst (s0, o0)). rewrite <- E0.
    apply keeps_run_all; [|done]. apply Forall_map, Forall_true. intros [e h].
    apply SoftirqTracing.keeps_singles. }
  eapply (SoftirqTracing.tick_silent thr et _ ts); [|done].
  rewrite Het. rewrite <- Hts. by apply SoftirqTracing.tracing_frame_exec.
Qed.

Lemma softirq_tracing_restart_silent_witness :
  snd (run (SoftirqTracing.probe_account_process_tick 5000000) (tick_env 9000000000)
    (fst (SoftirqTracing.exec 5000000
       ([(tick_env 1000000000, SoftirqTracing.Restart); (tick_env 1001000000, SoftirqTracing.Tick)] ++
        (tick_env 1002000000, SoftirqTracing.Restart) ::
        [(example_env 1003000000 0 1, SoftirqTracing.Tick)]) SoftirqTracing.init))) = [].
Proof.
  apply (softirq_tracing_restart_silent 5000000
    [(tick_env 1000000000, SoftirqTracing.Restart); (tick_env 1001000000, SoftirqTracing.Tick)]
    [(example_env 1003000000 0 1, SoftirqTracing.Tick)] (tick_env 1002000000) (tick_env 9000000000));
    [repeat constructor; discriminate | reflexivity].
Defined.

(** The collector reads the report the program submitted.  In an
    environment the kernel helpers can produce, decoding the bytes of the report
    into softirqPerfEvent gives back every member, whatever the perf buffer
    appends. *)
Theorem softirq_report_roundtrip e t d rest :
  kenv_ok e -> is_u 64 t -> is_u 64 d ->
  wire_decode (wire_encode (SoftirqTracing.fill_report e t d) ++ rest) =
    Some (SoftirqTracing.fill_report e t d).
Proof.
  intros He Ht Hd. apply wire_decode_encode. unfold SoftirqTracing.fill_report.
  pose proof (ok_stack e He 0 (8 * PERF_MAX_STACK_DEPTH)) as Hst.
  destruct (get_stack e 0 _) as [st sz]. cbn [fst] in Hst. simpl.
  pose proof (ok_comm e He) as Hc. pose proof (ok_cpu e He).
  unfold PERF_MAX_STACK_DEPTH, COMPAT_TASK_COMM_LEN in *.
  split_and!; auto with bpf; try lia; apply s64_range.
Qed.

Lemma softirq_report_roundtrip_witness :
  wire_decode (wire_encode (SoftirqTracing.fill_report (tick_env 9000000) 9000000 6000000) ++
               [Byte.x00; Byte.x00; Byte.x00; Byte.x00]) =
    Some (SoftirqTracing.fill_report (tick_env 9000000) 9000000 6000000).
Proof.
  apply (softirq_report_roundtrip (tick_env 9000000) 9000000 6000000);
    [apply example_env_ok; unfold is_u; lia | unfold is_u; lia | unfold is_u; lia].
Defined.
