(* ===== verification/EventLoops.v ===== *)
(** * core/events: what the tracers do with the events they read

    The loops of Start of the tracers whose BPF programs submit records:
    interrupts off (softirq_tracing.go), soft lockups (softlockup.go), hung
    tasks (hungtask.go), LACP (lacp.go) and slow reclaims
    (memory_reclaim_events.go). A loop reads events until the reader fails or
    its context ends, and saves reports.

    The back traces of the kernel log and the files of bonding are what the
    environment answers. *)
From S2P Require Import Prelude Text Layout Bpf PerfReader Symbol Cgroup Pods NetCollect Notify FuncTrace SoftirqTracing.
From stdpp Require Import base gmap list strings.
From Stdlib Require Import ZArith Lia Ascii.
From Stdlib.Strings Require Byte.

Open Scope Z_scope.

(** ** The loop *)

(** [handle] gives the state after an event and what is saved, or [None] where
    the loop returns. *)
Fixpoint event_loop {E S O} (handle : E -> S -> option (S * list O)) (events : list E) (s : S) : S * list O :=
  match events with
  | [] => (s, [])
  | e :: events' =>
      match handle e s with
      | None => (s, [])
      | Some (s, out) => let (s, out') := event_loop handle events' s in (s, out ++ out')
      end
  end.

(** strings.TrimRight(string(comm), NUL) *)
Definition comm_string (bs : list byte) : string := string_of_bytes (trim_zeros bs).

(** ** softirq_tracing.go *)
Module SoftirqLoop.
Import Symbol.Symbol.

Record SoftirqTracingData := mk_data
  { OffTime : Z; Threshold : Z; Comm : string; Pid : Z; CPU : Z; Now : Z; Stack : string }.

Section Loop.
Context (cache : list symbol) (softirqThresh : Z).

(** [None] is the panic of the symbol search. *)
Definition softirqDumpTrace (addrs : list Z) : option string :=
  DropwatchGo.Join <$> DumpKernelBackTrace cache addrs KsymbolStackMaxDepth.

Definition noise (comm : string) : bool := String.prefix "ksoftirqd" comm || String.prefix "swapper" comm.

Definition softirq_handle (data : SoftirqTracing.report_event) (_ : unit) : option (unit * list SoftirqTracingData) :=
  if noise (string_of_bytes (SoftirqTracing.comm data)) then Some (tt, [])
  else
    stack ← if 0 <? SoftirqTracing.stack_size data
            then softirqDumpTrace (words KsymbolStackMaxDepth (SoftirqTracing.stack data)) else Some EmptyString;
    Some (tt, [mk_data (SoftirqTracing.stall_time data) softirqThresh (comm_string (SoftirqTracing.comm data))
                 (SoftirqTracing.pid data) (SoftirqTracing.cpu data) (SoftirqTracing.now data)
                 ("stack:" +:+ String DropwatchGo.newline stack)]).
End Loop.
End SoftirqLoop.

(** ** softlockup.go *)
Module SoftlockupLoop.

Record SoftLockupTracerData := mk_data { CPU : Z; Pid : Z; Comm : string; CPUsStack : string }.

(** The event with the back trace, or the text of its error; the state is
    softlockupCounter. *)
Definition softlockup_handle (ev : Softlockup.softlockup_info * string) (counter : Z) : option (Z * list SoftLockupTracerData) :=
  let (data, bt) := ev in
  Some (s64 (counter + 1),
        [mk_data (Softlockup.cpu data) (Softlockup.pid data) (comm_string (Softlockup.comm data)) bt]).
End SoftlockupLoop.

(** ** hungtask.go *)
Module HungtaskLoop.

Record HungTaskTracerData := mk_data { Pid : Z; Comm : string; CPUsStack : string; BlockedProcessesStack : string }.

(** The event, the clock readings, and the two back traces or the texts of their
    errors. *)
Record event := mk_event { data : Hungtask.hungtask_info; at_ : Hungtask.instants; cpusBT : string; blockedBT : string }.

Definition hungtask_handle (ev : event) (c : Hungtask.tracing) : option (Hungtask.tracing * list (Hungtask.instants * Z * HungTaskTracerData)) :=
  let (c, wait) := Hungtask.on_event (at_ ev) c in
  Some (c, match wait with
           | Some w => [((at_ ev, w), mk_data (Hungtask.pid (data ev)) (comm_string (Hungtask.comm (data ev))) (cpusBT ev) (blockedBT ev))]
           | None => []
           end).
End HungtaskLoop.

(** ** lacp.go *)
Module LacpLoop.

(** The files of /proc/net/bonding at an event; the state is the counter. *)
Definition lacp_handle (bondInfo : option string) (count : Z) : option (Z * list string) :=
  Some (u64 (count + 1), match bondInfo with Some content => [content] | None => [] end).
End LacpLoop.

(** ** memory_reclaim_events.go *)
Module ReclaimLoop.
Import FuncTrace.ReclaimEvents.

Definition reclaim_members : list member_decl :=
  ["comm" :- Array 16 c_char; "delta_time" :- c_u64; "css" :- c_u64; "pid" :- c_u64]%ctype.

(** type memoryReclaimPerfEvent struct *)
Definition memoryReclaimPerfEvent (vs : list (list byte)) : option reclaim_entry :=
  match vs with
  | [c; d; s; p] => Some (mk_re c (le_Z d) (le_Z s) (le_Z p))
  | _ => None
  end.

#[global] Program Instance reclaim_wire : Wire reclaim_entry := {
  wire_members := reclaim_members;
  wire_sizes := [16; 8; 8; 8]%nat;
  wire_fields r := [comm r; le_bytes 8 (delta_time r); le_bytes 8 (css r); le_bytes 8 (pid r)];
  wire_valid r := Z.of_nat (length (comm r)) = 16 /\ is_u 64 (delta_time r) /\ is_u 64 (css r) /\ is_u 64 (pid r);
  wire_parse := memoryReclaimPerfEvent
}.
Next Obligation. wire_sized. Qed.
Next Obligation. wire_parse. Qed.
Next Obligation. reflexivity. Qed.
Next Obligation. reflexivity. Qed.

Record MemoryReclaimTracingData := mk_data { Pid : Z; Comm : string; Deltatime : Z }.

(** strings.Trim(string(comm), NUL), which cuts at both ends. *)
Definition trim_comm (bs : list byte) : string :=
  Text.Trim (string_of_bytes bs) [Ascii.zero].

Section Loop.
Context (range : forall A, gmap string A -> list (string * A)).

(** The event, and the node and the pods when the container is looked up; the
    state is that of the pod service. Saved is the container's ID with the
    data. *)
Definition reclaim_handle (ev : reclaim_entry * Pods.world * option (list Pods.Pod)) (m : Pods.manager)
    : option (Pods.manager * list (string * MemoryReclaimTracingData)) :=
  let '(data, w, pods) := ev in
  match Pods.GetContainerByCSS range w pods (css data) "cpu" m with
  | (Pods.Ok (Some container), m) =>
      Some (m, [(Pods.ID container, mk_data (pid data) (trim_comm (comm data)) (delta_time data))])
  | (Pods.Ok None, m) => Some (m, [])
  | _ => None
  end.
End Loop.
End ReclaimLoop.

(** ** Lemmas *)

(** A loop without state that never returns saves the reports event by event. *)
Lemma event_loop_stateless {E O} (handle : E -> unit -> option (unit * list O)) (report : E -> list O) events :
  (forall e, handle e tt = Some (tt, report e)) -> event_loop handle events tt = (tt, concat (report <$> events)).
Proof.
  intros H. induction events as [|e events IH]; [done|]. cbn [event_loop]. by rewrite H, IH.
Qed.

Lemma back_trace_some cache addrs :
  Z.of_nat (length cache) < Symbol.ksymbolMax -> exists l, Symbol.back_trace cache addrs = Some l.
Proof.
  intros Hn. induction addrs as [|a addrs [l IH]]; [by eexists|]. cbn [Symbol.back_trace].
  destruct (Symbol.ksymbolSearch_total cache a Hn) as [s ->]. cbn [mbind option_bind]. rewrite IH. by eexists.
Qed.

(** ** Theorems *)

Module SoftirqLoopFacts.
Import Symbol.Symbol SoftirqLoop.

(** What is saved of an event that is no noise. *)
Definition report (cache : list symbol) (thresh : Z) (d : SoftirqTracing.report_event) : SoftirqTracingData :=
  let stack := if 0 <? SoftirqTracing.stack_size d
               then default [] (DumpKernelBackTrace cache (words KsymbolStackMaxDepth (SoftirqTracing.stack d)) KsymbolStackMaxDepth)
               else [] in
  mk_data (SoftirqTracing.stall_time d) thresh (comm_string (SoftirqTracing.comm d)) (SoftirqTracing.pid d)
    (SoftirqTracing.cpu d) (SoftirqTracing.now d) ("stack:" +:+ String DropwatchGo.newline (DropwatchGo.Join stack)).

(** The interrupt-off tracer saves one report per event of a task that is not
    ksoftirqd or swapper, with the back trace of its stack, and does not panic
    on a cache as it is loaded. *)
Theorem softirq_saves cache thresh events :
  Z.of_nat (length cache) < ksymbolMax ->
  event_loop (softirq_handle cache thresh) events tt =
  (tt, report cache thresh <$> filter (fun d => noise (string_of_bytes (SoftirqTracing.comm d)) = false) events).
Proof.
  intros Hn. rewrite (event_loop_stateless _ (fun d =>
    if noise (string_of_bytes (SoftirqTracing.comm d)) then [] else [report cache thresh d])).
  - f_equal. induction events as [|d events IH]; [done|]. rewrite fmap_cons. cbn [concat]. rewrite IH.
    rewrite filter_cons. destruct (noise _); by case_decide.
  - intros d. unfold softirq_handle. destruct (noise _); [done|]. unfold report, softirqDumpTrace, DumpKernelBackTrace.
    destruct (0 <? _); [|done].
    destruct (back_trace_some cache (stack_addrs (words KsymbolStackMaxDepth (SoftirqTracing.stack d)) KsymbolStackMaxDepth) Hn) as [l ->].
    done.
Qed.

End SoftirqLoopFacts.

(** The soft lockup tracer counts and saves every event. *)
Theorem softlockup_saves evs : forall n, 0 <= n -> n + Z.of_nat (length evs) < 2 ^ 63 ->
  event_loop SoftlockupLoop.softlockup_handle evs n =
  (n + Z.of_nat (length evs),
   (fun ev => SoftlockupLoop.mk_data (Softlockup.cpu ev.1) (Softlockup.pid ev.1) (comm_string (Softlockup.comm ev.1)) ev.2) <$> evs).
Proof.
  induction evs as [|[d bt] evs IH]; intros n H0 H1; cbn [event_loop length] in *; [f_equal; lia|].
  cbn [SoftlockupLoop.softlockup_handle]. rewrite s64_small, IH by lia. cbn. f_equal. lia.
Qed.

(** The hung task tracer saves the events its backoff allows: the events, the
    waits and the state are those of [Hungtask.saves]. *)
Theorem hungtask_saves evs : forall c,
  let (c', out) := event_loop HungtaskLoop.hungtask_handle evs c in
  (c', out.*1) = Hungtask.saves (HungtaskLoop.at_ <$> evs) c.
Proof.
  induction evs as [|ev evs IH]; intros c; [done|]. rewrite fmap_cons. cbn [event_loop Hungtask.saves].
  unfold HungtaskLoop.hungtask_handle at 1. destruct (Hungtask.on_event (HungtaskLoop.at_ ev) c) as [c1 [w|]];
    specialize (IH c1); destruct (event_loop _ evs c1) as [c2 out]; rewrite <- IH; done.
Qed.

(** The LACP tracer counts every event, modulo 2^64, whether or not the files of
    bonding can be read. *)
Theorem lacp_saves evs : forall n, is_u 64 n ->
  event_loop LacpLoop.lacp_handle evs n = (u64 (n + Z.of_nat (length evs)), omap id evs).
Proof.
  induction evs as [|o evs IH]; intros n Hn; cbn [event_loop length].
  - rewrite Z.add_0_r, u64_small by done. done.
  - cbn [LacpLoop.lacp_handle]. rewrite IH by apply u64_range. rewrite u64_add_l. destruct o; cbn; do 2 f_equal; lia.
Qed.

Module ReclaimLoopFacts.
Import FuncTrace.ReclaimEvents ReclaimLoop.

(** The record of the BPF program is that of the collector's structure. *)
Lemma encode_wire r : encode r = wire_encode r.
Proof.
  unfold encode, wire_encode. cbn [wire_members wire_fields reclaim_wire]. unfold encode_struct. cbn.
  by rewrite ?app_nil_r.
Qed.

(** An event with the node and the pods when its container is looked up. *)
Abbreviation lookup_event := (reclaim_entry * Pods.world * option (list Pods.Pod))%type.

Section Tables.
Context (range : forall A, gmap string A -> list (string * A)).
Hypothesis range_perm : forall A (m : gmap string A), Permutation (range A m) (map_to_list m).

(** The tables of containers the pod service answers at the events, up to the
    first that fails. *)
Fixpoint tables (evs : list lookup_event) (m : Pods.manager) : list (gmap string Pods.Container) :=
  match evs with
  | [] => []
  | (_, w, pods) :: evs' =>
      match Pods.GetAllContainers range w pods m with
      | (Pods.Ok all, m') => all :: tables evs' m'
      | _ => []
      end
  end.

(** The containers that recorded the address for the cpu subsystem. *)
Definition owners (a : Z) (all : gmap string Pods.Container) : list Pods.Container :=
  filter (fun c => Pods.CSS c !! "cpu"%string = Some a) (map_to_list all).*2.

(** No two containers of a table recorded the same address. *)
Definition css_unique (all : gmap string Pods.Container) : Prop :=
  forall k1 k2 c1 c2 a, all !! k1 = Some c1 -> all !! k2 = Some c2 ->
    Pods.CSS c1 !! "cpu"%string = Some a -> Pods.CSS c2 !! "cpu"%string = Some a -> k1 = k2.

(** The reports of an event. *)
Definition reports (all : gmap string Pods.Container) (ev : lookup_event) : list (string * MemoryReclaimTracingData) :=
  let r := ev.1.1 in
  (fun c => (Pods.ID c, mk_data (pid r) (trim_comm (comm r)) (delta_time r))) <$> owners (css r) all.

Lemma owners_elem a all c : c ∈ owners a all <-> exists k, all !! k = Some c /\ Pods.CSS c !! "cpu"%string = Some a.
Proof.
  unfold owners. rewrite list_elem_of_filter, list_elem_of_fmap. split.
  - intros [Ha ([k c'] & -> & Hk%elem_of_map_to_list)]. by exists k.
  - intros (k & Hk & Ha). split; [done|]. exists (k, c). split; [done | by apply elem_of_map_to_list].
Qed.

Lemma owners_found a all : css_unique all ->
  owners a all = option_list (Pods.find_container range (fun c => bool_decide (Pods.CSS c !! "cpu"%string = Some a)) all).
Proof.
  intros Hu. assert (Permutation (owners a all) (filter (fun c => bool_decide (Pods.CSS c !! "cpu"%string = Some a) = true) (range _ all).*2)) as Hp.
  { unfold owners. rewrite range_perm. erewrite list_filter_iff; [reflexivity|]. intros c. by rewrite bool_decide_eq_true. }
  assert (NoDup (map_to_list all).*1) as Hnd by apply NoDup_fst_map_to_list.
  assert ((length (owners a all) <= 1)%nat) as Hlen.
  { assert (forall k c, (k, c) ∈ map_to_list all -> all !! k = Some c) as Hl by (by intros k c ?%elem_of_map_to_list).
    unfold owners. revert Hnd Hl. induction (map_to_list all) as [|[k c] l IH]; intros Hnd Hl; [cbn; lia|].
    rewrite !fmap_cons in *. cbn [fst snd] in *. apply NoDup_cons in Hnd as [Hni Hnd]. rewrite filter_cons. case_decide as Hc.
    - destruct (filter _ l.*2) as [|c2 l2] eqn:E; [cbn; lia|]. exfalso. apply Hni.
      assert (c2 ∈ filter (fun c => Pods.CSS c !! "cpu"%string = Some a) l.*2) as Hin by (rewrite E; by left).
      apply list_elem_of_filter in Hin as [Hc2 ([k2 c2'] & -> & Hk2)%list_elem_of_fmap].
      rewrite (Hu k k2 c c2' a); [|apply Hl; by left | apply Hl; by right | done | done].
      apply list_elem_of_fmap. by exists (k2, c2').
    - apply IH; [done|]. intros k' c' Hin. apply Hl. by right. }
  unfold Pods.find_container. destruct (filter _ (range _ all).*2) as [|c l].
  { by apply Permutation_nil_r in Hp. }
  assert (l = []) as ->. { apply Permutation_length in Hp. cbn in Hp. destruct l; [done | cbn in *; lia]. }
  by apply Permutation_singleton_r in Hp.
Qed.

(** C28: slow reclaims reach their containers: every record of the BPF program
    decodes; and from any well-formed state of the pod service, whether the
    lookups sync the table or find it fresh, the loop saves, event by event and
    in order, one report for the container that recorded the event's CSS in the
    table the service answers at that event, and none if there is none, with
    the container's ID and the task, command and duration of the record; the
    first lookup that fails ends the loop. The tables are those of a kernel
    that gives two cgroups two addresses. *)
Theorem reclaim_saves (evs : list lookup_event) (m : Pods.manager) :
  Forall (fun ev => wire_valid ev.1.1) evs -> Pods.wf (Pods.containers m) -> Forall css_unique (tables evs m) ->
  Forall (fun ev => wire_decode (encode ev.1.1) = Some ev.1.1) evs /\
  (event_loop (reclaim_handle range) evs m).2 = concat (zip_with reports (tables evs m) evs).
Proof.
  intros Hf Hwf Hu. split.
  - eapply Forall_impl; [exact Hf|]. intros [[r w] pods] Hv. cbn [fst] in *. rewrite encode_wire.
    rewrite <- (app_nil_r (wire_encode r)). by apply wire_decode_encode.
  - clear Hf. revert m Hwf Hu. induction evs as [|[[r w] pods] evs IH]; intros m Hwf Hu; [done|].
    cbn [event_loop tables] in *. unfold reclaim_handle at 1. unfold Pods.GetContainerByCSS.
    destruct (Pods.GetAllContainers range w pods m) as [[all| |] m'] eqn:E; [|done..].
    apply (Pods.getAll_table range range_perm) in E as [Eall Hwf']; [|done]. cbn [mbind Pods.outcome_bind].
    apply Forall_cons in Hu as [Hua Hu]. rewrite Eall in Hwf'. specialize (IH m' Hwf' Hu).
    cbn [zip_with concat]. rewrite <- IH. unfold reports. cbn [fst]. rewrite owners_found by done.
    destruct (Pods.find_container _ _ _); destruct (event_loop _ evs m'); done.
Qed.

End Tables.

(** Slow reclaims of the example's container, and of another cgroup. *)
Definition mgr1 : Pods.manager := Pods.mk_manager {[ "c1"%string :=
  Pods.mk_container "c1" "web" "web-0" Pods.ContainerTypeNormal 2 "10.0.0.7" 4026531840 77 "/kubepods/c1"
    {[ "cpu"%string := 4096 ]} 100 0 [] "prod" ]} (Some Pods.Containerd) 10000000000.
Definition entry1 (a : Z) : reclaim_entry := mk_re (replicate 16 Byte.x61) 5000000 a 42.

Lemma mgr1_wf : Pods.wf (Pods.containers mgr1).
Proof.
  apply map_Forall_singleton. vm_compute. split_and!; discriminate || reflexivity.
Qed.

(** A reclaim in the container, one elsewhere, and one at a lookup that syncs a
    node without pods, after which the container is gone. *)
Definition late : Pods.world :=
  Pods.mk_world (fun _ => true) (fun _ _ => None) (fun _ => None) None [] [] "cgroupfs" 20000000000.
Definition events1 : list lookup_event :=
  [(entry1 4096, Pods.node0, None); (entry1 8192, Pods.node0, None); (entry1 4096, late, Some [])].

Lemma tables1 : tables Pods.range0 events1 mgr1 = [Pods.containers mgr1; Pods.containers mgr1; ∅].
Proof. vm_compute. reflexivity. Qed.

Lemma reclaim_saves_witness :
  (event_loop (reclaim_handle Pods.range0) events1 mgr1).2 = [("c1"%string, mk_data 42 "aaaaaaaaaaaaaaaa" 5000000)].
Proof.
  rewrite (proj2 (reclaim_saves Pods.range0 ltac:(reflexivity) events1 mgr1
    ltac:(repeat constructor; vm_compute; (discriminate || reflexivity)) mgr1_wf
    ltac:(rewrite tables1; repeat constructor; intros k1 k2 c1 c2 a H1 H2; cbn [Pods.containers mgr1] in *;
          first [by rewrite lookup_empty in H1
                | apply lookup_singleton_Some in H1 as [<- _]; by apply lookup_singleton_Some in H2 as [<- _]]))).
  rewrite tables1. vm_compute. reflexivity.
Defined.

End ReclaimLoopFacts.
